(** * k-adk: provider adapters, cached session store, shard routing, memory search

  A shallow embedding of the parts of the k-adk Go library that the
  specification's testable properties talk about, and the proofs that settle
  them.  Every definition is named after, and follows, the Go function it
  embeds.  Go's [int] is the 64-bit two's-complement integer of the usual
  targets; strings are byte strings; maps that Go mutates in place are
  threaded through explicitly.

  Part I holds the definitions, Part II the theorems. *)

From Stdlib Require Import ZArith Lia Bool List.
From stdpp Require Import gmap strings list fin_maps.
Import ListNotations.

Local Open Scope string_scope.
Local Open Scope Z_scope.

Set Warnings "-register-all".

(* ===================================================================== *)
(** * Part I — definitions                                                *)
(* ===================================================================== *)

(** ** Go primitives shared by all packages *)
Module Go.

(** Two's-complement wrap-around of a [w]-bit signed integer. *)
Definition wrap_signed (w : Z) (z : Z) : Z :=
  (z + 2 ^ (w - 1)) mod 2 ^ w - 2 ^ (w - 1).

(** Go's [int] on 64-bit targets. *)
Definition int_wrap (z : Z) : Z := wrap_signed 64 z.

Definition int_min : Z := - 2 ^ 63.
Definition int_max : Z := 2 ^ 63 - 1.

(** [uint32] arithmetic. *)
Definition u32 (z : Z) : Z := z mod 2 ^ 32.

(** [[]byte(s)]: the bytes of a string, as numbers below 256. *)
Fixpoint bytes_of_string (s : string) : list Z :=
  match s with
  | EmptyString => []
  | String a rest => Z.of_N (Ascii.N_of_ascii a) :: bytes_of_string rest
  end.

(** [len(s)] of a string: its number of bytes. *)
Definition len (s : string) : Z := Z.of_nat (String.length s).

(** Go's [error] values, as far as the code below tells them apart. *)
Inductive error : Type :=
| ErrNew (msg : string)                (* errors.New(msg) *)
| ErrWrap (ctx : string) (cause : error) (* fmt.Errorf("ctx: %w", cause) *).

(** A Go result pair [(T, error)]. *)
Inductive result (T : Type) : Type :=
| Ok (v : T)
| Err (e : error).
Arguments Ok {T} v.
Arguments Err {T} e.

Definition is_ok {T} (r : result T) : bool :=
  match r with Ok _ => true | Err _ => false end.

(** The line feed, which Go writes ["\n"]. *)
Definition newline : string := String (Ascii.ascii_of_nat 10) EmptyString.

(** [strings.Join(elems, sep)] *)
Fixpoint strings_Join (elems : list string) (sep : string) : string :=
  match elems with
  | [] => ""
  | [s] => s
  | s :: rest => s ++ sep ++ strings_Join rest sep
  end.


(** [a] counted in units of [q], to the nearest unit, a tie going to the
    even count: the rounding of a [float64] operation and of [printf]. *)
Definition round_half_even (a q : Z) : Z :=
  let m := a / q in
  let r := a mod q in
  if (q <? 2 * r) || ((2 * r =? q) && Z.odd m) then m + 1 else m.

(** [float64(a)] for an integer [a >= 0], as the integer it stands for: [a]
    kept to 53 significant bits. *)
Definition float64_of_Z (a : Z) : Z :=
  if a <? 2 ^ 53 then a
  else let q := 2 ^ (Z.log2 a - 52) in round_half_even a q * q.

End Go.

(** ** Shard routing of the durable persister (package postgres, client) *)
Module Shard.
Import Go.

Definition DefaultShardCount : Z := 8.

(** [isPowerOfTwo]: [n > 0 && (n&(n-1)) == 0] *)
Definition isPowerOfTwo (n : Z) : bool :=
  (0 <? n) && (Z.land n (int_wrap (n - 1)) =? 0).

(** [nextPowerOfTwo], statement by statement. *)
Definition nextPowerOfTwo (n : Z) : Z :=
  if n <=? 1 then 1
  else
    let n := int_wrap (n - 1) in
    let n := Z.lor n (Z.shiftr n 1) in
    let n := Z.lor n (Z.shiftr n 2) in
    let n := Z.lor n (Z.shiftr n 4) in
    let n := Z.lor n (Z.shiftr n 8) in
    let n := Z.lor n (Z.shiftr n 16) in
    int_wrap (n + 1).

(** The shard-count normalisation that [NewClient] performs on
    [cfg.ShardCount] before storing it in the client. *)
Definition NewClient_shardCount (cfgShardCount : Z) : Z :=
  let shardCount :=
    if cfgShardCount <=? 0 then DefaultShardCount else cfgShardCount in
  if negb (isPowerOfTwo shardCount) then nextPowerOfTwo shardCount
  else shardCount.

(** [hash/fnv]: 32-bit FNV-1a. *)
Definition fnv_offset32 : Z := 2166136261.
Definition fnv_prime32 : Z := 16777619.

Definition fnv1a32_step (h : Z) (b : Z) : Z :=
  u32 (Z.lxor h b * fnv_prime32).

Definition fnv1a32 (data : list Z) : Z :=
  fold_left fnv1a32_step data fnv_offset32.

(** [GetShardIndex]: [int(h.Sum32()) & (c.shardCount - 1)] *)
Definition GetShardIndex (shardCount : Z) (userID : string) : Z :=
  Z.land (fnv1a32 (bytes_of_string userID)) (int_wrap (shardCount - 1)).

(** Decimal rendering of a non-negative index, for [%d]. *)
Fixpoint decimal_digits (fuel : nat) (n : Z) (acc : string) : string :=
  match fuel with
  | O => acc
  | S fuel' =>
      let d := Ascii.ascii_of_N (Z.to_N (48 + n mod 10)) in
      if n <? 10 then String d acc
      else decimal_digits fuel' (n / 10) (String d acc)
  end.

Definition format_int (n : Z) : string :=
  if n <? 0 then "-" ++ decimal_digits 20 (- n) ""
  else decimal_digits 20 n "".

(** [GetEventsTableName] *)
Definition GetEventsTableName (shardCount : Z) (userID : string) : string :=
  "session_events_" ++ format_int (GetShardIndex shardCount userID).

End Shard.

(** ** [crypto/sha256] and [encoding/hex], which the adapters call *)
Module Crypto.
Import Go.

Definition add32 (a b : Z) : Z := u32 (a + b).

(** Rotate a 32-bit word right. *)
Definition rotr (n : Z) (x : Z) : Z :=
  Z.lor (Z.shiftr x n) (u32 (Z.shiftl x (32 - n))).

Definition Ch (x y z : Z) : Z :=
  Z.lxor (Z.land x y) (Z.land (u32 (Z.lnot x)) z).
Definition Maj (x y z : Z) : Z :=
  Z.lxor (Z.lxor (Z.land x y) (Z.land x z)) (Z.land y z).
Definition Sigma0 (x : Z) : Z := Z.lxor (Z.lxor (rotr 2 x) (rotr 13 x)) (rotr 22 x).
Definition Sigma1 (x : Z) : Z := Z.lxor (Z.lxor (rotr 6 x) (rotr 11 x)) (rotr 25 x).
Definition sigma0 (x : Z) : Z := Z.lxor (Z.lxor (rotr 7 x) (rotr 18 x)) (Z.shiftr x 3).
Definition sigma1 (x : Z) : Z := Z.lxor (Z.lxor (rotr 17 x) (rotr 19 x)) (Z.shiftr x 10).

(** The constants are derived as FIPS 180-4 defines them: from the first
    64 primes, the first 32 bits of the fractional part of their cube roots
    (round constants) and, for the first eight, of their square roots
    (initial chaining words). *)
Definition is_prime (n : nat) : bool :=
  forallb (fun d => negb (Nat.eqb (Nat.modulo n d) 0)) (seq 2 (n - 2)).

Definition first_primes : list Z :=
  map Z.of_nat (List.filter is_prime (seq 2 310)).

(** The integer cube root, bit by bit from the top. *)
Definition icbrt (n : Z) : Z :=
  fold_left (fun r b => let c := r + 2 ^ Z.of_nat b in if c * c * c <=? n then c else r)
            (rev (seq 0 40)) 0.

Definition K256 : list Z :=
  Eval vm_compute in map (fun p => icbrt (p * 2 ^ 96) mod 2 ^ 32) first_primes.

(** The eight chaining words. *)
Definition digest_state : Type := (Z * Z * Z * Z * Z * Z * Z * Z)%type.

Definition init_words : list Z :=
  Eval vm_compute in map (fun p => Z.sqrt (p * 2 ^ 64) mod 2 ^ 32) (firstn 8 first_primes).

Definition init256 : digest_state :=
  match init_words with
  | [a; b; c; d; e; f; g; h] => (a, b, c, d, e, f, g, h)
  | _ => (0, 0, 0, 0, 0, 0, 0, 0)
  end.

(** Padding: a 1 bit, zeros up to 56 mod 64, the bit length on 8 bytes. *)
Definition be_bytes (count : nat) (v : Z) : list Z :=
  map (fun i => Z.shiftr v (8 * Z.of_nat i) mod 256) (rev (seq 0 count)).

Definition pad (data : list Z) : list Z :=
  let l := Z.of_nat (length data) in
  let zeros := Z.to_nat ((55 - l) mod 64) in
  data ++ [0x80] ++ repeat 0 zeros ++ be_bytes 8 (8 * l).

Fixpoint words_of_bytes (bs : list Z) : list Z :=
  match bs with
  | b0 :: b1 :: b2 :: b3 :: rest =>
      (b0 * 2 ^ 24 + b1 * 2 ^ 16 + b2 * 2 ^ 8 + b3) :: words_of_bytes rest
  | _ => []
  end.

(** The message schedule, newest word first: [recent] holds
    [w(i-1), w(i-2), ...]. *)
Fixpoint extend_schedule (rounds : nat) (recent : list Z) : list Z :=
  match rounds with
  | O => recent
  | S rounds' =>
      let w2 := nth 1 recent 0 in
      let w7 := nth 6 recent 0 in
      let w15 := nth 14 recent 0 in
      let w16 := nth 15 recent 0 in
      let w := add32 (add32 (add32 (sigma1 w2) w7) (sigma0 w15)) w16 in
      extend_schedule rounds' (w :: recent)
  end.

Definition schedule (block : list Z) : list Z :=
  rev (extend_schedule 48 (rev block)).

Definition round (st : digest_state) (kw : Z * Z) : digest_state :=
  let '(a, b, c, d, e, f, g, h) := st in
  let '(k, w) := kw in
  let t1 := add32 (add32 (add32 (add32 h (Sigma1 e)) (Ch e f g)) k) w in
  let t2 := add32 (Sigma0 a) (Maj a b c) in
  (add32 t1 t2, a, b, c, add32 d t1, e, f, g).

Definition compress (st : digest_state) (block : list Z) : digest_state :=
  let '(a, b, c, d, e, f, g, h) := st in
  let '(a', b', c', d', e', f', g', h') :=
    fold_left round (combine K256 (schedule block)) st in
  (add32 a a', add32 b b', add32 c c', add32 d d',
   add32 e e', add32 f f', add32 g g', add32 h h').

Fixpoint blocks (count : nat) (ws : list Z) : list (list Z) :=
  match count with
  | O => []
  | S count' => firstn 16 ws :: blocks count' (skipn 16 ws)
  end.

Definition digest_bytes (st : digest_state) : list Z :=
  let '(a, b, c, d, e, f, g, h) := st in
  be_bytes 4 a ++ be_bytes 4 b ++ be_bytes 4 c ++ be_bytes 4 d ++
  be_bytes 4 e ++ be_bytes 4 f ++ be_bytes 4 g ++ be_bytes 4 h.

(** [sha256.Sum256]: the 32-byte digest. *)
Definition Sum256 (data : list Z) : list Z :=
  let ws := words_of_bytes (pad data) in
  digest_bytes (fold_left compress (blocks (Nat.div (length ws) 16) ws) init256).

Definition hex_digit (d : Z) : Ascii.ascii :=
  Ascii.ascii_of_N (Z.to_N (if d <? 10 then 48 + d else 87 + d)).

(** [hex.EncodeToString]: two lower-case digits per byte. *)
Fixpoint hex_EncodeToString (bs : list Z) : string :=
  match bs with
  | [] => ""
  | b :: rest =>
      String (hex_digit (b / 16)) (String (hex_digit (b mod 16)) (hex_EncodeToString rest))
  end.

End Crypto.

(** ** Go values of type [any] and [encoding/json] documents *)
Module JSON.
Import Go.

(** A Go value held in an [any]: what [encoding/json] produces on decoding
    into [map[string]any], the [[]string] slices that [genai.Schema] carries,
    and values that no encoder accepts (channels, functions).  A
    [map[string]any] is kept as its list of entries; a key is looked up at its
    first entry. *)
Inductive any : Type :=
| ANil
| ABool (b : bool)
| ANumber (n : Z)
| AString (s : string)
| AStrings (l : list string)
| ASlice (l : list any)
| AMap (entries : list (string * any))
| AUnsupported.

(** [m[key]] with the comma-ok form. *)
Fixpoint map_get (key : string) (entries : list (string * any)) : option any :=
  match entries with
  | [] => None
  | (k, v) :: rest => if String.eqb k key then Some v else map_get key rest
  end.

Definition map_has (key : string) (entries : list (string * any)) : bool :=
  match map_get key entries with Some _ => true | None => false end.

(** [m[key] = v] *)
Fixpoint map_set (key : string) (v : any) (entries : list (string * any))
  : list (string * any) :=
  match entries with
  | [] => [(key, v)]
  | (k, old) :: rest =>
      if String.eqb k key then (k, v) :: rest else (k, old) :: map_set key v rest
  end.

(** A Go variable of type [map[string]any]: [None] is the nil map,
    [Some []] is [make(map[string]any)]. *)
Definition map_string_any : Type := option (list (string * any)).

(** Whether [json.Marshal] accepts the value. *)
Fixpoint marshalable (v : any) : bool :=
  match v with
  | AUnsupported => false
  | ASlice l => forallb marshalable l
  | AMap entries => forallb (fun kv => marshalable (snd kv)) entries
  | _ => true
  end.

(** Induction on [any] that reaches the elements of slices and the values of
    maps. *)
Section AnyInduction.
Variable P : any -> Prop.
Hypothesis HNil : P ANil.
Hypothesis HBool : forall b, P (ABool b).
Hypothesis HNumber : forall n, P (ANumber n).
Hypothesis HString : forall s, P (AString s).
Hypothesis HStrings : forall l, P (AStrings l).
Hypothesis HSlice : forall l, Forall P l -> P (ASlice l).
Hypothesis HMap : forall entries, Forall (fun kv => P (snd kv)) entries -> P (AMap entries).
Hypothesis HUnsupported : P AUnsupported.

Fixpoint any_nested_ind (v : any) : P v :=
  match v with
  | ANil => HNil
  | ABool b => HBool b
  | ANumber n => HNumber n
  | AString s => HString s
  | AStrings l => HStrings l
  | ASlice l =>
      HSlice l ((fix elements (l : list any) : Forall P l :=
                   match l with
                   | [] => @List.Forall_nil _ P
                   | x :: rest => @List.Forall_cons _ P x rest (any_nested_ind x) (elements rest)
                   end) l)
  | AMap entries =>
      HMap entries
        ((fix values (es : list (string * any)) : Forall (fun kv => P (snd kv)) es :=
            match es with
            | [] => @List.Forall_nil _ _
            | kv :: rest =>
                @List.Forall_cons _ (fun kv => P (snd kv)) kv rest
                  (any_nested_ind (snd kv)) (values rest)
            end) entries)
  | AUnsupported => HUnsupported
  end.

End AnyInduction.

(** A decoder for running the adapters on concrete inputs: of all JSON
    texts it knows the empty object and [null]; everything else is an error
    to it. *)
Definition minimal_Unmarshal (data : string) : result map_string_any :=
  if String.eqb data "{}" then Ok (Some [])
  else if String.eqb data "null" then Ok None
  else Err (ErrNew "invalid character").

(** A [map[string]any] variable held in an [any], as [json.Marshal] is given
    it: the nil map is written [null]. *)
Definition any_of_map (m : map_string_any) : any :=
  match m with
  | Some entries => AMap entries
  | None => ANil
  end.

(** An encoder for running the adapters on concrete inputs: of all values
    it writes the nil map and the empty map; everything else is an error to
    it. *)
Definition minimal_Marshal (v : any) : result string :=
  match v with
  | ANil => Ok "null"
  | AMap [] => Ok "{}"
  | _ => Err (ErrNew "json: unsupported type")
  end.

End JSON.

(** ** The provider-neutral model ([genai] and [adk/model]) *)
Module ADK.
Import Go JSON.

Record FunctionCall : Type := mkFunctionCall {
  fc_ID : string;
  fc_Name : string;
  fc_Args : map_string_any
}.

(** [genai.Part], with the fields a provider response fills. *)
Record Part : Type := mkPart {
  part_Text : string;
  part_FunctionCall : option FunctionCall
}.

Definition TextPart (text : string) : Part :=
  {| part_Text := text; part_FunctionCall := None |}.

Definition FunctionCallPart (fc : FunctionCall) : Part :=
  {| part_Text := ""; part_FunctionCall := Some fc |}.

Record Content : Type := mkContent {
  content_Role : string;
  content_Parts : list Part
}.

Definition RoleModel : string := "model".

Inductive FinishReason : Type :=
| FinishReasonUnspecified
| FinishReasonStop
| FinishReasonMaxTokens
| FinishReasonSafety.

Record UsageMetadata : Type := mkUsage {
  PromptTokenCount : Z;
  CandidatesTokenCount : Z;
  TotalTokenCount : Z
}.

Record LLMResponse : Type := mkLLMResponse {
  resp_Content : option Content;
  resp_UsageMetadata : option UsageMetadata;
  resp_FinishReason : FinishReason;
  resp_Partial : bool;
  resp_TurnComplete : bool
}.

(** One item of the [iter.Seq2[*model.LLMResponse, error]]: the pair handed
    to [yield]. *)
Definition yielded : Type := (option LLMResponse * option error)%type.

(** The consumer of the sequence: [yield] returns [false] to stop.  It is
    given everything delivered so far, newest item last, so that it may
    decide by what it has seen. *)
Definition consumer : Type := list yielded -> bool.

(** [cast.ToInt32] on an [int64]. *)
Definition cast_ToInt32 (v : Z) : Z := wrap_signed 32 v.

(** The partial response both adapters build for a text fragment. *)
Definition partialResponse (text : string) : LLMResponse :=
  {| resp_Content := Some {| content_Role := RoleModel; content_Parts := [TextPart text] |};
     resp_UsageMetadata := None;
     resp_FinishReason := FinishReasonUnspecified;
     resp_Partial := true;
     resp_TurnComplete := false |}.

(** *** The streaming contract *)

Definition partial_item (text : string) : yielded := (Some (partialResponse text), None).

Definition turn_complete (item : yielded) : bool :=
  match item with
  | (Some resp, _) => resp_TurnComplete resp
  | (None, _) => false
  end.

Definition is_error (item : yielded) : bool :=
  match item with
  | (_, Some _) => true
  | (_, None) => false
  end.

(** A stream that ran to its end: one partial response per text fragment,
    each with [Partial = true] and [TurnComplete = false], then the final
    response with [Partial = false] and [TurnComplete = true]. *)
Definition completed_stream (texts : list string) (final : LLMResponse)
    (items : list yielded) : Prop :=
  items = (map partial_item texts ++ [(Some final, None)])%list /\
  Forall (fun text => text <> "") texts /\
  resp_Partial final = false /\
  resp_TurnComplete final = true.

(** A stream cut by an error: the partial responses delivered before it,
    then the single [(nil, err)]. *)
Definition failed_stream (texts : list string) (err : error)
    (items : list yielded) : Prop :=
  items = (map partial_item texts ++ [(None, Some err)])%list /\
  Forall (fun text => text <> "") texts.

(** *** Request contents *)

(** [genai.Blob] *)
Record Blob : Type := mkBlob {
  blob_MIMEType : string;
  blob_Data : list Z
}.

(** [genai.FunctionResponse] *)
Record FunctionResponse : Type := mkFunctionResponse {
  fr_ID : string;
  fr_Name : string;
  fr_Response : map_string_any
}.

(** [genai.Part] as a request carries it: the four fields the adapters
    read on the way out, a nil pointer being [None].  ([Part] above is the
    same struct with the two fields a response fills.) *)
Record RequestPart : Type := mkRequestPart {
  rp_Text : string;
  rp_InlineData : option Blob;
  rp_FunctionCall : option FunctionCall;
  rp_FunctionResponse : option FunctionResponse
}.

(** [genai.Content] of a request. *)
Record RequestContent : Type := mkRequestContent {
  rc_Role : string;
  rc_Parts : list RequestPart
}.

(** The non-empty [Text] fields of the parts, in order: the loop that
    [extractText] and [extractTextFromContent] share. *)
Definition nonempty_texts (parts : list RequestPart) : list string :=
  List.filter (fun text => negb (String.eqb text "")) (map rp_Text parts).

(** The image types both adapters forward. *)
Definition supportedImageType (mimeType : string) : bool :=
  String.eqb mimeType "image/jpg" || String.eqb mimeType "image/jpeg"
  || String.eqb mimeType "image/png" || String.eqb mimeType "image/gif"
  || String.eqb mimeType "image/webp".


(** A run of the iterator against a consumer that may stop it.  Every item
    but the last is a partial response, for a non-empty text, that [yield]
    accepted; the last item is a partial response on which [yield] returned
    [false] (the consumer stopped the run), or the single error, or the final
    response.  In no case is [yield] called again after it returned
    [false]. *)
Definition respects_consumer (yield : consumer) (items : list yielded) : Prop :=
  exists (texts : list string) (item : yielded),
    items = (map partial_item texts ++ [item])%list /\
    Forall (fun text => text <> "") texts /\
    (forall k, (0 < k <= length texts)%nat -> yield (firstn k items) = true) /\
    ((exists text, text <> "" /\ item = partial_item text /\ yield items = false)
     \/ (exists err, item = (None, Some err))
     \/ (exists final, item = (Some final, None) /\
                       resp_Partial final = false /\ resp_TurnComplete final = true)).

End ADK.

(** ** Protocol-A adapter (package openai) *)
Module OpenAI.
Import Go JSON ADK Crypto.

Definition maxToolCallIDLength : Z := 40.

(** The adapter's mutable part: the process-lifetime map
    [toolCall : short id -> original id]. *)
Record Model : Type := mkModel {
  modelName : string;
  toolCall : gmap string string
}.

(** [New] *)
Definition New (name : string) : Model :=
  {| modelName := name; toolCall := ∅ |}.

(** [normalizeToolCallID]: returns the outbound id and the adapter with the
    mapping recorded. *)
Definition normalizeToolCallID (m : Model) (id : string) : string * Model :=
  if len id <=? maxToolCallIDLength then (id, m)
  else
    let hash := Sum256 (bytes_of_string id) in
    let shortID :=
      "tc_" ++ String.substring 0 (Z.to_nat (maxToolCallIDLength - 3)) (hex_EncodeToString hash) in
    (shortID, {| modelName := modelName m; toolCall := <[shortID := id]> (toolCall m) |}).

(** [denormalizeToolCallID] *)
Definition denormalizeToolCallID (m : Model) (shortID : string) : string :=
  match toolCall m !! shortID with
  | Some original => original
  | None => shortID
  end.

(** The sixty-byte id of the round-trip scenario. *)
Definition sixty_x : string :=
  "xxxxxxxxxxxxxxxxxxxxxxxxxxxxxxxxxxxxxxxxxxxxxxxxxxxxxxxxxxxx".

(** *** Schemas *)

(** [ensureObjectProperties].  The Go function mutates the map in place:
    (1) a node whose ["type"] is the string ["object"] and that has no
    ["properties"] entry receives an empty one; (2) every map-valued entry of
    a map-valued ["properties"] is visited; (3) a map-valued ["items"] is
    visited.  Below the visits (2) and (3) are made on the entries of the
    incoming map and the empty ["properties"] of (1) is added afterwards; as
    an empty map has no entry to visit, the outcome is the same. *)
Fixpoint ensureObjectProperties_any (v : any) : any :=
  match v with
  | AMap schema =>
      let visited :=
        map (fun kv =>
               let '(k, x) := kv in
               if String.eqb k "properties" then
                 match x with
                 | AMap props =>
                     (k, AMap (map (fun pv =>
                                      let '(name, prop) := pv in
                                      match prop with
                                      | AMap _ => (name, ensureObjectProperties_any prop)
                                      | _ => pv
                                      end) props))
                 | _ => kv
                 end
               else if String.eqb k "items" then
                 match x with
                 | AMap _ => (k, ensureObjectProperties_any x)
                 | _ => kv
                 end
               else kv) schema in
      AMap (match map_get "type" schema with
            | Some (AString t) =>
                if String.eqb t "object" && negb (map_has "properties" schema)
                then map_set "properties" (AMap []) visited
                else visited
            | _ => visited
            end)
  | _ => v
  end.

Definition ensureObjectProperties (schema : map_string_any) : map_string_any :=
  match schema with
  | None => None
  | Some entries =>
      match ensureObjectProperties_any (AMap entries) with
      | AMap entries' => Some entries'
      | _ => Some entries
      end
  end.

(** The [params any] that [convertToFunctionParams] receives: nil, a
    [map[string]any], or another Go value, of which only the outcome of
    [json.Marshal] matters. *)
Inductive function_params : Type :=
| ParamsNil
| ParamsMap (m : map_string_any)
| ParamsOther (marshalled : result string).

(** [genai.Type] *)
Inductive SchemaType : Type :=
| TypeUnspecified | TypeString | TypeNumber | TypeInteger
| TypeBoolean | TypeArray | TypeObject | TypeNULL.

(** [genai.Schema], with the fields [convertSchema] reads.  [Properties]
    and [Items] hold pointers, [None] being nil. *)
Inductive Schema : Type :=
| mkSchema (Type_ : SchemaType) (Description : string)
           (Required : list string) (Enum : list string)
           (Properties : list (string * option Schema))
           (Items : option Schema).

(** [schemaTypeToString] *)
Definition schemaTypeToString (t : SchemaType) : string :=
  match t with
  | TypeString => "string"
  | TypeNumber => "number"
  | TypeInteger => "integer"
  | TypeBoolean => "boolean"
  | TypeArray => "array"
  | TypeObject => "object"
  | _ => "string"
  end.

Definition add_if (c : bool) (key : string) (v : any) (entries : list (string * any))
  : list (string * any) :=
  if c then map_set key v entries else entries.

Definition nil_schema_result : list (string * any) :=
  [("type", AString "object"); ("properties", AMap [])].

(** [convertSchema] on a non-nil schema; [convertSchema] below adds the nil
    case. *)
Fixpoint convertSchema_struct (schema : Schema) : result (list (string * any)) :=
  match schema with
  | mkSchema ty description required enum properties items =>
      let result0 : list (string * any) := [] in
      let result1 :=
        add_if (match ty with TypeUnspecified => false | _ => true end)
               "type" (AString (schemaTypeToString ty)) result0 in
      let result2 := add_if (negb (String.eqb description "")) "description" (AString description) result1 in
      let result3 := add_if (0 <? Z.of_nat (length required)) "required" (AStrings required) result2 in
      let result4 := add_if (0 <? Z.of_nat (length enum)) "enum" (AStrings enum) result3 in
      let props_r :=
        (fix convert_props (ps : list (string * option Schema)) (props : list (string * any))
           : result (list (string * any)) :=
           match ps with
           | [] => Ok props
           | (name, propSchema) :: rest =>
               match (match propSchema with
                      | None => Ok nil_schema_result
                      | Some sch => convertSchema_struct sch
                      end) with
               | Err err => Err err
               | Ok converted => convert_props rest (map_set name (AMap converted) props)
               end
           end) properties [] in
      match (if 0 <? Z.of_nat (length properties)
             then match props_r with
                  | Err err => Err err
                  | Ok props => Ok (map_set "properties" (AMap props) result4)
                  end
             else Ok result4) with
      | Err err => Err err
      | Ok result5 =>
          match items with
          | None => Ok result5
          | Some itemSchema =>
              match convertSchema_struct itemSchema with
              | Err err => Err err
              | Ok converted => Ok (map_set "items" (AMap converted) result5)
              end
          end
      end
  end.

(** [convertSchema] *)
Definition convertSchema (schema : option Schema) : result (list (string * any)) :=
  match schema with
  | None => Ok nil_schema_result
  | Some sch => convertSchema_struct sch
  end.

(** Whether every schema node reachable through ["properties"] and
    ["items"] that has the string ["object"] as its ["type"] has a
    ["properties"] entry. *)
Definition node_has_properties (schema : list (string * any)) : bool :=
  match map_get "type" schema with
  | Some (AString t) => if String.eqb t "object" then map_has "properties" schema else true
  | _ => true
  end.

Fixpoint objects_have_properties (v : any) : bool :=
  match v with
  | AMap schema =>
      node_has_properties schema &&
      forallb (fun kv =>
                 let '(k, x) := kv in
                 if String.eqb k "properties" then
                   match x with
                   | AMap props =>
                       forallb (fun pv =>
                                  match snd pv with
                                  | AMap _ => objects_have_properties (snd pv)
                                  | _ => true
                                  end) props
                   | _ => true
                   end
                 else if String.eqb k "items" then
                   match x with
                   | AMap _ => objects_have_properties x
                   | _ => true
                   end
                 else true) schema
  | _ => true
  end.

(** The visit of [ensureObjectProperties] on the entries of one node. *)
Definition visit_entry (kv : string * any) : string * any :=
  let '(k, x) := kv in
  if String.eqb k "properties" then
    match x with
    | AMap props =>
        (k, AMap (map (fun pv =>
                         let '(name, prop) := pv in
                         match prop with
                         | AMap _ => (name, ensureObjectProperties_any prop)
                         | _ => pv
                         end) props))
    | _ => kv
    end
  else if String.eqb k "items" then
    match x with
    | AMap _ => (k, ensureObjectProperties_any x)
    | _ => kv
    end
  else kv.

(** The check that [objects_have_properties] makes on one entry. *)
Definition entry_ok (kv : string * any) : bool :=
  let '(k, x) := kv in
  if String.eqb k "properties" then
    match x with
    | AMap props =>
        forallb (fun pv =>
                   match snd pv with
                   | AMap _ => objects_have_properties (snd pv)
                   | _ => true
                   end) props
    | _ => true
    end
  else if String.eqb k "items" then
    match x with
    | AMap _ => objects_have_properties x
    | _ => true
    end
  else true.

(** *** Response translation *)

Section WithDecoder.

(** [json.Unmarshal(data, &m)] for [m : map[string]any]: an error for
    anything that is not a JSON object or [null]; [null] leaves [m] nil. *)
Variable json_Unmarshal : string -> result map_string_any.

(** [parseJSONArgs] *)
Definition parseJSONArgs (argsJSON : string) : map_string_any :=
  if String.eqb argsJSON "" then Some []
  else
    match json_Unmarshal argsJSON with
    | Err _ => Some []
    | Ok args => args
    end.

(** [convertToFunctionParams] *)
Definition convertToFunctionParams (params : function_params) : map_string_any :=
  match params with
  | ParamsNil => None
  | ParamsMap dm => ensureObjectProperties dm
  | ParamsOther (Err _) => None
  | ParamsOther (Ok jsonBytes) =>
      match json_Unmarshal jsonBytes with
      | Err _ => None
      | Ok m => ensureObjectProperties m
      end
  end.

End WithDecoder.

(** [convertFinishReason] *)
Definition convertFinishReason (reason : string) : FinishReason :=
  if String.eqb reason "stop" || String.eqb reason "tool_calls"
     || String.eqb reason "function_call" then FinishReasonStop
  else if String.eqb reason "length" then FinishReasonMaxTokens
  else if String.eqb reason "content_filter" then FinishReasonSafety
  else FinishReasonUnspecified.

Record CompletionUsage : Type := mkCompletionUsage {
  PromptTokens : Z;
  CompletionTokens : Z;
  TotalTokens : Z
}.

(** [convertUsageMetadata] *)
Definition convertUsageMetadata (usage : CompletionUsage) : option UsageMetadata :=
  if TotalTokens usage =? 0 then None
  else Some {| PromptTokenCount := cast_ToInt32 (PromptTokens usage);
               CandidatesTokenCount := cast_ToInt32 (CompletionTokens usage);
               TotalTokenCount := cast_ToInt32 (TotalTokens usage) |}.

(** *** The SDK's response types, as far as the adapter reads them *)

Record ToolCall : Type := mkToolCall {
  tc_ID : string;
  tc_Function_Name : string;
  tc_Function_Arguments : string
}.

Record ChatCompletionMessage : Type := mkMessage {
  msg_Content : string;
  msg_ToolCalls : list ToolCall
}.

Record Choice : Type := mkChoice {
  choice_Message : ChatCompletionMessage;
  choice_FinishReason : string
}.

(** [openai.ChatCompletion]; the stream accumulator embeds one. *)
Record ChatCompletion : Type := mkChatCompletion {
  Choices : list Choice;
  Usage : CompletionUsage
}.

Record ChunkChoice : Type := mkChunkChoice {
  delta_Content : string;
  delta_ToolCalls : list ToolCall;
  chunk_FinishReason : string
}.

(** [openai.ChatCompletionChunk] *)
Record ChatCompletionChunk : Type := mkChunk {
  chunk_Choices : list ChunkChoice;
  chunk_Usage : CompletionUsage
}.

(** The upstream stream handle: the chunks [stream.Next()] delivers, and
    what [stream.Err()] reports once [Next] has returned false. *)
Record Stream : Type := mkStream {
  stream_chunks : list ChatCompletionChunk;
  stream_Err : option error
}.

Definition ErrNoChoicesInResponse : error := ErrNew "no choices in OpenAI response".

Definition emptyAccumulator : ChatCompletion :=
  {| Choices := []; Usage := {| PromptTokens := 0; CompletionTokens := 0; TotalTokens := 0 |} |}.

Section Generation.

Variable json_Unmarshal : string -> result map_string_any.

(** The function-call part built for one tool call of the response. *)
Definition toolCallPart (tc : ToolCall) : Part :=
  FunctionCallPart {| fc_ID := tc_ID tc;
                      fc_Name := tc_Function_Name tc;
                      fc_Args := parseJSONArgs json_Unmarshal (tc_Function_Arguments tc) |}.

Definition messageParts (message : ChatCompletionMessage) : list Part :=
  ((if String.eqb (msg_Content message) "" then [] else [TextPart (msg_Content message)])
   ++ map toolCallPart (msg_ToolCalls message))%list.

(** [convertResponse]; [None] is the nil response. *)
Definition convertResponse (resp : option ChatCompletion) : result LLMResponse :=
  match resp with
  | None => Err (ErrNew "received nil response from OpenAI API")
  | Some resp =>
      match Choices resp with
      | [] => Err ErrNoChoicesInResponse
      | choice :: _ =>
          Ok {| resp_Content := Some {| content_Role := RoleModel;
                                        content_Parts := messageParts (choice_Message choice) |};
                resp_UsageMetadata := convertUsageMetadata (Usage resp);
                resp_FinishReason := convertFinishReason (choice_FinishReason choice);
                resp_Partial := false;
                resp_TurnComplete := true |}
      end
  end.

(** [buildStreamFinalResponse] *)
Definition buildStreamFinalResponse (accum : ChatCompletion) : LLMResponse :=
  let parts :=
    match Choices accum with
    | [] => []
    | choice :: _ => messageParts (choice_Message choice)
    end in
  let finalReason :=
    match Choices accum with
    | [] => FinishReasonUnspecified
    | choice :: _ => convertFinishReason (choice_FinishReason choice)
    end in
  {| resp_Content := Some {| content_Role := RoleModel; content_Parts := parts |};
     resp_UsageMetadata := convertUsageMetadata (Usage accum);
     resp_FinishReason := finalReason;
     resp_Partial := false;
     resp_TurnComplete := true |}.

(** The SDK's [ChatCompletionAccumulator.AddChunk]. *)
Variable AddChunk : ChatCompletion -> ChatCompletionChunk -> ChatCompletion.

(** The request and the wire parameters; request translation enters
    streaming only through its outcome. *)
Variable LLMRequest : Type.
Variable Params : Type.
Variable buildChatCompletionParameters : LLMRequest -> result Params.
Variable NewStreaming : Params -> Stream.

(** How the [for stream.Next()] loop of [generateStream] ends. *)
Inductive loop_exit : Type :=
| Cancelled
| Drained (accum : ChatCompletion).

(** The loop of [generateStream]: [sent] is what has been yielded so far. *)
Fixpoint streamLoop (yield : consumer) (chunks : list ChatCompletionChunk)
    (accum : ChatCompletion) (sent : list yielded) : loop_exit * list yielded :=
  match chunks with
  | [] => (Drained accum, sent)
  | chunk :: rest =>
      let accum := AddChunk accum chunk in
      match chunk_Choices chunk with
      | [] => streamLoop yield rest accum sent
      | choice :: _ =>
          if String.eqb (delta_Content choice) "" then streamLoop yield rest accum sent
          else
            let sent := (sent ++ [(Some (partialResponse (delta_Content choice)), None)])%list in
            if yield sent then streamLoop yield rest accum sent
            else (Cancelled, sent)
      end
  end.

(** [generateStream]: the sequence of items the iterator hands to [yield]. *)
Definition generateStream (req : LLMRequest) (yield : consumer) : list yielded :=
  match buildChatCompletionParameters req with
  | Err err => [(None, Some err)]
  | Ok params =>
      let stream := NewStreaming params in
      match streamLoop yield (stream_chunks stream) emptyAccumulator [] with
      | (Cancelled, sent) => sent
      | (Drained accum, sent) =>
          match stream_Err stream with
          | Some err => (sent ++ [(None, Some err)])%list
          | None => (sent ++ [(Some (buildStreamFinalResponse accum), None)])%list
          end
      end
  end.

End Generation.

(** A plain accumulator, for running the adapter on concrete streams: it
    appends the text deltas of the first choice, collects its tool calls,
    and keeps the last finish reason and usage it is given. *)
Definition plainAddChunk (accum : ChatCompletion) (chunk : ChatCompletionChunk)
  : ChatCompletion :=
  let usage :=
    if TotalTokens (chunk_Usage chunk) =? 0 then Usage accum else chunk_Usage chunk in
  match chunk_Choices chunk with
  | [] => {| Choices := Choices accum; Usage := usage |}
  | cc :: _ =>
      let old :=
        match Choices accum with
        | c :: _ => c
        | [] => {| choice_Message := {| msg_Content := ""; msg_ToolCalls := [] |};
                   choice_FinishReason := "" |}
        end in
      {| Choices :=
           [{| choice_Message :=
                 {| msg_Content := msg_Content (choice_Message old) ++ delta_Content cc;
                    msg_ToolCalls := (msg_ToolCalls (choice_Message old) ++ delta_ToolCalls cc)%list |};
               choice_FinishReason :=
                 if String.eqb (chunk_FinishReason cc) "" then choice_FinishReason old
                 else chunk_FinishReason cc |}];
         Usage := usage |}
  end.

(** The text fragment for which [generateStream] yields a partial response
    on a chunk, if any. *)
Definition chunkText (chunk : ChatCompletionChunk) : option string :=
  match chunk_Choices chunk with
  | [] => None
  | choice :: _ =>
      if String.eqb (delta_Content choice) "" then None else Some (delta_Content choice)
  end.

Definition delta_texts (chunks : list ChatCompletionChunk) : list string :=
  omap chunkText chunks.


(** Induction on [Schema] that reaches the schemas of the properties and of
    the items. *)
Section SchemaInduction.
Variable P : Schema -> Prop.
Hypothesis HSchema :
  forall ty description required enum properties items,
    Forall (fun kv => match snd kv with Some s => P s | None => True end) properties ->
    match items with Some s => P s | None => True end ->
    P (mkSchema ty description required enum properties items).

Fixpoint Schema_nested_ind (schema : Schema) : P schema :=
  match schema with
  | mkSchema ty description required enum properties items =>
      HSchema ty description required enum properties items
        ((fix values (ps : list (string * option Schema))
            : Forall (fun kv => match snd kv with Some s => P s | None => True end) ps :=
            match ps with
            | [] => @List.Forall_nil _ _
            | kv :: rest =>
                @List.Forall_cons _
                  (fun kv => match snd kv with Some s => P s | None => True end) kv rest
                  (match snd kv as o return match o with Some s => P s | None => True end with
                   | Some s => Schema_nested_ind s
                   | None => I
                   end)
                  (values rest)
            end) properties)
        (match items as o return match o with Some s => P s | None => True end with
         | Some s => Schema_nested_ind s
         | None => I
         end)
  end.

End SchemaInduction.

End OpenAI.

(** ** Requests ([genai] and [adk/model], as the adapters read them) *)
Module Request.
Import Go JSON ADK.

(** A [float32], by its bits; the only [float64] values the adapters make
    are exact conversions of one. *)
Definition float32 : Type := Z.

Inductive float64 : Type :=
| float64_of (f : float32).

(** [genai.FunctionDeclaration].  [ParametersJsonSchema] is an [any];
    [Parameters] is a pointer to a schema. *)
Record FunctionDeclaration : Type := mkFunctionDeclaration {
  fd_Name : string;
  fd_Description : string;
  fd_ParametersJsonSchema : OpenAI.function_params;
  fd_Parameters : option OpenAI.Schema
}.

(** [genai.Tool] *)
Record Tool : Type := mkTool {
  FunctionDeclarations : list FunctionDeclaration
}.

(** [genai.ThinkingLevel], as [convertThinkingLevel] tells the levels
    apart. *)
Inductive ThinkingLevel : Type :=
| ThinkingLevelLow
| ThinkingLevelHigh
| ThinkingLevelOther.

(** [genai.GenerateContentConfig], with the fields the adapters read.
    [Tools] holds pointers. *)
Record GenerateContentConfig : Type := mkConfig {
  cfg_SystemInstruction : option RequestContent;
  cfg_Temperature : option float32;
  cfg_TopP : option float32;
  cfg_MaxOutputTokens : Z;
  cfg_StopSequences : list string;
  cfg_ThinkingConfig : option ThinkingLevel;
  cfg_ResponseMIMEType : string;
  cfg_ResponseSchema : option OpenAI.Schema;
  cfg_Tools : list (option Tool)
}.

(** [model.LLMRequest] *)
Record LLMRequest : Type := mkLLMRequest {
  Contents : list RequestContent;
  Config : option GenerateContentConfig
}.

(** The [params any] that both [convertTools] hand on: the JSON schema
    when there is one, else the [Parameters] pointer, of which only the
    outcome of [json.Marshal] can matter. *)
Definition declared_params (marshal_Schema : option OpenAI.Schema -> result string)
    (funcDecl : FunctionDeclaration) : OpenAI.function_params :=
  match fd_ParametersJsonSchema funcDecl with
  | OpenAI.ParamsNil => OpenAI.ParamsOther (marshal_Schema (fd_Parameters funcDecl))
  | params => params
  end.


(** The function declarations of the tools that are not nil, in order. *)
Definition declarations (genaiTools : list (option Tool)) : list FunctionDeclaration :=
  flat_map (fun genaiTool =>
              match genaiTool with
              | Some tool => FunctionDeclarations tool
              | None => []
              end) genaiTools.

End Request.

(** ** Protocol-A adapter: the request side *)
Module OpenAIRequest.
Import Go JSON ADK OpenAI Request.

(** [openai.ChatCompletionContentPartUnionParam] *)
Inductive ContentPart : Type :=
| OfText (text : string)
| OfImageURL (url : string) (detail : string).

(** [openai.ChatCompletionContentPartImageParam] *)
Record ImageParam : Type := mkImageParam {
  image_URL : string;
  image_Detail : string
}.

(** [openai.ChatCompletionMessageFunctionToolCallParam] *)
Record ToolCallParam : Type := mkToolCallParam {
  call_ID : string;
  call_Name : string;
  call_Arguments : string
}.

(** [openai.ChatCompletionMessageParamUnion], by variant.  An assistant
    message has its content only when texts were given. *)
Inductive MessageParamUnion : Type :=
| SystemMessage (content : string)
| UserMessage (content : string)
| UserPartsMessage (parts : list ContentPart)
| AssistantMessage (content : option string) (toolCalls : list ToolCallParam)
| ToolMessage (content : string) (toolCallID : string).

(** [convertRole] *)
Definition convertRole (role : string) : string :=
  if String.eqb role "model" then "assistant" else role.

(** [joinTexts] *)
Definition joinTexts (texts : list string) : string := strings_Join texts newline.

(** [extractText]; [None] is the nil content. *)
Definition extractText (content : option RequestContent) : string :=
  match content with
  | None => ""
  | Some content => joinTexts (nonempty_texts (rc_Parts content))
  end.

(** [buildUserMessage] *)
Definition buildUserMessage (texts : list string) (images : list ImageParam)
  : MessageParamUnion :=
  match images with
  | [] => UserMessage (joinTexts texts)
  | _ =>
      UserPartsMessage
        (map OfText texts
         ++ map (fun img => OfImageURL (image_URL img) (image_Detail img)) images)%list
  end.

(** [buildAssistantMessage] *)
Definition buildAssistantMessage (texts : list string) (toolCalls : list ToolCallParam)
  : MessageParamUnion :=
  AssistantMessage
    (if 0 <? Z.of_nat (length texts) then Some (joinTexts texts) else None)
    toolCalls.

(** [buildRoleMessage]; [None] is the nil message. *)
Definition buildRoleMessage (role : string) (texts : list string)
    (images : list ImageParam) (toolCalls : list ToolCallParam)
  : option MessageParamUnion :=
  let converted := convertRole role in
  if String.eqb converted "user" then Some (buildUserMessage texts images)
  else if String.eqb converted "assistant" then Some (buildAssistantMessage texts toolCalls)
  else if String.eqb converted "system" then Some (SystemMessage (joinTexts texts))
  else None.

(** [convertThinkingLevel] *)
Inductive ReasoningEffort : Type :=
| ReasoningEffortLow
| ReasoningEffortMedium
| ReasoningEffortHigh.

Definition convertThinkingLevel (level : ThinkingLevel) : ReasoningEffort :=
  match level with
  | ThinkingLevelLow => ReasoningEffortLow
  | ThinkingLevelHigh => ReasoningEffortHigh
  | ThinkingLevelOther => ReasoningEffortMedium
  end.

(** [openai.ChatCompletionNewParamsStopUnion] *)
Inductive StopUnion : Type :=
| StopUnset
| StopString (s : string)
| StopStringArray (l : list string).

(** [openai.ChatCompletionNewParamsResponseFormatUnion] *)
Inductive ResponseFormatUnion : Type :=
| FormatUnset
| FormatJSONObject
| FormatJSONSchema (name description : string) (schema : list (string * any)) (strict : bool).

(** [shared.FunctionDefinitionParam] *)
Record FunctionDefinitionParam : Type := mkFunctionDefinition {
  fn_Name : string;
  fn_Description : string;
  fn_Parameters : map_string_any
}.

(** [openai.ChatCompletionNewParams], with the fields the adapter sets. *)
Record ChatCompletionNewParams : Type := mkParams {
  p_Model : string;
  p_Messages : list MessageParamUnion;
  p_Temperature : option float64;
  p_MaxTokens : option Z;
  p_TopP : option float64;
  p_Stop : StopUnion;
  p_ReasoningEffort : option ReasoningEffort;
  p_ResponseFormat : ResponseFormatUnion;
  p_Tools : list FunctionDefinitionParam
}.

Definition schema_Description (schema : Schema) : string :=
  match schema with
  | mkSchema _ description _ _ _ _ => description
  end.

(** What the loop of [convertContentToMessages] collects. *)
Record collected : Type := mkCollected {
  messages : list MessageParamUnion;
  textParts : list string;
  toolCalls : list ToolCallParam;
  imageParts : list ImageParam
}.

(** The tool-call ids a message carries. *)
Definition message_tool_ids (msg : MessageParamUnion) : list string :=
  match msg with
  | AssistantMessage _ calls => map call_ID calls
  | ToolMessage _ id => [id]
  | _ => []
  end.

Definition is_tool_message (msg : MessageParamUnion) : bool :=
  match msg with
  | ToolMessage _ _ => true
  | _ => false
  end.

Section Translation.

(** [json.Marshal] on the value of a [map[string]any]. *)
Variable json_Marshal : any -> result string.

(** [json.Marshal] on a [*genai.Schema]. *)
Variable marshal_Schema : option Schema -> result string.

Variable json_Unmarshal : string -> result map_string_any.

(** [base64.StdEncoding.EncodeToString] *)
Variable base64_EncodeToString : list Z -> string.

(** [convertInlineDataToImage]; [None] is the nil image. *)
Definition convertInlineDataToImage (data : Blob) : option ImageParam :=
  if negb (supportedImageType (blob_MIMEType data)) then None
  else Some {| image_URL := "data:" ++ blob_MIMEType data ++ ";base64,"
                            ++ base64_EncodeToString (blob_Data data);
               image_Detail := "auto" |}.

(** The loop of [convertContentToMessages] over the parts: the [switch]
    takes the first case that applies. *)
Fixpoint collectParts (m : Model) (parts : list RequestPart) (acc : collected)
  : result collected * Model :=
  match parts with
  | [] => (Ok acc, m)
  | part :: rest =>
      match rp_FunctionResponse part with
      | Some fr =>
          match json_Marshal (any_of_map (fr_Response fr)) with
          | Err err => (Err (ErrWrap "failed to marshal function response" err), m)
          | Ok responseJSON =>
              let '(normalizedID, m) := normalizeToolCallID m (fr_ID fr) in
              collectParts m rest
                {| messages := (messages acc ++ [ToolMessage responseJSON normalizedID])%list;
                   textParts := textParts acc;
                   toolCalls := toolCalls acc;
                   imageParts := imageParts acc |}
          end
      | None =>
          match rp_FunctionCall part with
          | Some fc =>
              match json_Marshal (any_of_map (fc_Args fc)) with
              | Err err => (Err (ErrWrap "failed to marshal function args" err), m)
              | Ok argsJSON =>
                  let '(normalizedID, m) := normalizeToolCallID m (fc_ID fc) in
                  collectParts m rest
                    {| messages := messages acc;
                       textParts := textParts acc;
                       toolCalls :=
                         (toolCalls acc
                          ++ [{| call_ID := normalizedID; call_Name := fc_Name fc;
                                 call_Arguments := argsJSON |}])%list;
                       imageParts := imageParts acc |}
              end
          | None =>
              if negb (String.eqb (rp_Text part) "") then
                collectParts m rest
                  {| messages := messages acc;
                     textParts := (textParts acc ++ [rp_Text part])%list;
                     toolCalls := toolCalls acc;
                     imageParts := imageParts acc |}
              else
                match rp_InlineData part with
                | Some data =>
                    match convertInlineDataToImage data with
                    | Some img =>
                        collectParts m rest
                          {| messages := messages acc;
                             textParts := textParts acc;
                             toolCalls := toolCalls acc;
                             imageParts := (imageParts acc ++ [img])%list |}
                    | None => collectParts m rest acc
                    end
                | None => collectParts m rest acc
                end
          end
      end
  end.

(** [convertContentToMessages]: the messages, and the adapter with the
    identifier mappings it recorded on the way. *)
Definition convertContentToMessages (m : Model) (content : RequestContent)
  : result (list MessageParamUnion) * Model :=
  match collectParts m (rc_Parts content) (mkCollected [] [] [] []) with
  | (Err err, m) => (Err err, m)
  | (Ok acc, m) =>
      if (0 <? Z.of_nat (length (textParts acc)))
         || (0 <? Z.of_nat (length (imageParts acc)))
         || (0 <? Z.of_nat (length (toolCalls acc)))
      then
        match buildRoleMessage (rc_Role content) (textParts acc) (imageParts acc)
                (toolCalls acc) with
        | Some msg => (Ok (messages acc ++ [msg])%list, m)
        | None => (Ok (messages acc), m)
        end
      else (Ok (messages acc), m)
  end.

(** [convertTools] *)
Definition convertTools (genaiTools : list (option Tool)) : list FunctionDefinitionParam :=
  flat_map
    (fun genaiTool =>
       match genaiTool with
       | None => []
       | Some tool =>
           map (fun funcDecl =>
                  {| fn_Name := fd_Name funcDecl;
                     fn_Description := fd_Description funcDecl;
                     fn_Parameters :=
                       convertToFunctionParams json_Unmarshal
                         (declared_params marshal_Schema funcDecl) |})
               (FunctionDeclarations tool)
       end)
    genaiTools.

(** [applyGenerationConfig]: each field of the parameters is assigned at
    most by one group of statements, the response format by two, the later
    of which wins. *)
Definition applyGenerationConfig (params : ChatCompletionNewParams)
    (cfg : GenerateContentConfig) : ChatCompletionNewParams :=
  let jsonMode :=
    if String.eqb (cfg_ResponseMIMEType cfg) "application/json"
    then FormatJSONObject else p_ResponseFormat params in
  {| p_Model := p_Model params;
     p_Messages := p_Messages params;
     p_Temperature :=
       match cfg_Temperature cfg with
       | Some t => Some (float64_of t)
       | None => p_Temperature params
       end;
     p_MaxTokens :=
       if 0 <? cfg_MaxOutputTokens cfg then Some (cfg_MaxOutputTokens cfg)
       else p_MaxTokens params;
     p_TopP :=
       match cfg_TopP cfg with
       | Some t => Some (float64_of t)
       | None => p_TopP params
       end;
     p_Stop :=
       match cfg_StopSequences cfg with
       | [] => p_Stop params
       | [s] => StopString s
       | l => StopStringArray l
       end;
     p_ReasoningEffort :=
       match cfg_ThinkingConfig cfg with
       | Some level => Some (convertThinkingLevel level)
       | None => p_ReasoningEffort params
       end;
     p_ResponseFormat :=
       match cfg_ResponseSchema cfg with
       | Some schema =>
           match convertSchema (Some schema) with
           | Ok schemaMap =>
               FormatJSONSchema "response" (schema_Description schema) schemaMap true
           | Err _ => jsonMode
           end
       | None => jsonMode
       end;
     p_Tools :=
       if 0 <? Z.of_nat (length (cfg_Tools cfg)) then convertTools (cfg_Tools cfg)
       else p_Tools params |}.

(** The loop of [buildChatCompletionParameters] over the contents. *)
Fixpoint convertContents (m : Model) (contents : list RequestContent)
    (message : list MessageParamUnion) : result (list MessageParamUnion) * Model :=
  match contents with
  | [] => (Ok message, m)
  | content :: rest =>
      match convertContentToMessages m content with
      | (Err err, m) => (Err err, m)
      | (Ok msgs, m) => convertContents m rest (message ++ msgs)%list
      end
  end.

(** [buildChatCompletionParameters] *)
Definition buildChatCompletionParameters (m : Model) (req : LLMRequest)
  : result ChatCompletionNewParams * Model :=
  let message :=
    match Config req with
    | Some cfg =>
        match cfg_SystemInstruction cfg with
        | Some instruction =>
            let text := extractText (Some instruction) in
            if negb (String.eqb text "") then [SystemMessage text] else []
        | None => []
        end
    | None => []
    end in
  match convertContents m (Contents req) message with
  | (Err err, m) => (Err err, m)
  | (Ok message, m) =>
      let params :=
        {| p_Model := modelName m; p_Messages := message;
           p_Temperature := None; p_MaxTokens := None; p_TopP := None;
           p_Stop := StopUnset; p_ReasoningEffort := None;
           p_ResponseFormat := FormatUnset; p_Tools := [] |} in
      match Config req with
      | Some cfg => (Ok (applyGenerationConfig params cfg), m)
      | None => (Ok params, m)
      end
  end.

(** [client.Chat.Completions.New] *)
Variable Completions_New : ChatCompletionNewParams -> result ChatCompletion.

(** [generate]: the items the iterator hands to [yield], and the adapter
    afterwards. *)
Definition generate (m : Model) (req : LLMRequest) : list yielded * Model :=
  match buildChatCompletionParameters m req with
  | (Err err, m) => ([(None, Some err)], m)
  | (Ok params, m) =>
      match Completions_New params with
      | Err err => ([(None, Some err)], m)
      | Ok resp =>
          match convertResponse json_Unmarshal (Some resp) with
          | Err err => ([(None, Some err)], m)
          | Ok llmResp => ([(Some llmResp, None)], m)
          end
      end
  end.

End Translation.


(** Whether every tool-call id of the message fits the 40 bytes of the
    protocol. *)
Definition bounded_tool_ids (msg : MessageParamUnion) : bool :=
  forallb (fun id => len id <=? maxToolCallIDLength) (message_tool_ids msg).

Definition is_function_response (part : RequestPart) : bool :=
  match rp_FunctionResponse part with
  | Some _ => true
  | None => false
  end.

(** Whether [json.Marshal] accepts what the [switch] of
    [convertContentToMessages] encodes for the part: the response of a
    function response, else the arguments of a function call. *)
Definition part_marshals (json_Marshal : any -> result string) (part : RequestPart) : bool :=
  match rp_FunctionResponse part with
  | Some fr => is_ok (json_Marshal (any_of_map (fr_Response fr)))
  | None =>
      match rp_FunctionCall part with
      | Some fc => is_ok (json_Marshal (any_of_map (fc_Args fc)))
      | None => true
      end
  end.

(** The roles for which [buildRoleMessage] builds a message. *)
Definition known_role (role : string) : bool :=
  String.eqb role "user" || String.eqb role "model" || String.eqb role "assistant"
  || String.eqb role "system".


(** Whether every object node of the parameters of a function definition
    has a ["properties"] entry. *)
Definition parameters_ok (fn : FunctionDefinitionParam) : bool :=
  match fn_Parameters fn with
  | Some entries => objects_have_properties (AMap entries)
  | None => true
  end.


(** The tool-call ids [convertContentToMessages] normalises for a part,
    and those of a whole request. *)
Definition part_ids (part : RequestPart) : list string :=
  match rp_FunctionResponse part with
  | Some fr => [fr_ID fr]
  | None =>
      match rp_FunctionCall part with
      | Some fc => [fc_ID fc]
      | None => []
      end
  end.

Definition request_ids (req : LLMRequest) : list string :=
  flat_map (fun content => flat_map part_ids (rc_Parts content)) (Contents req).

(** The short form of an id that is too long. *)
Definition shortID (id : string) : string :=
  "tc_" ++ String.substring 0 37
             (Crypto.hex_EncodeToString (Crypto.Sum256 (bytes_of_string id))).

(** Every mapping of the adapter takes the short form of a long id to an
    id of that short form. *)
Definition sound_mappings (m : Model) : Prop :=
  forall short original,
    toolCall m !! short = Some original ->
    maxToolCallIDLength < len original /\ short = shortID original.

(** How the adapter [m'] stems from [m] after the ids [ids] went through
    it: the same model name, no mapping lost, and every mapping that is new or
    changed takes the short form of a long id among [ids] to that id. *)
Definition recorded_from (ids : list string) (m m' : Model) : Prop :=
  modelName m' = modelName m /\
  (forall short, is_Some (toolCall m !! short) -> is_Some (toolCall m' !! short)) /\
  (forall short original,
     toolCall m' !! short = Some original ->
     toolCall m !! short = Some original
     \/ (In original ids /\ maxToolCallIDLength < len original /\ short = shortID original)) /\
  (forall id, In id ids -> maxToolCallIDLength < len id ->
              is_Some (toolCall m' !! shortID id)).


(** What one part adds to each of the four lists of
    [convertContentToMessages], by the case of the [switch] that takes it;
    the identifier is normalised by an adapter [m]. *)
Definition sent_tool_message (json_Marshal : any -> result string) (m : Model)
    (part : RequestPart) : option MessageParamUnion :=
  match rp_FunctionResponse part with
  | Some fr =>
      Some (ToolMessage
              (match json_Marshal (any_of_map (fr_Response fr)) with
               | Ok responseJSON => responseJSON
               | Err _ => ""
               end)
              (fst (normalizeToolCallID m (fr_ID fr))))
  | None => None
  end.

Definition sent_tool_call (json_Marshal : any -> result string) (m : Model)
    (part : RequestPart) : option ToolCallParam :=
  match rp_FunctionResponse part, rp_FunctionCall part with
  | None, Some fc =>
      Some {| call_ID := fst (normalizeToolCallID m (fc_ID fc));
              call_Name := fc_Name fc;
              call_Arguments := match json_Marshal (any_of_map (fc_Args fc)) with
                                | Ok argsJSON => argsJSON
                                | Err _ => ""
                                end |}
  | _, _ => None
  end.

Definition sent_text (part : RequestPart) : option string :=
  match rp_FunctionResponse part, rp_FunctionCall part with
  | None, None => if String.eqb (rp_Text part) "" then None else Some (rp_Text part)
  | _, _ => None
  end.

Definition sent_image (base64_EncodeToString : list Z -> string) (part : RequestPart)
  : option ImageParam :=
  match rp_FunctionResponse part, rp_FunctionCall part, rp_InlineData part with
  | None, None, Some data =>
      if String.eqb (rp_Text part) "" && supportedImageType (blob_MIMEType data)
      then Some {| image_URL := "data:" ++ blob_MIMEType data ++ ";base64,"
                                ++ base64_EncodeToString (blob_Data data);
                   image_Detail := "auto" |}
      else None
  | _, _, _ => None
  end.

End OpenAIRequest.

(** ** Protocol-B adapter (package anthropic) *)
Module Anthropic.
Import Go JSON ADK.

Definition MessageParamRoleUser : string := "user".
Definition MessageParamRoleAssistant : string := "assistant".

(** *** Outbound messages and history repair *)

Record ToolUseBlockParam : Type := mkToolUse {
  tu_ID : string;
  tu_Name : string;
  tu_Input : string
}.

Record ToolResultBlockParam : Type := mkToolResult {
  tr_ToolUseID : string;
  tr_Content : string
}.

Record ImageBlockParam : Type := mkImage {
  img_MediaType : string;
  img_Data : string
}.

(** [anthropic.ContentBlockParamUnion]: a struct of pointers, one per
    variant; the adapter tests [OfToolUse] and [OfToolResult] for nil. *)
Record ContentBlockParamUnion : Type := mkBlock {
  OfText : option string;
  OfImage : option ImageBlockParam;
  OfToolUse : option ToolUseBlockParam;
  OfToolResult : option ToolResultBlockParam
}.

Definition NewTextBlock (text : string) : ContentBlockParamUnion :=
  {| OfText := Some text; OfImage := None; OfToolUse := None; OfToolResult := None |}.

Definition NewImageBlock (img : ImageBlockParam) : ContentBlockParamUnion :=
  {| OfText := None; OfImage := Some img; OfToolUse := None; OfToolResult := None |}.

Definition NewToolUseBlock (id name input : string) : ContentBlockParamUnion :=
  {| OfText := None; OfImage := None;
     OfToolUse := Some {| tu_ID := id; tu_Name := name; tu_Input := input |};
     OfToolResult := None |}.

Definition NewToolResultBlock (toolUseID content : string) : ContentBlockParamUnion :=
  {| OfText := None; OfImage := None; OfToolUse := None;
     OfToolResult := Some {| tr_ToolUseID := toolUseID; tr_Content := content |} |}.

Record MessageParam : Type := mkMessageParam {
  Role : string;
  Content : list ContentBlockParamUnion
}.

(** [extractToolUseIDs] *)
Fixpoint extractToolUseIDs_blocks (blocks : list ContentBlockParamUnion) : list string :=
  match blocks with
  | [] => []
  | block :: rest =>
      match OfToolUse block with
      | Some tu => tu_ID tu :: extractToolUseIDs_blocks rest
      | None => extractToolUseIDs_blocks rest
      end
  end.

Definition extractToolUseIDs (msg : MessageParam) : list string :=
  extractToolUseIDs_blocks (Content msg).

(** [extractToolResultIDs] *)
Fixpoint extractToolResultIDs_blocks (blocks : list ContentBlockParamUnion) : list string :=
  match blocks with
  | [] => []
  | block :: rest =>
      match OfToolResult block with
      | Some tr => tr_ToolUseID tr :: extractToolResultIDs_blocks rest
      | None => extractToolResultIDs_blocks rest
      end
  end.

Definition extractToolResultIDs (msg : MessageParam) : list string :=
  extractToolResultIDs_blocks (Content msg).

(** [allowedIDs[id]] on a [map[string]bool]: false for a missing key. *)
Definition allowed (allowedIDs : gmap string bool) (id : string) : bool :=
  default false (allowedIDs !! id).

(** [filterToolUse]; [None] is the nil map. *)
Fixpoint filterToolUse_blocks (blocks : list ContentBlockParamUnion)
    (allowedIDs : option (gmap string bool)) : list ContentBlockParamUnion :=
  match blocks with
  | [] => []
  | block :: rest =>
      match OfToolUse block with
      | Some tu =>
          match allowedIDs with
          | Some ids =>
              if allowed ids (tu_ID tu)
              then block :: filterToolUse_blocks rest allowedIDs
              else filterToolUse_blocks rest allowedIDs
          | None => filterToolUse_blocks rest allowedIDs
          end
      | None => block :: filterToolUse_blocks rest allowedIDs
      end
  end.

Definition filterToolUse (msg : MessageParam) (allowedIDs : option (gmap string bool))
  : MessageParam :=
  {| Role := Role msg; Content := filterToolUse_blocks (Content msg) allowedIDs |}.

(** [hasContent] *)
Definition hasContent (msg : MessageParam) : bool :=
  0 <? Z.of_nat (length (Content msg)).

(** The [matchedIDs] map that [repairMessageHistory] builds. *)
Definition matchedIDs_of (toolResultIDs : list string) : gmap string bool :=
  fold_left (fun matched id => <[id := true]> matched) toolResultIDs ∅.

(** What the [allowedIDs] argument that [repairMessageHistory] passes means
    for the message that follows. *)
Definition allowedIDs_for (next : option MessageParam) : option (gmap string bool) :=
  match next with
  | Some n =>
      if String.eqb (Role n) MessageParamRoleUser
      then Some (matchedIDs_of (extractToolResultIDs n))
      else None
  | None => None
  end.

(** [repairMessageHistory]: the loop over [i], with [messages[i+1]] the head
    of the remaining list. *)
Fixpoint repairMessageHistory (messages : list MessageParam) : list MessageParam :=
  match messages with
  | [] => []
  | msg :: rest =>
      if String.eqb (Role msg) MessageParamRoleAssistant
         && (0 <? Z.of_nat (length (extractToolUseIDs msg)))
      then
        let filteredMsg :=
          match rest with
          | next :: _ =>
              if String.eqb (Role next) MessageParamRoleUser
              then filterToolUse msg (Some (matchedIDs_of (extractToolResultIDs next)))
              else filterToolUse msg None
          | [] => filterToolUse msg None
          end in
        if hasContent filteredMsg
        then filteredMsg :: repairMessageHistory rest
        else repairMessageHistory rest
      else msg :: repairMessageHistory rest
  end.

(** *** History repair as the specification words it

    "For each assistant message carrying tool-use blocks, look at the next
    message; if it is a user message, filter the tool-use blocks to only those
    whose ID is matched by a tool-result there; if the next message is not a
    user message, strip all tool-use blocks.  After filtering, if the
    assistant message has no remaining content blocks, drop it." *)

Definition is_tool_use (block : ContentBlockParamUnion) : bool :=
  match OfToolUse block with Some _ => true | None => false end.

(** Each message paired with the message that follows it. *)
Fixpoint with_next (messages : list MessageParam)
  : list (MessageParam * option MessageParam) :=
  match messages with
  | [] => []
  | msg :: rest => (msg, head rest) :: with_next rest
  end.

(** Whether a tool-result for [id] is present in the user message [next]. *)
Definition answered_in (next : option MessageParam) (id : string) : bool :=
  match next with
  | Some n =>
      String.eqb (Role n) MessageParamRoleUser
      && existsb (fun block =>
                    match OfToolResult block with
                    | Some tr => String.eqb (tr_ToolUseID tr) id
                    | None => false
                    end) (Content n)
  | None => false
  end.

Definition keep_block (next : option MessageParam) (block : ContentBlockParamUnion) : bool :=
  match OfToolUse block with
  | Some tu => answered_in next (tu_ID tu)
  | None => true
  end.

Definition repaired_message (msg : MessageParam) (next : option MessageParam)
  : option MessageParam :=
  if String.eqb (Role msg) MessageParamRoleAssistant && existsb is_tool_use (Content msg)
  then
    match List.filter (keep_block next) (Content msg) with
    | [] => None
    | kept => Some {| Role := Role msg; Content := kept |}
    end
  else Some msg.

Definition repair_spec (messages : list MessageParam) : list MessageParam :=
  omap (fun pair => repaired_message (fst pair) (snd pair)) (with_next messages).

(** The blocks of a history that are not tool-use blocks, in order. *)
Definition other_blocks (messages : list MessageParam) : list ContentBlockParamUnion :=
  flat_map (fun msg => List.filter (fun b => negb (is_tool_use b)) (Content msg)) messages.

(** The repaired-history invariant: every tool-use block of an assistant
    message has a tool-result with its id in the message right after it,
    which is a user message. *)
Definition tool_use_answered (history : list MessageParam) : Prop :=
  forall (i : nat) (msg : MessageParam) (block : ContentBlockParamUnion)
         (tu : ToolUseBlockParam),
    history !! i = Some msg ->
    Role msg = MessageParamRoleAssistant ->
    In block (Content msg) ->
    OfToolUse block = Some tu ->
    exists (next : MessageParam) (rblock : ContentBlockParamUnion)
           (tr : ToolResultBlockParam),
      history !! S i = Some next /\
      Role next = MessageParamRoleUser /\
      In rblock (Content next) /\
      OfToolResult rblock = Some tr /\
      tr_ToolUseID tr = tu_ID tu.

(** *** Inbound responses *)

(** The [input any] of [convertToolInput]. *)
Inductive tool_input : Type :=
| InputNil
| InputMap (m : map_string_any)
| InputRaw (raw : string)
| InputOther (marshalled : result string).

(** [anthropic.ContentBlockUnion], by variant. *)
Inductive ContentBlock : Type :=
| TextBlock (text : string)
| ToolUseBlock (id name : string) (input : tool_input)
| OtherBlock.

Record MessageUsage : Type := mkMessageUsage {
  InputTokens : Z;
  OutputTokens : Z
}.

(** [anthropic.Message] *)
Record Message : Type := mkAMessage {
  message_Content : list ContentBlock;
  message_StopReason : string;
  message_Usage : MessageUsage
}.

Definition emptyMessage : Message :=
  {| message_Content := []; message_StopReason := "";
     message_Usage := {| InputTokens := 0; OutputTokens := 0 |} |}.

(** [convertStopReason] *)
Definition convertStopReason (reason : string) : FinishReason :=
  if String.eqb reason "end_turn" then FinishReasonStop
  else if String.eqb reason "max_tokens" then FinishReasonMaxTokens
  else if String.eqb reason "stop_sequence" then FinishReasonStop
  else if String.eqb reason "tool_use" then FinishReasonStop
  else FinishReasonUnspecified.

(** The deltas and events of a message stream, by variant. *)
Inductive Delta : Type :=
| TextDelta (text : string)
| InputJSONDelta (partialJSON : string)
| OtherDelta.

Inductive MessageStreamEvent : Type :=
| MessageStartEvent (message : Message)
| ContentBlockStartEvent (index : Z) (block : ContentBlock)
| ContentBlockDeltaEvent (index : Z) (delta : Delta)
| ContentBlockStopEvent (index : Z)
| MessageDeltaEvent (stopReason : string) (usage : MessageUsage)
| MessageStopEvent.

Record Stream : Type := mkStream {
  stream_events : list MessageStreamEvent;
  stream_Err : option error
}.

Section Generation.

Variable json_Unmarshal : string -> result map_string_any.

(** [convertToolInput] *)
Definition convertToolInput (input : tool_input) : map_string_any :=
  match input with
  | InputNil => Some []
  | InputMap m => m
  | InputRaw raw =>
      match json_Unmarshal raw with
      | Err _ => Some []
      | Ok result => result
      end
  | InputOther (Err _) => Some []
  | InputOther (Ok data) =>
      match json_Unmarshal data with
      | Err _ => Some []
      | Ok result => result
      end
  end.

Fixpoint convertBlocks (blocks : list ContentBlock) : list Part :=
  match blocks with
  | [] => []
  | TextBlock text :: rest => TextPart text :: convertBlocks rest
  | ToolUseBlock id name input :: rest =>
      FunctionCallPart {| fc_ID := id; fc_Name := name;
                          fc_Args := convertToolInput input |} :: convertBlocks rest
  | OtherBlock :: rest => convertBlocks rest
  end.

(** [convertResponse] *)
Definition convertResponse (resp : Message) : LLMResponse :=
  let usage := message_Usage resp in
  {| resp_Content := Some {| content_Role := RoleModel;
                             content_Parts := convertBlocks (message_Content resp) |};
     resp_UsageMetadata :=
       if (0 <? InputTokens usage) || (0 <? OutputTokens usage)
       then Some {| PromptTokenCount := cast_ToInt32 (InputTokens usage);
                    CandidatesTokenCount := cast_ToInt32 (OutputTokens usage);
                    TotalTokenCount :=
                      cast_ToInt32 (wrap_signed 64 (InputTokens usage + OutputTokens usage)) |}
       else None;
     resp_FinishReason := convertStopReason (message_StopReason resp);
     resp_Partial := false;
     resp_TurnComplete := true |}.

(** The SDK's [Message.Accumulate]. *)
Variable Accumulate : Message -> MessageStreamEvent -> result Message.

Variable LLMRequest : Type.
Variable Params : Type.
Variable buildMessageParams : LLMRequest -> result Params.
Variable NewStreaming : Params -> Stream.

(** How the [for stream.Next()] loop of [generateStream] ends. *)
Inductive loop_exit : Type :=
| Cancelled
| Failed
| Drained (message : Message).

(** The loop of [generateStream]. *)
Fixpoint streamLoop (yield : consumer) (events : list MessageStreamEvent)
    (message : Message) (sent : list yielded) : loop_exit * list yielded :=
  match events with
  | [] => (Drained message, sent)
  | event :: rest =>
      match Accumulate message event with
      | Err err => (Failed, (sent ++ [(None, Some err)])%list)
      | Ok message =>
          match event with
          | ContentBlockDeltaEvent _ (TextDelta text) =>
              if String.eqb text "" then streamLoop yield rest message sent
              else
                let sent := (sent ++ [(Some (partialResponse text), None)])%list in
                if yield sent then streamLoop yield rest message sent
                else (Cancelled, sent)
          | _ => streamLoop yield rest message sent
          end
      end
  end.

(** The final response of a stream: [convertResponse] of the accumulated
    message, with [Partial] and [TurnComplete] assigned. *)
Definition finalResponse (message : Message) : LLMResponse :=
  let llmResp := convertResponse message in
  {| resp_Content := resp_Content llmResp;
     resp_UsageMetadata := resp_UsageMetadata llmResp;
     resp_FinishReason := resp_FinishReason llmResp;
     resp_Partial := false;
     resp_TurnComplete := true |}.

(** [generateStream] *)
Definition generateStream (req : LLMRequest) (yield : consumer) : list yielded :=
  match buildMessageParams req with
  | Err err => [(None, Some err)]
  | Ok params =>
      let stream := NewStreaming params in
      match streamLoop yield (stream_events stream) emptyMessage [] with
      | (Cancelled, sent) => sent
      | (Failed, sent) => sent
      | (Drained message, sent) =>
          match stream_Err stream with
          | Some err => (sent ++ [(None, Some err)])%list
          | None => (sent ++ [(Some (finalResponse message), None)])%list
          end
      end
  end.

End Generation.

(** A plain accumulator, for running the adapter on concrete streams: text
    deltas extend the block at their index, a message-delta event sets the
    stop reason and usage, and a delta for a block that was never started is
    an error. *)
Fixpoint appendTextAt (index : nat) (text : string) (blocks : list ContentBlock)
  : option (list ContentBlock) :=
  match index, blocks with
  | O, TextBlock old :: rest => Some (TextBlock (old ++ text) :: rest)
  | S index', block :: rest =>
      match appendTextAt index' text rest with
      | Some rest' => Some (block :: rest')
      | None => None
      end
  | _, _ => None
  end.

Definition plainAccumulate (message : Message) (event : MessageStreamEvent)
  : result Message :=
  match event with
  | MessageStartEvent m => Ok m
  | ContentBlockStartEvent _ block =>
      Ok {| message_Content := (message_Content message ++ [block])%list;
            message_StopReason := message_StopReason message;
            message_Usage := message_Usage message |}
  | ContentBlockDeltaEvent index (TextDelta text) =>
      match appendTextAt (Z.to_nat index) text (message_Content message) with
      | Some blocks =>
          Ok {| message_Content := blocks;
                message_StopReason := message_StopReason message;
                message_Usage := message_Usage message |}
      | None => Err (ErrNew "received event of type text_delta but there was no content block")
      end
  | ContentBlockDeltaEvent _ _ => Ok message
  | ContentBlockStopEvent _ => Ok message
  | MessageDeltaEvent stopReason usage =>
      Ok {| message_Content := message_Content message;
            message_StopReason := stopReason;
            message_Usage := usage |}
  | MessageStopEvent => Ok message
  end.

(** The text fragment for which [generateStream] yields a partial response
    on an event, if any. *)
Definition eventText (event : MessageStreamEvent) : option string :=
  match event with
  | ContentBlockDeltaEvent _ (TextDelta text) =>
      if String.eqb text "" then None else Some text
  | _ => None
  end.

Definition event_texts (events : list MessageStreamEvent) : list string :=
  omap eventText events.

(** Feeding the events to the accumulator in order: the events taken before
    the first failure (all of them when there is none), and the outcome. *)
Fixpoint accumulateAll (Accumulate : Message -> MessageStreamEvent -> result Message)
    (events : list MessageStreamEvent) (message : Message)
  : list MessageStreamEvent * result Message :=
  match events with
  | [] => ([], Ok message)
  | event :: rest =>
      match Accumulate message event with
      | Err err => ([], Err err)
      | Ok message' =>
          let '(taken, outcome) := accumulateAll Accumulate rest message' in
          (event :: taken, outcome)
      end
  end.

(** *** Outbound requests *)

(** [convertRoleToAnthropic] *)
Definition convertRoleToAnthropic (role : string) : string :=
  if String.eqb role "user" then MessageParamRoleUser
  else if String.eqb role "model" then MessageParamRoleAssistant
  else MessageParamRoleUser.

(** [extractTextFromContent]; [None] is the nil content. *)
Definition extractTextFromContent (content : option RequestContent) : string :=
  match content with
  | None => ""
  | Some content => strings_Join (nonempty_texts (rc_Parts content)) newline
  end.

(** The character class of [anthropicToolIDPattern], on a byte: a byte of
    a multi-byte rune is outside of it, as the rune is. *)
Definition toolIDByte (b : Z) : bool :=
  ((97 <=? b) && (b <=? 122)) || ((65 <=? b) && (b <=? 90))
  || ((48 <=? b) && (b <=? 57)) || (b =? 95) || (b =? 45).

(** [anthropicToolIDPattern.MatchString]: [^[a-zA-Z0-9_-]+$] *)
Definition anthropicToolIDPattern_MatchString (s : string) : bool :=
  (0 <? len s) && forallb toolIDByte (bytes_of_string s).

(** [sanitizeToolID] *)
Definition sanitizeToolID (id : string) : string :=
  if anthropicToolIDPattern_MatchString id then id
  else
    let hash := Crypto.Sum256 (bytes_of_string id) in
    "toolu_" ++ Crypto.hex_EncodeToString (firstn 16 hash).

Definition emptyJSONObject : string := "{}".

(** [anthropic.ToolInputSchemaParam]: [Properties] is an [any], nil when
    unset. *)
Record ToolInputSchemaParam : Type := mkInputSchema {
  schema_Type : string;
  schema_Properties : any;
  schema_Required : list string
}.

(** [anthropic.ToolParam] *)
Record ToolParam : Type := mkToolParam {
  tool_Name : string;
  tool_Description : string;
  tool_InputSchema : ToolInputSchemaParam
}.

(** [anthropic.MessageNewParams], with the fields the adapter sets. *)
Record MessageNewParams : Type := mkParams {
  p_Model : string;
  p_MaxTokens : Z;
  p_System : list string;
  p_Messages : list MessageParam;
  p_Temperature : option Request.float64;
  p_TopP : option Request.float64;
  p_StopSequences : list string;
  p_Tools : list ToolParam
}.

(** Whether the tool identifiers a block carries, of a tool use or of a
    tool result, match the pattern. *)
Definition valid_tool_ids (block : ContentBlockParamUnion) : bool :=
  match OfToolUse block with
  | Some tu => anthropicToolIDPattern_MatchString (tu_ID tu)
  | None => true
  end
  && match OfToolResult block with
     | Some tr => anthropicToolIDPattern_MatchString (tr_ToolUseID tr)
     | None => true
     end.

(** A message as the protocol wants it: of the user or the assistant, with
    at least one block, and with tool identifiers that match the pattern. *)
Definition wellformed_message (msg : MessageParam) : bool :=
  (String.eqb (Role msg) MessageParamRoleUser
   || String.eqb (Role msg) MessageParamRoleAssistant)
  && (0 <? Z.of_nat (length (Content msg)))
  && forallb valid_tool_ids (Content msg).

(** Whether [json.Marshal] accepts the response of the part's function
    response, if it has one. *)
Definition response_marshals (json_Marshal : any -> result string) (part : RequestPart)
  : bool :=
  match rp_FunctionResponse part with
  | Some fr => is_ok (json_Marshal (any_of_map (fr_Response fr)))
  | None => true
  end.

Section Requests.

(** [json.Marshal] *)
Variable json_Marshal : any -> result string.

(** [base64.StdEncoding.EncodeToString] *)
Variable base64_EncodeToString : list Z -> string.

(** [convertToolInputToRaw].  A [json.RawMessage] of length zero is not
    valid JSON, so [json.Marshal] refuses it. *)
Definition convertToolInputToRaw (input : tool_input) : string :=
  let marshalled (r : result string) : string :=
    match r with
    | Err _ => emptyJSONObject
    | Ok data =>
        if (len data =? 0) || String.eqb data "null" then emptyJSONObject else data
    end in
  match input with
  | InputNil => emptyJSONObject
  | InputRaw raw => if 0 <? len raw then raw else emptyJSONObject
  | InputMap m => marshalled (json_Marshal (any_of_map m))
  | InputOther r => marshalled r
  end.

(** The blocks [convertContentToMessage] appends for one part: its four
    [if]s in turn. *)
Definition partBlocks (part : RequestPart) : result (list ContentBlockParamUnion) :=
  let text :=
    if negb (String.eqb (rp_Text part) "") then [NewTextBlock (rp_Text part)] else [] in
  let image :=
    match rp_InlineData part with
    | Some data =>
        if supportedImageType (blob_MIMEType data)
        then [NewImageBlock {| img_MediaType := blob_MIMEType data;
                               img_Data := base64_EncodeToString (blob_Data data) |}]
        else []
    | None => []
    end in
  let call :=
    match rp_FunctionCall part with
    | Some fc =>
        [NewToolUseBlock (sanitizeToolID (fc_ID fc)) (fc_Name fc)
           (convertToolInputToRaw (InputMap (fc_Args fc)))]
    | None => []
    end in
  match rp_FunctionResponse part with
  | Some fr =>
      match json_Marshal (any_of_map (fr_Response fr)) with
      | Err err => Err (ErrWrap "failed to marshal function response" err)
      | Ok responseJSON =>
          Ok (text ++ image ++ call
              ++ [NewToolResultBlock (sanitizeToolID (fr_ID fr)) responseJSON])%list
      end
  | None => Ok (text ++ image ++ call)%list
  end.

(** The loop of [convertContentToMessage] over the parts. *)
Fixpoint contentBlocks (parts : list RequestPart) (blocks : list ContentBlockParamUnion)
  : result (list ContentBlockParamUnion) :=
  match parts with
  | [] => Ok blocks
  | part :: rest =>
      match partBlocks part with
      | Err err => Err err
      | Ok added => contentBlocks rest (blocks ++ added)%list
      end
  end.

(** [convertContentToMessage]; [Ok None] is the nil message. *)
Definition convertContentToMessage (content : RequestContent)
  : result (option MessageParam) :=
  let role := convertRoleToAnthropic (rc_Role content) in
  match contentBlocks (rc_Parts content) [] with
  | Err err => Err err
  | Ok blocks =>
      if Z.of_nat (length blocks) =? 0 then Ok None
      else Ok (Some {| Role := role; Content := blocks |})
  end.

(** [convertTools] *)
Definition convertTools (genaiTools : list (option Request.Tool)) : list ToolParam :=
  flat_map
    (fun genaiTool =>
       match genaiTool with
       | None => []
       | Some tool =>
           map (fun funcDecl =>
                  let fromMap (m : map_string_any) : ToolInputSchemaParam :=
                    let entries := match m with Some entries => entries | None => [] end in
                    {| schema_Type := "object";
                       schema_Properties :=
                         match map_get "properties" entries with
                         | Some props => props
                         | None => ANil
                         end;
                       schema_Required :=
                         match map_get "required" entries with
                         | Some (AStrings req) => req
                         | _ => []
                         end |} in
                  {| tool_Name := Request.fd_Name funcDecl;
                     tool_Description := Request.fd_Description funcDecl;
                     tool_InputSchema :=
                       match Request.fd_ParametersJsonSchema funcDecl with
                       | OpenAI.ParamsMap m => fromMap m
                       | _ => {| schema_Type := "object"; schema_Properties := ANil;
                                 schema_Required := [] |}
                       end |})
               (Request.FunctionDeclarations tool)
       end)
    genaiTools.

(** The loop of [buildMessageParams] over the contents. *)
Fixpoint convertContents (contents : list RequestContent) (messages : list MessageParam)
  : result (list MessageParam) :=
  match contents with
  | [] => Ok messages
  | content :: rest =>
      match convertContentToMessage content with
      | Err err => Err err
      | Ok (Some msg) => convertContents rest (messages ++ [msg])%list
      | Ok None => convertContents rest messages
      end
  end.

(** [buildMessageParams] for the adapter of model [name]. *)
Definition buildMessageParams (name : string) (req : Request.LLMRequest)
  : result MessageNewParams :=
  let maxTokens :=
    match Request.Config req with
    | Some cfg =>
        if 0 <? Request.cfg_MaxOutputTokens cfg then Request.cfg_MaxOutputTokens cfg
        else 4096
    | None => 4096
    end in
  let system :=
    match Request.Config req with
    | Some cfg =>
        match Request.cfg_SystemInstruction cfg with
        | Some instruction =>
            let systemText := extractTextFromContent (Some instruction) in
            if negb (String.eqb systemText "") then [systemText] else []
        | None => []
        end
    | None => []
    end in
  match convertContents (Request.Contents req) [] with
  | Err err => Err err
  | Ok messages =>
      let messages := repairMessageHistory messages in
      Ok {| p_Model := name;
            p_MaxTokens := maxTokens;
            p_System := system;
            p_Messages := messages;
            p_Temperature :=
              match Request.Config req with
              | Some cfg => option_map Request.float64_of (Request.cfg_Temperature cfg)
              | None => None
              end;
            p_TopP :=
              match Request.Config req with
              | Some cfg => option_map Request.float64_of (Request.cfg_TopP cfg)
              | None => None
              end;
            p_StopSequences :=
              match Request.Config req with
              | Some cfg => Request.cfg_StopSequences cfg
              | None => []
              end;
            p_Tools :=
              match Request.Config req with
              | Some cfg =>
                  if 0 <? Z.of_nat (length (Request.cfg_Tools cfg))
                  then convertTools (Request.cfg_Tools cfg) else []
              | None => []
              end |}
  end.

(** [client.Messages.New] *)
Variable Messages_New : MessageNewParams -> result Message.

Variable json_Unmarshal : string -> result map_string_any.

(** [generate]: the items the iterator hands to [yield]. *)
Definition generate (name : string) (req : Request.LLMRequest) : list yielded :=
  match buildMessageParams name req with
  | Err err => [(None, Some err)]
  | Ok params =>
      match Messages_New params with
      | Err err => [(None, Some err)]
      | Ok resp => [(Some (convertResponse json_Unmarshal resp), None)]
      end
  end.

End Requests.

End Anthropic.

(** ** Memory service (package postgres, memory) *)
Module Memory.
Import Go JSON ADK.

(** One row of [memory_entries].  [content] is the JSONB column as
    [sonic.Unmarshal] reads it into a [genai.Content]: [None] when it fails
    to decode.  [embedding] is NULL or a vector. *)
Record row (vector : Type) : Type := mkRow {
  app_name : string;
  user_id : string;
  session_id : string;
  event_id : string;
  author : option string;
  content : option Content;
  content_text : string;
  embedding : option vector;
  timestamp : Z
}.
Arguments mkRow {vector}.
Arguments app_name {vector}.
Arguments user_id {vector}.
Arguments session_id {vector}.
Arguments event_id {vector}.
Arguments author {vector}.
Arguments content {vector}.
Arguments content_text {vector}.
Arguments embedding {vector}.
Arguments timestamp {vector}.

(** [memory.Entry] *)
Record Entry : Type := mkEntry {
  entry_Content : Content;
  entry_Author : string;
  entry_Timestamp : Z
}.

(** [memory.SearchRequest] *)
Record SearchRequest : Type := mkSearchRequest {
  req_AppName : string;
  req_UserID : string;
  req_Query : string
}.

(** [ORDER BY]: insertion into a list kept in order; rows that compare equal
    stay in table order. *)
Fixpoint insert_ordered {A : Type} (before : A -> A -> bool) (x : A) (sorted : list A)
  : list A :=
  match sorted with
  | [] => [x]
  | y :: rest => if before y x then y :: insert_ordered before x rest else x :: y :: rest
  end.

Definition order_by {A : Type} (before : A -> A -> bool) (rows : list A) : list A :=
  fold_left (fun sorted x => insert_ordered before x sorted) rows [].

Section Service.

(** The vectors of the embedding model and pgvector's cosine distance
    [<=>], of which only the order matters. *)
Variable vector : Type.
Variable vector_len : vector -> Z.
Variable cosine_distance : vector -> vector -> Z.

(** [to_tsvector('english', text) @@ plainto_tsquery('english', query)] and
    [ts_rank] of the same pair. *)
Variable ts_match : string -> string -> bool.
Variable ts_rank : string -> string -> Z.

(** [s.embeddingModel]: nil, or the model's [Embed]. *)
Variable embeddingModel : option (string -> result vector).

(** [scanMemories]: rows whose content does not decode are skipped. *)
Fixpoint scanMemories (rows : list (row vector)) : list Entry :=
  match rows with
  | [] => []
  | r :: rest =>
      match content r with
      | None => scanMemories rest
      | Some c =>
          {| entry_Content := c;
             entry_Author := match author r with Some a => a | None => "" end;
             entry_Timestamp := timestamp r |} :: scanMemories rest
      end
  end.

Definition scoped (req : SearchRequest) (r : row vector) : bool :=
  String.eqb (app_name r) (req_AppName req) && String.eqb (user_id r) (req_UserID req).

(** [searchByVector] *)
Definition searchByVector (db : list (row vector)) (req : SearchRequest)
    (queryEmbedding : vector) : list Entry :=
  let distance r :=
    match embedding r with
    | Some e => cosine_distance e queryEmbedding
    | None => 0
    end in
  scanMemories
    (firstn 10
       (order_by (fun r1 r2 => distance r1 <=? distance r2)
          (List.filter (fun r => scoped req r
                                 && match embedding r with Some _ => true | None => false end)
             db))).

(** [searchByText] *)
Definition searchByText (db : list (row vector)) (req : SearchRequest) : list Entry :=
  let rank r := ts_rank (content_text r) (req_Query req) in
  scanMemories
    (firstn 10
       (order_by (fun r1 r2 =>
                    (rank r2 <? rank r1)
                    || ((rank r1 =? rank r2) && (timestamp r2 <=? timestamp r1)))
          (List.filter (fun r => scoped req r && ts_match (content_text r) (req_Query req))
             db))).

(** [searchRecent] *)
Definition searchRecent (db : list (row vector)) (req : SearchRequest) : list Entry :=
  scanMemories
    (firstn 10
       (order_by (fun r1 r2 => timestamp r2 <=? timestamp r1)
          (List.filter (scoped req) db))).

(** The first block of [Search]: the vector stage, with [memories]
    initially nil. *)
Definition vectorStage (db : list (row vector)) (req : SearchRequest) : list Entry :=
  match embeddingModel with
  | Some Embed =>
      if negb (String.eqb (req_Query req) "") then
        match Embed (req_Query req) with
        | Ok queryEmbedding =>
            if 0 <? vector_len queryEmbedding
            then searchByVector db req queryEmbedding
            else []
        | Err _ => []
        end
      else []
  | None => []
  end.

(** [Search], over a database that answers every query. *)
Definition Search (db : list (row vector)) (req : SearchRequest) : list Entry :=
  let memories := vectorStage db req in
  let memories :=
    if (Z.of_nat (length memories) =? 0) && negb (String.eqb (req_Query req) "")
    then searchByText db req
    else memories in
  let memories :=
    if Z.of_nat (length memories) =? 0
    then searchRecent db req
    else memories in
  memories.

End Service.

(** A stand-in for the full-text match, for running [Search] on concrete
    rows: the query occurs in the text. *)
Definition occurs_in (text query : string) : bool :=
  match String.index 0 query text with Some _ => true | None => false end.


(** An answer that stays inside the scope of the request: at most ten
    entries, each the content, author and time of a row of the table that
    belongs to the application and the user of the request. *)
Definition within_scope {vector : Type} (db : list (row vector)) (req : SearchRequest)
    (found : list Entry) : Prop :=
  (length found <= 10)%nat /\
  forall entry,
    In entry found ->
    exists r,
      In r db /\ app_name r = req_AppName req /\ user_id r = req_UserID req /\
      content r = Some (entry_Content entry) /\
      entry_Timestamp entry = timestamp r /\
      entry_Author entry = match author r with Some a => a | None => "" end.


(** *** Ingesting a session *)

(** [session.Event], with the fields [AddSession] reads; a zero
    [Timestamp] is [None] and a nil [Content] is [None]. *)
Record SessionEvent : Type := mkSessionEvent {
  se_ID : string;
  se_InvocationID : string;
  se_Author : string;
  se_Timestamp : option Z;
  se_Content : option Content
}.

(** Whether [sonic.Marshal] accepts the content: the arguments of its
    function calls are the only values of unknown kind in it. *)
Definition content_marshals (c : Content) : bool :=
  forallb (fun part =>
             match part_FunctionCall part with
             | Some fc => marshalable (any_of_map (fc_Args fc))
             | None => true
             end) (content_Parts c).

(** The unique key [(app_name, user_id, session_id, event_id)]. *)
Definition same_key {vector : Type} (r1 r2 : row vector) : bool :=
  String.eqb (app_name r1) (app_name r2) && String.eqb (user_id r1) (user_id r2)
  && String.eqb (session_id r1) (session_id r2) && String.eqb (event_id r1) (event_id r2).

(** [ON CONFLICT ... DO UPDATE SET content, content_text] and, with an
    embedding model, [embedding]: the row keeps its author and time. *)
Definition overwrite {vector : Type} (withEmbedding : bool) (new r : row vector)
  : row vector :=
  {| app_name := app_name r; user_id := user_id r; session_id := session_id r;
     event_id := event_id r; author := author r;
     content := content new; content_text := content_text new;
     embedding := if withEmbedding then embedding new else embedding r;
     timestamp := timestamp r |}.

(** The [INSERT ... ON CONFLICT] of [AddSession]: the row with the key of
    the new one (there is at most one, by the table's constraint) is
    overwritten; without such a row the new one is added. *)
Definition upsert {vector : Type} (withEmbedding : bool) (new : row vector)
    (rows : list (row vector)) : list (row vector) :=
  if existsb (same_key new) rows
  then map (fun r => if same_key new r then overwrite withEmbedding new r else r) rows
  else (rows ++ [new])%list.

Section Ingest.

Variable vector : Type.
Variable vector_len : vector -> Z.

(** [s.embeddingModel]: nil, or the model's [Embed]. *)
Variable embeddingModel : option (string -> result vector).

(** What the column holds of a vector written with [vectorToString], which
    keeps six decimals of each component. *)
Variable stored_vector : vector -> vector.

(** [strings.TrimSpace] *)
Variable strings_TrimSpace : string -> string.

(** [extractTextFromContent] of this package; [None] is the nil
    content. *)
Definition extractTextFromContent (content : option Content) : string :=
  match content with
  | None => ""
  | Some c =>
      strings_TrimSpace
        (strings_Join
           (List.filter (fun text => negb (String.eqb text "")) (map part_Text (content_Parts c)))
           " ")
  end.

Definition withEmbedding : bool :=
  match embeddingModel with Some _ => true | None => false end.

(** The row the loop of [AddSession] writes for an event, [None] when the
    event is skipped; [now] is what [time.Now()] returns. *)
Definition memoryRow (appName userID sessionID : string) (event : SessionEvent) (now : Z)
  : option (row vector) :=
  match se_Content event with
  | None => None
  | Some c =>
      if Z.of_nat (length (content_Parts c)) =? 0 then None
      else
        let text := extractTextFromContent (Some c) in
        if String.eqb text "" then None
        else if negb (content_marshals c) then None
        else
          let timestamp := match se_Timestamp event with Some t => t | None => now end in
          let eventID :=
            if String.eqb (se_ID event) ""
            then se_InvocationID event ++ "-" ++ Shard.format_int timestamp
            else se_ID event in
          Some {| app_name := appName; user_id := userID; session_id := sessionID;
                  event_id := eventID; author := Some (se_Author event);
                  content := Some c; content_text := text;
                  embedding :=
                    match embeddingModel with
                    | Some Embed =>
                        match Embed text with
                        | Ok v => if 0 <? vector_len v then Some (stored_vector v) else None
                        | Err _ => None
                        end
                    | None => None
                    end;
                  timestamp := timestamp |}
  end.

(** The rows the loop writes, in order; [clock k] is the reading of the
    clock at the event of position [k]. *)
Fixpoint memoryRows (appName userID sessionID : string) (clock : nat -> Z) (k : nat)
    (events : list SessionEvent) : list (row vector) :=
  match events with
  | [] => []
  | event :: rest =>
      match memoryRow appName userID sessionID event (clock k) with
      | Some new => new :: memoryRows appName userID sessionID clock (S k) rest
      | None => memoryRows appName userID sessionID clock (S k) rest
      end
  end.

(** [AddSession], over a database that answers every statement.  [events]
    is [None] for a nil [Events()], else what [Len()] and [All()] return. *)
Definition AddSession (appName userID sessionID : string)
    (events : option (Z * list SessionEvent)) (clock : nat -> Z)
    (db : list (row vector)) : list (row vector) :=
  match events with
  | None => db
  | Some (len, all) =>
      if len =? 0 then db
      else fold_left (fun db new => upsert withEmbedding new db)
             (memoryRows appName userID sessionID clock 0 all) db
  end.

End Ingest.

(** Rows that an upsert does not tell apart: same key, same content, text
    and embedding. *)
Definition same_write {vector : Type} (n1 n2 : row vector) : Prop :=
  app_name n1 = app_name n2 /\ user_id n1 = user_id n2 /\ session_id n1 = session_id n2 /\
  event_id n1 = event_id n2 /\
  content n1 = content n2 /\ content_text n1 = content_text n2 /\ embedding n1 = embedding n2.

(** What a row becomes when the rows of a list are written over it in
    turn. *)
Definition written_over {vector : Type} (withEmbedding : bool) (news : list (row vector))
    (r : row vector) : row vector :=
  fold_left (fun r new => if same_key new r then overwrite withEmbedding new r else r) news r.

End Memory.

(** ** Cached session service (package redis: service, session, state) *)
Module Redis.
Import Go JSON.

(** [time.Duration], in nanoseconds. *)
Definition Millisecond : Z := 1000000.
Definition Second : Z := 1000000000.
Definition Hour : Z := 3600 * Second.
Definition DefaultSessionTTL : Z := 24 * Hour.

(** [int64(d.Seconds())].  [Seconds] is
    [float64(d / Second) + float64(d % Second) / 1e9]: the quotient of the
    nanoseconds is rounded to a [float64], [m * 2^-e] with [m] of 53 bits, the
    sum is rounded again, and the conversion cuts the fraction off.  Near a
    whole second the sum can round up to it. *)
Definition Duration_Seconds_int64 (d : Z) : Z :=
  let sec := Z.quot (Z.abs d) Second in
  let nsec := Z.rem (Z.abs d) Second in
  let whole :=
    if nsec =? 0 then float64_of_Z sec
    else
      let L := Z.log2 nsec in
      let e := if 2 ^ 52 * Second <=? nsec * 2 ^ (81 - L) then 81 - L else 82 - L in
      let m := round_half_even (nsec * 2 ^ e) Second in
      float64_of_Z (float64_of_Z sec * 2 ^ e + m) / 2 ^ e in
  Z.sgn d * whole.

(** The client library sends a time to live in the unit of the command:
    its [formatMs], [formatSec] and [usePrecise]. *)
Definition formatMs (dur : Z) : Z :=
  if (0 <? dur) && (dur <? Millisecond) then 1 else Z.quot dur Millisecond.

Definition formatSec (dur : Z) : Z :=
  if (0 <? dur) && (dur <? Second) then 1 else Z.quot dur Second.

Definition usePrecise (dur : Z) : bool :=
  (dur <? Second) || negb (Z.rem dur Second =? 0).

(** *** The cache

    A key holds a string (here: the JSON document stored in it), a list or a
    set, and a time to live: [None] when the key does not expire, else the
    time to live given by the command that last set it.  The cache answers
    every command; the passing of time is not part of the model. *)
Inductive rvalue : Type :=
| RString (data : any)
| RList (items : list any)
| RSet (members : gset string).

Record entry : Type := mkEntry {
  value : rvalue;
  expire : option Z
}.

Definition redis_Nil : error := ErrNew "redis: nil".
Definition WRONGTYPE : error :=
  ErrNew "WRONGTYPE Operation against a key holding the wrong kind of value".

(** [err == redis.Nil] *)
Definition is_redis_Nil (err : error) : bool :=
  match err with
  | ErrNew msg => String.eqb msg "redis: nil"
  | ErrWrap _ _ => false
  end.

(** The time to live a [SET key value] with [expiration] leaves on the
    key: the client sends [PX] with whole milliseconds for a duration below a
    second or not of whole seconds, else [EX] with the seconds; none for [0],
    the old one for [redis.KeepTTL]. *)
Definition set_expire (expiration : Z) (old : option Z) : option Z :=
  if 0 <? expiration then
    if usePrecise expiration then Some (formatMs expiration * Millisecond)
    else Some (formatSec expiration * Second)
  else if expiration =? -1 then old
  else None.

(** [rdb.Set(ctx, key, value, expiration)] *)
Definition cmd_Set (key : string) (data : any) (expiration : Z)
    (cache : gmap string entry) : gmap string entry :=
  <[key := {| value := RString data;
              expire := set_expire expiration
                          (match cache !! key with Some e => expire e | None => None end) |}]>
    cache.

(** [rdb.Get(ctx, key)] *)
Definition cmd_Get (key : string) (cache : gmap string entry) : result any :=
  match cache !! key with
  | None => Err redis_Nil
  | Some {| value := RString data |} => Ok data
  | Some _ => Err WRONGTYPE
  end.

(** [rdb.SAdd(ctx, key, member)] *)
Definition cmd_SAdd (key member : string) (cache : gmap string entry)
  : result (gmap string entry) :=
  match cache !! key with
  | None => Ok (<[key := {| value := RSet {[member]}; expire := None |}]> cache)
  | Some {| value := RSet members; expire := ex |} =>
      Ok (<[key := {| value := RSet ({[member]} ∪ members); expire := ex |}]> cache)
  | Some _ => Err WRONGTYPE
  end.

(** [rdb.RPush(ctx, key, value)] *)
Definition cmd_RPush (key : string) (data : any) (cache : gmap string entry)
  : result (gmap string entry) :=
  match cache !! key with
  | None => Ok (<[key := {| value := RList [data]; expire := None |}]> cache)
  | Some {| value := RList items; expire := ex |} =>
      Ok (<[key := {| value := RList (items ++ [data])%list; expire := ex |}]> cache)
  | Some _ => Err WRONGTYPE
  end.

(** [rdb.Expire(ctx, key, expiration)]: the client sends whole seconds;
    nothing happens to a missing key; a time to live that is not positive
    deletes the key. *)
Definition cmd_Expire (key : string) (expiration : Z) (cache : gmap string entry)
  : gmap string entry :=
  match cache !! key with
  | None => cache
  | Some e =>
      let seconds := formatSec expiration in
      if 0 <? seconds
      then <[key := {| value := value e; expire := Some (seconds * Second) |}]> cache
      else delete key cache
  end.

Definition expire_of (cache : gmap string entry) (key : string) : option Z :=
  match cache !! key with
  | Some e => expire e
  | None => None
  end.

(** *** Keys *)

(** [buildSessionKey] *)
Definition buildSessionKey (appName userID sessionID : string) : string :=
  "session:" ++ appName ++ ":" ++ userID ++ ":" ++ sessionID.

(** [buildSessionIndexKey] *)
Definition buildSessionIndexKey (appName userID : string) : string :=
  "session:" ++ appName ++ ":" ++ userID.

(** [buildEventsKey] *)
Definition buildEventsKey (appName userID sessionID : string) : string :=
  "events:" ++ appName ++ ":" ++ userID ++ ":" ++ sessionID.

(** *** The envelope and its JSON form *)

(** [storableSession] *)
Record storableSession : Type := mkStorable {
  ss_ID : string;
  ss_AppName : string;
  ss_UserID : string;
  ss_State : map_string_any;
  ss_LastUpdateTime : Z
}.

Definition state_to_any (state : map_string_any) : any :=
  match state with
  | Some entries => AMap entries
  | None => ANil
  end.

(** [sonic.Marshal(storable)]: an error when the state holds a value that
    has no JSON form. *)
Definition Marshal_storable (st : storableSession) : result any :=
  if marshalable (state_to_any (ss_State st)) then
    Ok (AMap [("id", AString (ss_ID st));
              ("app_name", AString (ss_AppName st));
              ("user_id", AString (ss_UserID st));
              ("state", state_to_any (ss_State st));
              ("last_update_time", ANumber (ss_LastUpdateTime st))])
  else Err (ErrNew "json: unsupported type").

Definition field_string (key : string) (fields : list (string * any)) : result string :=
  match map_get key fields with
  | None | Some ANil => Ok ""
  | Some (AString s) => Ok s
  | Some _ => Err (ErrNew "json: cannot unmarshal into Go struct field of type string")
  end.

Definition field_state (fields : list (string * any)) : result map_string_any :=
  match map_get "state" fields with
  | None | Some ANil => Ok None
  | Some (AMap entries) => Ok (Some entries)
  | Some _ => Err (ErrNew "json: cannot unmarshal into Go struct field of type map[string]interface {}")
  end.

Definition field_time (key : string) (fields : list (string * any)) : result Z :=
  match map_get key fields with
  | None | Some ANil => Ok 0
  | Some (ANumber t) => Ok t
  | Some _ => Err (ErrNew "parsing time")
  end.

(** [sonic.Unmarshal(data, &storable)]: absent fields keep their zero
    value, a field of the wrong kind is an error. *)
Definition Unmarshal_storable (data : any) : result storableSession :=
  match data with
  | ANil => Ok (mkStorable "" "" "" None 0)
  | AMap fields =>
      match field_string "id" fields, field_string "app_name" fields,
            field_string "user_id" fields, field_state fields,
            field_time "last_update_time" fields with
      | Ok id, Ok app, Ok user, Ok state, Ok t => Ok (mkStorable id app user state t)
      | Err e, _, _, _, _ | _, Err e, _, _, _ | _, _, Err e, _, _
      | _, _, _, Err e, _ | _, _, _, _, Err e => Err e
      end
  | _ => Err (ErrNew "json: cannot unmarshal into Go value of type storableSession")
  end.

(** [session.Event], with the fields the service touches and the rest of
    the event as one value. *)
Record Event : Type := mkEvent {
  ev_ID : string;
  ev_Author : string;
  ev_Timestamp : Z;
  ev_Payload : any
}.

(** [sonic.Marshal(evt)] *)
Definition Marshal_event (evt : Event) : result any :=
  if marshalable (ev_Payload evt) then
    Ok (AMap [("id", AString (ev_ID evt));
              ("author", AString (ev_Author evt));
              ("timestamp", ANumber (ev_Timestamp evt));
              ("payload", ev_Payload evt)])
  else Err (ErrNew "json: unsupported type").

(** *** The state of a session *)

(** [redisState]: the local map, whether a client is attached, the session
    key and the time to live. *)
Record redisState : Type := mkState {
  st_data : gmap string any;
  st_client : bool;
  st_key : string;
  st_ttl : Z
}.

(** [newRedisState] *)
Definition newRedisState (initial : map_string_any) (client : bool) (key : string)
    (ttl : Z) : redisState :=
  {| st_data := match initial with
                | Some entries => list_to_map entries
                | None => ∅
                end;
     st_client := client; st_key := key; st_ttl := ttl |}.

(** [toMap] *)
Definition toMap (s : redisState) : list (string * any) := map_to_list (st_data s).

(** What a script hands back to the client. *)
Inductive script_reply : Type :=
| ReplyStatus (status : string)
| ReplyError (msg : string)
| ReplyNil.

(** *** The JSON library of the script

    [cjson.decode] reads every number into a [double] and every array and
    object into a table; [cjson.encode] writes a number with 14 significant
    digits, refuses one that is not finite, and writes a table without entries
    as [{}], so an empty array comes back as an empty object.  Both refuse more
    than 1000 levels of nesting.  The order in which the keys of an object are
    written is Lua's and is not modelled: the entries keep their order. *)

Fixpoint count_digits (fuel : nat) (a : Z) : Z :=
  match fuel with
  | O => 0
  | S fuel' => if a <? 10 then 1 else 1 + count_digits fuel' (a / 10)
  end.

(** The number of decimal digits of [a >= 0]. *)
Definition decimal_length (a : Z) : Z := count_digits (Z.to_nat (Z.log2 a) + 1) a.

(** A number after [cjson.decode] and [cjson.encode]: rounded to a
    [double], then to 14 significant digits. *)
Definition cjson_number (n : Z) : Z :=
  let d := float64_of_Z (Z.abs n) in
  let k := decimal_length d in
  Z.sgn n * (if k <=? 14 then d else let q := 10 ^ (k - 14) in round_half_even d q * q).

(** A value after [cjson.decode] and [cjson.encode]. *)
Fixpoint cjson_image (v : any) : any :=
  match v with
  | ANumber n => ANumber (cjson_number n)
  | AStrings l => match l with [] => AMap [] | _ => AStrings l end
  | ASlice l => match l with [] => AMap [] | _ => ASlice (map cjson_image l) end
  | AMap entries => AMap (map (fun kv => (fst kv, cjson_image (snd kv))) entries)
  | other => other
  end.

(** The levels of nesting of a value. *)
Fixpoint cjson_depth (v : any) : Z :=
  match v with
  | AStrings _ => 1
  | ASlice l => 1 + fold_right Z.max 0 (map cjson_depth l)
  | AMap entries => 1 + fold_right Z.max 0 (map (fun kv => cjson_depth (snd kv)) entries)
  | _ => 0
  end.

(** Whether every number of the value is finite as a [double]. *)
Fixpoint cjson_finite (v : any) : bool :=
  match v with
  | ANumber n => float64_of_Z (Z.abs n) <? 2 ^ 1024
  | ASlice l => forallb cjson_finite l
  | AMap entries => forallb (fun kv => cjson_finite (snd kv)) entries
  | _ => true
  end.


(** Whether [cjson.decode] accepts the document. *)
Definition cjson_decodes (v : any) : bool :=
  marshalable v && (cjson_depth v <=? 1000).

(** The fields of the table a document decodes into, as [cjson.encode]
    writes them once the table has string keys: the entries of an object, the
    elements of an array under their positions; [None] for a document that is
    no table, which the script cannot index. *)
Definition numbered (l : list any) : list (string * any) :=
  combine (map (fun i => Shard.format_int (Z.of_nat i)) (seq 1 (length l))) l.

Definition cjson_fields (data : any) : option (list (string * any)) :=
  match data with
  | AMap entries => Some entries
  | ASlice l => Some (numbered l)
  | AStrings l => Some (numbered (map AString l))
  | _ => None
  end.

Definition cjson_decode_error : string :=
  "ERR user_script: cjson.decode: document refused".
Definition cjson_encode_error : string :=
  "ERR user_script: cjson.encode: Cannot serialise".

(** [updateStateScript], run by the cache as one step.  A Lua table with
    the single field [err] is sent to the client as an error reply, and so is
    an error raised by the JSON library.  The time stamp is a string of the
    script's argument and is stored as it is given. *)
Definition updateStateScript (key : string) (newState : any) (ttl : Z) (timestamp : Z)
    (cache : gmap string entry) : script_reply * gmap string entry :=
  match cache !! key with
  | None => (ReplyError "session not found", cache)
  | Some {| value := RString data |} =>
      if negb (cjson_decodes data && cjson_decodes newState)
      then (ReplyError cjson_decode_error, cache)
      else
        match cjson_fields data with
        | Some session =>
            let fields := map_set "state" newState session in
            if (cjson_depth (AMap fields) <=? 1000)
               && cjson_finite (AMap (map_set "last_update_time" ANil fields))
            then
              let updated :=
                AMap (map_set "last_update_time" (ANumber timestamp)
                        (map (fun kv => (fst kv, cjson_image (snd kv))) fields)) in
              (ReplyStatus "OK",
               <[key := {| value := RString updated;
                           expire := if 0 <? ttl then Some (ttl * Second) else None |}]> cache)
            else (ReplyError cjson_encode_error, cache)
        | None => (ReplyError "ERR user_script: attempt to index a non-table value", cache)
        end
  | Some _ => (ReplyError "WRONGTYPE Operation against a key holding the wrong kind of value", cache)
  end.

(** [script.Run(...).Result()]: an error reply is a Go error carrying the
    message, a nil reply is [redis.Nil]. *)
Definition Result_of (reply : script_reply) : result string :=
  match reply with
  | ReplyStatus status => Ok status
  | ReplyError msg => Err (ErrNew msg)
  | ReplyNil => Err redis_Nil
  end.

(** [persistAtomic]; [now] is what [time.Now()] returns. *)
Definition persistAtomic (s : redisState) (now : Z) (cache : gmap string entry)
  : option error * gmap string entry :=
  if negb (st_client s) then (None, cache)
  else
    let stateMap := AMap (toMap s) in
    if negb (marshalable stateMap)
    then (Some (ErrWrap "failed to marshal state" (ErrNew "json: unsupported type")), cache)
    else
      let timestamp := Z.quot now Second * Second in
      let '(reply, cache') :=
        updateStateScript (st_key s) stateMap (Duration_Seconds_int64 (st_ttl s)) timestamp
          cache in
      match Result_of reply with
      | Err err =>
          if is_redis_Nil err then (None, cache')
          else (Some (ErrWrap "failed to persist state atomically" err), cache')
      | Ok result =>
          if String.eqb result "OK" then (None, cache')
          else (Some (ErrNew "unexpected result from state update script"), cache')
      end.

(** [redisState.Set] *)
Definition State_Set (s : redisState) (key : string) (v : any) (now : Z)
    (cache : gmap string entry) : option error * redisState * gmap string entry :=
  let s' := {| st_data := <[key := v]> (st_data s); st_client := st_client s;
               st_key := st_key s; st_ttl := st_ttl s |} in
  let '(err, cache') := persistAtomic s' now cache in
  (err, s', cache').

(** [redisState.Get] *)
Definition State_Get (s : redisState) (key : string) : result any :=
  match st_data s !! key with
  | Some v => Ok v
  | None => Err (ErrNew "state key does not exist")
  end.

(** *** The service *)

(** [NewRedisSessionService]: the time to live the service keeps. *)
Definition NewRedisSessionService_ttl (ttl : Z) : Z :=
  if ttl <=? 0 then DefaultSessionTTL else ttl.

(** [redisSession], without its event view. *)
Record redisSession : Type := mkSession {
  sess_id : string;
  sess_appName : string;
  sess_userID : string;
  sess_state : redisState;
  sess_lastUpdateTime : Z
}.

(** [toStorable] *)
Definition toStorable (s : redisSession) : storableSession :=
  {| ss_ID := sess_id s; ss_AppName := sess_appName s; ss_UserID := sess_userID s;
     ss_State := Some (toMap (sess_state s));
     ss_LastUpdateTime := sess_lastUpdateTime s |}.

(** [session.CreateRequest] *)
Record CreateRequest : Type := mkCreateRequest {
  cr_AppName : string;
  cr_UserID : string;
  cr_SessionID : string;
  cr_State : map_string_any
}.

(** [Create]; [generated] is what [generateSessionID()] returns and [now]
    what [time.Now()] returns. *)
Definition Create (ttl : Z) (req : CreateRequest) (generated : string) (now : Z)
    (cache : gmap string entry) : result redisSession * gmap string entry :=
  let sessionID := if String.eqb (cr_SessionID req) "" then generated else cr_SessionID req in
  let key := buildSessionKey (cr_AppName req) (cr_UserID req) sessionID in
  let sess := {| sess_id := sessionID; sess_appName := cr_AppName req;
                 sess_userID := cr_UserID req;
                 sess_state := newRedisState (cr_State req) true key ttl;
                 sess_lastUpdateTime := now |} in
  match Marshal_storable (toStorable sess) with
  | Err err => (Err (ErrWrap "failed to marshal session" err), cache)
  | Ok data =>
      let cache := cmd_Set key data ttl cache in
      let indexKey := buildSessionIndexKey (cr_AppName req) (cr_UserID req) in
      match cmd_SAdd indexKey sessionID cache with
      | Err err => (Err (ErrWrap "failed to add session to index" err), cache)
      | Ok cache =>
          let cache := cmd_Expire indexKey ttl cache in
          (Ok sess, cache)
      end
  end.

(** The [session.Session] handed to [AppendEvent]: its identity and the
    entries of [State().All()], [None] when [State()] is nil. *)
Record Session : Type := mkSessionView {
  sv_ID : string;
  sv_AppName : string;
  sv_UserID : string;
  sv_State : option (list (string * any))
}.

(** The event as [AppendEvent] stamps it. *)
Definition stamped (evt : Event) (now1 : Z) (generated : string) : Event :=
  {| ev_ID := if String.eqb (ev_ID evt) "" then generated else ev_ID evt;
     ev_Author := ev_Author evt;
     ev_Timestamp := now1;
     ev_Payload := ev_Payload evt |}.

(** Whether the error comes from the read-modify-write of the envelope. *)
Definition envelope_error (err : error) : bool :=
  match err with
  | ErrWrap ctx _ =>
      String.eqb ctx "failed to get session for update"
      || String.eqb ctx "failed to unmarshal session"
      || String.eqb ctx "failed to marshal updated session"
  | ErrNew _ => false
  end.

(** [AppendEvent]; [now1] and [now2] are the two readings of the clock,
    [generated] is what [generateSessionID()] returns.  The result is the
    error (if any), the event as the call leaves it, and the cache. *)
Definition AppendEvent (ttl : Z) (sess : option Session) (evt : Event)
    (now1 now2 : Z) (generated : string) (cache : gmap string entry)
  : option error * Event * gmap string entry :=
  match sess with
  | None => (Some (ErrNew "session cannot be nil"), evt, cache)
  | Some sess =>
      let evt := stamped evt now1 generated in
      match Marshal_event evt with
      | Err err => (Some (ErrWrap "failed to marshal event" err), evt, cache)
      | Ok data =>
          let evKey := buildEventsKey (sv_AppName sess) (sv_UserID sess) (sv_ID sess) in
          match cmd_RPush evKey data cache with
          | Err err => (Some (ErrWrap "failed to append event" err), evt, cache)
          | Ok cache =>
              let cache := cmd_Expire evKey ttl cache in
              let key := buildSessionKey (sv_AppName sess) (sv_UserID sess) (sv_ID sess) in
              match cmd_Get key cache with
              | Err err => (Some (ErrWrap "failed to get session for update" err), evt, cache)
              | Ok sessData =>
                  match Unmarshal_storable sessData with
                  | Err err => (Some (ErrWrap "failed to unmarshal session" err), evt, cache)
                  | Ok storable =>
                      let storable :=
                        {| ss_ID := ss_ID storable; ss_AppName := ss_AppName storable;
                           ss_UserID := ss_UserID storable;
                           ss_State := match sv_State sess with
                                       | Some entries => Some entries
                                       | None => ss_State storable
                                       end;
                           ss_LastUpdateTime := now2 |} in
                      match Marshal_storable storable with
                      | Err err =>
                          (Some (ErrWrap "failed to marshal updated session" err), evt, cache)
                      | Ok updatedData => (None, evt, cmd_Set key updatedData ttl cache)
                      end
                  end
              end
          end
      end
  end.

(** The items of the list stored under [key]; none when the key is
    missing. *)
Definition list_items (cache : gmap string entry) (key : string) : list any :=
  match cache !! key with
  | Some {| value := RList items |} => items
  | _ => []
  end.

(** "Every mutation resets the TTL of the session record, its events list
    and its per-user index entry": the three keys of the session carry the
    service's time to live. *)
Definition all_three_reset (ttl : Z) (appName userID sessionID : string)
    (cache : gmap string entry) : Prop :=
  expire_of cache (buildSessionKey appName userID sessionID) = Some ttl /\
  expire_of cache (buildEventsKey appName userID sessionID) = Some ttl /\
  expire_of cache (buildSessionIndexKey appName userID) = Some ttl.


(** *** Reading and deleting *)

(** [rdb.LRange(ctx, key, 0, -1)]: the empty list for a missing key. *)
Definition cmd_LRange (key : string) (cache : gmap string entry) : result (list any) :=
  match cache !! key with
  | None => Ok []
  | Some {| value := RList items |} => Ok items
  | Some _ => Err WRONGTYPE
  end.

(** [rdb.SMembers(ctx, key)]: no member for a missing key. *)
Definition cmd_SMembers (key : string) (cache : gmap string entry) : result (list string) :=
  match cache !! key with
  | None => Ok []
  | Some {| value := RSet members |} => Ok (elements members)
  | Some _ => Err WRONGTYPE
  end.

(** [rdb.Del(ctx, key)] *)
Definition cmd_Del (key : string) (cache : gmap string entry) : gmap string entry :=
  delete key cache.

(** [rdb.SRem(ctx, key, member)]: a set left without members is removed. *)
Definition cmd_SRem (key member : string) (cache : gmap string entry)
  : result (gmap string entry) :=
  match cache !! key with
  | None => Ok cache
  | Some {| value := RSet members; expire := ex |} =>
      let rest := members ∖ {[member]} in
      if decide (rest = ∅) then Ok (delete key cache)
      else Ok (<[key := {| value := RSet rest; expire := ex |}]> cache)
  | Some _ => Err WRONGTYPE
  end.

Definition ErrSessionNotFound : error := ErrNew "session not found".

(** [fmt.Errorf("%w: %s", ErrSessionNotFound, sessionID)]: the error wraps
    [ErrSessionNotFound]; the text that follows the cause is kept where
    [ErrWrap] keeps the text that precedes it. *)
Definition sessionNotFound (sessionID : string) : error :=
  ErrWrap sessionID ErrSessionNotFound.

(** [sonic.Unmarshal(data, &evt)], the reverse of [Marshal_event]: absent
    fields keep their zero value, a field of the wrong kind is an error. *)
Definition Unmarshal_event (data : any) : result Event :=
  match data with
  | ANil => Ok (mkEvent "" "" 0 ANil)
  | AMap fields =>
      match field_string "id" fields, field_string "author" fields,
            field_time "timestamp" fields with
      | Ok id, Ok author, Ok t =>
          Ok (mkEvent id author t
                (match map_get "payload" fields with Some p => p | None => ANil end))
      | Err e, _, _ | _, Err e, _ | _, _, Err e => Err e
      end
  | _ => Err (ErrNew "json: cannot unmarshal into Go value of type session.Event")
  end.

(** The loop that [Get] and [refreshCacheLocked] share: the items that
    decode, in order; the others are logged and skipped. *)
Definition decodeEvents (eventData : list any) : list Event :=
  omap (fun ed => match Unmarshal_event ed with
                  | Ok evt => Some evt
                  | Err _ => None
                  end) eventData.

(** [redisEvents]: whether a client is attached, the key of the list and
    the cached events. *)
Record redisEvents : Type := mkEvents {
  events_client : bool;
  events_key : string;
  events_cached : list Event
}.

(** [newRedisEvents]; the nil slice is the empty list. *)
Definition newRedisEvents (events : list Event) (client : bool) (key : string)
  : redisEvents :=
  {| events_client := client; events_key := key; events_cached := events |}.

(** [refreshCacheLocked] *)
Definition refreshCacheLocked (e : redisEvents) (cache : gmap string entry) : redisEvents :=
  if negb (events_client e) || String.eqb (events_key e) "" then e
  else
    match cmd_LRange (events_key e) cache with
    | Err _ => e
    | Ok eventData =>
        {| events_client := events_client e; events_key := events_key e;
           events_cached := decodeEvents eventData |}
    end.

(** [redisEvents.All]: the snapshot the iterator walks, and the handle
    with its cache refreshed. *)
Definition Events_All (e : redisEvents) (cache : gmap string entry)
  : list Event * redisEvents :=
  let e := refreshCacheLocked e cache in
  (events_cached e, e).

(** [redisEvents.Len] *)
Definition Events_Len (e : redisEvents) : Z := Z.of_nat (length (events_cached e)).

(** [redisEvents.At]; [None] is nil. *)
Definition Events_At (e : redisEvents) (idx : Z) : option Event :=
  if (idx <? 0) || (Z.of_nat (length (events_cached e)) <=? idx) then None
  else nth_error (events_cached e) (Z.to_nat idx).

(** [session.GetRequest]; [After] is [None] for the zero time. *)
Record GetRequest : Type := mkGetRequest {
  gr_AppName : string;
  gr_UserID : string;
  gr_SessionID : string;
  gr_NumRecentEvents : Z;
  gr_After : option Z
}.

(** The two filters of [Get], in the order it applies them. *)
Definition recentEvents (numRecentEvents : Z) (events : list Event) : list Event :=
  if (0 <? numRecentEvents) && (numRecentEvents <? Z.of_nat (length events))
  then skipn (length events - Z.to_nat numRecentEvents) events
  else events.

Definition eventsAfter (after : option Z) (events : list Event) : list Event :=
  match after with
  | None => events
  | Some t => List.filter (fun evt => negb (ev_Timestamp evt <? t)) events
  end.

(** The session that [Get] and [List] make of a stored envelope. *)
Definition sessionOf (ttl : Z) (storable : storableSession) (key : string) : redisSession :=
  {| sess_id := ss_ID storable; sess_appName := ss_AppName storable;
     sess_userID := ss_UserID storable;
     sess_state := newRedisState (ss_State storable) true key ttl;
     sess_lastUpdateTime := ss_LastUpdateTime storable |}.

(** [Get]: the session and its event view. *)
Definition Get (ttl : Z) (req : GetRequest) (cache : gmap string entry)
  : result (redisSession * redisEvents) :=
  let key := buildSessionKey (gr_AppName req) (gr_UserID req) (gr_SessionID req) in
  match cmd_Get key cache with
  | Err err =>
      if is_redis_Nil err then Err (sessionNotFound (gr_SessionID req))
      else Err (ErrWrap "failed to get session" err)
  | Ok data =>
      match Unmarshal_storable data with
      | Err err => Err (ErrWrap "failed to unmarshal session" err)
      | Ok storable =>
          let evKey := buildEventsKey (gr_AppName req) (gr_UserID req) (gr_SessionID req) in
          let loaded :=
            match cmd_LRange evKey cache with
            | Err err =>
                if is_redis_Nil err then Ok [] else Err (ErrWrap "failed to get events" err)
            | Ok eventData => Ok eventData
            end in
          match loaded with
          | Err err => Err err
          | Ok eventData =>
              let events := decodeEvents eventData in
              let events := recentEvents (gr_NumRecentEvents req) events in
              let events := eventsAfter (gr_After req) events in
              Ok (sessionOf ttl storable key, newRedisEvents events true evKey)
          end
      end
  end.

(** [pipe.Exec]: the error of the first command that failed. *)
Definition pipeline_error {T} (replies : list (result T)) : option error :=
  head (omap (fun reply => match reply with
                           | Err err => Some err
                           | Ok _ => None
                           end) replies).

(** What [List] makes of the reply to one [GET] of the pipeline; [None]
    when the session is skipped. *)
Definition listedSession (ttl : Z) (appName userID sessionID : string)
    (reply : result any) : option (redisSession * redisEvents) :=
  match reply with
  | Err _ => None
  | Ok data =>
      match Unmarshal_storable data with
      | Err _ => None
      | Ok storable =>
          Some (sessionOf ttl storable (buildSessionKey appName userID sessionID),
                newRedisEvents [] true (buildEventsKey appName userID sessionID))
      end
  end.

(** [List]: the sessions of the index whose record is there and decodes. *)
Definition List (ttl : Z) (appName userID : string) (cache : gmap string entry)
  : result (list (redisSession * redisEvents)) :=
  let indexKey := buildSessionIndexKey appName userID in
  match cmd_SMembers indexKey cache with
  | Err err => Err (ErrWrap "failed to list sessions" err)
  | Ok sessionIDs =>
      if Z.of_nat (length sessionIDs) =? 0 then Ok []
      else
        let sessionCmds :=
          map (fun sessionID =>
                 (sessionID, cmd_Get (buildSessionKey appName userID sessionID) cache))
              sessionIDs in
        let sessions :=
          omap (fun cmd => listedSession ttl appName userID (fst cmd) (snd cmd))
               sessionCmds in
        match pipeline_error (map snd sessionCmds) with
        | Some err =>
            if is_redis_Nil err then Ok sessions
            else Err (ErrWrap "failed to batch get sessions" err)
        | None => Ok sessions
        end
  end.

(** [Delete]: the three commands of the pipeline run in order; the error,
    if any, is that of the [SREM]. *)
Definition Delete (appName userID sessionID : string) (cache : gmap string entry)
  : option error * gmap string entry :=
  let key := buildSessionKey appName userID sessionID in
  let evKey := buildEventsKey appName userID sessionID in
  let indexKey := buildSessionIndexKey appName userID in
  let cache := cmd_Del key cache in
  let cache := cmd_Del evKey cache in
  match cmd_SRem indexKey sessionID cache with
  | Err err => (Some (ErrWrap "failed to delete session" err), cache)
  | Ok cache => (None, cache)
  end.

(** Whether the text has no colon, the separator of the keys. *)
Definition no_colon (s : string) : bool :=
  forallb (fun b => negb (b =? 58)) (bytes_of_string s).

End Redis.

(** ** The durable persister (package postgres, session): the synchronous path *)
Module Persister.
Import Go JSON Shard.

(** A row of [sessions]; its primary key is [(app_name, user_id, id)]. *)
Record session_row : Type := mkSessionRow {
  sr_id : string;
  sr_app_name : string;
  sr_user_id : string;
  sr_state : any;
  sr_last_update_time : Z
}.

(** A row of a [session_events_<i>] table; its primary key is
    [(app_name, user_id, session_id, event_order)]. *)
Record event_row : Type := mkEventRow {
  er_id : string;
  er_app_name : string;
  er_user_id : string;
  er_session_id : string;
  er_event_order : Z;
  er_content : any;
  er_author : string;
  er_timestamp : Z
}.

(** The database: the rows of [sessions], and the events tables that
    exist, by name, each with its rows in the order they were inserted. *)
Record database : Type := mkDatabase {
  sessions : list session_row;
  shards : gmap string (list event_row)
}.

Definition events_table (i : Z) : string := "session_events_" ++ format_int i.

(** [initSchema]: [CREATE TABLE IF NOT EXISTS] for every shard below the
    client's shard count. *)
Definition initSchema (shardCount : Z) (db : database) : database :=
  {| sessions := sessions db;
     shards :=
       fold_left
         (fun tables i =>
            match tables !! events_table (Z.of_nat i) with
            | Some _ => tables
            | None => <[events_table (Z.of_nat i) := []]> tables
            end)
         (seq 0 (Z.to_nat shardCount)) (shards db) |}.

(** The [WHERE app_name = $1 AND user_id = $2 AND session_id = $3] of the
    statements on an events table. *)
Definition of_session (appName userID sessionID : string) (row : event_row) : bool :=
  String.eqb (er_app_name row) appName && String.eqb (er_user_id row) userID
  && String.eqb (er_session_id row) sessionID.

(** The [event_order] values of a session in a table, in insertion
    order. *)
Definition session_orders (appName userID sessionID : string) (rows : list event_row)
  : list Z :=
  map er_event_order (List.filter (of_session appName userID sessionID) rows).

(** [SELECT COALESCE(MAX(event_order), -1) + 1]; the column is a 32-bit
    [INT], so the sum is an error past its range. *)
Definition next_order (orders : list Z) : result Z :=
  let greatest := fold_left Z.max orders (-1) in
  if greatest + 1 <=? 2 ^ 31 - 1 then Ok (greatest + 1)
  else Err (ErrNew "pq: integer out of range").

Definition undefined_table : error := ErrNew "pq: relation does not exist".
Definition duplicate_key : error :=
  ErrNew "pq: duplicate key value violates unique constraint".
Definition transaction_aborted : error :=
  ErrNew "pq: current transaction is aborted, commands ignored until end of transaction block".

Section Columns.

(** The database checks the values of a row against the types of the
    columns ([VARCHAR(255)], [JSONB], [TIMESTAMPTZ]) before it stores it: an
    identifier, a name or an author longer than 255 characters is refused, and
    so is a document [JSONB] cannot hold.  The two functions give the error of
    that check, for a row of an events table and for a row of [sessions];
    [None] when the row is accepted. *)
Variable refused_event : event_row -> option error.
Variable refused_session : session_row -> option error.

(** A string that is not text in the encoding of the database is refused
    already as a parameter of a statement, with the statement: the error, if
    any, for a string; and the first error among the parameters of a
    statement. *)
Variable refused_text : string -> option error.

Definition refused_parameters (parameters : list string) : option error :=
  head (omap refused_text parameters).

(** [persistEventSync] for the client's shard count: the statements of the
    transaction in turn.  The error of the locking [SELECT] is ignored, but
    when the database refuses its parameters the transaction is aborted and
    the next statement fails.  The [INSERT] is refused when a value does not
    fit its column, and when the session has a row of that [event_order]
    already.  An error leaves the database as it was: the transaction is
    rolled back. *)
Definition persistEventSync (shardCount : Z) (sess : Redis.Session) (evt : Redis.Event)
    (db : database) : option error * database :=
  match Redis.Marshal_event evt with
  | Err err => (Some (ErrWrap "failed to marshal event" err), db)
  | Ok evtData =>
      let tableName := GetEventsTableName shardCount (Redis.sv_UserID sess) in
      match refused_parameters [Redis.sv_AppName sess; Redis.sv_UserID sess; Redis.sv_ID sess],
            shards db !! tableName with
      | Some _, _ => (Some (ErrWrap "failed to get next event order" transaction_aborted), db)
      | None, None => (Some (ErrWrap "failed to get next event order" undefined_table), db)
      | None, Some rows =>
          match next_order (session_orders (Redis.sv_AppName sess) (Redis.sv_UserID sess)
                              (Redis.sv_ID sess) rows) with
          | Err err => (Some (ErrWrap "failed to get next event order" err), db)
          | Ok nextOrder =>
              let row :=
                {| er_id := Redis.ev_ID evt; er_app_name := Redis.sv_AppName sess;
                   er_user_id := Redis.sv_UserID sess; er_session_id := Redis.sv_ID sess;
                   er_event_order := nextOrder; er_content := evtData;
                   er_author := Redis.ev_Author evt;
                   er_timestamp := Redis.ev_Timestamp evt |} in
              match refused_event row with
              | Some err => (Some (ErrWrap "failed to insert event" err), db)
              | None =>
              if existsb (Z.eqb nextOrder)
                   (session_orders (Redis.sv_AppName sess) (Redis.sv_UserID sess)
                      (Redis.sv_ID sess) rows)
              then (Some (ErrWrap "failed to insert event" duplicate_key), db)
              else
              (None,
               {| sessions :=
                    map (fun s =>
                           if String.eqb (sr_app_name s) (Redis.sv_AppName sess)
                              && String.eqb (sr_user_id s) (Redis.sv_UserID sess)
                              && String.eqb (sr_id s) (Redis.sv_ID sess)
                           then {| sr_id := sr_id s; sr_app_name := sr_app_name s;
                                   sr_user_id := sr_user_id s; sr_state := sr_state s;
                                   sr_last_update_time := Redis.ev_Timestamp evt |}
                           else s)
                        (sessions db);
                  shards := <[tableName := (rows ++ [row])%list]> (shards db) |})
              end
          end
      end
  end.

(** [deleteSessionSync] for the client's shard count: the first [DELETE]
    fails when its table does not exist, and when the database refuses its
    parameters; the second has the same parameters. *)
Definition deleteSessionSync (shardCount : Z) (appName userID sessionID : string)
    (db : database) : option error * database :=
  let tableName := GetEventsTableName shardCount userID in
  match shards db !! tableName, refused_parameters [appName; userID; sessionID] with
  | None, _ => (Some (ErrWrap "failed to delete events" undefined_table), db)
  | Some _, Some err => (Some (ErrWrap "failed to delete events" err), db)
  | Some rows, None =>
      (None,
       {| sessions :=
            List.filter
              (fun s => negb (String.eqb (sr_app_name s) appName
                              && String.eqb (sr_user_id s) userID
                              && String.eqb (sr_id s) sessionID))
              (sessions db);
          shards :=
            <[tableName :=
                List.filter (fun row => negb (of_session appName userID sessionID row)) rows]>
              (shards db) |})
  end.


(** The [ON CONFLICT (app_name, user_id, id)] of the upsert. *)
Definition same_session (appName userID sessionID : string) (s : session_row) : bool :=
  String.eqb (sr_app_name s) appName && String.eqb (sr_user_id s) userID
  && String.eqb (sr_id s) sessionID.

(** The state [persistSessionSync] stores: the collected state, or [{}]
    for a session without state, and for a state that cannot be encoded. *)
Definition stateJSON (sess : Redis.Session) : any :=
  match Redis.sv_State sess with
  | Some entries => if marshalable (AMap entries) then AMap entries else AMap []
  | None => AMap []
  end.

(** [persistSessionSync], with [sess.LastUpdateTime()] as [lastUpdateTime];
    [sessions] is taken to exist, as [initSchema] creates it first.  The row
    of the [INSERT] is checked against the columns; then a row of the same key
    keeps its place and has its state and update time replaced, and otherwise
    the row is inserted. *)
Definition persistSessionSync (sess : Redis.Session) (lastUpdateTime : Z) (db : database)
  : option error * database :=
  let same := same_session (Redis.sv_AppName sess) (Redis.sv_UserID sess) (Redis.sv_ID sess) in
  let row := {| sr_id := Redis.sv_ID sess;
                sr_app_name := Redis.sv_AppName sess;
                sr_user_id := Redis.sv_UserID sess;
                sr_state := stateJSON sess;
                sr_last_update_time := lastUpdateTime |} in
  match refused_session row with
  | Some err => (Some (ErrWrap "failed to persist session" err), db)
  | None =>
      (None,
       {| sessions :=
            if existsb same (sessions db)
            then map (fun s =>
                        if same s
                        then {| sr_id := sr_id s; sr_app_name := sr_app_name s;
                                sr_user_id := sr_user_id s; sr_state := stateJSON sess;
                                sr_last_update_time := lastUpdateTime |}
                        else s)
                     (sessions db)
            else (sessions db ++ [row])%list;
          shards := shards db |})
  end.

End Columns.

(** The primary key of a row of [sessions]. *)
Definition session_key (s : session_row) : string * string * string :=
  (sr_app_name s, sr_user_id s, sr_id s).

End Persister.

(** ** Concrete inputs on which the model is run *)
Module Scenarios.
Import Go JSON ADK.

(** The text-turn scenario on Protocol-A: three text deltas, then the
    finish reason and the usage. *)
Definition scenario_chunks : list OpenAI.ChatCompletionChunk :=
  let no_usage := OpenAI.mkCompletionUsage 0 0 0 in
  [ OpenAI.mkChunk [OpenAI.mkChunkChoice "He" [] ""] no_usage;
    OpenAI.mkChunk [OpenAI.mkChunkChoice "llo" [] ""] no_usage;
    OpenAI.mkChunk [OpenAI.mkChunkChoice "!" [] ""] no_usage;
    OpenAI.mkChunk [OpenAI.mkChunkChoice "" [] "stop"] no_usage;
    OpenAI.mkChunk [] (OpenAI.mkCompletionUsage 1 3 4) ].

Definition scenario_final : LLMResponse :=
  {| resp_Content := Some {| content_Role := "model"; content_Parts := [TextPart "Hello!"] |};
     resp_UsageMetadata := Some {| PromptTokenCount := 1; CandidatesTokenCount := 3;
                                   TotalTokenCount := 4 |};
     resp_FinishReason := FinishReasonStop;
     resp_Partial := false;
     resp_TurnComplete := true |}.

Definition scenario_A (yield : consumer) : list yielded :=
  OpenAI.generateStream minimal_Unmarshal OpenAI.plainAddChunk unit unit
    (fun _ => Ok tt) (fun _ => OpenAI.mkStream scenario_chunks None) tt yield.

(** The same turn on Protocol-B. *)
Definition scenario_events : list Anthropic.MessageStreamEvent :=
  [ Anthropic.MessageStartEvent Anthropic.emptyMessage;
    Anthropic.ContentBlockStartEvent 0 (Anthropic.TextBlock "");
    Anthropic.ContentBlockDeltaEvent 0 (Anthropic.TextDelta "He");
    Anthropic.ContentBlockDeltaEvent 0 (Anthropic.TextDelta "llo");
    Anthropic.ContentBlockDeltaEvent 0 (Anthropic.TextDelta "!");
    Anthropic.ContentBlockStopEvent 0;
    Anthropic.MessageDeltaEvent "end_turn" (Anthropic.mkMessageUsage 1 3);
    Anthropic.MessageStopEvent ].

Definition scenario_B (events : list Anthropic.MessageStreamEvent) (yield : consumer)
  : list yielded :=
  Anthropic.generateStream minimal_Unmarshal Anthropic.plainAccumulate unit unit
    (fun _ => Ok tt) (fun _ => Anthropic.mkStream events None) tt yield.

(** One memory row, and the entry [Search] makes of it. *)
Definition kubernetes_content : Content :=
  {| content_Role := "user"; content_Parts := [TextPart "Tell me about Kubernetes"] |}.

Definition kubernetes_row : Memory.row unit :=
  Memory.mkRow "test_app" "user-1" "sess-search" "e1" (Some "user")
    (Some kubernetes_content) "Tell me about Kubernetes" None 1700000000.

Definition kubernetes_entry : Memory.Entry :=
  Memory.mkEntry kubernetes_content "user" 1700000000.

Definition search_without_embeddings (query user : string) : list Memory.Entry :=
  Memory.Search unit (fun _ => 0) (fun _ _ => 0) Memory.occurs_in (fun _ _ => 0) None
    [kubernetes_row] (Memory.mkSearchRequest "test_app" user query).

(** A session of the cache, an event for it, its state. *)
Definition session_s1 : Redis.Session :=
  Redis.mkSessionView "s1" "app" "u" (Some []).

Definition event_e1 : Redis.Event :=
  Redis.mkEvent "e1" "user" 0 (AString "hi").

Definition state_s1 : Redis.redisState :=
  Redis.newRedisState (Some []) true (Redis.buildSessionKey "app" "u" "s1")
    Redis.DefaultSessionTTL.

(** A cache in which session [s1] of user [u] was created a while ago: the
    record and the index entry have an hour left. *)
Definition envelope_s1 : any :=
  AMap [("id", AString "s1"); ("app_name", AString "app"); ("user_id", AString "u");
        ("state", AMap []); ("last_update_time", ANumber 0)].

Definition aged_cache : gmap string Redis.entry :=
  <[Redis.buildSessionKey "app" "u" "s1" :=
      Redis.mkEntry (Redis.RString envelope_s1) (Some Redis.Hour)]>
    (<[Redis.buildSessionIndexKey "app" "u" :=
         Redis.mkEntry (Redis.RSet {["s1"]}) (Some Redis.Hour)]> ∅).


(** A tool turn as a request carries it: the model calls [lookup] twice,
    under identifiers with characters the Protocol-B pattern refuses, and the
    user answers the first call only. *)
Definition tool_turn_contents : list RequestContent :=
  [ mkRequestContent "user" [mkRequestPart "What is the weather?" None None None];
    mkRequestContent "model"
      [ mkRequestPart "Let me check." None
          (Some (mkFunctionCall "call:1" "lookup" (Some []))) None;
        mkRequestPart "" None (Some (mkFunctionCall "call:2" "lookup" None)) None ];
    mkRequestContent "user"
      [ mkRequestPart "" None None (Some (mkFunctionResponse "call:1" "lookup" (Some []))) ] ].

Definition tool_turn_request : Request.LLMRequest :=
  Request.mkLLMRequest tool_turn_contents None.

(** A stand-in for the Base64 encoder where no image is sent. *)
Definition no_base64 (data : list Z) : string := "".


(** A content under a role the Protocol-A adapter has no message for: a
    text and the answer to a call. *)
Definition tool_role_content : RequestContent :=
  mkRequestContent "tool"
    [ mkRequestPart "the answer follows" None None None;
      mkRequestPart "" None None (Some (mkFunctionResponse "call:1" "lookup" (Some []))) ].


(** A request that offers one tool, whose parameters are an object schema
    without properties; a nil tool stands beside it. *)
Definition tools_request : Request.LLMRequest :=
  Request.mkLLMRequest tool_turn_contents
    (Some (Request.mkConfig None None None 0 [] None "" None
             [ None;
               Some (Request.mkTool
                       [Request.mkFunctionDeclaration "lookup" "Looks the weather up"
                          (OpenAI.ParamsMap (Some [("type", AString "object")])) None]) ])).


(** Two events of a session for the memory: one with an identifier, one
    with a time only; and an event that has neither. *)
Definition memory_events : list Memory.SessionEvent :=
  [ Memory.mkSessionEvent "e1" "inv-1" "user" None (Some kubernetes_content);
    Memory.mkSessionEvent "" "inv-1" "model" (Some 1700000000)
      (Some {| content_Role := "model"; content_Parts := [TextPart "It runs containers."] |}) ].

Definition anonymous_event : Memory.SessionEvent :=
  Memory.mkSessionEvent "" "inv-2" "user" None (Some kubernetes_content).

(** [AddSession] without an embedding model, on texts that have no white
    space to trim. *)
Definition add_session (events : list Memory.SessionEvent) (now : Z)
    (db : list (Memory.row unit)) : list (Memory.row unit) :=
  Memory.AddSession unit (fun _ => 0) None (fun v => v) (fun text => text)
    "test_app" "user-1" "sess-1" (Some (Z.of_nat (length events), events)) (fun _ => now) db.


(** A tool turn whose call identifier is longer than Protocol-A allows:
    the model calls [lookup] under sixty [x] and the user answers it. *)
Definition long_call_request : Request.LLMRequest :=
  Request.mkLLMRequest
    [ mkRequestContent "model"
        [mkRequestPart "" None (Some (mkFunctionCall OpenAI.sixty_x "lookup" (Some []))) None];
      mkRequestContent "user"
        [mkRequestPart "" None None
           (Some (mkFunctionResponse OpenAI.sixty_x "lookup" (Some [])))] ]
    None.


(** A database that counts bytes, as one with a single-byte encoding does,
    and whose [JSONB] holds every document: the column checks of the
    persister for it. *)
Definition too_long : error :=
  ErrNew "pq: value too long for type character varying(255)".

Definition refuse_long_session (s : Persister.session_row) : option error :=
  if forallb (fun v => len v <=? 255)
       [Persister.sr_id s; Persister.sr_app_name s; Persister.sr_user_id s]
  then None else Some too_long.

Definition refuse_long_event (row : Persister.event_row) : option error :=
  if forallb (fun v => len v <=? 255)
       [Persister.er_id row; Persister.er_app_name row; Persister.er_user_id row;
        Persister.er_session_id row; Persister.er_author row]
  then None else Some too_long.

Definition refuse_nul (text : string) : option error :=
  if existsb (Z.eqb 0) (bytes_of_string text)
  then Some (ErrNew "pq: invalid byte sequence for encoding UTF8: 0x00")
  else None.

(** An identifier of 256 bytes. *)
Definition long_identifier : string :=
  Eval vm_compute in
    Nat.iter 256 (String (Ascii.ascii_of_nat 120)) EmptyString.

End Scenarios.

(* ===================================================================== *)
(** * Part II — theorems                                                  *)
(* ===================================================================== *)

Module CryptoFacts.
Import Go Crypto.

Example Sum256_abc :
  hex_EncodeToString (Sum256 (bytes_of_string "abc")) =
  "ba7816bf8f01cfea414140de5dae2223b00361a396177a9cb410ff61f20015ad".
Proof. vm_compute. reflexivity. Qed.

Example round_constants :
  length K256 = 64%nat /\ nth 0 K256 0 = 0x428a2f98 /\ nth 63 K256 0 = 0xc67178f2 /\
  fst (fst (fst (fst (fst (fst (fst init256)))))) = 0x6a09e667.
Proof. repeat split; reflexivity. Qed.

Example Sum256_empty :
  hex_EncodeToString (Sum256 []) =
  "e3b0c44298fc1c149afbf4c8996fb92427ae41e4649b934ca495991b7852b855".
Proof. vm_compute. reflexivity. Qed.

End CryptoFacts.

Module StringFacts.

Lemma length_append (s1 s2 : string) :
  String.length (s1 ++ s2) = (String.length s1 + String.length s2)%nat.
Proof.
  induction s1 as [|a s1 IH]; [reflexivity|].
  change (S (String.length (s1 ++ s2)) = S (String.length s1 + String.length s2)).
  rewrite IH. reflexivity.
Qed.

Lemma length_substring_0 (n : nat) (s : string) :
  (n <= String.length s)%nat -> String.length (String.substring 0 n s) = n.
Proof.
  revert s. induction n as [|n IH]; intros s Hn.
  - destruct s; reflexivity.
  - destruct s as [|a s]; cbn in *; [lia | rewrite IH; [reflexivity | lia]].
Qed.

Lemma append_inv_head (p s1 s2 : string) : p ++ s1 = p ++ s2 -> s1 = s2.
Proof.
  induction p as [|a p IH]; intros H; [exact H|].
  change (String a (p ++ s1) = String a (p ++ s2)) in H.
  injection H as H. auto.
Qed.

End StringFacts.

Module ToolCallIDFacts.
Import Go Crypto OpenAI StringFacts.

Lemma length_hex_EncodeToString (bs : list Z) :
  String.length (hex_EncodeToString bs) = (2 * length bs)%nat.
Proof. induction bs as [|b bs IH]; cbn [hex_EncodeToString String.length length]; lia. Qed.

Lemma length_be_bytes (count : nat) (v : Z) : length (be_bytes count v) = count.
Proof. unfold be_bytes. rewrite length_map, length_rev, length_seq. reflexivity. Qed.

(** A SHA-256 digest has 32 bytes, whatever the message. *)
Lemma length_Sum256 (data : list Z) : length (Sum256 data) = 32%nat.
Proof.
  unfold Sum256.
  destruct (fold_left compress _ init256) as [[[[[[[a b] c] d] e] f] g] h].
  unfold digest_bytes. rewrite !length_app, !length_be_bytes. reflexivity.
Qed.

(** The short form of a long id has exactly 40 bytes. *)
Lemma shortID_length (id : string) :
  String.length ("tc_" ++ String.substring 0 37 (hex_EncodeToString (Sum256 (bytes_of_string id))))
  = 40%nat.
Proof.
  rewrite length_append, length_substring_0.
  - reflexivity.
  - rewrite length_hex_EncodeToString, length_Sum256. lia.
Qed.

(** C4: for every tool-call id, the outbound id has at most 40 bytes; an id
    of at most 40 bytes is sent unchanged (and nothing is recorded); a longer
    id is sent as ["tc_" + hex(sha256(id))[0:37]], which has exactly 40
    bytes, and the reverse lookup of that short id on the adapter gives the
    original id back. *)
Theorem C4_normalizeToolCallID_bounded_and_reversible (m : Model) (id : string) :
  let outbound := fst (normalizeToolCallID m id) in
  let m' := snd (normalizeToolCallID m id) in
  len outbound <= 40 /\
  (len id <= 40 -> outbound = id /\ m' = m) /\
  (40 < len id ->
     outbound = "tc_" ++ String.substring 0 37 (hex_EncodeToString (Sum256 (bytes_of_string id))) /\
     len outbound = 40 /\
     denormalizeToolCallID m' outbound = id).
Proof.
  cbv zeta. unfold normalizeToolCallID, maxToolCallIDLength.
  change (Z.to_nat (40 - 3)) with 37%nat.
  destruct (Z.leb_spec (len id) 40) as [Hshort|Hlong]; cbn [fst snd].
  - split; [exact Hshort|]. split; [intros _; split; reflexivity | lia].
  - pose proof (shortID_length id) as Hlen.
    split; [unfold len; rewrite Hlen; lia|].
    split; [lia|]. intros _. split; [reflexivity|].
    split; [unfold len; rewrite Hlen; reflexivity|].
    unfold denormalizeToolCallID. cbn [toolCall].
    rewrite lookup_insert_eq. reflexivity.
Qed.

Lemma C4_normalizeToolCallID_witness :
  let outbound := fst (normalizeToolCallID (New "gpt-4o") sixty_x) in
  let m' := snd (normalizeToolCallID (New "gpt-4o") sixty_x) in
  outbound = "tc_" ++ String.substring 0 37
               (hex_EncodeToString (Sum256 (bytes_of_string sixty_x))) /\
  len outbound = 40 /\
  denormalizeToolCallID m' outbound = sixty_x.
Proof.
  cbv zeta.
  apply (C4_normalizeToolCallID_bounded_and_reversible (New "gpt-4o") sixty_x).
  vm_compute. reflexivity.
Defined.

Example normalizeToolCallID_sixty_x :
  fst (normalizeToolCallID (New "gpt-4o") sixty_x)
  = "tc_42f2d97335669f86846b721a8aa58551a4656".
Proof. vm_compute. reflexivity. Qed.

Example normalizeToolCallID_short :
  normalizeToolCallID (New "gpt-4o") "call_abc123" = ("call_abc123", New "gpt-4o").
Proof. reflexivity. Qed.

End ToolCallIDFacts.

Module RepairFacts.
Import Go Anthropic.

Lemma allowed_fold_insert (ids : list string) (m0 : gmap string bool) (id : string) :
  allowed (fold_left (fun matched i => <[i := true]> matched) ids m0) id = true
  <-> In id ids \/ allowed m0 id = true.
Proof.
  revert m0. induction ids as [|i ids IH]; intros m0; cbn [fold_left In].
  - tauto.
  - rewrite IH. unfold allowed at 1.
    destruct (decide (i = id)) as [->|Hne].
    + rewrite lookup_insert_eq. cbn. tauto.
    + rewrite lookup_insert_ne by exact Hne. fold (allowed m0 id). tauto.
Qed.

Lemma allowed_matchedIDs_of (ids : list string) (id : string) :
  allowed (matchedIDs_of ids) id = true <-> In id ids.
Proof.
  unfold matchedIDs_of. rewrite allowed_fold_insert.
  unfold allowed. rewrite lookup_empty. cbn. intuition discriminate.
Qed.

Lemma In_extractToolResultIDs (blocks : list ContentBlockParamUnion) (id : string) :
  In id (extractToolResultIDs_blocks blocks) <->
  exists rblock tr, In rblock blocks /\ OfToolResult rblock = Some tr /\ tr_ToolUseID tr = id.
Proof.
  induction blocks as [|b blocks IH]; cbn [extractToolResultIDs_blocks In].
  - split; [tauto | intros (? & ? & [] & _)].
  - destruct (OfToolResult b) as [tr|] eqn:Hb; cbn [In]; rewrite IH; split.
    + intros [Hid | (rb & tr' & Hin & Hr & Hid)].
      * exists b, tr. auto.
      * exists rb, tr'. auto.
    + intros (rb & tr' & [Heq | Hin] & Hr & Hid).
      * subst rb. left. congruence.
      * right. exists rb, tr'. auto.
    + intros (rb & tr' & Hin & Hr & Hid). exists rb, tr'. auto.
    + intros (rb & tr' & [Heq | Hin] & Hr & Hid).
      * subst rb. congruence.
      * exists rb, tr'. auto.
Qed.

Lemma existsb_result_In (blocks : list ContentBlockParamUnion) (id : string) :
  existsb (fun block => match OfToolResult block with
                        | Some tr => String.eqb (tr_ToolUseID tr) id
                        | None => false
                        end) blocks = true
  <-> In id (extractToolResultIDs_blocks blocks).
Proof.
  induction blocks as [|b blocks IH]; cbn [existsb extractToolResultIDs_blocks].
  - cbn. intuition discriminate.
  - rewrite orb_true_iff, IH. destruct (OfToolResult b) as [tr|]; cbn [In].
    + rewrite String.eqb_eq. tauto.
    + intuition discriminate.
Qed.

Lemma allowedIDs_for_answered (next : option MessageParam) (id : string) :
  match allowedIDs_for next with
  | Some ids => allowed ids id
  | None => false
  end = answered_in next id.
Proof.
  unfold allowedIDs_for, answered_in. destruct next as [n|]; [|reflexivity].
  destruct (String.eqb (Role n) MessageParamRoleUser); [|reflexivity].
  cbn [andb]. apply eq_true_iff_eq.
  rewrite allowed_matchedIDs_of, existsb_result_In. reflexivity.
Qed.

Lemma filterToolUse_blocks_filter (blocks : list ContentBlockParamUnion)
    (next : option MessageParam) :
  filterToolUse_blocks blocks (allowedIDs_for next) = List.filter (keep_block next) blocks.
Proof.
  induction blocks as [|b blocks IH]; [reflexivity|].
  cbn [filterToolUse_blocks List.filter]. unfold keep_block at 1.
  pose proof (allowedIDs_for_answered next) as Ha.
  destruct (OfToolUse b) as [tu|].
  - specialize (Ha (tu_ID tu)). rewrite <- Ha.
    destruct (allowedIDs_for next) as [ids|]; [|exact IH].
    destruct (allowed ids (tu_ID tu)); rewrite IH; reflexivity.
  - rewrite IH. reflexivity.
Qed.

Lemma has_tool_use_ids (blocks : list ContentBlockParamUnion) :
  (0 <? Z.of_nat (length (extractToolUseIDs_blocks blocks))) = existsb is_tool_use blocks.
Proof.
  induction blocks as [|b blocks IH]; [reflexivity|].
  cbn [extractToolUseIDs_blocks existsb]. unfold is_tool_use at 1.
  destruct (OfToolUse b); cbn [orb]; [|exact IH].
  cbn [length]. apply Z.ltb_lt. lia.
Qed.

(** One step of the loop, in terms of the message and its successor. *)
Lemma repairMessageHistory_cons (msg : MessageParam) (rest : list MessageParam) :
  repairMessageHistory (msg :: rest) =
  match repaired_message msg (head rest) with
  | Some kept => kept :: repairMessageHistory rest
  | None => repairMessageHistory rest
  end.
Proof.
  cbn [repairMessageHistory]. unfold repaired_message, extractToolUseIDs.
  rewrite has_tool_use_ids.
  destruct (String.eqb (Role msg) MessageParamRoleAssistant && existsb is_tool_use (Content msg));
    [|reflexivity].
  assert (Hf : match rest with
               | next :: _ =>
                   if String.eqb (Role next) MessageParamRoleUser
                   then filterToolUse msg (Some (matchedIDs_of (extractToolResultIDs next)))
                   else filterToolUse msg None
               | [] => filterToolUse msg None
               end
               = {| Role := Role msg; Content := List.filter (keep_block (head rest)) (Content msg) |}).
  { rewrite <- filterToolUse_blocks_filter. unfold filterToolUse, allowedIDs_for.
    destruct rest as [|next rest']; cbn [head]; [reflexivity|].
    destruct (String.eqb (Role next) MessageParamRoleUser); reflexivity. }
  rewrite Hf. unfold hasContent. cbn [Content].
  destruct (List.filter (keep_block (head rest)) (Content msg)) as [|b kept]; reflexivity.
Qed.

(** The loop computes what the specification describes. *)
Lemma repairMessageHistory_refines (messages : list MessageParam) :
  repairMessageHistory messages = repair_spec messages.
Proof.
  induction messages as [|msg rest IH]; [reflexivity|].
  rewrite repairMessageHistory_cons. unfold repair_spec in *.
  cbn [with_next omap list_omap fst snd]. rewrite <- IH.
  destruct (repaired_message msg (head rest)); reflexivity.
Qed.

Lemma repaired_message_user (msg : MessageParam) (next : option MessageParam) :
  Role msg = MessageParamRoleUser -> repaired_message msg next = Some msg.
Proof. intros H. unfold repaired_message. rewrite H. reflexivity. Qed.

Lemma existsb_is_tool_use (blocks : list ContentBlockParamUnion)
    (block : ContentBlockParamUnion) (tu : ToolUseBlockParam) :
  In block blocks -> OfToolUse block = Some tu -> existsb is_tool_use blocks = true.
Proof.
  intros Hin Htu. apply existsb_exists. exists block. split; [exact Hin|].
  unfold is_tool_use. rewrite Htu. reflexivity.
Qed.

Lemma repaired_message_kept (msg kept : MessageParam) (next : option MessageParam) :
  repaired_message msg next = Some kept ->
  Role kept = Role msg /\
  (kept = msg /\
   (String.eqb (Role msg) MessageParamRoleAssistant && existsb is_tool_use (Content msg)) = false
   \/ Content kept = List.filter (keep_block next) (Content msg) /\ Content kept <> []).
Proof.
  unfold repaired_message.
  destruct (String.eqb (Role msg) MessageParamRoleAssistant && existsb is_tool_use (Content msg)).
  - destruct (List.filter (keep_block next) (Content msg)) as [|b bs] eqn:Hf; [discriminate|].
    intros [= <-]. cbn [Role Content]. split; [reflexivity|]. right. split; [reflexivity|discriminate].
  - intros [= <-]. split; [reflexivity|]. left. split; reflexivity.
Qed.

Lemma repaired_message_answered (msg kept : MessageParam) (next : option MessageParam)
    (block : ContentBlockParamUnion) (tu : ToolUseBlockParam) :
  repaired_message msg next = Some kept ->
  Role kept = MessageParamRoleAssistant ->
  In block (Content kept) ->
  OfToolUse block = Some tu ->
  answered_in next (tu_ID tu) = true.
Proof.
  intros Hrep Hrole Hin Htu.
  destruct (repaired_message_kept _ _ _ Hrep) as [Hr [[-> Hcond] | [Hc _]]].
  - rewrite Hrole in Hcond. cbn [andb] in Hcond.
    change (String.eqb MessageParamRoleAssistant MessageParamRoleAssistant) with true in Hcond.
    cbn [andb] in Hcond.
    rewrite (existsb_is_tool_use _ _ _ Hin Htu) in Hcond. discriminate.
  - rewrite Hc in Hin. apply filter_In in Hin as [_ Hkeep].
    unfold keep_block in Hkeep. rewrite Htu in Hkeep. exact Hkeep.
Qed.

Lemma answered_in_inv (next : option MessageParam) (id : string) :
  answered_in next id = true ->
  exists n rblock tr,
    next = Some n /\ Role n = MessageParamRoleUser /\
    In rblock (Content n) /\ OfToolResult rblock = Some tr /\ tr_ToolUseID tr = id.
Proof.
  unfold answered_in. destruct next as [n|]; [|discriminate].
  intros H. apply andb_true_iff in H as [Hrole Hex].
  apply String.eqb_eq in Hrole.
  apply existsb_result_In, In_extractToolResultIDs in Hex as (rb & tr & Hin & Hr & Hid).
  exists n, rb, tr. auto.
Qed.

(** After repair every assistant tool-use block is answered in the message
    right after it. *)
Lemma repairMessageHistory_answered (messages : list MessageParam) :
  tool_use_answered (repairMessageHistory messages).
Proof.
  induction messages as [|msg rest IH]; intros i m block tu Hi Hrole Hin Htu.
  - destruct i; discriminate Hi.
  - rewrite repairMessageHistory_cons in Hi |- *.
    destruct (repaired_message msg (head rest)) as [kept|] eqn:Hrep;
      [|exact (IH i m block tu Hi Hrole Hin Htu)].
    destruct i as [|j].
    + cbn in Hi. injection Hi as ->.
      pose proof (repaired_message_answered _ _ _ _ _ Hrep Hrole Hin Htu) as Hans.
      apply answered_in_inv in Hans as (n & rb & tr & Hnext & Hn & Hrb & Hr & Hid).
      destruct rest as [|n' rest']; [discriminate Hnext|].
      cbn [head] in Hnext. injection Hnext as ->.
      exists n, rb, tr. rewrite repairMessageHistory_cons.
      rewrite (repaired_message_user n (head rest') Hn). cbn. auto.
    + cbn in Hi.
      destruct (IH j m block tu Hi Hrole Hin Htu) as (n & rb & tr & Hn & H).
      exists n, rb, tr. split; [exact Hn | exact H].
Qed.

Lemma filter_other_keep (next : option MessageParam) (blocks : list ContentBlockParamUnion) :
  List.filter (fun b => negb (is_tool_use b)) (List.filter (keep_block next) blocks)
  = List.filter (fun b => negb (is_tool_use b)) blocks.
Proof.
  induction blocks as [|b blocks IH]; [reflexivity|].
  cbn [List.filter]. unfold keep_block at 1, is_tool_use at 2.
  destruct (OfToolUse b) as [tu|] eqn:Hb.
  - cbn [negb]. destruct (answered_in next (tu_ID tu)); [|exact IH].
    cbn [List.filter]. unfold is_tool_use at 1. rewrite Hb. exact IH.
  - cbn [negb List.filter]. unfold is_tool_use at 1. rewrite Hb. cbn [negb].
    rewrite IH. reflexivity.
Qed.

(** No block other than a tool-use block is ever removed. *)
Lemma repairMessageHistory_other_blocks (messages : list MessageParam) :
  other_blocks (repairMessageHistory messages) = other_blocks messages.
Proof.
  induction messages as [|msg rest IH]; [reflexivity|].
  rewrite repairMessageHistory_cons. unfold other_blocks in *. cbn [flat_map].
  rewrite <- IH. unfold repaired_message.
  destruct (String.eqb (Role msg) MessageParamRoleAssistant && existsb is_tool_use (Content msg));
    [|reflexivity].
  rewrite <- (filter_other_keep (head rest) (Content msg)).
  destruct (List.filter (keep_block (head rest)) (Content msg)); reflexivity.
Qed.

(** A message of the repaired history without content blocks was not
    produced by the filter: it is an untouched message of the input. *)
Lemma repairMessageHistory_no_empty (messages : list MessageParam) (m : MessageParam) :
  In m (repairMessageHistory messages) -> Content m = [] -> In m messages.
Proof.
  induction messages as [|msg rest IH]; intros Hin Hempty; [exact Hin|].
  rewrite repairMessageHistory_cons in Hin.
  destruct (repaired_message msg (head rest)) as [kept|] eqn:Hrep.
  - destruct Hin as [<- | Hin]; [|right; auto].
    destruct (repaired_message_kept _ _ _ Hrep) as [_ [[-> _] | [_ Hne]]];
      [left; reflexivity | contradiction].
  - right. auto.
Qed.

(** When the next message is not a user message (or there is none), every
    tool-use block goes; nothing left means the message is dropped. *)
Lemma repaired_message_strips (msg : MessageParam) (next : option MessageParam) :
  Role msg = MessageParamRoleAssistant ->
  existsb is_tool_use (Content msg) = true ->
  match next with Some n => Role n <> MessageParamRoleUser | None => True end ->
  repaired_message msg next =
  match List.filter (fun b => negb (is_tool_use b)) (Content msg) with
  | [] => None
  | kept => Some {| Role := Role msg; Content := kept |}
  end.
Proof.
  intros Hrole Htu Hnext. unfold repaired_message. rewrite Hrole, Htu.
  change (String.eqb MessageParamRoleAssistant MessageParamRoleAssistant && true) with true.
  cbv iota.
  assert (Hf : List.filter (keep_block next) (Content msg)
               = List.filter (fun b => negb (is_tool_use b)) (Content msg)).
  { apply filter_ext. intros b. unfold keep_block, is_tool_use.
    destruct (OfToolUse b) as [tu|]; [|reflexivity]. cbn [negb].
    unfold answered_in. destruct next as [n|]; [|reflexivity].
    apply String.eqb_neq in Hnext. rewrite Hnext. reflexivity. }
  rewrite Hf. reflexivity.
Qed.

(** C3: for every message list, after history repair
    - every tool-use block that remains in an assistant message has a
      tool-result with the same id in the message immediately after it, and
      that message is a user message;
    - the result is what the rule of the specification yields: an assistant
      message carrying tool-use blocks keeps those answered in the next, user,
      message, and is dropped when no block is left;
    - in particular, when the next message is not a user message all its
      tool-use blocks are stripped;
    - no message left empty by the filter remains;
    - the blocks that are not tool-use blocks (text, image, tool-result) are
      all still there, in order. *)
Theorem C3_repairMessageHistory_pairs_tool_use (messages : list MessageParam) :
  let repaired := repairMessageHistory messages in
  tool_use_answered repaired /\
  repaired = repair_spec messages /\
  (forall msg next,
      Role msg = MessageParamRoleAssistant ->
      existsb is_tool_use (Content msg) = true ->
      match next with Some n => Role n <> MessageParamRoleUser | None => True end ->
      repaired_message msg next =
      match List.filter (fun b => negb (is_tool_use b)) (Content msg) with
      | [] => None
      | kept => Some {| Role := Role msg; Content := kept |}
      end) /\
  (forall m, In m repaired -> Content m = [] -> In m messages) /\
  other_blocks repaired = other_blocks messages.
Proof.
  cbv zeta. split; [apply repairMessageHistory_answered|].
  split; [apply repairMessageHistory_refines|].
  split; [apply repaired_message_strips|].
  split; [apply repairMessageHistory_no_empty|].
  apply repairMessageHistory_other_blocks.
Qed.

(** The repair scenario: the unanswered block [B] goes, [A] stays. *)
Example repairMessageHistory_scenario :
  repairMessageHistory
    [ {| Role := "assistant";
         Content := [NewToolUseBlock "A" "lookup" "{}"; NewToolUseBlock "B" "lookup" "{}"] |};
      {| Role := "user"; Content := [NewToolResultBlock "A" "42"] |} ]
  = [ {| Role := "assistant"; Content := [NewToolUseBlock "A" "lookup" "{}"] |};
      {| Role := "user"; Content := [NewToolResultBlock "A" "42"] |} ].
Proof. vm_compute. reflexivity. Qed.

(** An assistant message left without blocks is dropped; text and image
    blocks stay. *)
Example repairMessageHistory_drops_empty :
  repairMessageHistory
    [ {| Role := "assistant"; Content := [NewToolUseBlock "A" "lookup" "{}"] |};
      {| Role := "assistant";
         Content := [NewTextBlock "hi"; NewToolUseBlock "B" "f" "{}";
                     NewImageBlock (mkImage "image/png" "aGk=")] |} ]
  = [ {| Role := "assistant";
         Content := [NewTextBlock "hi"; NewImageBlock (mkImage "image/png" "aGk=")] |} ].
Proof. vm_compute. reflexivity. Qed.

End RepairFacts.

Module StreamingFacts.
Import Go JSON ADK Scenarios.

Lemma filter_turn_complete_partials (texts : list string) :
  List.filter turn_complete (map partial_item texts) = [].
Proof. induction texts as [|t texts IH]; [reflexivity | exact IH]. Qed.

Lemma filter_is_error_partials (texts : list string) :
  List.filter is_error (map partial_item texts) = [].
Proof. induction texts as [|t texts IH]; [reflexivity | exact IH]. Qed.

(** What the shape of a completed stream entails: at least one item, the
    final response last, exactly one turn-complete item, no error item, and
    every earlier item a partial response with non-empty text. *)
Lemma completed_stream_facts (texts : list string) (final : LLMResponse)
    (items : list yielded) :
  completed_stream texts final items ->
  (1 <= length items)%nat /\
  last items = Some (Some final, None) /\
  List.filter turn_complete items = [(Some final, None)] /\
  List.filter is_error items = [] /\
  (forall i item, (i < length items - 1)%nat -> items !! i = Some item ->
     exists text resp,
       item = (Some resp, None) /\ resp_Partial resp = true /\
       resp_TurnComplete resp = false /\ text <> "" /\
       resp_Content resp =
         Some {| content_Role := RoleModel; content_Parts := [TextPart text] |}).
Proof.
  intros (-> & Hne & Hp & Htc).
  split; [rewrite length_app; cbn; lia|].
  split; [apply last_snoc|].
  split; [rewrite List.filter_app, filter_turn_complete_partials; cbn; rewrite Htc; reflexivity|].
  split; [rewrite List.filter_app, filter_is_error_partials; reflexivity|].
  intros i item Hi Hitem. rewrite length_app, length_map in Hi. cbn in Hi.
  rewrite lookup_app_l in Hitem by (rewrite length_map; lia).
  rewrite list_lookup_fmap in Hitem.
  destruct (texts !! i) as [text|] eqn:Ht; [|discriminate].
  cbn in Hitem. injection Hitem as <-.
  exists text, (partialResponse text). repeat split; try reflexivity.
  rewrite Forall_forall in Hne. apply Hne.
  eapply list_elem_of_lookup_2. exact Ht.
Qed.

(** What the shape of a failed stream entails: the error is the last item,
    it is the only error item, and no item is turn-complete. *)
Lemma failed_stream_facts (texts : list string) (err : error) (items : list yielded) :
  failed_stream texts err items ->
  last items = Some (None, Some err) /\
  List.filter is_error items = [(None, Some err)] /\
  List.filter turn_complete items = [].
Proof.
  intros (-> & _).
  split; [apply last_snoc|].
  split; [rewrite List.filter_app, filter_is_error_partials; reflexivity|].
  rewrite List.filter_app, filter_turn_complete_partials. reflexivity.
Qed.

Section ProtocolA.
Import OpenAI.

Variable json_Unmarshal : string -> result map_string_any.
Variable AddChunk : ChatCompletion -> ChatCompletionChunk -> ChatCompletion.
Variable LLMRequest : Type.
Variable Params : Type.
Variable buildChatCompletionParameters : LLMRequest -> result Params.
Variable NewStreaming : Params -> Stream.

Lemma delta_texts_nonempty (chunks : list ChatCompletionChunk) :
  Forall (fun text => text <> "") (delta_texts chunks).
Proof.
  induction chunks as [|chunk chunks IH]; [constructor|].
  unfold delta_texts in *. cbn [omap list_omap].
  destruct (chunkText chunk) as [text|] eqn:Ht; [|exact IH].
  constructor; [|exact IH].
  unfold chunkText in Ht. destruct (chunk_Choices chunk) as [|choice ?]; [discriminate|].
  destruct (String.eqb_spec (delta_Content choice) ""); [discriminate|congruence].
Qed.

Lemma streamLoop_uncancelled (yield : consumer) (chunks : list ChatCompletionChunk)
    (accum : ChatCompletion) (sent : list yielded) :
  (forall delivered, yield delivered = true) ->
  streamLoop AddChunk yield chunks accum sent =
  (Drained (fold_left AddChunk chunks accum),
   (sent ++ map partial_item (delta_texts chunks))%list).
Proof.
  intros Hy. revert accum sent.
  induction chunks as [|chunk chunks IH]; intros accum sent.
  - cbn. rewrite app_nil_r. reflexivity.
  - cbn [streamLoop fold_left]. unfold delta_texts in *. cbn [omap list_omap].
    unfold chunkText at 1. destruct (chunk_Choices chunk) as [|choice ?]; [apply IH|].
    destruct (String.eqb (delta_Content choice) ""); [apply IH|].
    rewrite Hy, IH. cbn [map]. rewrite <- app_assoc. reflexivity.
Qed.

Lemma generateStream_A_build_error (req : LLMRequest) (yield : consumer) (err : error) :
  buildChatCompletionParameters req = Err err ->
  generateStream json_Unmarshal AddChunk LLMRequest Params
    buildChatCompletionParameters NewStreaming req yield = [(None, Some err)].
Proof. intros H. unfold generateStream. rewrite H. reflexivity. Qed.

Lemma generateStream_A_contract (req : LLMRequest) (params : Params) (yield : consumer) :
  (forall delivered, yield delivered = true) ->
  buildChatCompletionParameters req = Ok params ->
  let stream := NewStreaming params in
  let items := generateStream json_Unmarshal AddChunk LLMRequest Params
                 buildChatCompletionParameters NewStreaming req yield in
  match stream_Err stream with
  | None =>
      completed_stream (delta_texts (stream_chunks stream))
        (buildStreamFinalResponse json_Unmarshal
           (fold_left AddChunk (stream_chunks stream) emptyAccumulator))
        items
  | Some err => failed_stream (delta_texts (stream_chunks stream)) err items
  end.
Proof.
  intros Hy Hb. cbv zeta. unfold generateStream. rewrite Hb.
  rewrite (streamLoop_uncancelled yield _ _ _ Hy). cbn [app].
  destruct (stream_Err (NewStreaming params)) as [err|].
  - split; [reflexivity | apply delta_texts_nonempty].
  - split; [reflexivity|]. split; [apply delta_texts_nonempty|]. split; reflexivity.
Qed.

End ProtocolA.

Section ProtocolB.
Import Anthropic.

Variable json_Unmarshal : string -> result map_string_any.
Variable Accumulate : Message -> MessageStreamEvent -> result Message.
Variable LLMRequest : Type.
Variable Params : Type.
Variable buildMessageParams : LLMRequest -> result Params.
Variable NewStreaming : Params -> Stream.

Lemma event_texts_nonempty (events : list MessageStreamEvent) :
  Forall (fun text => text <> "") (event_texts events).
Proof.
  induction events as [|event events IH]; [constructor|].
  unfold event_texts in *. cbn [omap list_omap].
  destruct (eventText event) as [text|] eqn:Ht; [|exact IH].
  constructor; [|exact IH].
  unfold eventText in Ht. destruct event; try discriminate.
  destruct delta; try discriminate.
  destruct (String.eqb_spec text0 ""); [discriminate|congruence].
Qed.

Lemma streamLoop_B_step (yield : consumer) (event : MessageStreamEvent)
    (events : list MessageStreamEvent) (message message' : Message) (sent : list yielded) :
  (forall delivered, yield delivered = true) ->
  Accumulate message event = Ok message' ->
  streamLoop Accumulate yield (event :: events) message sent =
  streamLoop Accumulate yield events message'
    (sent ++ map partial_item (event_texts [event]))%list.
Proof.
  intros Hy Hacc. cbn [streamLoop]. rewrite Hacc.
  unfold event_texts. cbn [omap list_omap].
  destruct event as [m|idx blk|idx delta|idx|sr us|];
    cbn [eventText map]; rewrite ?app_nil_r; try reflexivity.
  destruct delta as [text|pj|]; cbn [map]; rewrite ?app_nil_r; try reflexivity.
  destruct (String.eqb text ""); cbn [map]; rewrite ?app_nil_r; [reflexivity|].
  unfold partial_item. rewrite Hy. reflexivity.
Qed.

Lemma event_texts_cons (event : MessageStreamEvent) (events : list MessageStreamEvent) :
  event_texts (event :: events) = (event_texts [event] ++ event_texts events)%list.
Proof.
  unfold event_texts. cbn [omap list_omap].
  destruct (eventText event); reflexivity.
Qed.

Lemma streamLoop_B_uncancelled (yield : consumer) (events : list MessageStreamEvent)
    (message : Message) (sent : list yielded) :
  (forall delivered, yield delivered = true) ->
  streamLoop Accumulate yield events message sent =
  match accumulateAll Accumulate events message with
  | (taken, Ok final) =>
      (Drained final, (sent ++ map partial_item (event_texts taken))%list)
  | (taken, Err err) =>
      (Failed, (sent ++ map partial_item (event_texts taken) ++ [(None, Some err)])%list)
  end.
Proof.
  intros Hy. revert message sent.
  induction events as [|event events IH]; intros message sent.
  - cbn. rewrite app_nil_r. reflexivity.
  - destruct (Accumulate message event) as [message'|err] eqn:Hacc.
    + rewrite (streamLoop_B_step yield event events message message' sent Hy Hacc), IH.
      cbn [accumulateAll]. rewrite Hacc.
      destruct (accumulateAll Accumulate events message') as [taken [final|err]];
        rewrite (event_texts_cons event taken), map_app, <- !app_assoc; reflexivity.
    + cbn [streamLoop accumulateAll]. rewrite Hacc. reflexivity.
Qed.

Lemma generateStream_B_build_error (req : LLMRequest) (yield : consumer) (err : error) :
  buildMessageParams req = Err err ->
  generateStream json_Unmarshal Accumulate LLMRequest Params
    buildMessageParams NewStreaming req yield = [(None, Some err)].
Proof. intros H. unfold generateStream. rewrite H. reflexivity. Qed.

Lemma generateStream_B_contract (req : LLMRequest) (params : Params) (yield : consumer) :
  (forall delivered, yield delivered = true) ->
  buildMessageParams req = Ok params ->
  let stream := NewStreaming params in
  let items := generateStream json_Unmarshal Accumulate LLMRequest Params
                 buildMessageParams NewStreaming req yield in
  match accumulateAll Accumulate (stream_events stream) emptyMessage, stream_Err stream with
  | (taken, Ok message), None =>
      completed_stream (event_texts taken) (finalResponse json_Unmarshal message) items
  | (taken, Ok _), Some err => failed_stream (event_texts taken) err items
  | (taken, Err err), _ => failed_stream (event_texts taken) err items
  end.
Proof.
  intros Hy Hb. cbv zeta. unfold generateStream. rewrite Hb.
  rewrite (streamLoop_B_uncancelled yield _ _ _ Hy). cbn [app].
  destruct (accumulateAll Accumulate (stream_events (NewStreaming params)) emptyMessage)
    as [taken [message|err]].
  - destruct (stream_Err (NewStreaming params)) as [err|].
    + split; [reflexivity | apply event_texts_nonempty].
    + split; [reflexivity|]. split; [apply event_texts_nonempty|]. split; reflexivity.
  - assert (Hf : failed_stream (event_texts taken) err
                   (map partial_item (event_texts taken) ++ [(None, Some err)])%list).
    { split; [reflexivity | apply event_texts_nonempty]. }
    destruct (stream_Err (NewStreaming params)); exact Hf.
Qed.

End ProtocolB.

Example generateStream_A_scenario :
  scenario_A (fun _ => true) =
  [partial_item "He"; partial_item "llo"; partial_item "!"; (Some scenario_final, None)].
Proof. vm_compute. reflexivity. Qed.

(** A consumer that stops after the second item gets nothing more. *)
Example generateStream_A_cancelled :
  scenario_A (fun delivered => Nat.ltb (length delivered) 2) =
  [partial_item "He"; partial_item "llo"].
Proof. vm_compute. reflexivity. Qed.

Example generateStream_B_scenario :
  scenario_B scenario_events (fun _ => true) =
  [partial_item "He"; partial_item "llo"; partial_item "!"; (Some scenario_final, None)].
Proof. vm_compute. reflexivity. Qed.

(** A text delta for a block that was never started makes the accumulator
    fail: the error is the only item. *)
Example generateStream_B_accumulate_error :
  scenario_B [Anthropic.ContentBlockDeltaEvent 0 (Anthropic.TextDelta "He")] (fun _ => true) =
  [(None, Some (ErrNew "received event of type text_delta but there was no content block"))].
Proof. vm_compute. reflexivity. Qed.

Lemma convertBlocks_flat_map (json_Unmarshal : string -> result map_string_any)
    (blocks : list Anthropic.ContentBlock) :
  Anthropic.convertBlocks json_Unmarshal blocks
  = flat_map
      (fun block =>
         match block with
         | Anthropic.TextBlock text => [TextPart text]
         | Anthropic.ToolUseBlock id name input =>
             [FunctionCallPart {| fc_ID := id; fc_Name := name;
                                  fc_Args := Anthropic.convertToolInput json_Unmarshal input |}]
         | Anthropic.OtherBlock => []
         end)
      blocks.
Proof.
  induction blocks as [|block rest IH]; [reflexivity|].
  destruct block; cbn [Anthropic.convertBlocks flat_map app]; rewrite IH; reflexivity.
Qed.

(** C1: for both adapters, a streaming call whose request translates and
    whose consumer never stops it yields
    - when the upstream stream ends without error (and, on Protocol-B, the
      accumulator accepts every event): one partial response per non-empty
      text fragment, in arrival order, each with [Partial = true],
      [TurnComplete = false], the role [model], that fragment as its only
      part, and neither usage nor finish reason, followed by exactly one
      final response, with [Partial = false] and [TurnComplete = true], built
      from the accumulated message: its parts are the accumulated text and
      one function call per accumulated tool call, with the identifier, the
      name and the decoded arguments; its finish reason is the accumulated
      one, translated; its usage holds the accumulated token counts.  So
      there is at least one item, the final response is last, and it is the
      only turn-complete item;
    - when the upstream stream reports an error (or the accumulator rejects
      an event): the partial responses delivered until then followed by
      exactly one [(nil, err)], which is last; no item is turn-complete;
    and a call whose request does not translate yields that error alone. *)
Theorem C1_streaming_yields_partials_then_one_final
    (json_Unmarshal : string -> result map_string_any)
    (AddChunk : OpenAI.ChatCompletion -> OpenAI.ChatCompletionChunk -> OpenAI.ChatCompletion)
    (RequestA ParamsA : Type)
    (buildChatCompletionParameters : RequestA -> result ParamsA)
    (NewStreamingA : ParamsA -> OpenAI.Stream)
    (reqA : RequestA) (paramsA : ParamsA)
    (Accumulate : Anthropic.Message -> Anthropic.MessageStreamEvent -> result Anthropic.Message)
    (RequestB ParamsB : Type)
    (buildMessageParams : RequestB -> result ParamsB)
    (NewStreamingB : ParamsB -> Anthropic.Stream)
    (reqB : RequestB) (paramsB : ParamsB)
    (yield : consumer) :
  (forall delivered, yield delivered = true) ->
  buildChatCompletionParameters reqA = Ok paramsA ->
  buildMessageParams reqB = Ok paramsB ->
  let streamA := NewStreamingA paramsA in
  let itemsA := OpenAI.generateStream json_Unmarshal AddChunk RequestA ParamsA
                  buildChatCompletionParameters NewStreamingA reqA yield in
  let streamB := NewStreamingB paramsB in
  let itemsB := Anthropic.generateStream json_Unmarshal Accumulate RequestB ParamsB
                  buildMessageParams NewStreamingB reqB yield in
  let partial_of : string -> yielded := fun text =>
    (Some {| resp_Content :=
               Some {| content_Role := "model";
                       content_Parts := [{| part_Text := text; part_FunctionCall := None |}] |};
             resp_UsageMetadata := None;
             resp_FinishReason := FinishReasonUnspecified;
             resp_Partial := true;
             resp_TurnComplete := false |}, None) in
  let int32 := fun v : Z => (v + 2 ^ 31) mod 2 ^ 32 - 2 ^ 31 in
  let decoded := fun data : string =>
    match json_Unmarshal data with
    | Ok args => args
    | Err _ => Some []
    end in
  let textsA :=
    omap (fun chunk =>
            match OpenAI.chunk_Choices chunk with
            | [] => None
            | choice :: _ =>
                if String.eqb (OpenAI.delta_Content choice) "" then None
                else Some (OpenAI.delta_Content choice)
            end)
         (OpenAI.stream_chunks streamA) in
  let texts_of :=
    omap (fun event =>
            match event with
            | Anthropic.ContentBlockDeltaEvent _ (Anthropic.TextDelta text) =>
                if String.eqb text "" then None else Some text
            | _ => None
            end) in
  match OpenAI.stream_Err streamA with
  | None =>
      let accum :=
        fold_left AddChunk (OpenAI.stream_chunks streamA) OpenAI.emptyAccumulator in
      let final := OpenAI.buildStreamFinalResponse json_Unmarshal accum in
      completed_stream (OpenAI.delta_texts (OpenAI.stream_chunks streamA)) final itemsA /\
      (1 <= length itemsA)%nat /\
      last itemsA = Some (Some final, None) /\
      List.filter turn_complete itemsA = [(Some final, None)] /\
      itemsA = (map partial_of textsA ++ [(Some final, None)])%list /\
      Forall (fun text => text <> "") textsA /\
      resp_Partial final = false /\
      resp_TurnComplete final = true /\
      resp_Content final
      = Some {| content_Role := "model";
                content_Parts :=
                  match OpenAI.Choices accum with
                  | [] => []
                  | choice :: _ =>
                      let message := OpenAI.choice_Message choice in
                      ((if String.eqb (OpenAI.msg_Content message) "" then []
                        else [{| part_Text := OpenAI.msg_Content message;
                                 part_FunctionCall := None |}])
                       ++ map (fun tc =>
                                 {| part_Text := "";
                                    part_FunctionCall :=
                                      Some {| fc_ID := OpenAI.tc_ID tc;
                                              fc_Name := OpenAI.tc_Function_Name tc;
                                              fc_Args :=
                                                if String.eqb
                                                     (OpenAI.tc_Function_Arguments tc) ""
                                                then Some []
                                                else decoded
                                                       (OpenAI.tc_Function_Arguments tc) |} |})
                              (OpenAI.msg_ToolCalls message))%list
                  end |} /\
      resp_FinishReason final
      = match OpenAI.Choices accum with
        | [] => FinishReasonUnspecified
        | choice :: _ =>
            let reason := OpenAI.choice_FinishReason choice in
            if String.eqb reason "stop" || String.eqb reason "tool_calls"
               || String.eqb reason "function_call" then FinishReasonStop
            else if String.eqb reason "length" then FinishReasonMaxTokens
            else if String.eqb reason "content_filter" then FinishReasonSafety
            else FinishReasonUnspecified
        end /\
      resp_UsageMetadata final
      = (let usage := OpenAI.Usage accum in
         if OpenAI.TotalTokens usage =? 0 then None
         else Some {| PromptTokenCount := int32 (OpenAI.PromptTokens usage);
                      CandidatesTokenCount := int32 (OpenAI.CompletionTokens usage);
                      TotalTokenCount := int32 (OpenAI.TotalTokens usage) |})
  | Some err =>
      failed_stream (OpenAI.delta_texts (OpenAI.stream_chunks streamA)) err itemsA /\
      last itemsA = Some (None, Some err) /\
      List.filter is_error itemsA = [(None, Some err)] /\
      List.filter turn_complete itemsA = [] /\
      itemsA = (map partial_of textsA ++ [(None, Some err)])%list /\
      Forall (fun text => text <> "") textsA
  end /\
  match Anthropic.accumulateAll Accumulate (Anthropic.stream_events streamB) Anthropic.emptyMessage,
        Anthropic.stream_Err streamB with
  | (taken, Ok message), None =>
      let final := Anthropic.finalResponse json_Unmarshal message in
      completed_stream (Anthropic.event_texts taken) final itemsB /\
      (1 <= length itemsB)%nat /\
      last itemsB = Some (Some final, None) /\
      List.filter turn_complete itemsB = [(Some final, None)] /\
      itemsB = (map partial_of (texts_of taken) ++ [(Some final, None)])%list /\
      Forall (fun text => text <> "") (texts_of taken) /\
      resp_Partial final = false /\
      resp_TurnComplete final = true /\
      resp_Content final
      = Some {| content_Role := "model";
                content_Parts :=
                  flat_map
                    (fun block =>
                       match block with
                       | Anthropic.TextBlock text =>
                           [{| part_Text := text; part_FunctionCall := None |}]
                       | Anthropic.ToolUseBlock id name input =>
                           [{| part_Text := "";
                               part_FunctionCall :=
                                 Some {| fc_ID := id; fc_Name := name;
                                         fc_Args :=
                                           match input with
                                           | Anthropic.InputNil => Some []
                                           | Anthropic.InputMap args => args
                                           | Anthropic.InputRaw raw => decoded raw
                                           | Anthropic.InputOther (Ok data) => decoded data
                                           | Anthropic.InputOther (Err _) => Some []
                                           end |} |}]
                       | Anthropic.OtherBlock => []
                       end)
                    (Anthropic.message_Content message) |} /\
      resp_FinishReason final
      = (let reason := Anthropic.message_StopReason message in
         if String.eqb reason "end_turn" || String.eqb reason "stop_sequence"
            || String.eqb reason "tool_use" then FinishReasonStop
         else if String.eqb reason "max_tokens" then FinishReasonMaxTokens
         else FinishReasonUnspecified) /\
      resp_UsageMetadata final
      = (let usage := Anthropic.message_Usage message in
         if (0 <? Anthropic.InputTokens usage) || (0 <? Anthropic.OutputTokens usage)
         then Some {| PromptTokenCount := int32 (Anthropic.InputTokens usage);
                      CandidatesTokenCount := int32 (Anthropic.OutputTokens usage);
                      TotalTokenCount :=
                        int32 ((Anthropic.InputTokens usage + Anthropic.OutputTokens usage
                                + 2 ^ 63) mod 2 ^ 64 - 2 ^ 63) |}
         else None)
  | (taken, Ok _), Some err | (taken, Err err), _ =>
      failed_stream (Anthropic.event_texts taken) err itemsB /\
      last itemsB = Some (None, Some err) /\
      List.filter is_error itemsB = [(None, Some err)] /\
      List.filter turn_complete itemsB = [] /\
      itemsB = (map partial_of (texts_of taken) ++ [(None, Some err)])%list /\
      Forall (fun text => text <> "") (texts_of taken)
  end /\
  (forall req err,
     buildChatCompletionParameters req = Err err ->
     OpenAI.generateStream json_Unmarshal AddChunk RequestA ParamsA
       buildChatCompletionParameters NewStreamingA req yield = [(None, Some err)]) /\
  (forall req err,
     buildMessageParams req = Err err ->
     Anthropic.generateStream json_Unmarshal Accumulate RequestB ParamsB
       buildMessageParams NewStreamingB req yield = [(None, Some err)]).
Proof.
  intros Hy HA HB. cbv zeta. split; [|split; [|split]].
  3:{ intros req err Herr. apply generateStream_A_build_error. exact Herr. }
  3:{ intros req err Herr. apply generateStream_B_build_error. exact Herr. }
  - pose proof (generateStream_A_contract json_Unmarshal AddChunk RequestA ParamsA
                  buildChatCompletionParameters NewStreamingA reqA paramsA yield Hy HA) as H.
    cbv zeta in H. destruct (OpenAI.stream_Err (NewStreamingA paramsA)) as [err|].
    + split; [exact H|]. destruct (failed_stream_facts _ _ _ H) as (H1 & H2 & H3).
      split; [exact H1|]. split; [exact H2|]. split; [exact H3|].
      destruct H as [Hitems Hne]. split; [exact Hitems | exact Hne].
    + split; [exact H|]. destruct (completed_stream_facts _ _ _ H) as (H1 & H2 & H3 & _).
      split; [exact H1|]. split; [exact H2|]. split; [exact H3|].
      destruct H as (Hitems & Hne & _ & _).
      split; [exact Hitems|]. split; [exact Hne|].
      split; [reflexivity|]. split; [reflexivity|].
      unfold OpenAI.buildStreamFinalResponse. cbn [resp_Content resp_FinishReason resp_UsageMetadata].
      destruct (OpenAI.Choices
                  (fold_left AddChunk (OpenAI.stream_chunks (NewStreamingA paramsA))
                     OpenAI.emptyAccumulator)) as [|choice rest];
        (split; [reflexivity|]; split; reflexivity).
  - pose proof (generateStream_B_contract json_Unmarshal Accumulate RequestB ParamsB
                  buildMessageParams NewStreamingB reqB paramsB yield Hy HB) as H.
    cbv zeta in H.
    destruct (Anthropic.accumulateAll Accumulate
                (Anthropic.stream_events (NewStreamingB paramsB)) Anthropic.emptyMessage)
      as [taken [message|err]].
    + destruct (Anthropic.stream_Err (NewStreamingB paramsB)) as [err|].
      * split; [exact H|]. destruct (failed_stream_facts _ _ _ H) as (H1 & H2 & H3).
        split; [exact H1|]. split; [exact H2|]. split; [exact H3|].
        destruct H as [Hitems Hne]. split; [exact Hitems | exact Hne].
      * split; [exact H|]. destruct (completed_stream_facts _ _ _ H) as (H1 & H2 & H3 & _).
        split; [exact H1|]. split; [exact H2|]. split; [exact H3|].
        destruct H as (Hitems & Hne & _ & _).
        split; [exact Hitems|]. split; [exact Hne|].
        split; [reflexivity|]. split; [reflexivity|].
        unfold Anthropic.finalResponse, Anthropic.convertResponse.
        cbn [resp_Content resp_FinishReason resp_UsageMetadata].
        rewrite convertBlocks_flat_map.
        split; [|split; [|reflexivity]].
        -- do 2 f_equal.
        -- unfold Anthropic.convertStopReason.
           destruct (String.eqb (Anthropic.message_StopReason message) "end_turn");
             [reflexivity|].
           destruct (String.eqb (Anthropic.message_StopReason message) "max_tokens") eqn:Hmax.
           ++ apply String.eqb_eq in Hmax. rewrite Hmax. reflexivity.
           ++ destruct (String.eqb (Anthropic.message_StopReason message) "stop_sequence");
                [reflexivity|].
              destruct (String.eqb (Anthropic.message_StopReason message) "tool_use");
                reflexivity.
    + assert (Hf : failed_stream (Anthropic.event_texts taken) err
                (Anthropic.generateStream json_Unmarshal Accumulate RequestB ParamsB
                   buildMessageParams NewStreamingB reqB yield)).
      { destruct (Anthropic.stream_Err (NewStreamingB paramsB)); exact H. }
      destruct (failed_stream_facts _ _ _ Hf) as (H1 & H2 & H3).
      destruct (Anthropic.stream_Err (NewStreamingB paramsB));
        (split; [exact Hf|]; split; [exact H1|]; split; [exact H2|]; split; [exact H3|];
         destruct Hf as [Hitems Hne]; split; [exact Hitems | exact Hne]).
Qed.

Lemma C1_streaming_witness :
  (scenario_A (fun _ => true)
   = [ (Some (mkLLMResponse (Some (mkContent "model" [mkPart "He" None])) None
                FinishReasonUnspecified true false), None);
       (Some (mkLLMResponse (Some (mkContent "model" [mkPart "llo" None])) None
                FinishReasonUnspecified true false), None);
       (Some (mkLLMResponse (Some (mkContent "model" [mkPart "!" None])) None
                FinishReasonUnspecified true false), None);
       (Some (mkLLMResponse (Some (mkContent "model" [mkPart "Hello!" None]))
                (Some (mkUsage 1 3 4)) FinishReasonStop false true), None) ] /\
   List.filter turn_complete (scenario_A (fun _ => true)) = [(Some scenario_final, None)]) /\
  (scenario_B scenario_events (fun _ => true)
   = [ (Some (mkLLMResponse (Some (mkContent "model" [mkPart "He" None])) None
                FinishReasonUnspecified true false), None);
       (Some (mkLLMResponse (Some (mkContent "model" [mkPart "llo" None])) None
                FinishReasonUnspecified true false), None);
       (Some (mkLLMResponse (Some (mkContent "model" [mkPart "!" None])) None
                FinishReasonUnspecified true false), None);
       (Some (mkLLMResponse (Some (mkContent "model" [mkPart "Hello!" None]))
                (Some (mkUsage 1 3 4)) FinishReasonStop false true), None) ] /\
   List.filter turn_complete (scenario_B scenario_events (fun _ => true))
   = [(Some scenario_final, None)]).
Proof.
  destruct (C1_streaming_yields_partials_then_one_final
              minimal_Unmarshal OpenAI.plainAddChunk unit unit
              (fun _ => Ok tt) (fun _ => OpenAI.mkStream scenario_chunks None) tt tt
              Anthropic.plainAccumulate unit unit
              (fun _ => Ok tt) (fun _ => Anthropic.mkStream scenario_events None) tt tt
              (fun _ => true) (fun _ => eq_refl) eq_refl eq_refl)
    as [(_ & _ & _ & HA4 & HA5 & _) [(_ & _ & _ & HB4 & HB5 & _) _]].
  split; split; [exact HA5 | exact HA4 | exact HB5 | exact HB4].
Defined.

End StreamingFacts.

Module SchemaFacts.
Import Go JSON OpenAI.

Lemma map_get_map_set_ne (key key' : string) (v : any) (entries : list (string * any)) :
  key <> key' -> map_get key' (map_set key v entries) = map_get key' entries.
Proof.
  intros Hne. induction entries as [|[k old] rest IH]; cbn [map_set map_get].
  - apply String.eqb_neq in Hne. rewrite Hne. reflexivity.
  - destruct (String.eqb_spec k key) as [->|Hk]; cbn [map_get].
    + apply String.eqb_neq in Hne. rewrite Hne. reflexivity.
    + rewrite IH. reflexivity.
Qed.

Lemma map_has_map_set (key : string) (v : any) (entries : list (string * any)) :
  map_has key (map_set key v entries) = true.
Proof.
  unfold map_has. induction entries as [|[k old] rest IH]; cbn [map_set map_get].
  - rewrite String.eqb_refl. reflexivity.
  - destruct (String.eqb_spec k key) as [->|Hk]; cbn [map_get].
    + rewrite String.eqb_refl. reflexivity.
    + apply String.eqb_neq in Hk. rewrite Hk. exact IH.
Qed.

Lemma forallb_map_set (G : string * any -> bool) (key : string) (v : any)
    (entries : list (string * any)) :
  forallb G entries = true -> G (key, v) = true ->
  forallb G (map_set key v entries) = true.
Proof.
  intros Hall Hnew. induction entries as [|[k old] rest IH]; cbn [map_set forallb].
  - rewrite Hnew. reflexivity.
  - cbn [forallb] in Hall. apply andb_true_iff in Hall as [Hhead Hrest].
    destruct (String.eqb_spec k key) as [->|Hk]; cbn [forallb].
    + rewrite Hnew, Hrest. reflexivity.
    + rewrite Hhead, (IH Hrest). reflexivity.
Qed.

Lemma ensureObjectProperties_any_map (schema : list (string * any)) :
  ensureObjectProperties_any (AMap schema) =
  AMap (match map_get "type" schema with
        | Some (AString t) =>
            if String.eqb t "object" && negb (map_has "properties" schema)
            then map_set "properties" (AMap []) (map visit_entry schema)
            else map visit_entry schema
        | _ => map visit_entry schema
        end).
Proof. reflexivity. Qed.

Lemma fst_visit_entry (kv : string * any) : fst (visit_entry kv) = fst kv.
Proof.
  destruct kv as [k x]. unfold visit_entry.
  destruct (String.eqb k "properties"); [destruct x; reflexivity|].
  destruct (String.eqb k "items"); [destruct x; reflexivity | reflexivity].
Qed.

Lemma map_get_visit_type (schema : list (string * any)) :
  map_get "type" (map visit_entry schema) = map_get "type" schema.
Proof.
  induction schema as [|[k x] rest IH]; [reflexivity|].
  cbn [map]. pose proof (fst_visit_entry (k, x)) as Hk.
  destruct (visit_entry (k, x)) as [k' x'] eqn:Hv. cbn [fst] in Hk. subst k'.
  cbn [map_get]. destruct (String.eqb_spec k "type") as [->|Hne]; [|exact IH].
  cbn in Hv. injection Hv as <-. reflexivity.
Qed.

Lemma map_has_visit (key : string) (schema : list (string * any)) :
  map_has key (map visit_entry schema) = map_has key schema.
Proof.
  unfold map_has. induction schema as [|[k x] rest IH]; [reflexivity|].
  cbn [map]. pose proof (fst_visit_entry (k, x)) as Hk.
  destruct (visit_entry (k, x)) as [k' x'] eqn:Hv. cbn [fst] in Hk. subst k'.
  cbn [map_get]. destruct (String.eqb k key); [reflexivity | exact IH].
Qed.

Lemma objects_have_properties_map (schema : list (string * any)) :
  objects_have_properties (AMap schema) =
  node_has_properties schema && forallb entry_ok schema.
Proof. reflexivity. Qed.

(** [ensureObjectProperties] establishes the property on the node it is
    given and on the values below it. *)
Lemma ensureObjectProperties_any_ok (v : any) :
  objects_have_properties (ensureObjectProperties_any v) = true /\
  (forall entries, v = AMap entries ->
     Forall (fun kv => objects_have_properties (ensureObjectProperties_any (snd kv)) = true)
            entries).
Proof.
  induction v as [| | | | | l _ | schema IH |] using any_nested_ind;
    try (split; [reflexivity | intros ? [=]]).
  assert (Hchildren :
    Forall (fun kv => objects_have_properties (ensureObjectProperties_any (snd kv)) = true)
           schema).
  { eapply Forall_impl; [exact IH|]. intros kv [H _]. exact H. }
  split; [|intros entries [= <-]; exact Hchildren].
  assert (Hvisited : forallb entry_ok (map visit_entry schema) = true).
  { apply forallb_forall. intros kv' Hin. apply in_map_iff in Hin as ([k x] & <- & Hin).
    rewrite Forall_forall in IH.
    destruct (IH (k, x) ltac:(apply list_elem_of_In; exact Hin)) as [Hx Hbelow].
    cbn [snd] in Hx, Hbelow. unfold visit_entry, entry_ok.
    destruct (String.eqb k "properties") eqn:Hprops.
    - destruct x as [| | | | | |props|]; try (rewrite Hprops; reflexivity).
      rewrite Hprops. apply forallb_forall. intros pv' Hpv.
      apply in_map_iff in Hpv as ([name prop] & <- & Hpv).
      specialize (Hbelow props eq_refl). rewrite Forall_forall in Hbelow.
      specialize (Hbelow (name, prop) ltac:(apply list_elem_of_In; exact Hpv)).
      cbn [snd] in Hbelow.
      destruct prop; cbn [snd]; try reflexivity.
      rewrite ensureObjectProperties_any_map in Hbelow |- *. exact Hbelow.
    - destruct (String.eqb k "items") eqn:Hitems; [|rewrite Hprops, Hitems; reflexivity].
      destruct x; try (rewrite Hprops, Hitems; reflexivity).
      rewrite Hprops, Hitems.
      rewrite ensureObjectProperties_any_map in Hx |- *. exact Hx. }
  rewrite ensureObjectProperties_any_map, objects_have_properties_map.
  unfold node_has_properties.
  destruct (map_get "type" schema) as [ty|] eqn:Hty.
  - destruct ty as [| | |t| | | |];
      try (rewrite map_get_visit_type, Hty, Hvisited; reflexivity).
    destruct (String.eqb t "object") eqn:Hobj; cbn [andb].
    + destruct (map_has "properties" schema) eqn:Hhas; cbn [negb].
      * rewrite map_get_visit_type, Hty, Hobj, map_has_visit, Hhas, Hvisited. reflexivity.
      * rewrite map_get_map_set_ne by discriminate.
        rewrite map_get_visit_type, Hty, Hobj, map_has_map_set.
        rewrite forallb_map_set; [reflexivity | exact Hvisited | reflexivity].
    + rewrite map_get_visit_type, Hty, Hobj, Hvisited. reflexivity.
  - rewrite map_get_visit_type, Hty, Hvisited. reflexivity.
Qed.

(** Tool parameters: whatever [convertToFunctionParams] returns, every
    object node in it has its ["properties"]. *)
Lemma convertToFunctionParams_objects_have_properties
    (json_Unmarshal : string -> result map_string_any) (params : function_params) :
  match convertToFunctionParams json_Unmarshal params with
  | Some entries => objects_have_properties (AMap entries) = true
  | None => True
  end.
Proof.
  assert (H : forall m, match ensureObjectProperties m with
                        | Some entries => objects_have_properties (AMap entries) = true
                        | None => True
                        end).
  { intros [entries|]; [|exact I]. unfold ensureObjectProperties.
    pose proof (proj1 (ensureObjectProperties_any_ok (AMap entries))) as Hok.
    rewrite ensureObjectProperties_any_map in Hok |- *. exact Hok. }
  destruct params as [|m|[jsonBytes|err]]; cbn [convertToFunctionParams];
    [exact I | apply H | | exact I].
  destruct (json_Unmarshal jsonBytes); [apply H | exact I].
Qed.

Example convertToFunctionParams_adds_properties :
  convertToFunctionParams minimal_Unmarshal
    (ParamsMap (Some [("type", AString "object");
                      ("items", AMap [("type", AString "object")])]))
  = Some [("type", AString "object");
          ("items", AMap [("type", AString "object"); ("properties", AMap [])]);
          ("properties", AMap [])].
Proof. reflexivity. Qed.

(** C6 (defect): a response schema goes through [convertSchema] alone, which
    writes ["properties"] only for a schema that has some.  The schema
    [{Type: OBJECT}] comes out as [{"type": "object"}], an object node
    without ["properties"]; so does an object nested under [Items].  Tool
    parameters do not have the defect
    ([convertToFunctionParams_objects_have_properties]). *)
Theorem C6_convertSchema_object_without_properties :
  convertSchema (Some (mkSchema TypeObject "" [] [] [] None))
    = Ok [("type", AString "object")] /\
  objects_have_properties (AMap [("type", AString "object")]) = false /\
  convertSchema (Some (mkSchema TypeArray "" [] [] []
                         (Some (mkSchema TypeObject "" [] [] [] None))))
    = Ok [("type", AString "array"); ("items", AMap [("type", AString "object")])] /\
  objects_have_properties
    (AMap [("type", AString "array"); ("items", AMap [("type", AString "object")])]) = false.
Proof. repeat split; reflexivity. Qed.

End SchemaFacts.

Module ArgsFacts.
Import Go JSON ADK.

Section WithDecoder.
Variable json_Unmarshal : string -> result map_string_any.

Lemma parseJSONArgs_malformed (argsJSON : string) :
  argsJSON = "" \/ is_ok (json_Unmarshal argsJSON) = false ->
  OpenAI.parseJSONArgs json_Unmarshal argsJSON = Some [].
Proof.
  unfold OpenAI.parseJSONArgs. intros [-> | Herr]; [reflexivity|].
  destruct (String.eqb argsJSON ""); [reflexivity|].
  destruct (json_Unmarshal argsJSON); [discriminate | reflexivity].
Qed.

Lemma parseJSONArgs_decoded (argsJSON : string) (args : map_string_any) :
  argsJSON <> "" -> json_Unmarshal argsJSON = Ok args ->
  OpenAI.parseJSONArgs json_Unmarshal argsJSON = args.
Proof.
  intros Hne Hok. unfold OpenAI.parseJSONArgs.
  apply String.eqb_neq in Hne. rewrite Hne, Hok. reflexivity.
Qed.

Lemma convertToolInput_malformed (raw : string) :
  is_ok (json_Unmarshal raw) = false ->
  Anthropic.convertToolInput json_Unmarshal (Anthropic.InputRaw raw) = Some [].
Proof.
  intros Herr. cbn [Anthropic.convertToolInput].
  destruct (json_Unmarshal raw); [discriminate | reflexivity].
Qed.

(** Every part that response translation builds for a tool call carries the
    id and name of the call. *)
Lemma messageParts_tool_calls (message : OpenAI.ChatCompletionMessage) :
  omap part_FunctionCall (OpenAI.messageParts json_Unmarshal message) =
  map (fun tc => {| fc_ID := OpenAI.tc_ID tc;
                    fc_Name := OpenAI.tc_Function_Name tc;
                    fc_Args := OpenAI.parseJSONArgs json_Unmarshal
                                 (OpenAI.tc_Function_Arguments tc) |})
      (OpenAI.msg_ToolCalls message).
Proof.
  unfold OpenAI.messageParts.
  assert (H : forall tcs,
    omap part_FunctionCall (map (OpenAI.toolCallPart json_Unmarshal) tcs) =
    map (fun tc => {| fc_ID := OpenAI.tc_ID tc;
                      fc_Name := OpenAI.tc_Function_Name tc;
                      fc_Args := OpenAI.parseJSONArgs json_Unmarshal
                                   (OpenAI.tc_Function_Arguments tc) |}) tcs).
  { induction tcs as [|tc tcs IH]; [reflexivity|]. cbn. f_equal. exact IH. }
  destruct (String.eqb (OpenAI.msg_Content message) ""); cbn; apply H.
Qed.

End WithDecoder.

(** C8: on both protocols the arguments of an inbound tool call decode to a
    map for every input, and no input makes response translation fail:
    - Protocol-A: an empty or malformed [arguments] string gives the empty
      map, a well-formed one the decoded map; [convertResponse] succeeds on
      every response that has a choice, whatever its tool calls hold;
    - Protocol-B: an [input] that is nil, fails to marshal or fails to decode
      gives the empty map, a well-formed one the decoded map (and
      [convertResponse] has no error result at all). *)
Theorem C8_tool_call_args_decode_never_fails
    (json_Unmarshal : string -> result map_string_any) :
  (forall argsJSON,
      (argsJSON = "" \/ is_ok (json_Unmarshal argsJSON) = false ->
       OpenAI.parseJSONArgs json_Unmarshal argsJSON = Some []) /\
      (forall args, argsJSON <> "" -> json_Unmarshal argsJSON = Ok args ->
       OpenAI.parseJSONArgs json_Unmarshal argsJSON = args)) /\
  (forall resp choice rest,
      OpenAI.Choices resp = choice :: rest ->
      exists llmResp,
        OpenAI.convertResponse json_Unmarshal (Some resp) = Ok llmResp /\
        option_map (fun c => omap part_FunctionCall (content_Parts c)) (resp_Content llmResp) =
        Some (map (fun tc => {| fc_ID := OpenAI.tc_ID tc;
                                fc_Name := OpenAI.tc_Function_Name tc;
                                fc_Args := OpenAI.parseJSONArgs json_Unmarshal
                                             (OpenAI.tc_Function_Arguments tc) |})
                  (OpenAI.msg_ToolCalls (OpenAI.choice_Message choice)))) /\
  (forall input,
      match input with
      | Anthropic.InputNil => Anthropic.convertToolInput json_Unmarshal input = Some []
      | Anthropic.InputMap m => Anthropic.convertToolInput json_Unmarshal input = m
      | Anthropic.InputRaw data | Anthropic.InputOther (Ok data) =>
          match json_Unmarshal data with
          | Ok result => Anthropic.convertToolInput json_Unmarshal input = result
          | Err _ => Anthropic.convertToolInput json_Unmarshal input = Some []
          end
      | Anthropic.InputOther (Err _) =>
          Anthropic.convertToolInput json_Unmarshal input = Some []
      end).
Proof.
  split; [|split].
  - intros argsJSON. split.
    + apply parseJSONArgs_malformed.
    + intros args. apply parseJSONArgs_decoded.
  - intros resp choice rest Hc. eexists. split.
    + cbn [OpenAI.convertResponse]. rewrite Hc. reflexivity.
    + cbn [resp_Content option_map content_Parts].
      rewrite messageParts_tool_calls. reflexivity.
  - intros [|m|raw|[data|err]]; cbn [Anthropic.convertToolInput]; try reflexivity.
    + destruct (json_Unmarshal raw); reflexivity.
    + destruct (json_Unmarshal data); reflexivity.
Qed.

Lemma C8_tool_call_args_witness :
  OpenAI.parseJSONArgs minimal_Unmarshal "{not json" = Some [] /\
  OpenAI.parseJSONArgs minimal_Unmarshal "" = Some [] /\
  OpenAI.parseJSONArgs minimal_Unmarshal "{}" = Some [].
Proof.
  destruct (C8_tool_call_args_decode_never_fails minimal_Unmarshal) as [Hparse _].
  split; [|split].
  - apply (proj1 (Hparse "{not json")). right. reflexivity.
  - apply (proj1 (Hparse "")). left. reflexivity.
  - apply (proj2 (Hparse "{}") (Some [])); [discriminate | reflexivity].
Defined.

Example convertResponse_malformed_arguments :
  OpenAI.convertResponse minimal_Unmarshal
    (Some {| OpenAI.Choices :=
               [OpenAI.mkChoice
                  (OpenAI.mkMessage "" [OpenAI.mkToolCall "call_1" "get_weather" "{not json"])
                  "tool_calls"];
             OpenAI.Usage := OpenAI.mkCompletionUsage 0 0 0 |})
  = Ok {| resp_Content :=
            Some {| content_Role := "model";
                    content_Parts :=
                      [FunctionCallPart {| fc_ID := "call_1"; fc_Name := "get_weather";
                                           fc_Args := Some [] |}] |};
          resp_UsageMetadata := None;
          resp_FinishReason := FinishReasonStop;
          resp_Partial := false;
          resp_TurnComplete := true |}.
Proof. reflexivity. Qed.

(** A JSON [null] decodes without error and leaves the Go map nil. *)
Example parseJSONArgs_null : OpenAI.parseJSONArgs minimal_Unmarshal "null" = None.
Proof. reflexivity. Qed.

End ArgsFacts.

Module MemoryFacts.
Import Go JSON ADK Memory Scenarios.

Section Service.
Variable vector : Type.
Variable vector_len : vector -> Z.
Variable cosine_distance : vector -> vector -> Z.
Variable ts_match : string -> string -> bool.
Variable ts_rank : string -> string -> Z.
Variable embeddingModel : option (string -> result vector).

Local Abbreviation Search := (Search vector vector_len cosine_distance ts_match ts_rank embeddingModel).
Local Abbreviation vectorStage := (vectorStage vector vector_len cosine_distance embeddingModel).
Local Abbreviation searchByText := (searchByText vector ts_match ts_rank).
Local Abbreviation searchRecent := (searchRecent vector).

(** The vector stage decides when it returns rows. *)
Lemma Search_vector_hit (db : list (row vector)) (req : SearchRequest) :
  vectorStage db req <> [] -> Search db req = vectorStage db req.
Proof.
  intros Hne. unfold Memory.Search.
  destruct (vectorStage db req) as [|e es]; [contradiction|]. reflexivity.
Qed.

(** The text stage decides when the vector stage gave nothing, the query is
    not empty and the text stage returns rows. *)
Lemma Search_text_hit (db : list (row vector)) (req : SearchRequest) :
  vectorStage db req = [] -> req_Query req <> "" -> searchByText db req <> [] ->
  Search db req = searchByText db req.
Proof.
  intros Hv Hq Ht. unfold Memory.Search. rewrite Hv.
  apply String.eqb_neq in Hq. rewrite Hq. cbn.
  destruct (searchByText db req) as [|e es]; [contradiction|]. reflexivity.
Qed.

(** An empty query goes straight to the recency stage. *)
Lemma Search_empty_query (db : list (row vector)) (req : SearchRequest) :
  req_Query req = "" -> Search db req = searchRecent db req.
Proof.
  intros Hq. unfold Memory.Search, Memory.vectorStage. rewrite Hq.
  destruct embeddingModel; reflexivity.
Qed.

(** The recency stage also runs for a non-empty query, whenever the two
    stages before it gave nothing: its guard does not look at the query. *)
Lemma Search_nonempty_query_falls_to_recent (db : list (row vector)) (req : SearchRequest) :
  req_Query req <> "" -> vectorStage db req = [] -> searchByText db req = [] ->
  Search db req = searchRecent db req.
Proof.
  intros Hq Hv Ht. unfold Memory.Search. rewrite Hv.
  apply String.eqb_neq in Hq. rewrite Hq. cbn. rewrite Ht. reflexivity.
Qed.

End Service.

(** The retrieval scenario: a matching query finds the row, another user
    finds nothing, the empty query gets the most recent row. *)
Example Search_scenario :
  search_without_embeddings "Kubernetes" "user-1" = [kubernetes_entry] /\
  search_without_embeddings "Kubernetes" "user-2" = [] /\
  search_without_embeddings "" "user-1" = [kubernetes_entry].
Proof. repeat split; reflexivity. Qed.

(** C2 (defect): with no embedding model, the non-empty query "xyz123"
    matches no row of the user in the text stage, and [Search] nevertheless
    returns the user's most recent row: the guard of the recency stage is
    [len(memories) == 0] alone, although its comment reads "if still no
    results and query is empty". *)
Theorem C2_Search_nonempty_query_returns_recent_rows :
  searchByText unit occurs_in (fun _ _ => 0) [kubernetes_row]
    (mkSearchRequest "test_app" "user-1" "xyz123") = [] /\
  search_without_embeddings "xyz123" "user-1" = [kubernetes_entry].
Proof. split; reflexivity. Qed.

End MemoryFacts.

Module RedisFacts.
Import Go JSON Redis StringFacts Scenarios.

(** *** The three keys of a session are pairwise distinct *)

Lemma append_id_inv (u x : string) : u ++ x = u -> x = "".
Proof.
  induction u as [|a u IH]; intros H; [exact H|].
  change (String a (u ++ x) = String a u) in H. injection H as H. auto.
Qed.

Lemma events_key_not_session_key (a u i a' u' i' : string) :
  buildEventsKey a u i <> buildSessionKey a' u' i'.
Proof. unfold buildEventsKey, buildSessionKey. cbn. discriminate. Qed.

Lemma events_key_not_index_key (a u i a' u' : string) :
  buildEventsKey a u i <> buildSessionIndexKey a' u'.
Proof. unfold buildEventsKey, buildSessionIndexKey. cbn. discriminate. Qed.

Lemma session_key_not_index_key (a u i : string) :
  buildSessionKey a u i <> buildSessionIndexKey a u.
Proof.
  unfold buildSessionKey, buildSessionIndexKey. intros H.
  apply append_inv_head, append_inv_head, append_inv_head, append_id_inv in H.
  discriminate H.
Qed.

(** *** What the commands do to the time to live *)

Lemma formatSec_pos (ttl : Z) : 0 < ttl -> 0 < formatSec ttl.
Proof.
  intros Hpos. unfold formatSec, Second.
  destruct (Z.ltb_spec 0 ttl) as [_|]; [|lia].
  destruct (Z.ltb_spec ttl 1000000000) as [|Hge]; cbn [andb]; [lia|].
  apply Z.quot_str_pos. lia.
Qed.

Lemma whole_seconds (ttl : Z) :
  0 < ttl -> Z.rem ttl Second = 0 ->
  Second <= ttl /\ formatSec ttl * Second = ttl /\ usePrecise ttl = false.
Proof.
  intros Hpos Hrem. pose proof (Z.quot_rem' ttl Second) as Hq. rewrite Hrem in Hq.
  assert (Hge : Second <= ttl).
  { unfold Second in *. destruct (Z.quot ttl 1000000000) eqn:E; lia. }
  split; [exact Hge|]. unfold formatSec, usePrecise.
  destruct (Z.ltb_spec ttl Second) as [|_]; [lia|].
  rewrite andb_false_r, Hrem. split; [lia | reflexivity].
Qed.

Lemma expire_of_cmd_Set (key : string) (data : any) (ttl : Z) (cache : gmap string entry) :
  0 < ttl -> Z.rem ttl Second = 0 ->
  expire_of (cmd_Set key data ttl cache) key = Some ttl.
Proof.
  intros Hpos Hrem. unfold expire_of, cmd_Set. rewrite lookup_insert_eq. cbn [expire].
  destruct (whole_seconds ttl Hpos Hrem) as (_ & Hsec & Hprecise).
  unfold set_expire. apply Z.ltb_lt in Hpos. rewrite Hpos, Hprecise, Hsec. reflexivity.
Qed.

Lemma lookup_cmd_Set_ne (key key' : string) (data : any) (ttl : Z)
    (cache : gmap string entry) :
  key <> key' -> cmd_Set key data ttl cache !! key' = cache !! key'.
Proof. intros Hne. unfold cmd_Set. apply lookup_insert_ne. exact Hne. Qed.

Lemma lookup_cmd_Expire_ne (key key' : string) (ttl : Z) (cache : gmap string entry) :
  key <> key' -> cmd_Expire key ttl cache !! key' = cache !! key'.
Proof.
  intros Hne. unfold cmd_Expire. destruct (cache !! key) as [e|]; [|reflexivity].
  cbv zeta.
  destruct (0 <? formatSec ttl); [apply lookup_insert_ne | apply lookup_delete_ne]; exact Hne.
Qed.

Lemma expire_of_cmd_Expire (key : string) (ttl : Z) (cache : gmap string entry) :
  0 < ttl -> Z.rem ttl Second = 0 -> is_Some (cache !! key) ->
  expire_of (cmd_Expire key ttl cache) key = Some ttl.
Proof.
  intros Hpos Hrem [e He]. unfold expire_of, cmd_Expire. rewrite He. cbv zeta.
  destruct (whole_seconds ttl Hpos Hrem) as (_ & Hsec & _).
  pose proof (formatSec_pos ttl Hpos) as Hf. apply Z.ltb_lt in Hf.
  rewrite Hf, lookup_insert_eq. cbn [expire]. rewrite Hsec. reflexivity.
Qed.

Lemma value_cmd_Expire (key : string) (ttl : Z) (cache : gmap string entry) :
  0 < ttl -> value <$> (cmd_Expire key ttl cache !! key) = value <$> (cache !! key).
Proof.
  intros Hpos. unfold cmd_Expire. destruct (cache !! key) as [e|] eqn:He.
  - cbv zeta. pose proof (formatSec_pos ttl Hpos) as Hf. apply Z.ltb_lt in Hf.
    rewrite Hf, lookup_insert_eq. reflexivity.
  - rewrite He. reflexivity.
Qed.

Lemma cmd_SAdd_Ok (key member : string) (cache cache' : gmap string entry) :
  cmd_SAdd key member cache = Ok cache' ->
  is_Some (cache' !! key) /\ forall key', key <> key' -> cache' !! key' = cache !! key'.
Proof.
  unfold cmd_SAdd. destruct (cache !! key) as [[[d|items|members] ex]|];
    intros H; try discriminate; injection H as <-;
    (split; [rewrite lookup_insert_eq; eauto | intros; apply lookup_insert_ne; assumption]).
Qed.

Lemma cmd_RPush_Ok (key : string) (data : any) (cache cache' : gmap string entry) :
  cmd_RPush key data cache = Ok cache' ->
  list_items cache' key = (list_items cache key ++ [data])%list /\
  is_Some (cache' !! key) /\
  forall key', key <> key' -> cache' !! key' = cache !! key'.
Proof.
  unfold cmd_RPush, list_items.
  destruct (cache !! key) as [[[d|items|members] ex]|];
    intros H; try discriminate; injection H as <-;
    rewrite lookup_insert_eq;
    (split; [reflexivity |
             split; [eauto | intros; apply lookup_insert_ne; assumption]]).
Qed.

Lemma list_items_cmd_Expire (key : string) (ttl : Z) (cache : gmap string entry) :
  0 < ttl -> list_items (cmd_Expire key ttl cache) key = list_items cache key.
Proof.
  intros Hpos. pose proof (value_cmd_Expire key ttl cache Hpos) as H.
  unfold list_items.
  destruct (cmd_Expire key ttl cache !! key) as [[v1 e1]|],
           (cache !! key) as [[v2 e2]|]; cbn in H; try discriminate; [|reflexivity].
  injection H as ->. reflexivity.
Qed.

Lemma NewRedisSessionService_ttl_pos (ttl : Z) : 0 < NewRedisSessionService_ttl ttl.
Proof.
  unfold NewRedisSessionService_ttl. destruct (Z.leb_spec ttl 0); [reflexivity | lia].
Qed.

(** *** [AppendEvent] step by step *)

(** Once the [RPUSH] has gone through the event is in the list, however the
    call ends. *)
Lemma AppendEvent_after_RPush (ttl : Z) (sess : Session) (evt : Event) (now1 now2 : Z)
    (generated : string) (cache cache1 : gmap string entry) (data : any) :
  0 < ttl ->
  Marshal_event (stamped evt now1 generated) = Ok data ->
  cmd_RPush (buildEventsKey (sv_AppName sess) (sv_UserID sess) (sv_ID sess)) data cache
    = Ok cache1 ->
  let '(err, evt', cache') := AppendEvent ttl (Some sess) evt now1 now2 generated cache in
  evt' = stamped evt now1 generated /\
  list_items cache' (buildEventsKey (sv_AppName sess) (sv_UserID sess) (sv_ID sess))
  = (list_items cache (buildEventsKey (sv_AppName sess) (sv_UserID sess) (sv_ID sess))
     ++ [data])%list /\
  match err with
  | Some e => envelope_error e = true
  | None => True
  end.
Proof.
  intros Hpos Hm Hpush. unfold AppendEvent. fold (stamped evt now1 generated).
  rewrite Hm, Hpush.
  destruct (cmd_RPush_Ok _ _ _ _ Hpush) as (Hitems & _ & _).
  set (evKey := buildEventsKey (sv_AppName sess) (sv_UserID sess) (sv_ID sess)) in *.
  set (key := buildSessionKey (sv_AppName sess) (sv_UserID sess) (sv_ID sess)).
  assert (Hexp : list_items (cmd_Expire evKey ttl cache1) evKey
                 = (list_items cache evKey ++ [data])%list).
  { rewrite list_items_cmd_Expire by exact Hpos. exact Hitems. }
  destruct (cmd_Get key (cmd_Expire evKey ttl cache1)) as [sessData|e];
    [|split; [reflexivity | split; [exact Hexp | reflexivity]]].
  destruct (Unmarshal_storable sessData) as [storable|e];
    [|split; [reflexivity | split; [exact Hexp | reflexivity]]].
  destruct (Marshal_storable _) as [updated|e];
    [|split; [reflexivity | split; [exact Hexp | reflexivity]]].
  split; [reflexivity|]. split; [|exact I].
  unfold list_items. rewrite lookup_cmd_Set_ne; [exact Hexp|].
  apply not_eq_sym, events_key_not_session_key.
Qed.

(** C10: [AppendEvent] pushes the event onto the events list before it
    reads the session record.  When the record is absent (and the event
    marshals, and the events key is free or holds a list) the call returns
    the error "failed to get session for update: redis: nil", and the events
    list of the cache it leaves behind is the old list with the event
    appended: it has grown by one. *)
Theorem C10_AppendEvent_error_leaves_event_appended (ttl : Z) (sess : Session)
    (evt : Event) (now1 now2 : Z) (generated : string) (cache : gmap string entry) :
  0 < ttl ->
  marshalable (ev_Payload evt) = true ->
  cache !! buildSessionKey (sv_AppName sess) (sv_UserID sess) (sv_ID sess) = None ->
  match cache !! buildEventsKey (sv_AppName sess) (sv_UserID sess) (sv_ID sess) with
  | None | Some {| value := RList _ |} => True
  | Some _ => False
  end ->
  exists data cache',
    Marshal_event (stamped evt now1 generated) = Ok data /\
    AppendEvent ttl (Some sess) evt now1 now2 generated cache
    = (Some (ErrWrap "failed to get session for update" redis_Nil),
       stamped evt now1 generated, cache') /\
    list_items cache' (buildEventsKey (sv_AppName sess) (sv_UserID sess) (sv_ID sess))
    = (list_items cache (buildEventsKey (sv_AppName sess) (sv_UserID sess) (sv_ID sess))
       ++ [data])%list /\
    length (list_items cache' (buildEventsKey (sv_AppName sess) (sv_UserID sess) (sv_ID sess)))
    = S (length (list_items cache
                   (buildEventsKey (sv_AppName sess) (sv_UserID sess) (sv_ID sess)))).
Proof.
  intros Hpos Hpayload Habsent Hlist.
  set (evKey := buildEventsKey (sv_AppName sess) (sv_UserID sess) (sv_ID sess)) in *.
  set (key := buildSessionKey (sv_AppName sess) (sv_UserID sess) (sv_ID sess)) in *.
  assert (Hm : exists data, Marshal_event (stamped evt now1 generated) = Ok data).
  { unfold Marshal_event. cbn [ev_Payload stamped]. rewrite Hpayload. eauto. }
  destruct Hm as [data Hm].
  assert (Hpush : exists cache1, cmd_RPush evKey data cache = Ok cache1).
  { unfold cmd_RPush. destruct (cache !! evKey) as [[[d|items|members] ex]|];
      try contradiction; eauto. }
  destruct Hpush as [cache1 Hpush].
  destruct (cmd_RPush_Ok _ _ _ _ Hpush) as (Hitems & _ & Hother).
  assert (Hget : cmd_Get key (cmd_Expire evKey ttl cache1) = Err redis_Nil).
  { unfold cmd_Get. rewrite lookup_cmd_Expire_ne by apply events_key_not_session_key.
    rewrite Hother by apply events_key_not_session_key.
    fold key. rewrite Habsent. reflexivity. }
  exists data, (cmd_Expire evKey ttl cache1).
  split; [exact Hm|].
  assert (Hrun : AppendEvent ttl (Some sess) evt now1 now2 generated cache
                 = (Some (ErrWrap "failed to get session for update" redis_Nil),
                    stamped evt now1 generated, cmd_Expire evKey ttl cache1)).
  { unfold AppendEvent. fold (stamped evt now1 generated). rewrite Hm.
    fold evKey. rewrite Hpush. fold key. rewrite Hget. reflexivity. }
  split; [exact Hrun|].
  assert (Hgrown : list_items (cmd_Expire evKey ttl cache1) evKey
                   = (list_items cache evKey ++ [data])%list).
  { rewrite list_items_cmd_Expire by exact Hpos. exact Hitems. }
  split; [exact Hgrown|]. rewrite Hgrown, length_app. cbn. lia.
Qed.

Lemma C10_AppendEvent_witness :
  exists data cache',
    Marshal_event (stamped event_e1 5 "generated") = Ok data /\
    AppendEvent DefaultSessionTTL (Some session_s1) event_e1 5 6 "generated" ∅
    = (Some (ErrWrap "failed to get session for update" redis_Nil),
       stamped event_e1 5 "generated", cache') /\
    list_items cache' (buildEventsKey "app" "u" "s1")
    = (list_items ∅ (buildEventsKey "app" "u" "s1") ++ [data])%list /\
    length (list_items cache' (buildEventsKey "app" "u" "s1"))
    = S (length (list_items (∅ : gmap string entry) (buildEventsKey "app" "u" "s1"))).
Proof.
  apply (C10_AppendEvent_error_leaves_event_appended
           DefaultSessionTTL session_s1 event_e1 5 6 "generated" ∅).
  - reflexivity.
  - reflexivity.
  - apply lookup_empty.
  - cbn [session_s1 sv_AppName sv_UserID sv_ID]. rewrite lookup_empty. exact I.
Defined.

(** *** State writes *)

(** With a client attached and the session record absent, the script answers
    with the error reply "session not found"; the client turns it into a Go
    error that is not [redis.Nil], so [persistAtomic] does not take its
    "acceptable for new sessions" exit and [Set] returns the wrapped error.
    The local map has the new value and the cache is as before. *)
Lemma State_Set_absent_record (s : redisState) (key : string) (v : any) (now : Z)
    (cache : gmap string entry) :
  st_client s = true ->
  cache !! st_key s = None ->
  marshalable (AMap (map_to_list (<[key := v]> (st_data s)))) = true ->
  exists s',
    State_Set s key v now cache
    = (Some (ErrWrap "failed to persist state atomically" (ErrNew "session not found")),
       s', cache) /\
    State_Get s' key = Ok v.
Proof.
  intros Hclient Habsent Hm. eexists. split.
  - unfold State_Set, persistAtomic, toMap. cbn [st_client st_data st_key st_ttl].
    rewrite Hclient. cbn [negb]. rewrite Hm. cbn [negb].
    unfold updateStateScript. rewrite Habsent. reflexivity.
  - unfold State_Get. cbn [st_data]. rewrite lookup_insert_eq. reflexivity.
Qed.

(** C7 (defect): the session record of [s1] is not in the cache (expired or
    deleted).  [state.Set("theme", "dark")] on its state updates the local
    map and leaves the cache alone, as claimed, but it returns the error
    "failed to persist state atomically: session not found" instead of
    nil. *)
Theorem C7_State_Set_absent_record_returns_error :
  let '(err, s', cache') := State_Set state_s1 "theme" (AString "dark") 1700000000 ∅ in
  err = Some (ErrWrap "failed to persist state atomically" (ErrNew "session not found")) /\
  State_Get s' "theme" = Ok (AString "dark") /\
  cache' = ∅ /\
  is_redis_Nil (ErrNew "session not found") = false.
Proof.
  destruct (State_Set_absent_record state_s1 "theme" (AString "dark") 1700000000 ∅)
    as (s' & Hrun & Hget).
  - reflexivity.
  - apply lookup_empty.
  - vm_compute. reflexivity.
  - rewrite Hrun. split; [reflexivity|]. split; [exact Hget|]. split; reflexivity.
Qed.

(** A whole number of seconds that fits an [int64] is what [Seconds]
    gives back. *)
Lemma Duration_Seconds_int64_whole (d : Z) :
  0 <= d <= int_max -> Z.rem d Second = 0 -> Duration_Seconds_int64 d = Z.quot d Second.
Proof.
  intros [Hlo Hhi] Hrem. unfold Duration_Seconds_int64. rewrite (Z.abs_eq d Hlo), Hrem.
  cbn [Z.eqb]. unfold float64_of_Z.
  assert (Hq : 0 <= Z.quot d Second < 2 ^ 53).
  { split; [apply Z.quot_pos; unfold Second; lia|].
    apply Z.quot_lt_upper_bound; unfold int_max, Second in *; lia. }
  destruct (Z.ltb_spec (Z.quot d Second) (2 ^ 53)) as [_|]; [|lia].
  destruct (Z.eq_dec d 0) as [->|Hne]; [reflexivity|].
  rewrite Z.sgn_pos by lia. lia.
Qed.

(** What a state write that returns no error has done: the record was
    there and is a table for the script; it is rewritten with the state as the
    script's JSON library writes it back and with the time of the write; its
    time to live is the one the script was given. *)
Lemma State_Set_script (s s' : redisState) (key : string) (v : any) (now : Z)
    (cache cache' : gmap string entry) :
  st_client s = true ->
  State_Set s key v now cache = (None, s', cache') ->
  st_data s' = <[key := v]> (st_data s) /\
  exists data ex session,
    cache !! st_key s = Some {| value := RString data; expire := ex |} /\
    cjson_fields data = Some session /\
    cache'
    = <[st_key s :=
          {| value :=
               RString
                 (AMap (map_set "last_update_time" (ANumber (Z.quot now Second * Second))
                          (map (fun kv => (fst kv, cjson_image (snd kv)))
                             (map_set "state" (AMap (map_to_list (<[key := v]> (st_data s))))
                                session))));
             expire := if 0 <? Duration_Seconds_int64 (st_ttl s)
                       then Some (Duration_Seconds_int64 (st_ttl s) * Second)
                       else None |}]> cache.
Proof.
  intros Hclient Hrun. unfold State_Set, persistAtomic, toMap in Hrun.
  cbn [st_client st_key st_ttl st_data] in Hrun. rewrite Hclient in Hrun. cbn [negb] in Hrun.
  destruct (negb (marshalable _)); [discriminate Hrun|].
  unfold updateStateScript in Hrun.
  destruct (cache !! st_key s) as [[[data|items|members] ex]|] eqn:Hrec;
    try discriminate Hrun.
  destruct (negb (cjson_decodes data && cjson_decodes _)); [discriminate Hrun|].
  destruct (cjson_fields data) as [session|] eqn:Hfields; [|discriminate Hrun].
  destruct ((cjson_depth _ <=? 1000) && cjson_finite _); [|discriminate Hrun].
  cbn [Result_of String.eqb Ascii.eqb Bool.eqb] in Hrun. injection Hrun as <- <-.
  split; [reflexivity|]. exists data, ex, session.
  split; [reflexivity|]. split; [exact Hfields | reflexivity].
Qed.

(** A state write that succeeds rewrites the session record, with the time
    to live in whole seconds as [Seconds] gives them, and no other key. *)
Lemma State_Set_success (s s' : redisState) (key : string) (v : any) (now : Z)
    (cache cache' : gmap string entry) :
  st_client s = true ->
  State_Set s key v now cache = (None, s', cache') ->
  expire_of cache' (st_key s)
  = (if 0 <? Duration_Seconds_int64 (st_ttl s)
     then Some (Duration_Seconds_int64 (st_ttl s) * Second) else None) /\
  forall key', st_key s <> key' -> cache' !! key' = cache !! key'.
Proof.
  intros Hclient Hrun.
  destruct (State_Set_script _ _ _ _ _ _ _ Hclient Hrun) as (_ & data & ex & session & _ & _ & ->).
  split.
  - unfold expire_of. rewrite lookup_insert_eq. reflexivity.
  - intros key' Hne. apply lookup_insert_ne. exact Hne.
Qed.

(** *** [Create] and [AppendEvent] on success *)

Lemma Create_success (ttl : Z) (req : CreateRequest) (generated : string) (now : Z)
    (cache cache' : gmap string entry) (sess : redisSession) :
  0 < ttl -> Z.rem ttl Second = 0 ->
  Create ttl req generated now cache = (Ok sess, cache') ->
  sess_appName sess = cr_AppName req /\ sess_userID sess = cr_UserID req /\
  expire_of cache' (buildSessionKey (cr_AppName req) (cr_UserID req) (sess_id sess)) = Some ttl /\
  expire_of cache' (buildSessionIndexKey (cr_AppName req) (cr_UserID req)) = Some ttl /\
  cache' !! buildEventsKey (cr_AppName req) (cr_UserID req) (sess_id sess)
  = cache !! buildEventsKey (cr_AppName req) (cr_UserID req) (sess_id sess).
Proof.
  intros Hpos Hwhole. unfold Create.
  set (sessionID := if String.eqb (cr_SessionID req) "" then generated else cr_SessionID req).
  set (key := buildSessionKey (cr_AppName req) (cr_UserID req) sessionID).
  set (indexKey := buildSessionIndexKey (cr_AppName req) (cr_UserID req)).
  destruct (Marshal_storable _) as [data|e]; [|intros [=]].
  destruct (cmd_SAdd indexKey sessionID (cmd_Set key data ttl cache)) as [cache1|e] eqn:Hadd;
    [|intros [=]].
  intros [= <- <-]. cbn [sess_appName sess_userID sess_id]. fold key.
  destruct (cmd_SAdd_Ok _ _ _ _ Hadd) as [Hsome Hother].
  assert (Hki : key <> indexKey) by apply session_key_not_index_key.
  split; [reflexivity|]. split; [reflexivity|]. split; [|split].
  - unfold expire_of. rewrite lookup_cmd_Expire_ne by (apply not_eq_sym; exact Hki).
    rewrite Hother by (apply not_eq_sym; exact Hki).
    apply (expire_of_cmd_Set key data ttl cache Hpos Hwhole).
  - apply expire_of_cmd_Expire; assumption.
  - rewrite lookup_cmd_Expire_ne by (apply not_eq_sym, events_key_not_index_key).
    rewrite Hother by (apply not_eq_sym, events_key_not_index_key).
    apply lookup_cmd_Set_ne, not_eq_sym, events_key_not_session_key.
Qed.

Lemma AppendEvent_success (ttl : Z) (sess : Session) (evt evt' : Event) (now1 now2 : Z)
    (generated : string) (cache cache' : gmap string entry) :
  0 < ttl -> Z.rem ttl Second = 0 ->
  AppendEvent ttl (Some sess) evt now1 now2 generated cache = (None, evt', cache') ->
  expire_of cache' (buildEventsKey (sv_AppName sess) (sv_UserID sess) (sv_ID sess)) = Some ttl /\
  expire_of cache' (buildSessionKey (sv_AppName sess) (sv_UserID sess) (sv_ID sess)) = Some ttl /\
  cache' !! buildSessionIndexKey (sv_AppName sess) (sv_UserID sess)
  = cache !! buildSessionIndexKey (sv_AppName sess) (sv_UserID sess).
Proof.
  intros Hpos Hwhole. unfold AppendEvent.
  set (evKey := buildEventsKey (sv_AppName sess) (sv_UserID sess) (sv_ID sess)).
  set (key := buildSessionKey (sv_AppName sess) (sv_UserID sess) (sv_ID sess)).
  set (indexKey := buildSessionIndexKey (sv_AppName sess) (sv_UserID sess)).
  destruct (Marshal_event _) as [data|e]; [|intros [=]].
  destruct (cmd_RPush evKey data cache) as [cache1|e] eqn:Hpush; [|intros [=]].
  destruct (cmd_Get key (cmd_Expire evKey ttl cache1)) as [sessData|e]; [|intros [=]].
  destruct (Unmarshal_storable sessData) as [storable|e]; [|intros [=]].
  destruct (Marshal_storable _) as [updated|e]; [|intros [=]].
  intros [= <- <-].
  destruct (cmd_RPush_Ok _ _ _ _ Hpush) as (_ & Hsome & Hother).
  assert (Hek : evKey <> key) by apply events_key_not_session_key.
  assert (Hei : evKey <> indexKey) by apply events_key_not_index_key.
  assert (Hki : key <> indexKey) by apply session_key_not_index_key.
  split; [|split].
  - unfold expire_of. rewrite lookup_cmd_Set_ne by (apply not_eq_sym; exact Hek).
    apply (expire_of_cmd_Expire evKey ttl cache1 Hpos Hwhole Hsome).
  - apply expire_of_cmd_Set; assumption.
  - rewrite lookup_cmd_Set_ne by exact Hki.
    rewrite lookup_cmd_Expire_ne by exact Hei.
    apply Hother. exact Hei.
Qed.

(** C5, as the code has it: the service's time to live is the configured
    one, or 24 hours when that is not positive; and when it is a whole number
    of seconds, as the default is, each mutation sets the time to live of the
    keys it writes to it:
    - [Create] writes the session record with it and resets the per-user
      index entry; the events list is not touched;
    - [AppendEvent] resets the events list and rewrites the session record
      with it; the index entry is not touched;
    - a state [Set] that reaches the session record rewrites it with it; no
      other key is touched. *)
Theorem C5_mutations_reset_ttl_of_keys_they_write (configured : Z) :
  let ttl := NewRedisSessionService_ttl configured in
  (0 < ttl /\
   (configured <= 0 -> ttl = 24 * 3600 * 1000000000) /\
   (0 < configured -> ttl = configured)) /\
  (configured <= int_max -> Z.rem ttl Second = 0 ->
   (forall req generated now cache cache' sess,
       Create ttl req generated now cache = (Ok sess, cache') ->
       expire_of cache' (buildSessionKey (cr_AppName req) (cr_UserID req) (sess_id sess))
         = Some ttl /\
       expire_of cache' (buildSessionIndexKey (cr_AppName req) (cr_UserID req)) = Some ttl /\
       cache' !! buildEventsKey (cr_AppName req) (cr_UserID req) (sess_id sess)
         = cache !! buildEventsKey (cr_AppName req) (cr_UserID req) (sess_id sess)) /\
   (forall sess evt evt' now1 now2 generated cache cache',
       AppendEvent ttl (Some sess) evt now1 now2 generated cache = (None, evt', cache') ->
       expire_of cache' (buildEventsKey (sv_AppName sess) (sv_UserID sess) (sv_ID sess))
         = Some ttl /\
       expire_of cache' (buildSessionKey (sv_AppName sess) (sv_UserID sess) (sv_ID sess))
         = Some ttl /\
       cache' !! buildSessionIndexKey (sv_AppName sess) (sv_UserID sess)
         = cache !! buildSessionIndexKey (sv_AppName sess) (sv_UserID sess)) /\
   (forall s s' key v now cache cache',
       st_client s = true -> st_ttl s = ttl ->
       State_Set s key v now cache = (None, s', cache') ->
       expire_of cache' (st_key s) = Some ttl /\
       forall key', st_key s <> key' -> cache' !! key' = cache !! key')).
Proof.
  cbv zeta. pose proof (NewRedisSessionService_ttl_pos configured) as Hpos.
  split.
  - split; [exact Hpos|]. unfold NewRedisSessionService_ttl.
    destruct (Z.leb_spec configured 0); split; intros; try lia; reflexivity.
  - intros Hmax Hwhole. split; [|split].
    + intros req generated now cache cache' sess Hrun.
      destruct (Create_success _ _ _ _ _ _ _ Hpos Hwhole Hrun) as (_ & _ & H). exact H.
    + intros sess evt evt' now1 now2 generated cache cache' Hrun.
      exact (AppendEvent_success _ _ _ _ _ _ _ _ _ Hpos Hwhole Hrun).
    + intros s s' key v now cache cache' Hclient Httl Hrun.
      destruct (State_Set_success _ _ _ _ _ _ _ Hclient Hrun) as [Hexp Hother].
      split; [|exact Hother]. rewrite Hexp, Httl.
      assert (Hrange : 0 <= NewRedisSessionService_ttl configured <= int_max).
      { split; [lia|]. unfold NewRedisSessionService_ttl.
        destruct (Z.leb_spec configured 0); [vm_compute; discriminate | exact Hmax]. }
      rewrite (Duration_Seconds_int64_whole _ Hrange Hwhole).
      destruct (whole_seconds _ Hpos Hwhole) as (Hge & Hsec & _).
      unfold formatSec in Hsec.
      destruct (Z.ltb_spec (NewRedisSessionService_ttl configured) Second) as [|_]; [lia|].
      rewrite andb_false_r in Hsec. rewrite Hsec.
      assert (Hq : 0 < Z.quot (NewRedisSessionService_ttl configured) Second)
        by (apply Z.quot_str_pos; unfold Second in *; lia).
      apply Z.ltb_lt in Hq. rewrite Hq. reflexivity.
Qed.

Lemma C5_mutations_witness :
  let ttl := NewRedisSessionService_ttl 0 in
  let cache' := snd (AppendEvent ttl (Some session_s1) event_e1 5 6 "generated" aged_cache) in
  ttl = 24 * 3600 * 1000000000 /\
  expire_of cache' (buildEventsKey "app" "u" "s1") = Some ttl /\
  expire_of cache' (buildSessionKey "app" "u" "s1") = Some ttl /\
  cache' !! buildSessionIndexKey "app" "u" = aged_cache !! buildSessionIndexKey "app" "u".
Proof.
  cbv zeta.
  destruct (C5_mutations_reset_ttl_of_keys_they_write 0) as ((_ & Hdefault & _) & Hwhole).
  destruct (Hwhole ltac:(unfold int_max; lia) eq_refl) as (_ & Happend & _).
  split; [apply Hdefault; lia|].
  destruct (AppendEvent (NewRedisSessionService_ttl 0) (Some session_s1) event_e1 5 6
              "generated" aged_cache) as [[err evt'] cache'] eqn:Hrun.
  assert (Herr : err = None).
  { apply (f_equal (fun r => fst (fst r))) in Hrun. cbn [fst] in Hrun. rewrite <- Hrun.
    vm_compute. reflexivity. }
  subst err. exact (Happend session_s1 event_e1 evt' 5 6 "generated" aged_cache cache' Hrun).
Defined.

(** Where the time to live is not a whole number of seconds the keys do
    not get it: [Seconds] rounds 16777216.999999999 s up to 16777217 s for
    the script, and under half a second the script is given 0 and stores the
    record without any time to live, while the commands of [Create] and
    [AppendEvent] are sent whole milliseconds and whole seconds. *)
Example time_to_live_not_whole_seconds :
  Duration_Seconds_int64 16777216999999999 = 16777217 /\
  Z.quot 16777216999999999 Second = 16777216 /\
  Duration_Seconds_int64 (365 * 24 * Hour - 1) = 365 * 24 * 3600 /\
  Duration_Seconds_int64 500000000 = 0 /\
  set_expire 1500000001 None = Some 1500000000 /\
  expire_of (cmd_Expire "k" 1500000001 (cmd_Set "k" ANil 0 ∅)) "k" = Some Second /\
  expire_of
    (snd (persistAtomic
            (newRedisState (Some []) true (buildSessionKey "app" "u" "s1") 500000000)
            1700000000 aged_cache))
    (buildSessionKey "app" "u" "s1") = None.
Proof. vm_compute. repeat split; reflexivity. Qed.

(** C5, as the specification states it, fails: after a successful
    [AppendEvent] on the aged cache the index entry still has its hour, not
    the 24 hours of the service. *)
Lemma C5_not_all_three_keys_reset :
  ~ (forall ttl sess evt evt' now1 now2 generated cache cache',
        0 < ttl ->
        AppendEvent ttl (Some sess) evt now1 now2 generated cache = (None, evt', cache') ->
        all_three_reset ttl (sv_AppName sess) (sv_UserID sess) (sv_ID sess) cache').
Proof.
  intros Hall.
  destruct (AppendEvent DefaultSessionTTL (Some session_s1) event_e1 5 6 "generated" aged_cache)
    as [[err evt'] cache'] eqn:Hrun.
  assert (Herr : err = None).
  { apply (f_equal (fun r => fst (fst r))) in Hrun. cbn [fst] in Hrun. rewrite <- Hrun.
    vm_compute. reflexivity. }
  subst err.
  destruct (Hall DefaultSessionTTL session_s1 event_e1 evt' 5 6 "generated" aged_cache cache'
              ltac:(reflexivity) Hrun) as (_ & _ & Hindex).
  assert (Hpos : 0 < DefaultSessionTTL) by reflexivity.
  destruct (AppendEvent_success _ _ _ _ _ _ _ _ _ Hpos eq_refl Hrun) as (_ & _ & Hsame).
  unfold expire_of in Hindex. cbn [session_s1 sv_AppName sv_UserID] in Hindex, Hsame.
  rewrite Hsame in Hindex. vm_compute in Hindex. discriminate Hindex.
Qed.

End RedisFacts.

Module ShardFacts.
Import Go Shard.

Example NewClient_shardCount_3 : NewClient_shardCount 3 = 4.
Proof. reflexivity. Qed.

Example NewClient_shardCount_7 : NewClient_shardCount 7 = 8.
Proof. reflexivity. Qed.

Example NewClient_shardCount_default :
  NewClient_shardCount 0 = 8 /\ NewClient_shardCount (-5) = 8.
Proof. split; reflexivity. Qed.

Example fnv1a32_a : fnv1a32 (bytes_of_string "a") = 0xe40c292c.
Proof. reflexivity. Qed.

Example fnv1a32_foobar : fnv1a32 (bytes_of_string "foobar") = 0xbf9cf968.
Proof. reflexivity. Qed.

Example GetEventsTableName_a : GetEventsTableName 8 "a" = "session_events_4".
Proof. reflexivity. Qed.

Lemma int_wrap_id z : int_min <= z <= int_max -> int_wrap z = z.
Proof.
  unfold int_wrap, wrap_signed, int_min, int_max. intros H.
  rewrite Z.mod_small; lia.
Qed.

(** One smearing statement [n |= n >> w]: if the [w] bits from the top bit
    [k] downwards are set, afterwards the [2w] bits from [k] downwards are. *)
Lemma smear_step x w k :
  0 < w ->
  (forall i, k < i -> Z.testbit x i = false) ->
  (forall i, 0 <= i -> k - w < i <= k -> Z.testbit x i = true) ->
  (forall i, k < i -> Z.testbit (Z.lor x (Z.shiftr x w)) i = false) /\
  (forall i, 0 <= i -> k - 2 * w < i <= k ->
     Z.testbit (Z.lor x (Z.shiftr x w)) i = true).
Proof.
  intros Hw Hhi Hlo. split.
  - intros i Hi. destruct (Z_lt_le_dec i 0) as [Hneg|Hpos].
    + apply Z.testbit_neg_r. exact Hneg.
    + rewrite Z.lor_spec, Z.shiftr_spec by lia.
      rewrite (Hhi i Hi), (Hhi (i + w)) by lia. reflexivity.
  - intros i Hi0 Hi. rewrite Z.lor_spec, Z.shiftr_spec by lia.
    destruct (Z_lt_le_dec (k - w) i) as [Hnear|Hfar].
    + rewrite (Hlo i) by lia. reflexivity.
    + rewrite (Hlo (i + w)) by lia. apply orb_true_r.
Qed.

(** The five smearing statements turn any [m] with [1 <= m < 2^32] into the
    all-ones number of the same bit length. *)
Lemma smear_32 m :
  1 <= m < 2 ^ 32 ->
  let n1 := Z.lor m (Z.shiftr m 1) in
  let n2 := Z.lor n1 (Z.shiftr n1 2) in
  let n3 := Z.lor n2 (Z.shiftr n2 4) in
  let n4 := Z.lor n3 (Z.shiftr n3 8) in
  let n5 := Z.lor n4 (Z.shiftr n4 16) in
  n5 = Z.ones (Z.log2 m + 1).
Proof.
  intros Hm. set (k := Z.log2 m).
  assert (Hk0 : 0 <= k) by apply Z.log2_nonneg.
  assert (Hk : k < 32).
  { apply Z.log2_lt_pow2; lia. }
  assert (H0 : (forall i, k < i -> Z.testbit m i = false) /\
               (forall i, 0 <= i -> k - 1 < i <= k -> Z.testbit m i = true)).
  { split.
    - intros i Hi. apply Z.bits_above_log2; [lia | exact Hi].
    - intros i _ Hi. replace i with k by lia. apply Z.bit_log2. lia. }
  destruct H0 as [Hhi Hlo].
  destruct (smear_step m 1 k eq_refl Hhi Hlo) as [Hhi1 Hlo1].
  destruct (smear_step _ 2 k eq_refl Hhi1 Hlo1) as [Hhi2 Hlo2].
  destruct (smear_step _ 4 k eq_refl Hhi2 Hlo2) as [Hhi3 Hlo3].
  destruct (smear_step _ 8 k eq_refl Hhi3 Hlo3) as [Hhi4 Hlo4].
  destruct (smear_step _ 16 k eq_refl Hhi4 Hlo4) as [Hhi5 Hlo5].
  cbv zeta. apply Z.bits_inj'. intros i Hi.
  destruct (Z_lt_le_dec k i) as [Habove|Hbelow].
  - rewrite Hhi5 by exact Habove. rewrite Z.ones_spec_high by lia. reflexivity.
  - rewrite Hlo5 by lia. rewrite Z.ones_spec_low by lia. reflexivity.
Qed.

(** [nextPowerOfTwo] meets its documentation ("the next power of 2 >= n")
    for every argument up to [2^32]. *)
Lemma nextPowerOfTwo_upto_2_32 n :
  1 < n <= 2 ^ 32 ->
  exists k, 0 < k <= 32 /\ nextPowerOfTwo n = 2 ^ k /\ n <= 2 ^ k < 2 * n.
Proof.
  intros Hn. unfold nextPowerOfTwo.
  destruct (Z.leb_spec n 1) as [Hle|_]; [lia|].
  rewrite (int_wrap_id (n - 1)) by (unfold int_min, int_max; lia).
  pose proof (smear_32 (n - 1) ltac:(lia)) as Hs. cbv zeta in Hs. rewrite Hs.
  set (k := Z.log2 (n - 1)).
  assert (Hk0 : 0 <= k) by apply Z.log2_nonneg.
  assert (Hk : k < 32) by (apply Z.log2_lt_pow2; lia).
  destruct (Z.log2_spec (n - 1) ltac:(lia)) as [Hlow Hhigh]. fold k in Hlow, Hhigh.
  rewrite Z.ones_equiv.
  replace (Z.pred (2 ^ (k + 1)) + 1) with (2 ^ (k + 1)) by lia.
  assert (Hpow : 2 ^ (k + 1) <= 2 ^ 32) by (apply Z.pow_le_mono_r; lia).
  rewrite int_wrap_id by (unfold int_min, int_max; lia).
  exists (k + 1). replace (Z.succ k) with (k + 1) in Hhigh by lia.
  rewrite Z.pow_add_r in * by lia. change (2 ^ 1) with 2 in *.
  repeat split; lia.
Qed.

(** [isPowerOfTwo] accepts exactly the powers of two. *)
Lemma isPowerOfTwo_sound n :
  int_min <= n <= int_max -> isPowerOfTwo n = true -> exists k, 0 <= k /\ n = 2 ^ k.
Proof.
  intros Hr H. unfold isPowerOfTwo in H.
  apply andb_true_iff in H as [Hpos Hland].
  apply Z.ltb_lt in Hpos. apply Z.eqb_eq in Hland.
  rewrite int_wrap_id in Hland by (unfold int_min, int_max in *; lia).
  set (k := Z.log2 n). exists k.
  assert (Hk0 : 0 <= k) by apply Z.log2_nonneg.
  split; [exact Hk0|].
  destruct (Z.log2_spec n Hpos) as [Hlow Hhigh]. fold k in Hlow, Hhigh.
  destruct (Z.eq_dec n (2 ^ k)) as [Heq|Hne]; [exact Heq|exfalso].
  assert (Hbit : Z.testbit (Z.land n (n - 1)) k = true).
  { rewrite Z.land_spec. apply andb_true_iff. split.
    - apply Z.bit_log2. exact Hpos.
    - assert (Hl : Z.log2 (n - 1) = k).
      { apply Z.log2_unique; [exact Hk0 | lia]. }
      rewrite <- Hl. apply Z.bit_log2. lia. }
  rewrite Hland, Z.bits_0 in Hbit. discriminate.
Qed.

Lemma isPowerOfTwo_complete k :
  0 <= k < 63 -> isPowerOfTwo (2 ^ k) = true.
Proof.
  intros Hk. unfold isPowerOfTwo.
  assert (Hp : 0 < 2 ^ k) by (apply Z.pow_pos_nonneg; lia).
  assert (Hle : 2 ^ k <= 2 ^ 62) by (apply Z.pow_le_mono_r; lia).
  apply andb_true_iff. split; [apply Z.ltb_lt; exact Hp|].
  rewrite int_wrap_id by (unfold int_min, int_max; lia).
  apply Z.eqb_eq. replace (2 ^ k - 1) with (Z.ones k) by (rewrite Z.ones_equiv; lia).
  rewrite Z.land_ones by lia. apply Z.mod_same. lia.
Qed.

(** With a power-of-two shard count the mask is the remainder, hence in range. *)
Lemma GetShardIndex_pow2 k userID :
  0 <= k < 63 ->
  GetShardIndex (2 ^ k) userID = fnv1a32 (bytes_of_string userID) mod 2 ^ k /\
  0 <= GetShardIndex (2 ^ k) userID < 2 ^ k.
Proof.
  intros Hk. unfold GetShardIndex.
  assert (Hp : 0 < 2 ^ k) by (apply Z.pow_pos_nonneg; lia).
  assert (Hle : 2 ^ k <= 2 ^ 62) by (apply Z.pow_le_mono_r; lia).
  rewrite int_wrap_id by (unfold int_min, int_max; lia).
  replace (2 ^ k - 1) with (Z.ones k) by (rewrite Z.ones_equiv; lia).
  rewrite Z.land_ones by lia. split; [reflexivity|].
  apply Z.mod_pos_bound. exact Hp.
Qed.

(** The shard routing rule for every configured shard count up to [2^32]:
    the client's shard count [N] is the configured count (8 when it is not
    positive) rounded up to the next power of two, and every user's shard
    index is [fnv1a32(u) & (N-1) = fnv1a32(u) mod N], inside [0, N). *)
Lemma shard_routing_upto_2_32 (cfg : Z) (userID : string) :
  int_min <= cfg <= 2 ^ 32 ->
  let requested := if cfg <=? 0 then 8 else cfg in
  let N := NewClient_shardCount cfg in
  (exists k, 0 <= k <= 32 /\ N = 2 ^ k) /\
  requested <= N < 2 * requested /\
  GetShardIndex N userID = fnv1a32 (bytes_of_string userID) mod N /\
  0 <= GetShardIndex N userID < N.
Proof.
  intros Hcfg requested N.
  assert (Hreq : 1 <= requested <= 2 ^ 32).
  { subst requested. destruct (Z.leb_spec cfg 0); lia. }
  assert (HN : exists k, 0 <= k <= 32 /\ N = 2 ^ k /\ requested <= N < 2 * requested).
  { subst N. unfold NewClient_shardCount. fold requested.
    change DefaultShardCount with 8. fold requested.
    destruct (isPowerOfTwo requested) eqn:Hp; cbn [negb].
    - destruct (isPowerOfTwo_sound requested) as [k [Hk0 Hk]];
        [unfold int_min, int_max; lia | exact Hp |].
      exists k. repeat split; try lia.
      destruct (Z_le_gt_dec k 32) as [Hle|Hgt]; [exact Hle|exfalso].
      assert (2 ^ 33 <= 2 ^ k) by (apply Z.pow_le_mono_r; lia). lia.
    - assert (Hne1 : requested <> 1).
      { intros ->. discriminate Hp. }
      destruct (nextPowerOfTwo_upto_2_32 requested) as [k [Hk [Heq Hb]]]; [lia|].
      exists k. repeat split; lia. }
  destruct HN as [k [Hk [HNk Hb]]].
  split; [exists k; tauto|]. split; [exact Hb|].
  rewrite HNk. destruct (GetShardIndex_pow2 k userID) as [Hidx Hrange]; [lia|].
  split; assumption.
Qed.

Lemma shard_routing_upto_2_32_witness :
  NewClient_shardCount 7 = 8 /\ GetShardIndex 8 "a" = 4.
Proof.
  pose proof (shard_routing_upto_2_32 7 "a" ltac:(unfold int_min; lia)) as H.
  cbv zeta in H. split; reflexivity.
Defined.

Lemma land_le_r a b : 0 <= b -> Z.land a b <= b.
Proof.
  intros Hb.
  pose proof (Z.lor_ldiff_and b a) as Hsplit.
  pose proof (Z.add_lor_land (Z.ldiff b a) (Z.land b a)) as Hadd.
  assert (Hdisj : Z.land (Z.ldiff b a) (Z.land b a) = 0).
  { rewrite (Z.land_comm b a), Z.land_assoc, Z.land_ldiff, Z.land_0_l. reflexivity. }
  rewrite Hdisj, Hsplit in Hadd.
  assert (0 <= Z.ldiff b a) by (apply Z.ldiff_nonneg; lia).
  rewrite (Z.land_comm a b). lia.
Qed.

(** The index is inside [0, N) for every positive shard count, power of
    two or not: the mask cannot exceed [N - 1]. *)
Lemma GetShardIndex_in_range (shardCount : Z) (userID : string) :
  1 <= shardCount <= int_max ->
  0 <= GetShardIndex shardCount userID < shardCount.
Proof.
  intros HN. unfold GetShardIndex.
  rewrite int_wrap_id by (unfold int_min, int_max in *; lia). split.
  - apply Z.land_nonneg. right. lia.
  - pose proof (land_le_r (fnv1a32 (bytes_of_string userID)) (shardCount - 1)). lia.
Qed.

(** C9 (defect): [nextPowerOfTwo] smears the top bit over 32 bit positions
    only, while Go's [int] has 64.  For the configured shard count
    [2^32 + 1] the client's shard count becomes [2^33 - 1], which is not a
    power of two, so the mask [N - 1 = 2^33 - 2] clears bit 0 of the hash:
    the index, though inside [0, N), is not the remainder modulo [N], and
    odd-numbered shard tables are never selected.  Up to [2^32] the rounding
    is right ([shard_routing_upto_2_32]). *)
Theorem C9_nextPowerOfTwo_not_power_of_two_above_2_32 :
  NewClient_shardCount (2 ^ 32 + 1) = 2 ^ 33 - 1 /\
  isPowerOfTwo (NewClient_shardCount (2 ^ 32 + 1)) = false /\
  (forall k, 0 <= k -> NewClient_shardCount (2 ^ 32 + 1) <> 2 ^ k) /\
  fnv1a32 (bytes_of_string "b") = 3876335077 /\
  GetShardIndex (NewClient_shardCount (2 ^ 32 + 1)) "b" = 3876335076.
Proof.
  assert (HN : NewClient_shardCount (2 ^ 32 + 1) = 2 ^ 33 - 1) by reflexivity.
  split; [exact HN|]. split; [reflexivity|]. split; [|split; reflexivity].
  intros k Hk Heq. rewrite HN in Heq.
  destruct (Z_le_gt_dec k 32) as [Hle|Hgt].
  - assert (2 ^ k <= 2 ^ 32) by (apply Z.pow_le_mono_r; lia). lia.
  - assert (Hs : 2 ^ k = 2 ^ 33 * 2 ^ (k - 33)).
    { rewrite <- Z.pow_add_r by lia. f_equal. lia. }
    assert (0 < 2 ^ (k - 33)) by (apply Z.pow_pos_nonneg; lia).
    rewrite Hs in Heq. change (2 ^ 33) with 8589934592 in Heq. lia.
Qed.

End ShardFacts.

Module AnthropicRequestFacts.
Import Go JSON ADK Crypto Anthropic StringFacts.

(** *** Tool identifiers *)

Lemma bytes_of_string_app (s1 s2 : string) :
  bytes_of_string (s1 ++ s2) = (bytes_of_string s1 ++ bytes_of_string s2)%list.
Proof.
  induction s1 as [|a s1 IH]; [reflexivity|].
  change (bytes_of_string (String a (s1 ++ s2))
          = (bytes_of_string (String a s1) ++ bytes_of_string s2)%list).
  cbn [bytes_of_string]. rewrite IH. reflexivity.
Qed.

Lemma toolIDByte_hex_digit (d : Z) :
  0 <= d < 16 -> toolIDByte (Z.of_N (Ascii.N_of_ascii (hex_digit d))) = true.
Proof.
  intros Hd.
  assert (Hin : In d [0; 1; 2; 3; 4; 5; 6; 7; 8; 9; 10; 11; 12; 13; 14; 15]) by (cbn; lia).
  repeat (destruct Hin as [<- | Hin]; [reflexivity|]). destruct Hin.
Qed.

Lemma be_bytes_range (count : nat) (v : Z) :
  Forall (fun b => 0 <= b < 256) (be_bytes count v).
Proof.
  unfold be_bytes. induction (rev (seq 0 count)) as [|i l IH]; cbn [map].
  - constructor.
  - constructor; [apply Z.mod_pos_bound; lia | exact IH].
Qed.

(** Every byte of a digest is a byte. *)
Lemma Sum256_range (data : list Z) : Forall (fun b => 0 <= b < 256) (Sum256 data).
Proof.
  unfold Sum256.
  destruct (fold_left compress _ init256) as [[[[[[[a b] c] d] e] f] g] h].
  unfold digest_bytes. repeat (apply Forall_app; split); apply be_bytes_range.
Qed.

Lemma hex_EncodeToString_toolIDBytes (bs : list Z) :
  Forall (fun b => 0 <= b < 256) bs ->
  forallb toolIDByte (bytes_of_string (hex_EncodeToString bs)) = true.
Proof.
  induction 1 as [|b bs Hb _ IH]; [reflexivity|].
  cbn [hex_EncodeToString bytes_of_string forallb].
  rewrite !toolIDByte_hex_digit, IH; [reflexivity | |].
  - apply Z.mod_pos_bound. lia.
  - split; [apply Z.div_pos; lia | apply Z.div_lt_upper_bound; lia].
Qed.

Lemma replacement_matches (id : string) :
  anthropicToolIDPattern_MatchString
    ("toolu_" ++ hex_EncodeToString (firstn 16 (Sum256 (bytes_of_string id)))) = true.
Proof.
  unfold anthropicToolIDPattern_MatchString. apply andb_true_iff. split.
  - apply Z.ltb_lt. unfold len. rewrite length_append. cbn [String.length]. lia.
  - rewrite bytes_of_string_app, forallb_app. apply andb_true_iff. split; [reflexivity|].
    apply hex_EncodeToString_toolIDBytes, Forall_take, Sum256_range.
Qed.

Lemma sanitizeToolID_matches (id : string) :
  anthropicToolIDPattern_MatchString (sanitizeToolID id) = true.
Proof.
  unfold sanitizeToolID.
  destruct (anthropicToolIDPattern_MatchString id) eqn:Hm; [exact Hm|].
  apply replacement_matches.
Qed.

(** X1: whatever the identifier, [sanitizeToolID] returns one that matches
    [^[a-zA-Z0-9_-]+$]; an identifier that already matches is returned
    unchanged, so sanitising twice is sanitising once; any other identifier
    (the empty one included) is replaced by ["toolu_"] followed by the 32
    hexadecimal digits of the first 16 bytes of its SHA-256 digest, 38 bytes
    in all. *)
Theorem sanitizeToolID_valid_and_stable (id : string) :
  anthropicToolIDPattern_MatchString (sanitizeToolID id) = true /\
  (anthropicToolIDPattern_MatchString id = true -> sanitizeToolID id = id) /\
  sanitizeToolID (sanitizeToolID id) = sanitizeToolID id /\
  (anthropicToolIDPattern_MatchString id = false ->
   sanitizeToolID id
   = "toolu_" ++ hex_EncodeToString (firstn 16 (Sum256 (bytes_of_string id))) /\
   len (sanitizeToolID id) = 38).
Proof.
  split; [apply sanitizeToolID_matches|].
  split; [intros Hm; unfold sanitizeToolID; rewrite Hm; reflexivity|].
  split.
  - unfold sanitizeToolID at 1. rewrite sanitizeToolID_matches. reflexivity.
  - intros Hm. unfold sanitizeToolID. rewrite Hm. split; [reflexivity|].
    unfold len. rewrite length_append, ToolCallIDFacts.length_hex_EncodeToString.
    rewrite length_take, ToolCallIDFacts.length_Sum256. reflexivity.
Qed.

Example sanitizeToolID_valid : sanitizeToolID "toolu_01A-b_9" = "toolu_01A-b_9".
Proof. reflexivity. Qed.

Example sanitizeToolID_invalid :
  sanitizeToolID "call:1" = "toolu_" ++ hex_EncodeToString (firstn 16 (Sum256 (bytes_of_string "call:1")))
  /\ sanitizeToolID "" = "toolu_e3b0c44298fc1c149afbf4c8996fb924".
Proof. vm_compute. split; reflexivity. Qed.


(** *** History repair on histories that need none *)

Lemma answered_in_intro (n : MessageParam) (rblock : ContentBlockParamUnion)
    (tr : ToolResultBlockParam) :
  Role n = MessageParamRoleUser ->
  In rblock (Content n) ->
  OfToolResult rblock = Some tr ->
  answered_in (Some n) (tr_ToolUseID tr) = true.
Proof.
  intros Hrole Hin Hr. unfold answered_in. rewrite Hrole.
  change (String.eqb MessageParamRoleUser MessageParamRoleUser) with true. cbn [andb].
  apply RepairFacts.existsb_result_In, RepairFacts.In_extractToolResultIDs.
  exists rblock, tr. auto.
Qed.

Lemma filter_all {A} (f : A -> bool) (l : list A) :
  (forall x, In x l -> f x = true) -> List.filter f l = l.
Proof.
  induction l as [|x l IH]; intros H; [reflexivity|].
  cbn [List.filter]. rewrite (H x (or_introl eq_refl)), IH; [reflexivity|].
  intros y Hy. apply H. right. exact Hy.
Qed.

Lemma tool_use_answered_tail (msg : MessageParam) (rest : list MessageParam) :
  tool_use_answered (msg :: rest) -> tool_use_answered rest.
Proof.
  intros H i m block tu Hi Hrole Hin Htu.
  exact (H (S i) m block tu Hi Hrole Hin Htu).
Qed.

Lemma repaired_message_answered_id (msg : MessageParam) (rest : list MessageParam) :
  tool_use_answered (msg :: rest) -> repaired_message msg (head rest) = Some msg.
Proof.
  intros H. unfold repaired_message.
  destruct (String.eqb (Role msg) MessageParamRoleAssistant) eqn:Hrole; [|reflexivity].
  destruct (existsb is_tool_use (Content msg)) eqn:Hex; [|reflexivity].
  cbn [andb]. apply String.eqb_eq in Hrole.
  rewrite filter_all.
  - destruct msg as [role content]. cbn [Content Role] in *.
    destruct content as [|b bs]; [discriminate Hex | reflexivity].
  - intros block Hin. unfold keep_block.
    destruct (OfToolUse block) as [tu|] eqn:Htu; [|reflexivity].
    destruct (H 0%nat msg block tu eq_refl Hrole Hin Htu)
      as (next & rblock & tr & Hnext & Hn & Hrb & Hr & Hid).
    destruct rest as [|n rest']; [discriminate Hnext|].
    cbn in Hnext. injection Hnext as ->. cbn [head]. rewrite <- Hid.
    exact (answered_in_intro next rblock tr Hn Hrb Hr).
Qed.

Lemma repairMessageHistory_fixed (history : list MessageParam) :
  tool_use_answered history -> repairMessageHistory history = history.
Proof.
  induction history as [|msg rest IH]; intros H; [reflexivity|].
  rewrite RepairFacts.repairMessageHistory_cons, (repaired_message_answered_id msg rest H).
  rewrite (IH (tool_use_answered_tail msg rest H)). reflexivity.
Qed.

(** X2: a history in which every tool-use block of an assistant message is
    answered by a tool-result of the user message right after it goes through
    [repairMessageHistory] unchanged; and as the repaired history is of that
    kind, repairing twice is repairing once. *)
Theorem repairMessageHistory_idempotent (messages : list MessageParam) :
  (tool_use_answered messages -> repairMessageHistory messages = messages) /\
  repairMessageHistory (repairMessageHistory messages) = repairMessageHistory messages.
Proof.
  split; [apply repairMessageHistory_fixed|].
  apply repairMessageHistory_fixed, RepairFacts.repairMessageHistory_answered.
Qed.


(** *** Request translation *)

Section Requests.

Variable json_Marshal : any -> result string.
Variable base64_EncodeToString : list Z -> string.

Local Abbreviation partBlocks := (partBlocks json_Marshal base64_EncodeToString).
Local Abbreviation contentBlocks := (contentBlocks json_Marshal base64_EncodeToString).
Local Abbreviation convertContentToMessage :=
  (convertContentToMessage json_Marshal base64_EncodeToString).
Local Abbreviation convertContents := (convertContents json_Marshal base64_EncodeToString).
Local Abbreviation buildMessageParams :=
  (buildMessageParams json_Marshal base64_EncodeToString).

Lemma partBlocks_valid (part : RequestPart) (added : list ContentBlockParamUnion) :
  partBlocks part = Ok added -> forallb valid_tool_ids added = true.
Proof.
  unfold Anthropic.partBlocks.
  destruct (negb (String.eqb (rp_Text part) "")); destruct (rp_InlineData part) as [data|];
    try destruct (supportedImageType (blob_MIMEType data));
    destruct (rp_FunctionCall part) as [fc|];
    destruct (rp_FunctionResponse part) as [fr|];
    try destruct (json_Marshal (any_of_map (fr_Response fr))) as [js|err];
    intros [= <-]; cbn [app forallb];
    unfold valid_tool_ids, NewTextBlock, NewImageBlock, NewToolUseBlock, NewToolResultBlock;
    cbn [OfToolUse OfToolResult tu_ID tr_ToolUseID andb];
    rewrite ?sanitizeToolID_matches; reflexivity.
Qed.

Lemma partBlocks_is_ok (part : RequestPart) :
  is_ok (partBlocks part) = response_marshals json_Marshal part.
Proof.
  unfold Anthropic.partBlocks, response_marshals.
  destruct (rp_FunctionResponse part) as [fr|]; [|reflexivity].
  destruct (json_Marshal (any_of_map (fr_Response fr))); reflexivity.
Qed.

Lemma contentBlocks_is_ok (parts : list RequestPart) (blocks : list ContentBlockParamUnion) :
  is_ok (contentBlocks parts blocks) = forallb (response_marshals json_Marshal) parts.
Proof.
  revert blocks. induction parts as [|part rest IH]; intros blocks; [reflexivity|].
  cbn [Anthropic.contentBlocks forallb]. rewrite <- partBlocks_is_ok.
  destruct (partBlocks part) as [added|err]; [apply IH | reflexivity].
Qed.

Lemma contentBlocks_valid (parts : list RequestPart)
    (blocks out : list ContentBlockParamUnion) :
  forallb valid_tool_ids blocks = true ->
  contentBlocks parts blocks = Ok out ->
  forallb valid_tool_ids out = true.
Proof.
  revert blocks. induction parts as [|part rest IH]; intros blocks Hb; cbn [Anthropic.contentBlocks].
  - intros [= <-]. exact Hb.
  - destruct (partBlocks part) as [added|err] eqn:Hp; [|discriminate].
    apply IH. rewrite forallb_app, Hb. exact (partBlocks_valid part added Hp).
Qed.

Lemma convertRoleToAnthropic_cases (role : string) :
  convertRoleToAnthropic role
  = if String.eqb role "model" then MessageParamRoleAssistant else MessageParamRoleUser.
Proof.
  unfold convertRoleToAnthropic.
  destruct (String.eqb_spec role "user") as [->|_]; [reflexivity|].
  destruct (String.eqb role "model"); reflexivity.
Qed.

Lemma convertContentToMessage_wellformed (content : RequestContent) (msg : MessageParam) :
  convertContentToMessage content = Ok (Some msg) ->
  Role msg = convertRoleToAnthropic (rc_Role content) /\ wellformed_message msg = true.
Proof.
  unfold Anthropic.convertContentToMessage.
  destruct (contentBlocks (rc_Parts content) []) as [blocks|err] eqn:Hb; [|discriminate].
  destruct (Z.eqb_spec (Z.of_nat (length blocks)) 0) as [_|Hlen]; [discriminate|].
  intros [= <-]. split; [reflexivity|].
  unfold wellformed_message. cbn [Role Content].
  rewrite (contentBlocks_valid (rc_Parts content) [] blocks eq_refl Hb).
  rewrite convertRoleToAnthropic_cases.
  assert (Hpos : (0 <? Z.of_nat (length blocks)) = true) by (apply Z.ltb_lt; lia).
  rewrite Hpos. destruct (String.eqb (rc_Role content) "model"); reflexivity.
Qed.

Lemma convertContentToMessage_is_ok (content : RequestContent) :
  is_ok (convertContentToMessage content)
  = forallb (response_marshals json_Marshal) (rc_Parts content).
Proof.
  unfold Anthropic.convertContentToMessage. rewrite <- (contentBlocks_is_ok _ []).
  destruct (contentBlocks (rc_Parts content) []) as [blocks|err]; [|reflexivity].
  destruct (Z.of_nat (length blocks) =? 0); reflexivity.
Qed.

(** X3: [convertContentToMessage] fails exactly when the response of one of
    the content's function responses cannot be encoded (the arguments of a
    function call never make it fail: they are sent as [{}] then); a message
    it returns has the role [assistant] for a content of role [model] and
    [user] for any other role, has at least one block, and every tool
    identifier in it matches [^[a-zA-Z0-9_-]+$]. *)
Theorem convertContentToMessage_total_and_wellformed (content : RequestContent) :
  is_ok (convertContentToMessage content)
  = forallb (response_marshals json_Marshal) (rc_Parts content) /\
  forall msg,
    convertContentToMessage content = Ok (Some msg) ->
    Role msg = (if String.eqb (rc_Role content) "model"
                then MessageParamRoleAssistant else MessageParamRoleUser) /\
    Content msg <> [] /\
    forallb valid_tool_ids (Content msg) = true.
Proof.
  split.
  - apply convertContentToMessage_is_ok.
  - intros msg Hmsg.
    destruct (convertContentToMessage_wellformed content msg Hmsg) as [Hrole Hwf].
    rewrite <- convertRoleToAnthropic_cases. split; [exact Hrole|].
    unfold wellformed_message in Hwf.
    apply andb_true_iff in Hwf as [Hwf Hids]. apply andb_true_iff in Hwf as [_ Hlen].
    split; [|exact Hids]. intros Hnil. rewrite Hnil in Hlen. discriminate Hlen.
Qed.


Lemma convertContents_wellformed (contents : list RequestContent)
    (messages out : list MessageParam) :
  forallb wellformed_message messages = true ->
  convertContents contents messages = Ok out ->
  forallb wellformed_message out = true /\
  (length out <= length messages + length contents)%nat.
Proof.
  revert messages. induction contents as [|content rest IH]; intros messages Hm;
    cbn [Anthropic.convertContents].
  - intros [= <-]. split; [exact Hm | lia].
  - destruct (convertContentToMessage content) as [[msg|]|err] eqn:Hc; [| |discriminate].
    + intros Hrest.
      destruct (convertContentToMessage_wellformed content msg Hc) as [_ Hwf].
      destruct (IH (messages ++ [msg])%list) with (2 := Hrest) as [Hout Hlen].
      * rewrite forallb_app, Hm. cbn [forallb]. rewrite Hwf. reflexivity.
      * split; [exact Hout|]. rewrite length_app in Hlen. cbn [length] in *. lia.
    + intros Hrest. destruct (IH messages Hm Hrest) as [Hout Hlen].
      split; [exact Hout|]. cbn [length]. lia.
Qed.

(** Every message of a repaired history stems from a message of the input:
    same role, no block that was not there. *)
Lemma repairMessageHistory_origin (messages : list MessageParam) (m : MessageParam) :
  In m (repairMessageHistory messages) ->
  exists m0, In m0 messages /\ Role m = Role m0 /\
             forall block, In block (Content m) -> In block (Content m0).
Proof.
  induction messages as [|msg rest IH]; intros Hin; [destruct Hin|].
  rewrite RepairFacts.repairMessageHistory_cons in Hin.
  destruct (repaired_message msg (head rest)) as [kept|] eqn:Hrep.
  - destruct Hin as [<- | Hin].
    + exists msg. split; [left; reflexivity|].
      destruct (RepairFacts.repaired_message_kept _ _ _ Hrep) as [Hr [[-> _] | [Hc _]]].
      * split; [reflexivity|]. auto.
      * split; [exact Hr|].
        intros block Hb. rewrite Hc in Hb. apply filter_In in Hb as [Hb _]. exact Hb.
    + destruct (IH Hin) as (m0 & Hm0 & H). exists m0. split; [right; exact Hm0 | exact H].
  - destruct (IH Hin) as (m0 & Hm0 & H). exists m0. split; [right; exact Hm0 | exact H].
Qed.

Lemma repairMessageHistory_length (messages : list MessageParam) :
  (length (repairMessageHistory messages) <= length messages)%nat.
Proof.
  induction messages as [|msg rest IH]; [reflexivity|].
  rewrite RepairFacts.repairMessageHistory_cons.
  destruct (repaired_message msg (head rest)); cbn [length]; lia.
Qed.

Lemma forallb_In {A} (f : A -> bool) (l : list A) (x : A) :
  forallb f l = true -> In x l -> f x = true.
Proof. intros H Hin. rewrite forallb_forall in H. exact (H x Hin). Qed.

Lemma repairMessageHistory_wellformed (messages : list MessageParam) :
  forallb wellformed_message messages = true ->
  forallb wellformed_message (repairMessageHistory messages) = true.
Proof.
  intros Hwf. apply forallb_forall. intros m Hin.
  destruct (repairMessageHistory_origin messages m Hin) as (m0 & Hm0 & Hrole & Hsub).
  pose proof (forallb_In _ _ _ Hwf Hm0) as H0. unfold wellformed_message in *.
  apply andb_true_iff in H0 as [H0 Hids]. apply andb_true_iff in H0 as [Hr _].
  rewrite Hrole, Hr. cbn [andb].
  apply andb_true_iff. split.
  - destruct (Content m) as [|b bs] eqn:Hc; [|apply Z.ltb_lt; cbn [length]; lia].
    pose proof (RepairFacts.repairMessageHistory_no_empty messages m Hin Hc) as Hold.
    pose proof (forallb_In _ _ _ Hwf Hold) as H1. unfold wellformed_message in H1.
    rewrite Hc in H1. cbn in H1. rewrite andb_false_r in H1. discriminate H1.
  - apply forallb_forall. intros block Hb.
    exact (forallb_In _ _ _ Hids (Hsub block Hb)).
Qed.

(** X4: the request [buildMessageParams] builds is one the protocol
    accepts as far as the adapter can tell: every tool-use block of an
    assistant message is answered by a tool-result in the user message right
    after it; every message is of the user or the assistant, has at least one
    block, and carries only tool identifiers matching [^[a-zA-Z0-9_-]+$];
    there are at most as many messages as contents; and the token limit is
    positive: the one of the request when that is positive, else 4096. *)
Theorem buildMessageParams_wellformed (name : string) (req : Request.LLMRequest)
    (params : MessageNewParams) :
  buildMessageParams name req = Ok params ->
  tool_use_answered (p_Messages params) /\
  forallb wellformed_message (p_Messages params) = true /\
  (length (p_Messages params) <= length (Request.Contents req))%nat /\
  0 < p_MaxTokens params /\
  (p_MaxTokens params = 4096 \/
   exists cfg, Request.Config req = Some cfg /\
               p_MaxTokens params = Request.cfg_MaxOutputTokens cfg) /\
  p_MaxTokens params
  = match Request.Config req with
    | Some cfg =>
        if 0 <? Request.cfg_MaxOutputTokens cfg then Request.cfg_MaxOutputTokens cfg
        else 4096
    | None => 4096
    end.
Proof.
  unfold Anthropic.buildMessageParams.
  destruct (convertContents (Request.Contents req) []) as [messages|err] eqn:Hc; [|discriminate].
  intros [= <-]. cbn [p_Messages p_MaxTokens].
  destruct (convertContents_wellformed (Request.Contents req) [] messages eq_refl Hc)
    as [Hwf Hlen].
  split; [apply RepairFacts.repairMessageHistory_answered|].
  split; [apply repairMessageHistory_wellformed, Hwf|].
  split; [pose proof (repairMessageHistory_length messages); cbn [length] in Hlen; lia|].
  destruct (Request.Config req) as [cfg|];
    [|split; [lia | split; [left; reflexivity | reflexivity]]].
  destruct (Z.ltb_spec 0 (Request.cfg_MaxOutputTokens cfg)) as [Hpos|_].
  - split; [exact Hpos|]. split; [|reflexivity]. right. exists cfg. split; reflexivity.
  - split; [lia | split; [left; reflexivity | reflexivity]].
Qed.

(** X5: [convertToolInputToRaw] never returns the empty text, and returns
    [null] only for a raw message that is [null] already: nil, an empty raw
    message, a value that cannot be encoded and a value encoded as [null]
    (the nil map) or as nothing all become [{}]; a raw message that is not
    empty is sent as it is, and any other value as its encoding. *)
Theorem convertToolInputToRaw_never_empty (input : tool_input) :
  convertToolInputToRaw json_Marshal input <> "" /\
  (convertToolInputToRaw json_Marshal input = "null" -> input = InputRaw "null") /\
  (input = InputNil \/ input = InputRaw "" \/ input = InputMap None /\ json_Marshal ANil = Ok "null"
   -> convertToolInputToRaw json_Marshal input = "{}") /\
  (forall raw, input = InputRaw raw -> raw <> "" ->
               convertToolInputToRaw json_Marshal input = raw) /\
  (forall encoded,
     (exists m, input = InputMap m /\ encoded = json_Marshal (any_of_map m))
     \/ input = InputOther encoded ->
     match encoded with
     | Err _ => convertToolInputToRaw json_Marshal input = "{}"
     | Ok data =>
         (data = "" \/ data = "null" -> convertToolInputToRaw json_Marshal input = "{}") /\
         (data <> "" -> data <> "null" -> convertToolInputToRaw json_Marshal input = data)
     end).
Proof.
  assert (Hm : forall r : result string,
             match r with
             | Err _ => emptyJSONObject
             | Ok data =>
                 if (len data =? 0) || String.eqb data "null" then emptyJSONObject else data
             end <> ""
             /\ match r with
                | Err _ => emptyJSONObject
                | Ok data =>
                    if (len data =? 0) || String.eqb data "null" then emptyJSONObject else data
                end <> "null").
  { intros [data|err]; [|split; discriminate].
    destruct data as [|a data]; [split; discriminate|].
    change (len (String a data) =? 0) with (Z.of_nat (S (String.length data)) =? 0).
    destruct (Z.eqb_spec (Z.of_nat (S (String.length data))) 0) as [H0|_]; [lia|].
    cbn [orb]. destruct (String.eqb_spec (String a data) "null") as [_|Hne].
    - split; discriminate.
    - split; [discriminate | exact Hne]. }
  assert (He : forall encoded : result string,
             match encoded with
             | Err _ =>
                 match encoded with
                 | Err _ => emptyJSONObject
                 | Ok data =>
                     if (len data =? 0) || String.eqb data "null" then emptyJSONObject
                     else data
                 end = "{}"
             | Ok data =>
                 (data = "" \/ data = "null" ->
                  (if (len data =? 0) || String.eqb data "null" then emptyJSONObject else data)
                  = "{}") /\
                 (data <> "" -> data <> "null" ->
                  (if (len data =? 0) || String.eqb data "null" then emptyJSONObject else data)
                  = data)
             end).
  { intros [data|err]; [|reflexivity]. split.
    - intros [-> | ->]; reflexivity.
    - intros Hne Hnn. destruct data as [|a data]; [contradiction|].
      change (len (String a data) =? 0) with (Z.of_nat (S (String.length data)) =? 0).
      destruct (Z.eqb_spec (Z.of_nat (S (String.length data))) 0) as [H0|_]; [lia|].
      cbn [orb]. destruct (String.eqb_spec (String a data) "null"); [contradiction|reflexivity]. }
  split; [|split; [|split; [|split]]].
  - destruct input as [|m|raw|r]; cbn [convertToolInputToRaw]; try apply Hm; [discriminate|].
    destruct raw as [|a raw]; [discriminate|].
    change (0 <? len (String a raw)) with (0 <? Z.of_nat (S (String.length raw))).
    destruct (Z.ltb_spec 0 (Z.of_nat (S (String.length raw)))); [discriminate | lia].
  - destruct input as [|m|raw|r]; cbn [convertToolInputToRaw].
    + discriminate.
    + intros H. destruct (Hm (json_Marshal (any_of_map m))) as [_ Hn]. contradiction.
    + destruct (0 <? len raw); [intros ->; reflexivity | discriminate].
    + intros H. destruct (Hm r) as [_ Hn]. contradiction.
  - intros [-> | [-> | [-> Hnull]]]; cbn [convertToolInputToRaw any_of_map]; try reflexivity.
    rewrite Hnull. reflexivity.
  - intros raw -> Hne. cbn [convertToolInputToRaw]. destruct raw as [|a raw]; [contradiction|].
    change (0 <? len (String a raw)) with (0 <? Z.of_nat (S (String.length raw))).
    destruct (Z.ltb_spec 0 (Z.of_nat (S (String.length raw)))); [reflexivity | lia].
  - intros encoded [(m & -> & ->) | ->]; cbn [convertToolInputToRaw];
      [destruct (json_Marshal (any_of_map m)) as [data|err] | destruct encoded as [data|err]];
      try reflexivity; apply (He (Ok data)).
Qed.


Lemma convertContents_B_is_ok (contents : list RequestContent) (messages : list MessageParam) :
  is_ok (convertContents contents messages)
  = forallb (fun content => forallb (response_marshals json_Marshal) (rc_Parts content))
      contents.
Proof.
  revert messages. induction contents as [|content rest IH]; intros messages; [reflexivity|].
  cbn [Anthropic.convertContents forallb].
  rewrite <- (convertContentToMessage_is_ok content).
  destruct (convertContentToMessage content) as [[msg|]|err]; cbn [is_ok andb];
    [apply IH | apply IH | reflexivity].
Qed.

Lemma buildMessageParams_is_ok (name : string) (req : Request.LLMRequest) :
  is_ok (buildMessageParams name req)
  = forallb (fun content => forallb (response_marshals json_Marshal) (rc_Parts content))
      (Request.Contents req).
Proof.
  unfold Anthropic.buildMessageParams. rewrite <- (convertContents_B_is_ok _ []).
  destruct (convertContents (Request.Contents req) []); reflexivity.
Qed.

Variable Messages_New : MessageNewParams -> result Message.
Variable json_Unmarshal : string -> result map_string_any.

Lemma generate_B_once (name : string) (req : Request.LLMRequest) (yield : consumer) :
  let items := generate json_Marshal base64_EncodeToString Messages_New json_Unmarshal
                 name req in
  respects_consumer yield items /\
  length items = 1%nat /\
  (List.filter is_error items = [] <->
   forallb (fun content => forallb (response_marshals json_Marshal) (rc_Parts content))
     (Request.Contents req) = true /\
   exists params message,
     buildMessageParams name req = Ok params /\ Messages_New params = Ok message /\
     items = [(Some (convertResponse json_Unmarshal message), None)]).
Proof.
  cbv zeta. unfold generate. rewrite <- (buildMessageParams_is_ok name req).
  assert (Herr : forall err : error,
             respects_consumer yield [(None, Some err)] /\ length [(@None LLMResponse, Some err)] = 1%nat).
  { intros err. split; [|reflexivity]. exists [], (None, Some err).
    split; [reflexivity|]. split; [constructor|]. split; [cbn [length]; lia|].
    right. left. exists err. reflexivity. }
  destruct (buildMessageParams name req) as [params|err].
  - destruct (Messages_New params) as [message|err] eqn:Hnew.
    + split; [|split; [reflexivity|]].
      * exists [], (Some (convertResponse json_Unmarshal message), None).
        split; [reflexivity|]. split; [constructor|]. split; [cbn [length]; lia|].
        right. right. eexists. split; [reflexivity|]. split; reflexivity.
      * split; [|reflexivity]. intros _. split; [reflexivity|].
        exists params, message. split; [reflexivity|]. split; [exact Hnew | reflexivity].
    + destruct (Herr err) as [H1 H2]. split; [exact H1|]. split; [exact H2|].
      cbn [List.filter is_error]. split; [discriminate|].
      intros [_ (params' & message & [= <-] & Hok & _)]. congruence.
  - destruct (Herr err) as [H1 H2]. split; [exact H1|]. split; [exact H2|].
    cbn [List.filter is_error is_ok]. split; [discriminate | intros [H _]; discriminate H].
Qed.

End Requests.


Lemma buildMessageParams_wellformed_witness :
  exists params,
    buildMessageParams minimal_Marshal Scenarios.no_base64 "claude" Scenarios.tool_turn_request
    = Ok params /\
    tool_use_answered (p_Messages params) /\
    forallb wellformed_message (p_Messages params) = true /\
    (length (p_Messages params) <= 3)%nat /\
    0 < p_MaxTokens params /\
    (p_MaxTokens params = 4096 \/
     exists cfg, Request.Config Scenarios.tool_turn_request = Some cfg /\
                 p_MaxTokens params = Request.cfg_MaxOutputTokens cfg) /\
    p_MaxTokens params = 4096.
Proof.
  eexists. split; [vm_compute; reflexivity|].
  apply (buildMessageParams_wellformed minimal_Marshal Scenarios.no_base64 "claude"
           Scenarios.tool_turn_request).
  vm_compute. reflexivity.
Defined.

(** The tool turn on Protocol-B: both identifiers are replaced, the call
    that was not answered goes, the answered one keeps its pairing. *)
Example buildMessageParams_tool_turn :
  option_map p_Messages
    (match buildMessageParams minimal_Marshal Scenarios.no_base64 "claude"
             Scenarios.tool_turn_request with
     | Ok params => Some params
     | Err _ => None
     end)
  = Some
      [ {| Role := "user"; Content := [NewTextBlock "What is the weather?"] |};
        {| Role := "assistant";
           Content := [NewTextBlock "Let me check.";
                       NewToolUseBlock (sanitizeToolID "call:1") "lookup" "{}"] |};
        {| Role := "user";
           Content := [NewToolResultBlock (sanitizeToolID "call:1") "{}"] |} ].
Proof. vm_compute. reflexivity. Qed.

End AnthropicRequestFacts.

Module OpenAIRequestFacts.
Import Go JSON ADK OpenAI Request OpenAIRequest StringFacts.

Lemma normalizeToolCallID_len (m : Model) (id : string) :
  len (fst (normalizeToolCallID m id)) <= maxToolCallIDLength.
Proof.
  unfold normalizeToolCallID, maxToolCallIDLength.
  change (Z.to_nat (40 - 3)) with 37%nat.
  destruct (Z.leb_spec (len id) 40) as [Hshort|_]; cbn [fst]; [exact Hshort|].
  unfold len. rewrite ToolCallIDFacts.shortID_length. lia.
Qed.

Lemma forallb_map_compose {A B} (f : A -> B) (g : B -> bool) (l : list A) :
  forallb g (map f l) = forallb (fun x => g (f x)) l.
Proof. induction l as [|x l IH]; [reflexivity|]. cbn [map forallb]. rewrite IH. reflexivity. Qed.

Section Translation.

Variable json_Marshal : any -> result string.
Variable marshal_Schema : option Schema -> result string.
Variable json_Unmarshal : string -> result map_string_any.
Variable base64_EncodeToString : list Z -> string.

Local Abbreviation collectParts := (collectParts json_Marshal base64_EncodeToString).
Local Abbreviation convertContentToMessages :=
  (convertContentToMessages json_Marshal base64_EncodeToString).
Local Abbreviation convertContents := (convertContents json_Marshal base64_EncodeToString).
Local Abbreviation buildChatCompletionParameters :=
  (buildChatCompletionParameters json_Marshal marshal_Schema json_Unmarshal
     base64_EncodeToString).
Local Abbreviation call_bounded :=
  (fun call : ToolCallParam => len (call_ID call) <=? maxToolCallIDLength).

(** The eight ways through the [switch] for one part. *)
Ltac collect_cases m part :=
  cbn [OpenAIRequest.collectParts];
  destruct (rp_FunctionResponse part) as [fr|] eqn:Hfr;
  [ destruct (json_Marshal (any_of_map (fr_Response fr))) as [responseJSON|err] eqn:Hmr;
    [ destruct (normalizeToolCallID m (fr_ID fr)) as [normalizedID m1] eqn:Hn | ]
  | destruct (rp_FunctionCall part) as [fc|] eqn:Hfc;
    [ destruct (json_Marshal (any_of_map (fc_Args fc))) as [argsJSON|err] eqn:Hma;
      [ destruct (normalizeToolCallID m (fc_ID fc)) as [normalizedID m1] eqn:Hn | ]
    | destruct (negb (String.eqb (rp_Text part) "")) eqn:Htext;
      [ | destruct (rp_InlineData part) as [data|] eqn:Hdata;
          [ destruct (convertInlineDataToImage base64_EncodeToString data) as [img|] eqn:Himg
          | ] ] ] ].

Lemma collectParts_bounded (parts : list RequestPart) (m m' : Model) (acc r : collected) :
  forallb bounded_tool_ids (messages acc) = true ->
  forallb call_bounded (toolCalls acc) = true ->
  collectParts m parts acc = (Ok r, m') ->
  forallb bounded_tool_ids (messages r) = true /\
  forallb call_bounded (toolCalls r) = true.
Proof.
  revert m acc. induction parts as [|part rest IH]; intros m acc Hm Hc.
  - cbn [OpenAIRequest.collectParts]. intros [= <- _]. split; assumption.
  - collect_cases m part; try discriminate; intros Hrest;
      apply (IH _ _) with (3 := Hrest); cbn [messages toolCalls]; try assumption.
    + pose proof (normalizeToolCallID_len m (fr_ID fr)) as Hlen. rewrite Hn in Hlen.
      cbn [fst] in Hlen.
      rewrite forallb_app, Hm. cbn [forallb]. unfold bounded_tool_ids at 1.
      cbn [message_tool_ids forallb]. apply Z.leb_le in Hlen. rewrite Hlen. reflexivity.
    + pose proof (normalizeToolCallID_len m (fc_ID fc)) as Hlen. rewrite Hn in Hlen.
      cbn [fst] in Hlen.
      rewrite forallb_app, Hc. cbn [forallb call_ID]. apply Z.leb_le in Hlen.
      rewrite Hlen. reflexivity.
Qed.

Lemma collectParts_is_ok (parts : list RequestPart) (m : Model) (acc : collected) :
  is_ok (fst (collectParts m parts acc)) = forallb (part_marshals json_Marshal) parts.
Proof.
  revert m acc. induction parts as [|part rest IH]; intros m acc; [reflexivity|].
  cbn [forallb]. unfold part_marshals at 1.
  collect_cases m part; cbn [is_ok fst andb]; try apply IH; reflexivity.
Qed.

Lemma collectParts_tool_messages (parts : list RequestPart) (m m' : Model)
    (acc r : collected) :
  forallb is_tool_message (messages acc) = true ->
  collectParts m parts acc = (Ok r, m') ->
  forallb is_tool_message (messages r) = true /\
  length (messages r)
  = (length (messages acc) + length (List.filter is_function_response parts))%nat.
Proof.
  revert m acc. induction parts as [|part rest IH]; intros m acc Hm.
  - cbn [OpenAIRequest.collectParts]. intros [= <- _]. split; [exact Hm | cbn; lia].
  - cbn [List.filter]. unfold is_function_response at 1.
    collect_cases m part; try discriminate; intros Hrest;
      (apply IH in Hrest as [H1 H2];
       [split; [exact H1|] | cbn [messages]; try exact Hm]).
    + rewrite H2. cbn [messages length]. rewrite length_app. cbn [length]. lia.
    + rewrite forallb_app, Hm. reflexivity.
    + rewrite H2. reflexivity.
    + rewrite H2. reflexivity.
    + rewrite H2. reflexivity.
    + rewrite H2. reflexivity.
    + rewrite H2. reflexivity.
Qed.

Lemma buildRoleMessage_bounded (role : string) (texts : list string)
    (images : list ImageParam) (calls : list ToolCallParam) (msg : MessageParamUnion) :
  forallb call_bounded calls = true ->
  buildRoleMessage role texts images calls = Some msg ->
  bounded_tool_ids msg = true /\ is_tool_message msg = false.
Proof.
  intros Hc. unfold buildRoleMessage.
  destruct (String.eqb (convertRole role) "user").
  - intros [= <-]. unfold buildUserMessage. destruct images; split; reflexivity.
  - destruct (String.eqb (convertRole role) "assistant").
    + intros [= <-]. split; [|reflexivity].
      unfold bounded_tool_ids, buildAssistantMessage. cbn [message_tool_ids].
      rewrite forallb_map_compose. exact Hc.
    + destruct (String.eqb (convertRole role) "system"); [|discriminate].
      intros [= <-]. split; reflexivity.
Qed.

Lemma buildRoleMessage_unknown (role : string) (texts : list string)
    (images : list ImageParam) (calls : list ToolCallParam) :
  known_role role = false -> buildRoleMessage role texts images calls = None.
Proof.
  unfold known_role, buildRoleMessage, convertRole. intros H.
  apply orb_false_iff in H as [H Hsystem]. apply orb_false_iff in H as [H Hassistant].
  apply orb_false_iff in H as [Huser Hmodel].
  rewrite Hmodel, Huser, Hassistant, Hsystem. reflexivity.
Qed.

Lemma convertContentToMessages_bounded (m m' : Model) (content : RequestContent)
    (msgs : list MessageParamUnion) :
  convertContentToMessages m content = (Ok msgs, m') ->
  forallb bounded_tool_ids msgs = true.
Proof.
  unfold OpenAIRequest.convertContentToMessages.
  destruct (collectParts m (rc_Parts content) (mkCollected [] [] [] []))
    as [[acc|err] m1] eqn:Hcol; [|discriminate].
  destruct (collectParts_bounded (rc_Parts content) m m1 (mkCollected [] [] [] []) acc
              eq_refl eq_refl Hcol) as [Hm Hc].
  destruct ((0 <? Z.of_nat (length (textParts acc)))
            || (0 <? Z.of_nat (length (imageParts acc)))
            || (0 <? Z.of_nat (length (toolCalls acc)))); [|intros [= <- _]; exact Hm].
  destruct (buildRoleMessage (rc_Role content) (textParts acc) (imageParts acc)
              (toolCalls acc)) as [msg|] eqn:Hrole; intros [= <- _]; [|exact Hm].
  rewrite forallb_app, Hm. cbn [forallb].
  destruct (buildRoleMessage_bounded _ _ _ _ _ Hc Hrole) as [-> _]. reflexivity.
Qed.

Lemma convertContentToMessages_is_ok (m : Model) (content : RequestContent) :
  is_ok (fst (convertContentToMessages m content))
  = forallb (part_marshals json_Marshal) (rc_Parts content).
Proof.
  unfold OpenAIRequest.convertContentToMessages.
  rewrite <- (collectParts_is_ok (rc_Parts content) m (mkCollected [] [] [] [])).
  destruct (collectParts m (rc_Parts content) (mkCollected [] [] [] []))
    as [[acc|err] m1]; [|reflexivity].
  destruct ((0 <? Z.of_nat (length (textParts acc)))
            || (0 <? Z.of_nat (length (imageParts acc)))
            || (0 <? Z.of_nat (length (toolCalls acc)))); [|reflexivity].
  destruct (buildRoleMessage (rc_Role content) (textParts acc) (imageParts acc)
              (toolCalls acc)); reflexivity.
Qed.

Lemma normalizeToolCallID_fst (m m0 : Model) (id : string) :
  fst (normalizeToolCallID m id) = fst (normalizeToolCallID m0 id).
Proof. unfold normalizeToolCallID. destruct (len id <=? maxToolCallIDLength); reflexivity. Qed.

Lemma collectParts_collects (parts : list RequestPart) (m0 m m' : Model) (acc r : collected) :
  collectParts m parts acc = (Ok r, m') ->
  messages r = (messages acc ++ omap (sent_tool_message json_Marshal m0) parts)%list /\
  toolCalls r = (toolCalls acc ++ omap (sent_tool_call json_Marshal m0) parts)%list /\
  textParts r = (textParts acc ++ omap sent_text parts)%list /\
  imageParts r = (imageParts acc ++ omap (sent_image base64_EncodeToString) parts)%list.
Proof.
  revert m acc. induction parts as [|part rest IH]; intros m acc.
  - cbn [OpenAIRequest.collectParts]. intros [= <- _]. cbn [omap list_omap].
    rewrite !app_nil_r. repeat split; reflexivity.
  - collect_cases m part; try discriminate; intros Hrest;
      apply IH in Hrest as (H1 & H2 & H3 & H4);
      cbn [messages toolCalls textParts imageParts] in H1, H2, H3, H4;
      cbn [omap list_omap];
      unfold sent_tool_message at 1, sent_tool_call at 1, sent_text at 1, sent_image at 1;
      rewrite ?Hfr, ?Hfc, ?Hmr, ?Hma, ?Hdata;
      try (rewrite (normalizeToolCallID_fst m0 m), Hn; cbn [fst]);
      try (apply negb_true_iff in Htext; rewrite Htext);
      try (apply negb_false_iff in Htext; rewrite Htext);
      rewrite H1, H2, H3, H4;
      rewrite <- ?app_assoc; cbn [app andb]; try (repeat split; reflexivity);
      try (destruct (rp_InlineData part); repeat split; reflexivity).
    + unfold convertInlineDataToImage in Himg.
      destruct (supportedImageType (blob_MIMEType data)); [|discriminate].
      injection Himg as <-. repeat split; reflexivity.
    + unfold convertInlineDataToImage in Himg.
      destruct (supportedImageType (blob_MIMEType data)); [discriminate|].
      repeat split; reflexivity.
Qed.

Lemma omap_sent_tool_message (m : Model) (parts : list RequestPart) :
  omap (sent_tool_message json_Marshal m) parts
  = map (fun fr => ToolMessage
                     (match json_Marshal (any_of_map (fr_Response fr)) with
                      | Ok data => data
                      | Err _ => ""
                      end)
                     (fst (normalizeToolCallID m (fr_ID fr))))
        (omap rp_FunctionResponse parts).
Proof.
  induction parts as [|part rest IH]; [reflexivity|]. cbn [omap list_omap].
  unfold sent_tool_message at 1. destruct (rp_FunctionResponse part); [|exact IH].
  cbn [map]. f_equal. exact IH.
Qed.

Lemma omap_sent_tool_call (m : Model) (parts : list RequestPart) :
  omap (sent_tool_call json_Marshal m) parts
  = map (fun fc => {| call_ID := fst (normalizeToolCallID m (fc_ID fc));
                      call_Name := fc_Name fc;
                      call_Arguments := match json_Marshal (any_of_map (fc_Args fc)) with
                                        | Ok data => data
                                        | Err _ => ""
                                        end |})
        (omap rp_FunctionCall
           (List.filter (fun part => negb (is_function_response part)) parts)).
Proof.
  induction parts as [|part rest IH]; [reflexivity|]. cbn [omap list_omap List.filter].
  unfold sent_tool_call at 1, is_function_response at 1.
  destruct (rp_FunctionResponse part); cbn [negb]; [exact IH|]. cbn [omap list_omap].
  destruct (rp_FunctionCall part); [|exact IH]. cbn [map]. f_equal. exact IH.
Qed.

Lemma omap_sent_text (parts : list RequestPart) :
  omap sent_text parts
  = List.filter (fun text => negb (String.eqb text ""))
      (map rp_Text
         (List.filter (fun part => match rp_FunctionCall part with
                                   | Some _ => false
                                   | None => true
                                   end)
            (List.filter (fun part => negb (is_function_response part)) parts))).
Proof.
  induction parts as [|part rest IH]; [reflexivity|]. cbn [omap list_omap List.filter].
  unfold sent_text at 1, is_function_response at 1.
  destruct (rp_FunctionResponse part); cbn [negb]; [exact IH|]. cbn [List.filter].
  destruct (rp_FunctionCall part); [exact IH|]. cbn [map List.filter].
  destruct (String.eqb (rp_Text part) ""); cbn [negb]; [exact IH|]. f_equal. exact IH.
Qed.

Lemma omap_sent_image (parts : list RequestPart) :
  map (fun img => OfImageURL (image_URL img) (image_Detail img))
      (omap (sent_image base64_EncodeToString) parts)
  = omap (fun part =>
            match rp_InlineData part with
            | Some data =>
                if String.eqb (rp_Text part) "" && supportedImageType (blob_MIMEType data)
                then Some (OfImageURL ("data:" ++ blob_MIMEType data ++ ";base64,"
                                       ++ base64_EncodeToString (blob_Data data)) "auto")
                else None
            | None => None
            end)
         (List.filter (fun part => match rp_FunctionCall part with
                                   | Some _ => false
                                   | None => true
                                   end)
            (List.filter (fun part => negb (is_function_response part)) parts)).
Proof.
  induction parts as [|part rest IH]; [reflexivity|]. cbn [omap list_omap List.filter].
  unfold sent_image at 1, is_function_response at 1.
  destruct (rp_FunctionResponse part); cbn [negb]; [exact IH|]. cbn [List.filter].
  destruct (rp_FunctionCall part); [exact IH|]. cbn [omap list_omap].
  destruct (rp_InlineData part) as [data|]; [|exact IH].
  destruct (String.eqb (rp_Text part) "" && supportedImageType (blob_MIMEType data));
    [|exact IH].
  cbn [map image_URL image_Detail]. f_equal. exact IH.
Qed.

(** X6: of one content [convertContentToMessages] makes first one tool
    message per part that holds a function response, in order, each with the
    encoded response and the normalised identifier, and then at most one
    message of the content's role, built from the texts, images and function
    calls of the other parts: for [user] the joined texts, or the texts and
    images as parts when there is an image; for [model] and [assistant] the
    joined texts, if any, with the calls; for [system] the joined texts.  A
    part with a function response gives nothing else, a part with a function
    call no text and no image, and an image is taken only from a part
    without text.  When the role is none of the four, that last message is not
    built, so these texts, images and calls are not sent at all. *)
Theorem convertContentToMessages_shape (m m' : Model) (content : RequestContent)
    (msgs : list MessageParamUnion) :
  convertContentToMessages m content = (Ok msgs, m') ->
  let encoded := fun v => match json_Marshal (any_of_map v) with
                          | Ok data => data
                          | Err _ => ""
                          end in
  let outbound := fun id => fst (normalizeToolCallID m id) in
  let answers := omap rp_FunctionResponse (rc_Parts content) in
  let others :=
    List.filter (fun part => negb (is_function_response part)) (rc_Parts content) in
  let calls :=
    map (fun fc => {| call_ID := outbound (fc_ID fc); call_Name := fc_Name fc;
                      call_Arguments := encoded (fc_Args fc) |})
        (omap rp_FunctionCall others) in
  let plain :=
    List.filter (fun part => match rp_FunctionCall part with
                             | Some _ => false
                             | None => true
                             end) others in
  let texts := List.filter (fun text => negb (String.eqb text "")) (map rp_Text plain) in
  let images :=
    omap (fun part =>
            match rp_InlineData part with
            | Some data =>
                if String.eqb (rp_Text part) "" && supportedImageType (blob_MIMEType data)
                then Some (OfImageURL ("data:" ++ blob_MIMEType data ++ ";base64,"
                                       ++ base64_EncodeToString (blob_Data data)) "auto")
                else None
            | None => None
            end) plain in
  exists tools role_msg,
    msgs = (tools ++ role_msg)%list /\
    forallb is_tool_message tools = true /\
    length tools = length (List.filter is_function_response (rc_Parts content)) /\
    (length role_msg <= 1)%nat /\
    forallb (fun msg => negb (is_tool_message msg)) role_msg = true /\
    (known_role (rc_Role content) = false -> role_msg = []) /\
    forallb (part_marshals json_Marshal) (rc_Parts content) = true /\
    tools = map (fun fr => ToolMessage (encoded (fr_Response fr)) (outbound (fr_ID fr)))
                answers /\
    role_msg
    = match texts, images, calls with
      | [], [], [] => []
      | _, _, _ =>
          if String.eqb (rc_Role content) "user"
          then [match images with
                | [] => UserMessage (strings_Join texts newline)
                | _ => UserPartsMessage (map OfText texts ++ images)%list
                end]
          else if String.eqb (rc_Role content) "model"
                  || String.eqb (rc_Role content) "assistant"
          then [AssistantMessage
                  (match texts with
                   | [] => None
                   | _ => Some (strings_Join texts newline)
                   end)
                  calls]
          else if String.eqb (rc_Role content) "system"
          then [SystemMessage (strings_Join texts newline)]
          else []
      end.
Proof.
  intros Hrun. cbv zeta.
  unfold OpenAIRequest.convertContentToMessages in Hrun.
  pose proof (collectParts_is_ok (rc_Parts content) m (mkCollected [] [] [] [])) as Hok.
  destruct (collectParts m (rc_Parts content) (mkCollected [] [] [] []))
    as [[acc|err] m1] eqn:Hcol; [|discriminate].
  cbn [fst is_ok] in Hok.
  destruct (collectParts_tool_messages (rc_Parts content) m m1 (mkCollected [] [] [] []) acc
              eq_refl Hcol) as [Htools Hlen].
  cbn [messages length Nat.add] in Hlen.
  destruct (collectParts_collects (rc_Parts content) m m m1 (mkCollected [] [] [] []) acc Hcol)
    as (Hm & Hc & Ht & Hi).
  cbn [messages toolCalls textParts imageParts app] in Hm, Hc, Ht, Hi.
  rewrite omap_sent_tool_message in Hm. rewrite omap_sent_tool_call in Hc.
  rewrite omap_sent_text in Ht.
  rewrite <- omap_sent_image, <- Hi, <- Hc, <- Ht, <- Hm.
  exists (messages acc).
  exists (match textParts acc,
                map (fun img => OfImageURL (image_URL img) (image_Detail img)) (imageParts acc),
                toolCalls acc with
          | [], [], [] => []
          | _, _, _ =>
              match buildRoleMessage (rc_Role content) (textParts acc) (imageParts acc)
                      (toolCalls acc) with
              | Some msg => [msg]
              | None => []
              end
          end).
  split; [|split; [exact Htools|split; [exact Hlen|split; [|split; [|split; [|split;
    [symmetry; exact Hok|split; [reflexivity|]]]]]]]].
  - clear Hm Hc Ht Hi. destruct (textParts acc) as [|t ts]; cbn [length map] in *.
    + destruct (imageParts acc) as [|img imgs]; cbn [length map] in *.
      * destruct (toolCalls acc) as [|c cs]; cbn [length] in *.
        -- injection Hrun as <- _. rewrite app_nil_r. reflexivity.
        -- change (0 <? Z.of_nat 0) with false in Hrun. cbn [orb] in Hrun.
           replace (0 <? Z.of_nat (S (length cs))) with true in Hrun
             by (symmetry; apply Z.ltb_lt; lia).
           destruct (buildRoleMessage (rc_Role content) [] [] (c :: cs));
             injection Hrun as <- _; [reflexivity | rewrite app_nil_r; reflexivity].
      * change (0 <? Z.of_nat 0) with false in Hrun. cbn [orb] in Hrun.
        replace (0 <? Z.of_nat (S (length imgs))) with true in Hrun
          by (symmetry; apply Z.ltb_lt; lia).
        cbn [orb] in Hrun.
        destruct (buildRoleMessage (rc_Role content) [] (img :: imgs) (toolCalls acc));
          injection Hrun as <- _; [reflexivity | rewrite app_nil_r; reflexivity].
    + replace (0 <? Z.of_nat (S (length ts))) with true in Hrun
        by (symmetry; apply Z.ltb_lt; lia).
      cbn [orb] in Hrun.
      destruct (buildRoleMessage (rc_Role content) (t :: ts) (imageParts acc) (toolCalls acc));
        injection Hrun as <- _; [reflexivity | rewrite app_nil_r; reflexivity].
  - clear. destruct (textParts acc), (imageParts acc), (toolCalls acc); cbn [length map];
      try lia; destruct (buildRoleMessage _ _ _ _); cbn [length]; lia.
  - assert (Hrole : forall texts images calls msg,
               buildRoleMessage (rc_Role content) texts images calls = Some msg ->
               is_tool_message msg = false).
    { intros texts images calls msg. unfold buildRoleMessage.
      destruct (String.eqb (convertRole (rc_Role content)) "user");
        [intros [= <-]; unfold buildUserMessage; destruct images; reflexivity|].
      destruct (String.eqb (convertRole (rc_Role content)) "assistant");
        [intros [= <-]; reflexivity|].
      destruct (String.eqb (convertRole (rc_Role content)) "system");
        [intros [= <-]; reflexivity | discriminate]. }
    clear - Hrole.
    destruct (textParts acc), (imageParts acc), (toolCalls acc); cbn [map]; try reflexivity;
      (destruct (buildRoleMessage _ _ _ _) as [msg|] eqn:Hb; [|reflexivity];
       cbn [forallb]; rewrite (Hrole _ _ _ _ Hb); reflexivity).
  - intros Hun. rewrite (buildRoleMessage_unknown _ _ _ _ Hun). clear.
    destruct (textParts acc), (imageParts acc), (toolCalls acc); reflexivity.
  - assert (Hbuild :
              match buildRoleMessage (rc_Role content) (textParts acc) (imageParts acc)
                      (toolCalls acc) with
              | Some msg => [msg]
              | None => []
              end
              = if String.eqb (rc_Role content) "user"
                then [match map (fun img => OfImageURL (image_URL img) (image_Detail img))
                              (imageParts acc) with
                      | [] => UserMessage (strings_Join (textParts acc) newline)
                      | _ => UserPartsMessage
                               (map OfText (textParts acc)
                                ++ map (fun img => OfImageURL (image_URL img) (image_Detail img))
                                     (imageParts acc))%list
                      end]
                else if String.eqb (rc_Role content) "model"
                        || String.eqb (rc_Role content) "assistant"
                then [AssistantMessage
                        (match textParts acc with
                         | [] => None
                         | _ => Some (strings_Join (textParts acc) newline)
                         end)
                        (toolCalls acc)]
                else if String.eqb (rc_Role content) "system"
                then [SystemMessage (strings_Join (textParts acc) newline)]
                else []).
    { unfold buildRoleMessage, convertRole.
      destruct (String.eqb_spec (rc_Role content) "model") as [->|Hmodel]; cbn [orb].
      - cbn. unfold buildAssistantMessage, joinTexts.
        destruct (textParts acc); reflexivity.
      - destruct (String.eqb (rc_Role content) "user").
        + unfold buildUserMessage, joinTexts. destruct (imageParts acc); reflexivity.
        + destruct (String.eqb (rc_Role content) "assistant").
          * unfold buildAssistantMessage, joinTexts. destruct (textParts acc); reflexivity.
          * destruct (String.eqb (rc_Role content) "system"); reflexivity. }
    rewrite Hbuild. reflexivity.
Qed.

Lemma convertContents_spec (contents : list RequestContent) (m m' : Model)
    (message out : list MessageParamUnion) :
  convertContents m contents message = (Ok out, m') ->
  exists added, out = (message ++ added)%list /\ forallb bounded_tool_ids added = true.
Proof.
  revert m message. induction contents as [|content rest IH]; intros m message;
    cbn [OpenAIRequest.convertContents].
  - intros [= <- _]. exists []. rewrite app_nil_r. split; reflexivity.
  - destruct (convertContentToMessages m content) as [[msgs|err] m1] eqn:Hc; [|discriminate].
    intros Hrest. destruct (IH _ _ Hrest) as (added & -> & Hb).
    exists (msgs ++ added)%list. rewrite app_assoc. split; [reflexivity|].
    rewrite forallb_app, Hb, (convertContentToMessages_bounded _ _ _ _ Hc). reflexivity.
Qed.

Lemma convertContents_is_ok (contents : list RequestContent) (m : Model)
    (message : list MessageParamUnion) :
  is_ok (fst (convertContents m contents message))
  = forallb (fun content => forallb (part_marshals json_Marshal) (rc_Parts content)) contents.
Proof.
  revert m message. induction contents as [|content rest IH]; intros m message; [reflexivity|].
  cbn [OpenAIRequest.convertContents forallb]. rewrite <- (convertContentToMessages_is_ok m).
  destruct (convertContentToMessages m content) as [[msgs|err] m1]; cbn [fst is_ok andb];
    [apply IH | reflexivity].
Qed.


Lemma buildChatCompletionParameters_fails (m : Model) (req : LLMRequest) :
  is_ok (fst (buildChatCompletionParameters m req))
  = forallb (fun content => forallb (part_marshals json_Marshal) (rc_Parts content))
      (Contents req).
Proof.
  unfold OpenAIRequest.buildChatCompletionParameters.
  match goal with
  | |- context [convertContents m (Contents req) ?msg] =>
      rewrite <- (convertContents_is_ok (Contents req) m msg);
      destruct (convertContents m (Contents req) msg) as [[out|err] m1]; [|reflexivity]
  end.
  destruct (Config req); reflexivity.
Qed.

(** X7: [buildChatCompletionParameters] fails exactly when [json.Marshal]
    refuses what the [switch] encodes for one of the parts (the response of a
    function response, else the arguments of a function call); in the
    parameters it returns every tool-call id, of a tool message or of a tool
    call of an assistant message, has at most 40 bytes, and when the system
    instruction has text, the first message is the system message holding
    it. *)
Theorem buildChatCompletionParameters_messages (m : Model) (req : LLMRequest) :
  is_ok (fst (buildChatCompletionParameters m req))
  = forallb (fun content => forallb (part_marshals json_Marshal) (rc_Parts content))
      (Contents req) /\
  forall params m',
    buildChatCompletionParameters m req = (Ok params, m') ->
    forallb bounded_tool_ids (p_Messages params) = true /\
    forall cfg instruction,
      Config req = Some cfg ->
      cfg_SystemInstruction cfg = Some instruction ->
      extractText (Some instruction) <> "" ->
      head (p_Messages params) = Some (SystemMessage (extractText (Some instruction))).
Proof.
  unfold OpenAIRequest.buildChatCompletionParameters.
  set (message := match Config req with
                  | Some cfg =>
                      match cfg_SystemInstruction cfg with
                      | Some instruction =>
                          if negb (String.eqb (extractText (Some instruction)) "")
                          then [SystemMessage (extractText (Some instruction))] else []
                      | None => []
                      end
                  | None => []
                  end).
  split.
  - rewrite <- (convertContents_is_ok (Contents req) m message).
    destruct (convertContents m (Contents req) message) as [[out|err] m1]; [|reflexivity].
    destruct (Config req); reflexivity.
  - intros params m'.
    destruct (convertContents m (Contents req) message) as [[out|err] m1] eqn:Hc;
      [|discriminate].
    destruct (convertContents_spec _ _ _ _ _ Hc) as (added & -> & Hb).
    assert (Hmsg : forallb bounded_tool_ids message = true).
    { subst message. destruct (Config req) as [cfg|]; [|reflexivity].
      destruct (cfg_SystemInstruction cfg) as [instruction|]; [|reflexivity].
      destruct (negb (String.eqb (extractText (Some instruction)) "")); reflexivity. }
    intros Hbuild.
    assert (Hparams : p_Messages params = (message ++ added)%list).
    { clear Hmsg. clearbody message.
      destruct (Config req); injection Hbuild as <- _; reflexivity. }
    rewrite Hparams. clear Hparams Hbuild.
    split; [rewrite forallb_app, Hmsg, Hb; reflexivity|].
    intros cfg instruction Hcfg Hinstr Htext. subst message.
    rewrite Hcfg, Hinstr. apply String.eqb_neq in Htext. rewrite Htext. reflexivity.
Qed.

Lemma convert_props_total (ps : list (string * option Schema)) :
  Forall (fun kv => match snd kv with
                    | Some s => exists m, convertSchema_struct s = Ok m
                    | None => True
                    end) ps ->
  forall acc,
    exists r,
      (fix convert_props (ps : list (string * option Schema)) (props : list (string * any))
         : result (list (string * any)) :=
         match ps with
         | [] => Ok props
         | (name, propSchema) :: rest =>
             match (match propSchema with
                    | None => Ok nil_schema_result
                    | Some sch => convertSchema_struct sch
                    end) with
             | Err err => Err err
             | Ok converted => convert_props rest (map_set name (AMap converted) props)
             end
         end) ps acc = Ok r.
Proof.
  induction 1 as [|[name propSchema] rest Hhead _ IH]; intros acc.
  - exists acc. reflexivity.
  - cbn [snd] in Hhead. destruct propSchema as [sch|].
    + destruct Hhead as [m Hm]. rewrite Hm. apply IH.
    + apply IH.
Qed.

Lemma convertSchema_struct_total (schema : Schema) :
  exists m, convertSchema_struct schema = Ok m.
Proof.
  induction schema as [ty description required enum properties items Hprops Hitems]
    using Schema_nested_ind.
  cbn [convertSchema_struct].
  destruct (convert_props_total properties Hprops []) as [props Hr]. rewrite Hr.
  destruct (0 <? Z.of_nat (length properties)).
  - destruct items as [itemSchema|]; [|eexists; reflexivity].
    destruct Hitems as [converted Hc]. rewrite Hc. eexists. reflexivity.
  - destruct items as [itemSchema|]; [|eexists; reflexivity].
    destruct Hitems as [converted Hc]. rewrite Hc. eexists. reflexivity.
Qed.

(** X8: [convertSchema] never returns an error, whatever the schema; so
    the [err == nil] guard of [applyGenerationConfig] always passes, and a
    request that carries a response schema asks for structured output under
    the name [response], strict, with the converted schema, whether or not
    its MIME type also asks for JSON mode. *)
Theorem applyGenerationConfig_response_schema (params : ChatCompletionNewParams)
    (cfg : GenerateContentConfig) :
  (forall schema, is_ok (convertSchema schema) = true) /\
  (forall schema,
     cfg_ResponseSchema cfg = Some schema ->
     exists schemaMap,
       convertSchema (Some schema) = Ok schemaMap /\
       p_ResponseFormat (applyGenerationConfig marshal_Schema json_Unmarshal params cfg)
       = FormatJSONSchema "response" (schema_Description schema) schemaMap true) /\
  (cfg_ResponseSchema cfg = None ->
   p_ResponseFormat (applyGenerationConfig marshal_Schema json_Unmarshal params cfg)
   = if String.eqb (cfg_ResponseMIMEType cfg) "application/json"
     then FormatJSONObject else p_ResponseFormat params).
Proof.
  split; [|split].
  - intros [schema|]; [|reflexivity]. cbn [convertSchema].
    destruct (convertSchema_struct_total schema) as [m ->]. reflexivity.
  - intros schema Hs. destruct (convertSchema_struct_total schema) as [m Hm].
    exists m. split; [exact Hm|].
    unfold applyGenerationConfig. cbn [p_ResponseFormat]. rewrite Hs.
    cbn [convertSchema]. rewrite Hm. reflexivity.
  - intros Hs. unfold applyGenerationConfig. cbn [p_ResponseFormat]. rewrite Hs. reflexivity.
Qed.


Lemma convertTools_spec (genaiTools : list (option Tool)) :
  map fn_Name (convertTools marshal_Schema json_Unmarshal genaiTools)
  = map fd_Name (declarations genaiTools) /\
  forallb parameters_ok (convertTools marshal_Schema json_Unmarshal genaiTools) = true.
Proof.
  unfold convertTools, declarations.
  induction genaiTools as [|[tool|] rest [IHn IHp]]; cbn [flat_map]; [split; reflexivity| |].
  - rewrite !map_app, forallb_app, IHn, IHp. split.
    + f_equal. rewrite map_map. reflexivity.
    + rewrite andb_true_r. apply forallb_forall. intros fn Hin.
      apply in_map_iff in Hin as (funcDecl & <- & _). unfold parameters_ok. cbn [fn_Parameters].
      pose proof (SchemaFacts.convertToFunctionParams_objects_have_properties json_Unmarshal
                    (declared_params marshal_Schema funcDecl)) as Hok.
      destruct (convertToFunctionParams json_Unmarshal (declared_params marshal_Schema funcDecl));
        [exact Hok | reflexivity].
  - split; assumption.
Qed.

(** X23: the tools [buildChatCompletionParameters] sends are the function
    declarations of the request's tools, nil tools left out, under their
    names and in their order; and in the parameters of each of them every
    schema node of type [object] that is reachable through [properties] and
    [items] has a [properties] entry, whatever form the declaration gave its
    parameters in. *)
Theorem buildChatCompletionParameters_tools (m m' : Model) (req : LLMRequest)
    (params : ChatCompletionNewParams) :
  buildChatCompletionParameters m req = (Ok params, m') ->
  map fn_Name (p_Tools params)
  = match Config req with
    | Some cfg => map fd_Name (declarations (cfg_Tools cfg))
    | None => []
    end /\
  forallb parameters_ok (p_Tools params) = true.
Proof.
  unfold OpenAIRequest.buildChatCompletionParameters.
  destruct (convertContents m (Contents req) _) as [[out|err] m1]; [|discriminate].
  destruct (Config req) as [cfg|]; intros [= <- _]; [|split; reflexivity].
  unfold applyGenerationConfig. cbn [p_Tools].
  destruct (cfg_Tools cfg) as [|tool rest] eqn:Htools; [split; reflexivity|].
  change (0 <? Z.of_nat (length (tool :: rest))) with true. cbv iota.
  apply convertTools_spec.
Qed.


Variable Completions_New : ChatCompletionNewParams -> result ChatCompletion.

Lemma generate_A_once (m : Model) (req : LLMRequest) (yield : consumer) :
  let items := fst (generate json_Marshal marshal_Schema json_Unmarshal base64_EncodeToString
                      Completions_New m req) in
  respects_consumer yield items /\
  length items = 1%nat /\
  (List.filter is_error items = [] <->
   forallb (fun content => forallb (part_marshals json_Marshal) (rc_Parts content))
     (Contents req) = true /\
   exists params resp llmResp,
     fst (buildChatCompletionParameters m req) = Ok params /\
     Completions_New params = Ok resp /\ Choices resp <> [] /\
     convertResponse json_Unmarshal (Some resp) = Ok llmResp /\
     items = [(Some llmResp, None)]).
Proof.
  cbv zeta. unfold generate.
  rewrite <- (buildChatCompletionParameters_fails m req).
  assert (Herr : forall err : error,
             respects_consumer yield [(None, Some err)] /\ length [(@None LLMResponse, Some err)] = 1%nat).
  { intros err. split; [|reflexivity]. exists [], (None, Some err).
    split; [reflexivity|]. split; [constructor|]. split; [cbn [length]; lia|].
    right. left. exists err. reflexivity. }
  destruct (buildChatCompletionParameters m req) as [[params|err] m1]; cbn [fst].
  - destruct (Completions_New params) as [resp|err] eqn:Hnew; cbn [fst].
    + unfold convertResponse. destruct (Choices resp) as [|choice rest] eqn:Hch; cbn [fst].
      * destruct (Herr ErrNoChoicesInResponse) as [H1 H2]. split; [exact H1|]. split; [exact H2|].
        cbn [List.filter is_error]. split; [discriminate|].
        intros [_ (params' & resp' & llm & [= <-] & Hok & Hne & _)].
        rewrite Hnew in Hok. injection Hok as <-. contradiction.
      * split; [|split; [reflexivity|]].
        -- eexists [], _. split; [reflexivity|]. split; [constructor|].
           split; [cbn [length]; lia|]. right. right. eexists. split; [reflexivity|].
           split; reflexivity.
        -- split; [|reflexivity]. intros _. split; [reflexivity|].
           exists params, resp. eexists. split; [reflexivity|]. split; [exact Hnew|].
           split; [rewrite Hch; discriminate|]. rewrite Hch. split; reflexivity.
    + destruct (Herr err) as [H1 H2]. split; [exact H1|]. split; [exact H2|].
      cbn [List.filter is_error]. split; [discriminate|].
      intros [_ (params' & resp & llm & [= <-] & Hok & _)]. congruence.
  - destruct (Herr err) as [H1 H2]. split; [exact H1|]. split; [exact H2|].
    cbn [List.filter is_error is_ok]. split; [discriminate | intros [H _]; discriminate H].
Qed.


(** *** The identifier mappings the adapter keeps *)

Lemma recorded_from_refl (m : Model) : recorded_from [] m m.
Proof.
  split; [reflexivity|]. split; [auto|]. split; [auto | intros id []].
Qed.

Lemma recorded_from_trans (ids1 ids2 : list string) (m1 m2 m3 : Model) :
  recorded_from ids1 m1 m2 -> recorded_from ids2 m2 m3 ->
  recorded_from (ids1 ++ ids2) m1 m3.
Proof.
  intros (Hn1 & Hk1 & Hnew1 & Hall1) (Hn2 & Hk2 & Hnew2 & Hall2).
  split; [congruence|]. split; [auto|]. split.
  - intros short original H3. destruct (Hnew2 short original H3) as [H2 | (Hin & Hlen & Hs)].
    + destruct (Hnew1 short original H2) as [H1 | (Hin & Hlen & Hs)]; [left; exact H1|].
      right. split; [apply in_or_app; left; exact Hin | auto].
    + right. split; [apply in_or_app; right; exact Hin | auto].
  - intros id Hin Hlen. apply in_app_or in Hin as [Hin | Hin].
    + apply Hk2, Hall1; assumption.
    + apply Hall2; assumption.
Qed.

Lemma normalizeToolCallID_recorded (m : Model) (id : string) :
  recorded_from [id] m (snd (normalizeToolCallID m id)).
Proof.
  unfold normalizeToolCallID, maxToolCallIDLength.
  change (Z.to_nat (40 - 3)) with 37%nat. fold (shortID id).
  destruct (Z.leb_spec (len id) 40) as [Hshort|Hlong]; cbn [snd].
  - split; [reflexivity|]. split; [auto|]. split; [auto|].
    intros id' [<- | []] Hlen. unfold maxToolCallIDLength in Hlen. lia.
  - split; [reflexivity|]. cbn [toolCall]. split; [|split].
    + intros short Hsome. destruct (decide (shortID id = short)) as [<-|Hne].
      * rewrite lookup_insert_eq. eauto.
      * rewrite lookup_insert_ne by exact Hne. exact Hsome.
    + intros short original H. destruct (decide (shortID id = short)) as [<-|Hne].
      * rewrite lookup_insert_eq in H. injection H as <-. right.
        split; [left; reflexivity|]. split; [exact Hlong | reflexivity].
      * rewrite lookup_insert_ne in H by exact Hne. left. exact H.
    + intros id' [<- | []] _. rewrite lookup_insert_eq. eauto.
Qed.

Lemma collectParts_recorded (parts : list RequestPart) (m m' : Model) (acc : collected)
    (r : result collected) :
  collectParts m parts acc = (r, m') ->
  exists ids, recorded_from ids m m' /\ incl ids (flat_map part_ids parts).
Proof.
  revert m acc. induction parts as [|part rest IH]; intros m acc.
  - cbn [OpenAIRequest.collectParts]. intros [= _ <-]. exists [].
    split; [apply recorded_from_refl | apply incl_nil_l].
  - cbn [flat_map]. unfold part_ids at 1.
    collect_cases m part; intros Hrest;
      try (injection Hrest as _ <-; exists [];
           split; [apply recorded_from_refl | apply incl_nil_l]);
      try (destruct (IH _ _ Hrest) as (ids & Hrec & Hincl); exists ids;
           split; [exact Hrec | cbn [app]; exact Hincl]).
    + destruct (IH _ _ Hrest) as (ids & Hrec & Hincl).
      pose proof (normalizeToolCallID_recorded m (fr_ID fr)) as H1. rewrite Hn in H1.
      cbn [snd] in H1. exists ([fr_ID fr] ++ ids)%list.
      split; [exact (recorded_from_trans _ _ _ _ _ H1 Hrec)|].
      apply incl_app_app; [apply incl_refl | exact Hincl].
    + destruct (IH _ _ Hrest) as (ids & Hrec & Hincl).
      pose proof (normalizeToolCallID_recorded m (fc_ID fc)) as H1. rewrite Hn in H1.
      cbn [snd] in H1. exists ([fc_ID fc] ++ ids)%list.
      split; [exact (recorded_from_trans _ _ _ _ _ H1 Hrec)|].
      apply incl_app_app; [apply incl_refl | exact Hincl].
Qed.


Lemma recorded_from_incl (ids ids' : list string) (m m' : Model) :
  recorded_from ids m m' -> incl ids ids' ->
  (forall id, In id ids' -> maxToolCallIDLength < len id ->
              is_Some (toolCall m' !! shortID id)) ->
  recorded_from ids' m m'.
Proof.
  intros (Hn & Hk & Hnew & _) Hincl Hall. split; [exact Hn|]. split; [exact Hk|].
  split; [|exact Hall]. intros short original H.
  destruct (Hnew short original H) as [H0 | (Hin & Hrest)]; [left; exact H0|].
  right. split; [apply Hincl; exact Hin | exact Hrest].
Qed.

Lemma convertContents_recorded (contents : list RequestContent) (m m' : Model)
    (message : list MessageParamUnion) (r : result (list MessageParamUnion)) :
  convertContents m contents message = (r, m') ->
  exists ids,
    recorded_from ids m m' /\
    incl ids (flat_map (fun content => flat_map part_ids (rc_Parts content)) contents).
Proof.
  revert m message. induction contents as [|content rest IH]; intros m message;
    cbn [OpenAIRequest.convertContents flat_map].
  - intros [= _ <-]. exists []. split; [apply recorded_from_refl | apply incl_nil_l].
  - unfold OpenAIRequest.convertContentToMessages.
    destruct (collectParts m (rc_Parts content) (mkCollected [] [] [] []))
      as [[acc|err] m1] eqn:Hcol.
    + destruct (collectParts_recorded _ _ _ _ _ Hcol) as (ids1 & Hrec1 & Hincl1).
      assert (Hnext : forall msgs,
                 convertContents m1 rest (message ++ msgs)%list = (r, m') ->
                 exists ids,
                   recorded_from ids m m' /\
                   incl ids (flat_map part_ids (rc_Parts content)
                             ++ flat_map (fun content => flat_map part_ids (rc_Parts content))
                                  rest)%list).
      { intros msgs Hrest. destruct (IH _ _ Hrest) as (ids2 & Hrec2 & Hincl2).
        exists (ids1 ++ ids2)%list. split; [exact (recorded_from_trans _ _ _ _ _ Hrec1 Hrec2)|].
        apply incl_app_app; assumption. }
      destruct ((0 <? Z.of_nat (length (textParts acc)))
                || (0 <? Z.of_nat (length (imageParts acc)))
                || (0 <? Z.of_nat (length (toolCalls acc)))); [|apply Hnext].
      destruct (buildRoleMessage _ _ _ _); apply Hnext.
    + intros [= _ <-]. destruct (collectParts_recorded _ _ _ _ _ Hcol) as (ids1 & Hrec1 & Hincl1).
      exists ids1. split; [exact Hrec1|]. apply incl_appl. exact Hincl1.
Qed.

(** X26: building a request only ever adds to the identifier mappings the
    adapter keeps: the model name stays, no mapping is lost, and a mapping
    that is new or changed takes the 40-byte short form of an identifier of
    the request that is longer than 40 bytes to that identifier, so the
    mappings keep describing short forms if they did before.  This holds also
    when the translation fails half-way. *)
Theorem buildChatCompletionParameters_mappings (m m' : Model) (req : LLMRequest)
    (r : result ChatCompletionNewParams) :
  buildChatCompletionParameters m req = (r, m') ->
  modelName m' = modelName m /\
  (forall short, is_Some (toolCall m !! short) -> is_Some (toolCall m' !! short)) /\
  (forall short original,
     toolCall m' !! short = Some original ->
     toolCall m !! short = Some original
     \/ (In original (request_ids req) /\ maxToolCallIDLength < len original /\
         short = shortID original /\ len short = maxToolCallIDLength)) /\
  (sound_mappings m -> sound_mappings m').
Proof.
  unfold OpenAIRequest.buildChatCompletionParameters.
  destruct (convertContents m (Contents req) _) as [[out|err] m1] eqn:Hc;
    intros Hm; (assert (m1 = m') by (destruct (Config req); congruence)); clear Hm; subst m1;
    destruct (convertContents_recorded _ _ _ _ _ Hc) as (ids & (Hn & Hk & Hnew & _) & Hincl).
  all: assert (Hnew' : forall short original,
                  toolCall m' !! short = Some original ->
                  toolCall m !! short = Some original
                  \/ (In original (request_ids req) /\ maxToolCallIDLength < len original /\
                      short = shortID original /\ len short = maxToolCallIDLength)).
  1,3: intros short original H; destruct (Hnew short original H) as [H0 | (Hin & Hlen & Hs)];
       [left; exact H0|]; right; split; [apply Hincl; exact Hin|]; split; [exact Hlen|];
       split; [exact Hs|]; rewrite Hs; unfold len, shortID;
       rewrite ToolCallIDFacts.shortID_length; reflexivity.
  all: split; [exact Hn|]; split; [exact Hk|]; split; [exact Hnew'|];
       intros Hsound short original H;
       destruct (Hnew' short original H) as [H0 | (_ & Hlen & Hs & _)];
       [apply Hsound; exact H0 | split; assumption].
Qed.

End Translation.


Lemma convertContentToMessages_shape_witness :
  exists tools role_msg,
    [OpenAIRequest.ToolMessage "{}" "call:1"] = (tools ++ role_msg)%list /\
    tools = [OpenAIRequest.ToolMessage "{}" "call:1"] /\
    role_msg = [].
Proof.
  destruct (convertContentToMessages_shape minimal_Marshal Scenarios.no_base64
              (New "gpt-4o") (New "gpt-4o") Scenarios.tool_role_content _ eq_refl)
    as (tools & role_msg & Hmsgs & _ & _ & _ & _ & _ & _ & Htools & Hrole).
  exists tools, role_msg. split; [exact Hmsgs|]. split; [exact Htools | exact Hrole].
Defined.

(** The tool turn on Protocol-A: the two calls of the model content make
    one assistant message, the answer is a tool message.  The text that
    shares a part with the first call is not sent: the [switch] takes the
    part for a function call. *)
Example buildChatCompletionParameters_tool_turn :
  option_map p_Messages
    (match fst (buildChatCompletionParameters minimal_Marshal (fun _ => Ok "null")
                  minimal_Unmarshal Scenarios.no_base64 (New "gpt-4o")
                  Scenarios.tool_turn_request) with
     | Ok params => Some params
     | Err _ => None
     end)
  = Some
      [ UserMessage "What is the weather?";
        AssistantMessage None
          [mkToolCallParam "call:1" "lookup" "{}"; mkToolCallParam "call:2" "lookup" "null"];
        OpenAIRequest.ToolMessage "{}" "call:1" ].
Proof. vm_compute. reflexivity. Qed.


Lemma buildChatCompletionParameters_tools_witness :
  exists params m',
    buildChatCompletionParameters minimal_Marshal (fun _ => Ok "null") minimal_Unmarshal
      Scenarios.no_base64 (New "gpt-4o") Scenarios.tools_request = (Ok params, m') /\
    map fn_Name (p_Tools params)
    = match Config Scenarios.tools_request with
      | Some cfg => map fd_Name (declarations (cfg_Tools cfg))
      | None => []
      end /\
    forallb parameters_ok (p_Tools params) = true.
Proof.
  do 2 eexists. split; [reflexivity|].
  eapply (buildChatCompletionParameters_tools minimal_Marshal (fun _ => Ok "null")
            minimal_Unmarshal Scenarios.no_base64 (New "gpt-4o") _ Scenarios.tools_request).
  reflexivity.
Defined.

Lemma buildChatCompletionParameters_mappings_witness :
  let run := buildChatCompletionParameters minimal_Marshal (fun _ => Ok "null")
               minimal_Unmarshal Scenarios.no_base64 (New "gpt-4o")
               Scenarios.long_call_request in
  modelName (snd run) = modelName (New "gpt-4o") /\
  (forall short, is_Some (toolCall (New "gpt-4o") !! short) ->
                 is_Some (toolCall (snd run) !! short)) /\
  (forall short original,
     toolCall (snd run) !! short = Some original ->
     toolCall (New "gpt-4o") !! short = Some original
     \/ (In original (request_ids Scenarios.long_call_request) /\
         maxToolCallIDLength < len original /\
         short = shortID original /\ len short = maxToolCallIDLength)) /\
  (sound_mappings (New "gpt-4o") -> sound_mappings (snd run)).
Proof.
  cbv zeta.
  apply (buildChatCompletionParameters_mappings minimal_Marshal (fun _ => Ok "null")
           minimal_Unmarshal Scenarios.no_base64 (New "gpt-4o") _
           Scenarios.long_call_request
           (fst (buildChatCompletionParameters minimal_Marshal (fun _ => Ok "null")
                   minimal_Unmarshal Scenarios.no_base64 (New "gpt-4o")
                   Scenarios.long_call_request))).
  apply surjective_pairing.
Defined.

(** The long identifier leaves under its short form in both messages, and
    the adapter remembers the one mapping. *)
Example buildChatCompletionParameters_long_call :
  let run := buildChatCompletionParameters minimal_Marshal (fun _ => Ok "null")
               minimal_Unmarshal Scenarios.no_base64 (New "gpt-4o")
               Scenarios.long_call_request in
  match fst run with
  | Ok params => flat_map message_tool_ids (p_Messages params)
  | Err _ => []
  end = ["tc_42f2d97335669f86846b721a8aa58551a4656";
         "tc_42f2d97335669f86846b721a8aa58551a4656"] /\
  map_to_list (toolCall (snd run))
  = [("tc_42f2d97335669f86846b721a8aa58551a4656", sixty_x)].
Proof. vm_compute. split; reflexivity. Qed.

(** The parameters of the offered tool get their [properties]. *)
Example buildChatCompletionParameters_offers_lookup :
  option_map p_Tools
    (match fst (buildChatCompletionParameters minimal_Marshal (fun _ => Ok "null")
                  minimal_Unmarshal Scenarios.no_base64 (New "gpt-4o")
                  Scenarios.tools_request) with
     | Ok params => Some params
     | Err _ => None
     end)
  = Some [mkFunctionDefinition "lookup" "Looks the weather up"
            (Some [("type", AString "object"); ("properties", AMap [])])].
Proof. vm_compute. reflexivity. Qed.

End OpenAIRequestFacts.

Module ConsumerFacts.
Import Go JSON ADK.

(** What the loops of both adapters maintain: everything sent so far is a
    partial response that the consumer accepted. *)
Lemma accepted_snoc (yield : consumer) (texts : list string) (text : string) :
  (forall k, (0 < k <= length texts)%nat ->
             yield (firstn k (map partial_item texts)) = true) ->
  yield (map partial_item texts ++ [partial_item text])%list = true ->
  forall k, (0 < k <= length (texts ++ [text]))%nat ->
            yield (firstn k (map partial_item (texts ++ [text]))) = true.
Proof.
  intros Hacc Hnew k Hk. rewrite length_app in Hk. cbn [length] in Hk.
  rewrite map_app. cbn [map].
  destruct (Nat.eq_dec k (length texts + 1)%nat) as [->|Hne].
  - rewrite firstn_all2 by (rewrite length_app, length_map; cbn [length]; lia). exact Hnew.
  - rewrite firstn_app, length_map.
    replace (k - length texts)%nat with 0%nat by lia.
    cbn [firstn]. rewrite app_nil_r. apply Hacc. lia.
Qed.

Lemma accepted_before (yield : consumer) (texts : list string) (item : yielded) :
  (forall k, (0 < k <= length texts)%nat ->
             yield (firstn k (map partial_item texts)) = true) ->
  forall k, (0 < k <= length texts)%nat ->
            yield (firstn k (map partial_item texts ++ [item])%list) = true.
Proof.
  intros Hacc k Hk. rewrite firstn_app, length_map.
  replace (k - length texts)%nat with 0%nat by lia.
  cbn [firstn]. rewrite app_nil_r. apply Hacc. exact Hk.
Qed.

Section ProtocolA.
Import OpenAI.

Variable json_Unmarshal : string -> result map_string_any.
Variable AddChunk : ChatCompletion -> ChatCompletionChunk -> ChatCompletion.
Variable LLMRequest : Type.
Variable Params : Type.
Variable buildChatCompletionParameters : LLMRequest -> result Params.
Variable NewStreaming : Params -> Stream.

Lemma streamLoop_A_consumer (yield : consumer) (chunks : list ChatCompletionChunk)
    (accum : ChatCompletion) (texts : list string) :
  Forall (fun text => text <> "") texts ->
  (forall k, (0 < k <= length texts)%nat ->
             yield (firstn k (map partial_item texts)) = true) ->
  exists texts',
    Forall (fun text => text <> "") texts' /\
    (forall k, (0 < k <= length texts')%nat ->
               yield (firstn k (map partial_item texts')) = true) /\
    ((exists accum',
        streamLoop AddChunk yield chunks accum (map partial_item texts)
        = (Drained accum', map partial_item texts'))
     \/ (exists text,
           text <> "" /\
           yield (map partial_item texts' ++ [partial_item text])%list = false /\
           streamLoop AddChunk yield chunks accum (map partial_item texts)
           = (Cancelled, (map partial_item texts' ++ [partial_item text])%list))).
Proof.
  revert accum texts. induction chunks as [|chunk rest IH]; intros accum texts Hne Hacc.
  - exists texts. split; [exact Hne|]. split; [exact Hacc|]. left. eexists. reflexivity.
  - cbn [streamLoop]. destruct (chunk_Choices chunk) as [|choice ?]; [apply IH; assumption|].
    destruct (String.eqb_spec (delta_Content choice) "") as [_|Htext]; [apply IH; assumption|].
    match goal with
    | |- context [if yield ?s then _ else _] =>
        change s with (map partial_item texts ++ [partial_item (delta_Content choice)])%list
    end.
    destruct (yield (map partial_item texts ++ [partial_item (delta_Content choice)])%list)
      eqn:Hy.
    + replace (map partial_item texts ++ [partial_item (delta_Content choice)])%list
        with (map partial_item (texts ++ [delta_Content choice]))
        by (rewrite map_app; reflexivity).
      apply IH.
      * apply Forall_app. split; [exact Hne|]. constructor; [exact Htext | constructor].
      * apply accepted_snoc; assumption.
    + exists texts. split; [exact Hne|]. split; [exact Hacc|]. right.
      exists (delta_Content choice). split; [exact Htext|]. split; [exact Hy | reflexivity].
Qed.

(** X9: whatever the consumer, the chunks of the stream and the
    accumulator, streaming on Protocol-A respects the consumer: it yields
    partial responses for non-empty texts as long as [yield] accepts them,
    stops at once when [yield] returns [false] (nothing is yielded after the
    refused item, not even the final response or an error), and otherwise
    ends with exactly one last item, the stream's error or the final
    response with [Partial = false] and [TurnComplete = true].  At least one
    item is always yielded. *)
Theorem generateStream_A_respects_consumer (req : LLMRequest) (yield : consumer) :
  respects_consumer yield
    (generateStream json_Unmarshal AddChunk LLMRequest Params
       buildChatCompletionParameters NewStreaming req yield).
Proof.
  unfold generateStream, respects_consumer.
  destruct (buildChatCompletionParameters req) as [params|err].
  2:{ exists [], (None, Some err). split; [reflexivity|]. split; [constructor|].
      split; [cbn [length]; lia|]. right. left. exists err. reflexivity. }
  destruct (streamLoop_A_consumer yield (stream_chunks (NewStreaming params))
              emptyAccumulator [] (@List.Forall_nil _ _))
    as (texts & Hne & Hacc & [[accum Hloop] | (text & Htext & Hy & Hloop)]).
  { cbn [length]. lia. }
  - cbn [map] in Hloop. rewrite Hloop.
    destruct (stream_Err (NewStreaming params)) as [err|].
    + exists texts, (None, Some err). split; [reflexivity|]. split; [exact Hne|].
      split; [apply accepted_before, Hacc|]. right. left. exists err. reflexivity.
    + exists texts, (Some (buildStreamFinalResponse json_Unmarshal accum), None).
      split; [reflexivity|]. split; [exact Hne|].
      split; [apply accepted_before, Hacc|]. right. right.
      eexists. split; [reflexivity|]. split; reflexivity.
  - cbn [map] in Hloop. rewrite Hloop.
    exists texts, (partial_item text). split; [reflexivity|]. split; [exact Hne|].
    split; [apply accepted_before, Hacc|]. left. exists text. auto.
Qed.

End ProtocolA.

Section ProtocolB.
Import Anthropic.

Variable json_Unmarshal : string -> result map_string_any.
Variable Accumulate : Message -> MessageStreamEvent -> result Message.
Variable LLMRequest : Type.
Variable Params : Type.
Variable buildMessageParams : LLMRequest -> result Params.
Variable NewStreaming : Params -> Stream.

Lemma streamLoop_B_consumer (yield : consumer) (events : list MessageStreamEvent)
    (message : Message) (texts : list string) :
  Forall (fun text => text <> "") texts ->
  (forall k, (0 < k <= length texts)%nat ->
             yield (firstn k (map partial_item texts)) = true) ->
  exists texts',
    Forall (fun text => text <> "") texts' /\
    (forall k, (0 < k <= length texts')%nat ->
               yield (firstn k (map partial_item texts')) = true) /\
    ((exists message',
        streamLoop Accumulate yield events message (map partial_item texts)
        = (Drained message', map partial_item texts'))
     \/ (exists err,
           streamLoop Accumulate yield events message (map partial_item texts)
           = (Failed, (map partial_item texts' ++ [(None, Some err)])%list))
     \/ (exists text,
           text <> "" /\
           yield (map partial_item texts' ++ [partial_item text])%list = false /\
           streamLoop Accumulate yield events message (map partial_item texts)
           = (Cancelled, (map partial_item texts' ++ [partial_item text])%list))).
Proof.
  revert message texts. induction events as [|event rest IH]; intros message texts Hne Hacc.
  - exists texts. split; [exact Hne|]. split; [exact Hacc|]. left. eexists. reflexivity.
  - cbn [streamLoop]. destruct (Accumulate message event) as [message'|err].
    2:{ exists texts. split; [exact Hne|]. split; [exact Hacc|]. right. left.
        exists err. reflexivity. }
    destruct event as [m|idx blk|idx delta|idx|sr us|]; try (apply IH; assumption).
    destruct delta as [text|pj|]; try (apply IH; assumption).
    destruct (String.eqb_spec text "") as [_|Htext]; [apply IH; assumption|].
    match goal with
    | |- context [if yield ?s then _ else _] =>
        change s with (map partial_item texts ++ [partial_item text])%list
    end.
    destruct (yield (map partial_item texts ++ [partial_item text])%list) eqn:Hy.
    + replace (map partial_item texts ++ [partial_item text])%list
        with (map partial_item (texts ++ [text])) by (rewrite map_app; reflexivity).
      apply IH.
      * apply Forall_app. split; [exact Hne|]. constructor; [exact Htext | constructor].
      * apply accepted_snoc; assumption.
    + exists texts. split; [exact Hne|]. split; [exact Hacc|]. right. right.
      exists text. split; [exact Htext|]. split; [exact Hy | reflexivity].
Qed.

(** X10: whatever the consumer, the events of the stream and the
    accumulator, streaming on Protocol-B respects the consumer: partial
    responses for non-empty text deltas as long as [yield] accepts them,
    nothing after an item that [yield] refused, and otherwise exactly one
    last item: the error of the accumulator or of the stream, or the final
    response with [Partial = false] and [TurnComplete = true].  At least one
    item is always yielded. *)
Theorem generateStream_B_respects_consumer (req : LLMRequest) (yield : consumer) :
  respects_consumer yield
    (generateStream json_Unmarshal Accumulate LLMRequest Params
       buildMessageParams NewStreaming req yield).
Proof.
  unfold generateStream, respects_consumer.
  destruct (buildMessageParams req) as [params|err].
  2:{ exists [], (None, Some err). split; [reflexivity|]. split; [constructor|].
      split; [cbn [length]; lia|]. right. left. exists err. reflexivity. }
  destruct (streamLoop_B_consumer yield (stream_events (NewStreaming params))
              emptyMessage [] (@List.Forall_nil _ _))
    as (texts & Hne & Hacc & [[message Hloop] | [[err Hloop] | (text & Htext & Hy & Hloop)]]).
  { cbn [length]. lia. }
  - cbn [map] in Hloop. rewrite Hloop.
    destruct (stream_Err (NewStreaming params)) as [err|].
    + exists texts, (None, Some err). split; [reflexivity|]. split; [exact Hne|].
      split; [apply accepted_before, Hacc|]. right. left. exists err. reflexivity.
    + exists texts, (Some (finalResponse json_Unmarshal message), None).
      split; [reflexivity|]. split; [exact Hne|].
      split; [apply accepted_before, Hacc|]. right. right.
      eexists. split; [reflexivity|]. split; reflexivity.
  - cbn [map] in Hloop. rewrite Hloop.
    exists texts, (None, Some err). split; [reflexivity|]. split; [exact Hne|].
    split; [apply accepted_before, Hacc|]. right. left. exists err. reflexivity.
  - cbn [map] in Hloop. rewrite Hloop.
    exists texts, (partial_item text). split; [reflexivity|]. split; [exact Hne|].
    split; [apply accepted_before, Hacc|]. left. exists text. auto.
Qed.

End ProtocolB.

End ConsumerFacts.

Module RedisReadFacts.
Import Go JSON Redis StringFacts.

(** *** Documents decode to what was encoded *)




Lemma cmd_LRange_list_items (key : string) (cache : gmap string entry) (items : list any) :
  cmd_LRange key cache = Ok items -> items = list_items cache key.
Proof.
  unfold cmd_LRange, list_items.
  destruct (cache !! key) as [[[d|l|members] ex]|]; intros [= <-]; reflexivity.
Qed.


(** *** [Create], then [Get] *)






(** *** [Delete], then [Get] *)

Lemma cmd_SRem_Ok (key member : string) (cache cache' : gmap string entry) :
  cmd_SRem key member cache = Ok cache' ->
  (forall key', key <> key' -> cache' !! key' = cache !! key') /\
  (forall ids, cmd_SMembers key cache' = Ok ids -> ~ In member ids).
Proof.
  unfold cmd_SRem.
  destruct (cache !! key) as [[[d|l|members] ex]|] eqn:Hk; try discriminate.
  - destruct (decide (members ∖ {[member]} = ∅)) as [Hempty|Hrest]; intros [= <-].
    + split; [intros key' Hne; apply lookup_delete_ne; exact Hne|].
      intros ids. unfold cmd_SMembers. rewrite lookup_delete_eq. intros [= <-] [].
    + split; [intros key' Hne; apply lookup_insert_ne; exact Hne|].
      intros ids. unfold cmd_SMembers. rewrite lookup_insert_eq. intros [= <-] Hin.
      apply list_elem_of_In in Hin. apply elem_of_elements in Hin.
      apply elem_of_difference in Hin as [_ Hnot]. apply Hnot, elem_of_singleton. reflexivity.
  - intros [= <-]. split; [reflexivity|].
    intros ids. unfold cmd_SMembers. rewrite Hk. intros [= <-] [].
Qed.

(** X12: whatever the cache held, after [Delete] the session record and
    the events list of the identifier are gone, so a [Get] for it answers
    "session not found" wrapped around the identifier; this is so even when
    [Delete] returns an error, which can only come from the index entry not
    being a set.  When it returns none, the identifier is no longer a member
    of the index. *)
Theorem Delete_then_Get (ttl : Z) (appName userID sessionID : string)
    (cache : gmap string entry) (numRecentEvents : Z) (after : option Z) :
  let '(err, cache') := Delete appName userID sessionID cache in
  Get ttl (mkGetRequest appName userID sessionID numRecentEvents after) cache'
  = Err (sessionNotFound sessionID) /\
  cache' !! buildSessionKey appName userID sessionID = None /\
  cache' !! buildEventsKey appName userID sessionID = None /\
  match err with
  | None =>
      forall ids, cmd_SMembers (buildSessionIndexKey appName userID) cache' = Ok ids ->
                  ~ In sessionID ids
  | Some e =>
      e = ErrWrap "failed to delete session" WRONGTYPE /\
      cmd_SMembers (buildSessionIndexKey appName userID) cache = Err WRONGTYPE
  end.
Proof.
  unfold Delete.
  set (key := buildSessionKey appName userID sessionID).
  set (evKey := buildEventsKey appName userID sessionID).
  set (indexKey := buildSessionIndexKey appName userID).
  assert (Hki : key <> indexKey) by apply RedisFacts.session_key_not_index_key.
  assert (Hek : evKey <> key) by apply RedisFacts.events_key_not_session_key.
  assert (Hei : evKey <> indexKey) by apply RedisFacts.events_key_not_index_key.
  assert (Hk0 : cmd_Del evKey (cmd_Del key cache) !! key = None).
  { unfold cmd_Del. rewrite lookup_delete_ne by exact Hek. apply lookup_delete_eq. }
  assert (He0 : cmd_Del evKey (cmd_Del key cache) !! evKey = None).
  { unfold cmd_Del. apply lookup_delete_eq. }
  assert (Hget : forall cache',
             cache' !! key = None ->
             Get ttl (mkGetRequest appName userID sessionID numRecentEvents after) cache'
             = Err (sessionNotFound sessionID)).
  { intros cache' Hnone. unfold Get, cmd_Get.
    cbn [gr_AppName gr_UserID gr_SessionID]. fold key. rewrite Hnone. reflexivity. }
  destruct (cmd_SRem indexKey sessionID (cmd_Del evKey (cmd_Del key cache)))
    as [cache'|e] eqn:Hrem.
  - destruct (cmd_SRem_Ok _ _ _ _ Hrem) as [Hother Hmem].
    assert (Hk : cache' !! key = None).
    { rewrite Hother by (apply not_eq_sym; exact Hki). exact Hk0. }
    split; [apply Hget, Hk|]. split; [exact Hk|].
    split; [rewrite Hother by (apply not_eq_sym; exact Hei); exact He0 | exact Hmem].
  - split; [apply Hget, Hk0|]. split; [exact Hk0|]. split; [exact He0|].
    unfold cmd_SRem in Hrem. unfold cmd_SMembers.
    assert (Hidx : cmd_Del evKey (cmd_Del key cache) !! indexKey = cache !! indexKey).
    { unfold cmd_Del. rewrite lookup_delete_ne by exact Hei.
      apply lookup_delete_ne. exact Hki. }
    rewrite Hidx in Hrem.
    destruct (cache !! indexKey) as [[[d|l|members] ex]|]; try discriminate Hrem.
    + injection Hrem as <-. split; reflexivity.
    + injection Hrem as <-. split; reflexivity.
    + destruct (decide (members ∖ {[sessionID]} = ∅)); discriminate Hrem.
Qed.

(** *** [AppendEvent], then [Get] *)





(** *** The filters of [Get] *)

Lemma skipn_sublist {A} (n : nat) (l : list A) : sublist (skipn n l) l.
Proof.
  revert l. induction n as [|n IH]; intros l; [reflexivity|].
  destruct l as [|x l]; [reflexivity|]. cbn [skipn]. apply sublist_cons, IH.
Qed.

Lemma filter_sublist {A} (f : A -> bool) (l : list A) : sublist (List.filter f l) l.
Proof.
  induction l as [|x l IH]; [reflexivity|]. cbn [List.filter].
  destruct (f x); [apply sublist_skip | apply sublist_cons]; exact IH.
Qed.

(** X14: [Get] succeeds, whatever the items of the events list are, as
    soon as the session record is there and decodes and the events key holds
    a list or nothing: items that do not decode are left out.  The events it
    returns are events of the list, in their order; with [NumRecentEvents = n
    > 0] there are at most [n] of them, the last [n] of the list when no
    [After] is given; with [After = t] none of them is older than [t]. *)
Theorem Get_events_filtered (ttl : Z) (req : GetRequest) (cache : gmap string entry) :
  let key := buildSessionKey (gr_AppName req) (gr_UserID req) (gr_SessionID req) in
  let evKey := buildEventsKey (gr_AppName req) (gr_UserID req) (gr_SessionID req) in
  let stored := decodeEvents (list_items cache evKey) in
  is_ok (Get ttl req cache)
  = match cmd_Get key cache with
    | Ok data => is_ok (Unmarshal_storable data) && is_ok (cmd_LRange evKey cache)
    | Err _ => false
    end /\
  forall s view,
    Get ttl req cache = Ok (s, view) ->
    sublist (events_cached view) stored /\
    (0 < gr_NumRecentEvents req ->
     Z.of_nat (length (events_cached view)) <= gr_NumRecentEvents req) /\
    (gr_After req = None ->
     events_cached view
     = if 0 <? gr_NumRecentEvents req
       then skipn (length stored - Z.to_nat (gr_NumRecentEvents req)) stored
       else stored) /\
    (forall t evt, gr_After req = Some t -> In evt (events_cached view) ->
                   t <= ev_Timestamp evt).
Proof.
  cbv zeta. unfold Get.
  set (key := buildSessionKey (gr_AppName req) (gr_UserID req) (gr_SessionID req)).
  set (evKey := buildEventsKey (gr_AppName req) (gr_UserID req) (gr_SessionID req)).
  destruct (cmd_Get key cache) as [data|e].
  2:{ split; [destruct (is_redis_Nil e); reflexivity|].
      intros s view. destruct (is_redis_Nil e); discriminate. }
  destruct (Unmarshal_storable data) as [storable|e]; [|split; [reflexivity|discriminate]].
  destruct (cmd_LRange evKey cache) as [eventData|e] eqn:Hl.
  2:{ assert (e = WRONGTYPE) as ->.
      { unfold cmd_LRange in Hl.
        destruct (cache !! evKey) as [[[d|l|members] ex]|]; congruence. }
      split; [reflexivity|discriminate]. }
  split; [reflexivity|].
  apply cmd_LRange_list_items in Hl. subst eventData.
  set (stored := decodeEvents (list_items cache evKey)).
  intros s view [= <- <-]. cbn [newRedisEvents events_cached].
  assert (Hrecent : recentEvents (gr_NumRecentEvents req) stored
                    = if 0 <? gr_NumRecentEvents req
                      then skipn (length stored - Z.to_nat (gr_NumRecentEvents req)) stored
                      else stored).
  { unfold recentEvents.
    destruct (Z.ltb_spec 0 (gr_NumRecentEvents req)) as [Hpos|Hnon]; cbn [andb]; [|reflexivity].
    destruct (Z.ltb_spec (gr_NumRecentEvents req) (Z.of_nat (length stored))) as [Hlt|Hge];
      [reflexivity|].
    replace (length stored - Z.to_nat (gr_NumRecentEvents req))%nat with 0%nat by lia.
    reflexivity. }
  assert (Hsub : sublist (recentEvents (gr_NumRecentEvents req) stored) stored).
  { rewrite Hrecent. destruct (0 <? gr_NumRecentEvents req); [apply skipn_sublist | reflexivity]. }
  assert (Hafter : sublist (eventsAfter (gr_After req)
                              (recentEvents (gr_NumRecentEvents req) stored))
                           (recentEvents (gr_NumRecentEvents req) stored)).
  { unfold eventsAfter. destruct (gr_After req); [apply filter_sublist | reflexivity]. }
  split; [etransitivity; [exact Hafter | exact Hsub]|]. split; [|split].
  - intros Hpos. apply sublist_length in Hafter.
    assert (Z.of_nat (length (recentEvents (gr_NumRecentEvents req) stored))
            <= gr_NumRecentEvents req); [|lia].
    rewrite Hrecent. apply Z.ltb_lt in Hpos. rewrite Hpos. rewrite length_skipn. lia.
  - intros Hnone. unfold eventsAfter. rewrite Hnone. exact Hrecent.
  - intros t evt Ht Hin. unfold eventsAfter in Hin. rewrite Ht in Hin.
    apply filter_In in Hin as [_ Hge]. apply negb_true_iff, Z.ltb_ge in Hge. exact Hge.
Qed.


(** *** A state write, then [Get] *)












(** An empty list and a number of 19 digits in the state: the record gets
    an empty object and the number cut to 14 digits. *)
Example State_Set_empty_array_and_long_number :
  let run :=
    State_Set Scenarios.state_s1 "tags" (ASlice []) 1700000000 Scenarios.aged_cache in
  let run' :=
    State_Set (snd (fst run)) "count" (ANumber 1234567890123456789) 1700000001 (snd run) in
  fst (fst run') = None /\
  option_map (fun sv => map_to_list (st_data (sess_state (fst sv))))
    (match Get DefaultSessionTTL (mkGetRequest "app" "u" "s1" 0 None) (snd run') with
     | Ok sv => Some sv
     | Err _ => None
     end)
  = Some (map_to_list
            (<["count" := ANumber 1234567890123500000]>
               (<["tags" := AMap []]> (st_data Scenarios.state_s1)))).
Proof. vm_compute. split; reflexivity. Qed.

(** *** [Create], then [List] *)

Lemma pipeline_error_not_nil {T} (replies : list (result T)) (err : error) :
  pipeline_error replies = Some err -> In (Err err) replies.
Proof.
  unfold pipeline_error. induction replies as [|[v|e] rest IH]; cbn [omap list_omap head].
  - discriminate.
  - intros H. right. apply IH. exact H.
  - intros [= <-]. left. reflexivity.
Qed.




(** *** Keys *)

Lemma no_colon_head (a : Ascii.ascii) (s : string) :
  no_colon (String a s) = true -> a <> Ascii.ascii_of_nat 58 /\ no_colon s = true.
Proof.
  unfold no_colon. cbn [bytes_of_string forallb]. intros H.
  apply andb_true_iff in H as [Ha Hs]. split; [|exact Hs].
  intros ->. vm_compute in Ha. discriminate Ha.
Qed.

Lemma split_at_colon (s s' r r' : string) :
  no_colon s = true -> no_colon s' = true ->
  s ++ ":" ++ r = s' ++ ":" ++ r' -> s = s' /\ r = r'.
Proof.
  revert s'. induction s as [|a s IH]; intros [|a' s'] Hs Hs' H.
  - change (String (Ascii.ascii_of_nat 58) r = String (Ascii.ascii_of_nat 58) r') in H.
    injection H as ->. split; reflexivity.
  - change (String (Ascii.ascii_of_nat 58) r = String a' (s' ++ ":" ++ r')) in H.
    injection H as <- _.
    apply no_colon_head in Hs' as [Hne _]. contradiction.
  - change (String a (s ++ ":" ++ r) = String (Ascii.ascii_of_nat 58) r') in H.
    injection H as -> _.
    apply no_colon_head in Hs as [Hne _]. contradiction.
  - change (String a (s ++ ":" ++ r) = String a' (s' ++ ":" ++ r')) in H.
    injection H as -> H.
    apply no_colon_head in Hs as [_ Hs]. apply no_colon_head in Hs' as [_ Hs'].
    destruct (IH s' Hs Hs' H) as [-> ->]. split; reflexivity.
Qed.

Lemma no_colon_separator (s r : string) : no_colon (s ++ ":" ++ r) = false.
Proof.
  induction s as [|a s IH]; [reflexivity|].
  change (no_colon (String a (s ++ ":" ++ r)) = false).
  unfold no_colon in *. cbn [bytes_of_string forallb]. rewrite IH. apply andb_false_r.
Qed.

(** X17: the three keys of a session are built by joining their parts
    with colons, so the record key of session [i] of user [u] is also the
    index key of the user named [u:i]; when the application and the user
    names hold no colon there is no such clash: record keys, events keys and
    index keys then determine their parts, and no record key is an index
    key. *)
Theorem session_keys_unambiguous (a u i a' u' i' : string) :
  buildSessionKey a u i = buildSessionIndexKey a (u ++ ":" ++ i) /\
  (no_colon a = true -> no_colon u = true -> no_colon a' = true -> no_colon u' = true ->
   (buildSessionKey a u i = buildSessionKey a' u' i' -> a = a' /\ u = u' /\ i = i') /\
   (buildEventsKey a u i = buildEventsKey a' u' i' -> a = a' /\ u = u' /\ i = i') /\
   (buildSessionIndexKey a u = buildSessionIndexKey a' u' -> a = a' /\ u = u') /\
   buildSessionKey a u i <> buildSessionIndexKey a' u').
Proof.
  split; [reflexivity|]. intros Ha Hu Ha' Hu'.
  assert (Hthree : forall p, p ++ a ++ ":" ++ u ++ ":" ++ i = p ++ a' ++ ":" ++ u' ++ ":" ++ i' ->
                             a = a' /\ u = u' /\ i = i').
  { intros p H. apply append_inv_head in H.
    destruct (split_at_colon _ _ _ _ Ha Ha' H) as [-> H2].
    destruct (split_at_colon _ _ _ _ Hu Hu' H2) as [-> ->]. auto. }
  split; [apply (Hthree "session:")|]. split; [apply (Hthree "events:")|]. split.
  - unfold buildSessionIndexKey. intros H. apply append_inv_head in H.
    destruct (split_at_colon _ _ _ _ Ha Ha' H) as [-> ->]. auto.
  - unfold buildSessionKey, buildSessionIndexKey. intros H. apply append_inv_head in H.
    destruct (split_at_colon _ _ _ _ Ha Ha' H) as [_ H2].
    rewrite <- H2, no_colon_separator in Hu'. discriminate Hu'.
Qed.


(** X27: an event view that [All] has refreshed agrees with the snapshot
    [All] returned: [Len] is its length, [At] gives the event at each index
    from 0 up to the length and nil at every other index, also a negative one;
    and [All] again on an unchanged cache returns the same snapshot and the
    same view.  A view without a client, or with an empty key, keeps the events
    it was made with. *)
Theorem Events_All_then_Len_At (e : redisEvents) (cache : gmap string entry) :
  let snapshot := fst (Events_All e cache) in
  let e' := snd (Events_All e cache) in
  Events_Len e' = Z.of_nat (length snapshot) /\
  (forall idx, 0 <= idx < Events_Len e' ->
               Events_At e' idx = nth_error snapshot (Z.to_nat idx) /\
               is_Some (Events_At e' idx)) /\
  (forall idx, idx < 0 \/ Events_Len e' <= idx -> Events_At e' idx = None) /\
  Events_All e' cache = (snapshot, e') /\
  (events_client e = false \/ events_key e = "" -> e' = e).
Proof.
  cbv zeta. unfold Events_All. cbn [fst snd]. split; [reflexivity|].
  split; [|split; [|split]].
  - intros idx Hidx. unfold Events_Len in Hidx. unfold Events_At.
    replace ((idx <? 0) || (Z.of_nat (length (events_cached (refreshCacheLocked e cache)))
                            <=? idx)) with false
      by (symmetry; apply orb_false_iff; split; [apply Z.ltb_ge | apply Z.leb_gt]; lia).
    split; [reflexivity|].
    destruct (nth_error (events_cached (refreshCacheLocked e cache)) (Z.to_nat idx))
      as [evt|] eqn:Hnth; [exists evt; reflexivity|].
    apply nth_error_None in Hnth. lia.
  - intros idx Hidx. unfold Events_Len in Hidx. unfold Events_At.
    replace ((idx <? 0) || (Z.of_nat (length (events_cached (refreshCacheLocked e cache)))
                            <=? idx)) with true; [reflexivity|].
    symmetry. apply orb_true_iff. destruct Hidx as [Hidx | Hidx];
      [left; apply Z.ltb_lt | right; apply Z.leb_le]; lia.
  - f_equal; unfold refreshCacheLocked;
      destruct (negb (events_client e) || String.eqb (events_key e) "") eqn:Hoff;
      try (rewrite Hoff; reflexivity);
      destruct (cmd_LRange (events_key e) cache) as [eventData|err] eqn:Hrange;
      cbn [events_client events_key events_cached];
      rewrite ?Hoff, ?Hrange; reflexivity.
  - intros Hoff. unfold refreshCacheLocked.
    destruct Hoff as [Hc | Hk]; [rewrite Hc; reflexivity|].
    rewrite Hk, orb_true_r. reflexivity.
Qed.

End RedisReadFacts.

Module PersisterFacts.
Import Go JSON Shard Persister.

(** *** The shard count and the tables *)

Lemma initSchema_tables (n : nat) (tables : gmap string (list event_row)) :
  let created :=
    fold_left
      (fun tables i =>
         match tables !! events_table (Z.of_nat i) with
         | Some _ => tables
         | None => <[events_table (Z.of_nat i) := []]> tables
         end)
      (seq 0 n) tables in
  (forall i, (i < n)%nat -> is_Some (created !! events_table (Z.of_nat i))) /\
  (forall name rows, tables !! name = Some rows -> created !! name = Some rows).
Proof.
  cbv zeta. induction n as [|n [IHnew IHold]].
  - split; [intros i Hi; lia | intros name rows H; exact H].
  - rewrite seq_S, fold_left_app. cbn [fold_left Nat.add].
    set (created := fold_left _ (seq 0 n) tables) in *.
    destruct (created !! events_table (Z.of_nat n)) as [rows|] eqn:Hn.
    + split; [|exact IHold]. intros i Hi.
      destruct (Nat.eq_dec i n) as [->|Hne]; [rewrite Hn; eauto | apply IHnew; lia].
    + split.
      * intros i Hi. destruct (Nat.eq_dec i n) as [->|Hne].
        -- rewrite lookup_insert_eq. eauto.
        -- destruct (IHnew i ltac:(lia)) as [rows Hrows].
           rewrite lookup_insert_ne by (intros Heq; rewrite <- Heq in Hrows; congruence).
           eauto.
      * intros name rows H. specialize (IHold name rows H).
        rewrite lookup_insert_ne by (intros Heq; rewrite <- Heq in IHold; congruence).
        exact IHold.
Qed.

(** X18: once [initSchema] has run for a shard count [N >= 1], the events
    table of every user exists, whether or not [N] is a power of two: the
    shard index [fnv1a32(u) & (N-1)] lies in [0, N), and the tables
    [session_events_0] to [session_events_(N-1)] are the ones created.
    Tables that were there keep their rows. *)
Theorem initSchema_covers_every_user (shardCount : Z) (userID : string) (db : database) :
  1 <= shardCount <= int_max ->
  0 <= GetShardIndex shardCount userID < shardCount /\
  GetEventsTableName shardCount userID = events_table (GetShardIndex shardCount userID) /\
  is_Some (shards (initSchema shardCount db) !! GetEventsTableName shardCount userID) /\
  (forall name rows,
     shards db !! name = Some rows -> shards (initSchema shardCount db) !! name = Some rows).
Proof.
  intros HN.
  pose proof (ShardFacts.GetShardIndex_in_range shardCount userID HN) as Hidx.
  destruct (initSchema_tables (Z.to_nat shardCount) (shards db)) as [Hnew Hold].
  split; [exact Hidx|]. split; [reflexivity|]. split; [|exact Hold].
  unfold initSchema, GetEventsTableName. cbn [shards]. fold (events_table (GetShardIndex shardCount userID)).
  specialize (Hnew (Z.to_nat (GetShardIndex shardCount userID)) ltac:(lia)).
  rewrite Z2Nat.id in Hnew by lia. exact Hnew.
Qed.

Lemma initSchema_covers_every_user_witness :
  0 <= GetShardIndex 8 "a" < 8 /\
  GetEventsTableName 8 "a" = events_table (GetShardIndex 8 "a") /\
  is_Some (shards (initSchema 8 (mkDatabase [] ∅)) !! GetEventsTableName 8 "a") /\
  (forall name rows,
     shards (mkDatabase [] ∅) !! name = Some rows ->
     shards (initSchema 8 (mkDatabase [] ∅)) !! name = Some rows).
Proof.
  apply (initSchema_covers_every_user 8 "a" (mkDatabase [] ∅)).
  unfold int_max. lia.
Defined.


(** *** Event order *)

Lemma fold_max_ge (orders : list Z) (acc : Z) :
  acc <= fold_left Z.max orders acc /\
  Forall (fun o => o <= fold_left Z.max orders acc) orders.
Proof.
  revert acc. induction orders as [|o orders IH]; intros acc; cbn [fold_left].
  - split; [lia | constructor].
  - destruct (IH (Z.max acc o)) as [Hacc Hall]. split; [lia|].
    constructor; [lia | exact Hall].
Qed.

Lemma fold_max_seq (n : nat) :
  fold_left Z.max (map Z.of_nat (seq 0 n)) (-1) = Z.of_nat n - 1.
Proof.
  induction n as [|n IH]; [reflexivity|].
  rewrite seq_S, map_app, fold_left_app, IH. cbn [Nat.add map fold_left]. lia.
Qed.

Lemma session_orders_snoc (a u i : string) (rows : list event_row) (row : event_row) :
  session_orders a u i (rows ++ [row])
  = (session_orders a u i rows
     ++ if of_session a u i row then [er_event_order row] else [])%list.
Proof.
  unfold session_orders. rewrite List.filter_app, map_app. cbn [List.filter].
  destruct (of_session a u i row); reflexivity.
Qed.

Lemma of_session_refl (a u i : string) (row : event_row) :
  er_app_name row = a -> er_user_id row = u -> er_session_id row = i ->
  of_session a u i row = true.
Proof. intros <- <- <-. unfold of_session. rewrite !String.eqb_refl. reflexivity. Qed.

Lemma of_session_other (a u i a' u' i' : string) (row : event_row) :
  of_session a u i row = true -> (a', u', i') <> (a, u, i) -> of_session a' u' i' row = false.
Proof.
  unfold of_session. intros H Hne.
  apply andb_true_iff in H as [H Hi]. apply andb_true_iff in H as [Ha Hu].
  apply String.eqb_eq in Ha, Hu, Hi. rewrite Ha, Hu, Hi.
  destruct (String.eqb_spec a a') as [<-|_]; [|reflexivity].
  destruct (String.eqb_spec u u') as [<-|_]; [|reflexivity].
  destruct (String.eqb_spec i i') as [<-|_]; [|reflexivity].
  contradiction Hne. reflexivity.
Qed.

Lemma existsb_eqb_fresh (next : Z) (orders : list Z) :
  Forall (fun o => o < next) orders -> existsb (Z.eqb next) orders = false.
Proof.
  induction 1 as [|o orders Ho _ IH]; [reflexivity|]. cbn [existsb].
  rewrite IH, orb_false_r. apply Z.eqb_neq. lia.
Qed.

Section Columns.

Variable refused_event : event_row -> option error.
Variable refused_session : session_row -> option error.
Variable refused_text : string -> option error.

(** X19: [persistEventSync] gives an event the order that follows the
    greatest order the session has in the user's shard table (0 for the first
    event), so the insert never meets an existing primary key, and a session
    whose orders are [0 .. n-1] has [0 .. n] afterwards; the row is appended
    to that table only, and the orders of every other session are as before.
    It fails exactly when the event cannot be encoded, the database refuses
    the application, user or session identifier as a parameter, the table does
    not exist, the next order is past the range of the column, or the database
    refuses a value of the row for its column (an identifier longer than
    [VARCHAR(255)], for one); the database is then left as it was. *)
Theorem persistEventSync_appends_in_order (shardCount : Z) (sess : Redis.Session)
    (evt : Redis.Event) (db : database) :
  let a := Redis.sv_AppName sess in
  let u := Redis.sv_UserID sess in
  let i := Redis.sv_ID sess in
  let table := GetEventsTableName shardCount u in
  let '(err, db') := persistEventSync refused_event refused_text shardCount sess evt db in
  (err = None <->
   exists evtData rows,
     Redis.Marshal_event evt = Ok evtData /\
     refused_parameters refused_text [a; u; i] = None /\
     shards db !! table = Some rows /\
     fold_left Z.max (session_orders a u i rows) (-1) + 1 <= 2 ^ 31 - 1 /\
     refused_event
       {| er_id := Redis.ev_ID evt; er_app_name := a; er_user_id := u; er_session_id := i;
          er_event_order := fold_left Z.max (session_orders a u i rows) (-1) + 1;
          er_content := evtData; er_author := Redis.ev_Author evt;
          er_timestamp := Redis.ev_Timestamp evt |} = None) /\
  match err with
  | Some _ => db' = db
  | None =>
      exists rows row,
        shards db !! table = Some rows /\
        shards db' = <[table := (rows ++ [row])%list]> (shards db) /\
        er_id row = Redis.ev_ID evt /\
        Redis.Marshal_event evt = Ok (er_content row) /\
        er_event_order row = fold_left Z.max (session_orders a u i rows) (-1) + 1 /\
        Forall (fun o => o < er_event_order row) (session_orders a u i rows) /\
        (forall n, session_orders a u i rows = map Z.of_nat (seq 0 n) ->
                   session_orders a u i (rows ++ [row]) = map Z.of_nat (seq 0 (S n))) /\
        (forall a' u' i', (a', u', i') <> (a, u, i) ->
                          session_orders a' u' i' (rows ++ [row])
                          = session_orders a' u' i' rows) /\
        er_app_name row = a /\ er_user_id row = u /\ er_session_id row = i /\
        er_author row = Redis.ev_Author evt /\
        er_timestamp row = Redis.ev_Timestamp evt /\
        refused_event row = None
  end.
Proof.
  cbv zeta. unfold persistEventSync.
  destruct (Redis.Marshal_event evt) as [evtData|e].
  2:{ split; [|reflexivity]. split; [discriminate | intros (? & ? & H & _); discriminate H]. }
  set (table := GetEventsTableName shardCount (Redis.sv_UserID sess)).
  destruct (refused_parameters refused_text _) as [refusal|] eqn:Hparams.
  { split; [|reflexivity]. split; [discriminate | intros (? & ? & _ & H & _); discriminate H]. }
  destruct (shards db !! table) as [rows|].
  2:{ split; [|reflexivity].
      split; [discriminate | intros (? & ? & _ & _ & H & _); discriminate H]. }
  set (orders := session_orders (Redis.sv_AppName sess) (Redis.sv_UserID sess)
                   (Redis.sv_ID sess) rows).
  unfold next_order.
  destruct (fold_max_ge orders (-1)) as [_ Hall].
  destruct (Z.leb_spec (fold_left Z.max orders (-1) + 1) (2 ^ 31 - 1)) as [Hfit|Hover].
  2:{ split; [|reflexivity]. split; [discriminate|].
      intros (? & rows' & _ & _ & [= <-] & Hle & _). fold orders in Hle. lia. }
  assert (Hfresh : Forall (fun o => o < fold_left Z.max orders (-1) + 1) orders).
  { eapply Forall_impl; [exact Hall|]. cbn. intros o Ho. lia. }
  destruct (refused_event _) as [refusal|] eqn:Hcheck.
  { split; [|reflexivity]. split; [discriminate|].
    intros (evtData' & rows' & [= <-] & _ & [= <-] & _ & Hacc). fold orders in Hacc.
    rewrite Hacc in Hcheck. discriminate Hcheck. }
  rewrite (existsb_eqb_fresh _ _ Hfresh).
  split.
  - split; [|reflexivity]. intros _. exists evtData, rows. split; [reflexivity|].
    split; [reflexivity|]. split; [reflexivity|]. split; [exact Hfit | exact Hcheck].
  - eexists rows, _. split; [reflexivity|]. split; [reflexivity|].
    cbn [er_id er_content er_event_order er_app_name er_user_id er_session_id er_author
         er_timestamp].
    split; [reflexivity|]. split; [reflexivity|].
    split; [reflexivity|]. split; [exact Hfresh|]. split; [|split].
    + intros n Hn. rewrite session_orders_snoc, of_session_refl by reflexivity.
      cbn [er_event_order]. fold orders in Hn |- *. rewrite Hn, fold_max_seq.
      rewrite seq_S, map_app. cbn [Nat.add map]. do 2 f_equal. lia.
    + intros a' u' i' Hne. rewrite session_orders_snoc.
      rewrite (of_session_other (Redis.sv_AppName sess) (Redis.sv_UserID sess)
                 (Redis.sv_ID sess) a' u' i'); [apply app_nil_r | | exact Hne].
      apply of_session_refl; reflexivity.
    + repeat (split; [reflexivity|]). exact Hcheck.
Qed.

(** *** Deleting a session *)

Lemma session_orders_deleted (a u i : string) (rows : list event_row) :
  session_orders a u i (List.filter (fun row => negb (of_session a u i row)) rows) = [].
Proof.
  unfold session_orders. induction rows as [|row rows IH]; [reflexivity|].
  cbn [List.filter]. destruct (of_session a u i row) eqn:Hrow; cbn [negb]; [exact IH|].
  cbn [List.filter]. rewrite Hrow. exact IH.
Qed.

Lemma session_orders_kept (a u i a' u' i' : string) (rows : list event_row) :
  (a', u', i') <> (a, u, i) ->
  session_orders a' u' i' (List.filter (fun row => negb (of_session a u i row)) rows)
  = session_orders a' u' i' rows.
Proof.
  intros Hne. unfold session_orders. induction rows as [|row rows IH]; [reflexivity|].
  cbn [List.filter]. destruct (of_session a u i row) eqn:Hrow; cbn [negb].
  - rewrite (of_session_other a u i a' u' i' row Hrow Hne). exact IH.
  - cbn [List.filter]. destruct (of_session a' u' i' row); cbn [map]; rewrite IH; reflexivity.
Qed.

(** X20: [deleteSessionSync] fails exactly when the user's events table
    does not exist or the database refuses the application, user or session
    identifier as a parameter, and nothing is deleted then; otherwise the
    session has no event left in that table and no row in [sessions], the
    events of every other session are as before, and an event persisted for
    the session afterwards, if it can be encoded and the database accepts its
    values, starts again at order 0. *)
Theorem deleteSessionSync_clears_session (shardCount : Z) (sess : Redis.Session)
    (evt : Redis.Event) (db : database) :
  let a := Redis.sv_AppName sess in
  let u := Redis.sv_UserID sess in
  let i := Redis.sv_ID sess in
  let table := GetEventsTableName shardCount u in
  let '(err, db1) := deleteSessionSync refused_text shardCount a u i db in
  match shards db !! table, refused_parameters refused_text [a; u; i] with
  | None, _ => err = Some (ErrWrap "failed to delete events" undefined_table) /\ db1 = db
  | Some _, Some refusal => err = Some (ErrWrap "failed to delete events" refusal) /\ db1 = db
  | Some rows, None =>
      err = None /\
      (exists rows1,
         shards db1 = <[table := rows1]> (shards db) /\
         session_orders a u i rows1 = [] /\
         (forall a' u' i', (a', u', i') <> (a, u, i) ->
                           session_orders a' u' i' rows1 = session_orders a' u' i' rows) /\
         (forall evtData,
            Redis.Marshal_event evt = Ok evtData ->
            refused_event
              {| er_id := Redis.ev_ID evt; er_app_name := a; er_user_id := u;
                 er_session_id := i; er_event_order := 0; er_content := evtData;
                 er_author := Redis.ev_Author evt;
                 er_timestamp := Redis.ev_Timestamp evt |} = None ->
            exists db2 rows2,
              persistEventSync refused_event refused_text shardCount sess evt db1
              = (None, db2) /\
              shards db2 !! table = Some rows2 /\
              session_orders a u i rows2 = [0]) /\
         (forall db2,
            persistEventSync refused_event refused_text shardCount sess evt db1
            = (None, db2) ->
            exists rows2,
              shards db2 !! table = Some rows2 /\ session_orders a u i rows2 = [0])) /\
      Forall (fun s => (sr_app_name s, sr_user_id s, sr_id s) <> (a, u, i)) (sessions db1)
  end.
Proof.
  cbv zeta. unfold deleteSessionSync.
  set (table := GetEventsTableName shardCount (Redis.sv_UserID sess)).
  destruct (shards db !! table) as [rows|]; [|split; reflexivity].
  destruct (refused_parameters refused_text _) as [refusal|] eqn:Hparams;
    [split; reflexivity|].
  split; [reflexivity|]. split.
  - eexists. split; [reflexivity|]. split; [apply session_orders_deleted|].
    split; [intros a' u' i' Hne; apply session_orders_kept; exact Hne|].
    set (db1 := {| sessions := _; shards := _ |}).
    assert (Hrun : forall evtData,
               Redis.Marshal_event evt = Ok evtData ->
               match refused_event
                       {| er_id := Redis.ev_ID evt; er_app_name := Redis.sv_AppName sess;
                          er_user_id := Redis.sv_UserID sess;
                          er_session_id := Redis.sv_ID sess; er_event_order := 0;
                          er_content := evtData; er_author := Redis.ev_Author evt;
                          er_timestamp := Redis.ev_Timestamp evt |} with
               | Some _ =>
                   fst (persistEventSync refused_event refused_text shardCount sess evt db1)
                   <> None
               | None =>
                   exists db2 rows2,
                     persistEventSync refused_event refused_text shardCount sess evt db1
                     = (None, db2) /\
                     shards db2 !! table = Some rows2 /\
                     session_orders (Redis.sv_AppName sess) (Redis.sv_UserID sess)
                       (Redis.sv_ID sess) rows2 = [0]
               end).
    { intros evtData Hm. unfold persistEventSync. fold table. subst db1. cbn [shards].
      rewrite Hm, Hparams.
      rewrite lookup_insert_eq, session_orders_deleted. unfold next_order.
      cbn [fold_left existsb].
      change (-1 + 1 <=? 2 ^ 31 - 1) with true. cbv iota. change (-1 + 1) with 0.
      destruct (refused_event _) as [refusal|]; [cbn [fst]; discriminate|].
      eexists. eexists. split; [reflexivity|]. cbn [shards]. rewrite lookup_insert_eq.
      split; [reflexivity|].
      rewrite session_orders_snoc, session_orders_deleted, of_session_refl by reflexivity.
      reflexivity. }
    split.
    + intros evtData Hm Hacc. specialize (Hrun evtData Hm). rewrite Hacc in Hrun. exact Hrun.
    + intros db2 Hdb2. destruct (Redis.Marshal_event evt) as [evtData|e] eqn:Hm.
      * specialize (Hrun evtData eq_refl).
        destruct (refused_event _) as [refusal|].
        -- rewrite Hdb2 in Hrun. contradiction Hrun. reflexivity.
        -- destruct Hrun as (db2' & rows2 & Hrun & Hrows & Horders).
           rewrite Hrun in Hdb2. injection Hdb2 as <-. exists rows2. split; assumption.
      * unfold persistEventSync in Hdb2. rewrite Hm in Hdb2. discriminate Hdb2.
  - cbn [sessions]. apply List.Forall_forall. intros s Hs.
    apply filter_In in Hs as [_ Hs]. apply negb_true_iff in Hs. intros [= Ha Hu Hi].
    rewrite Ha, Hu, Hi, !String.eqb_refl in Hs. discriminate Hs.
Qed.


(** *** The upsert of a session *)

Lemma same_session_key (a u i : string) (s : session_row) :
  same_session a u i s = true <-> session_key s = (a, u, i).
Proof.
  unfold same_session, session_key. rewrite !andb_true_iff, !String.eqb_eq.
  split; [intros [[-> ->] ->]; reflexivity | intros [= -> -> ->]; auto].
Qed.

Lemma existsb_same_session (a u i : string) (l : list session_row) :
  existsb (same_session a u i) l = true <-> In (a, u, i) (map session_key l).
Proof.
  rewrite existsb_exists, in_map_iff. split.
  - intros (s & Hin & Hs). exists s. split; [apply same_session_key; exact Hs | exact Hin].
  - intros (s & Hk & Hin). exists s. split; [exact Hin | apply same_session_key; exact Hk].
Qed.

Lemma map_unless_same (a u i : string) (f : session_row -> session_row)
    (l : list session_row) :
  existsb (same_session a u i) l = false ->
  map (fun s => if same_session a u i s then f s else s) l = l.
Proof.
  induction l as [|s l IH]; [reflexivity|]. cbn [existsb map].
  intros H. apply orb_false_iff in H as [Hs Hl]. rewrite Hs, (IH Hl). reflexivity.
Qed.

(** X28: [persistSessionSync] fails exactly when the database refuses a
    value of the row for its column (an identifier, application or user longer
    than [VARCHAR(255)], or a state [JSONB] cannot hold), and then changes
    nothing.  Otherwise it is an upsert on the key (application, user,
    identifier): afterwards the session has a row holding the state handed
    over ([{}] for a session without state and for a state that cannot be
    encoded, which is stored, not reported) and the update time; the rows of
    every other key, the number and order of keys already there and the events
    tables are as before; keys that were unique stay unique; exactly one row is
    added when the key was new and none otherwise; and persisting the same
    session again changes nothing. *)
Theorem persistSessionSync_upsert (sess : Redis.Session) (lastUpdateTime : Z)
    (db : database) :
  let key := (Redis.sv_AppName sess, Redis.sv_UserID sess, Redis.sv_ID sess) in
  let run := persistSessionSync refused_session sess lastUpdateTime db in
  let db' := snd run in
  match refused_session
          {| sr_id := Redis.sv_ID sess; sr_app_name := Redis.sv_AppName sess;
             sr_user_id := Redis.sv_UserID sess; sr_state := stateJSON sess;
             sr_last_update_time := lastUpdateTime |} with
  | Some err => run = (Some (ErrWrap "failed to persist session" err), db)
  | None =>
      fst run = None /\
      shards db' = shards db /\
      (exists row, In row (sessions db') /\ session_key row = key /\
                   sr_state row = stateJSON sess /\
                   sr_last_update_time row = lastUpdateTime) /\
      (forall row, In row (sessions db') -> session_key row = key ->
                   sr_state row = stateJSON sess /\ sr_last_update_time row = lastUpdateTime) /\
      (forall s, session_key s <> key -> In s (sessions db') <-> In s (sessions db)) /\
      map session_key (sessions db')
      = (if existsb (same_session (Redis.sv_AppName sess) (Redis.sv_UserID sess)
                       (Redis.sv_ID sess)) (sessions db)
         then map session_key (sessions db)
         else map session_key (sessions db) ++ [key])%list /\
      (NoDup (map session_key (sessions db)) -> NoDup (map session_key (sessions db'))) /\
      persistSessionSync refused_session sess lastUpdateTime db' = (None, db')
  end.
Proof.
  cbv zeta. unfold persistSessionSync.
  destruct (refused_session _) as [refusal|] eqn:Hcheck; [reflexivity|].
  cbn [fst snd sessions shards].
  set (a := Redis.sv_AppName sess). set (u := Redis.sv_UserID sess).
  set (i := Redis.sv_ID sess).
  set (upd := fun s => if same_session a u i s
                       then {| sr_id := sr_id s; sr_app_name := sr_app_name s;
                               sr_user_id := sr_user_id s; sr_state := stateJSON sess;
                               sr_last_update_time := lastUpdateTime |}
                       else s).
  assert (Hkey : forall s, session_key (upd s) = session_key s)
    by (intros s; unfold upd; destruct (same_session a u i s); reflexivity).
  assert (Hupd : forall s, upd (upd s) = upd s).
  { intros s. unfold upd. destruct (same_session a u i s) eqn:Hs; [|rewrite Hs; reflexivity].
    unfold same_session in *. cbn [sr_app_name sr_user_id sr_id]. rewrite Hs. reflexivity. }
  split; [reflexivity|]. split; [reflexivity|].
  destruct (existsb (same_session a u i) (sessions db)) eqn:Hex.
  - assert (Hkeys : map session_key (map upd (sessions db)) = map session_key (sessions db))
      by (rewrite map_map; apply map_ext; exact Hkey).
    split; [|split; [|split; [|split; [|split]]]].
    + apply existsb_exists in Hex as (s & Hin & Hs). exists (upd s).
      split; [apply in_map; exact Hin|]. rewrite Hkey.
      split; [apply same_session_key; exact Hs|]. unfold upd. rewrite Hs. split; reflexivity.
    + intros row Hin Hrow. apply in_map_iff in Hin as (s & <- & Hin).
      rewrite Hkey in Hrow. apply same_session_key in Hrow. unfold upd. rewrite Hrow.
      split; reflexivity.
    + intros s Hs. rewrite in_map_iff. split.
      * intros (s0 & <- & Hin). rewrite Hkey in Hs. unfold upd.
        destruct (same_session a u i s0) eqn:H0; [|exact Hin].
        apply same_session_key in H0. contradiction.
      * intros Hin. exists s. split; [|exact Hin]. unfold upd.
        destruct (same_session a u i s) eqn:H0; [|reflexivity].
        apply same_session_key in H0. contradiction.
    + exact Hkeys.
    + rewrite Hkeys. exact (fun H => H).
    + replace (existsb (same_session a u i) (map upd (sessions db))) with true.
      * rewrite map_map. do 2 f_equal. apply map_ext. exact Hupd.
      * symmetry. apply existsb_same_session. rewrite Hkeys.
        apply existsb_same_session. exact Hex.
  - set (row := {| sr_id := i; sr_app_name := a; sr_user_id := u;
                   sr_state := stateJSON sess; sr_last_update_time := lastUpdateTime |}).
    assert (Hrow : same_session a u i row = true)
      by (apply same_session_key; reflexivity).
    split; [|split; [|split; [|split; [|split]]]].
    + exists row. split; [apply in_or_app; right; left; reflexivity|].
      repeat split; reflexivity.
    + intros s Hin Hs. apply in_app_or in Hin as [Hin | [<- | []]]; [|split; reflexivity].
      exfalso. assert (Hin' : In (a, u, i) (map session_key (sessions db)))
        by (rewrite <- Hs; apply in_map; exact Hin).
      apply existsb_same_session in Hin'. congruence.
    + intros s Hs. rewrite in_app_iff. split; [|left; assumption].
      intros [Hin | [<- | []]]; [exact Hin|]. exfalso. apply Hs. reflexivity.
    + rewrite map_app. reflexivity.
    + intros Hnd. rewrite map_app. cbn [map]. apply NoDup_app. split; [exact Hnd|].
      split; [|apply NoDup_singleton].
      intros k Hk Hin. apply list_elem_of_In in Hk. apply list_elem_of_In in Hin.
      destruct Hin as [<- | []]. change (session_key row) with (a, u, i) in Hk.
      apply existsb_same_session in Hk. congruence.
    + rewrite existsb_app. cbn [existsb]. rewrite Hrow, orb_true_r.
      rewrite map_app. cbn [map]. unfold upd.
      rewrite (map_unless_same a u i
                 (fun s => {| sr_id := sr_id s; sr_app_name := sr_app_name s;
                              sr_user_id := sr_user_id s; sr_state := stateJSON sess;
                              sr_last_update_time := lastUpdateTime |}) _ Hex).
      rewrite Hrow. reflexivity.
Qed.


End Columns.

(** A session persisted with a state, then again with a state that has no
    JSON form: one row, whose state is [{}] and whose time is the later one. *)
Example persistSessionSync_unencodable_state :
  let first := Redis.mkSessionView "s1" "app" "u" (Some [("k", AString "v")]) in
  let second := Redis.mkSessionView "s1" "app" "u" (Some [("k", AUnsupported)]) in
  let db1 :=
    snd (persistSessionSync Scenarios.refuse_long_session first 10 (mkDatabase [] ∅)) in
  sessions db1 = [mkSessionRow "s1" "app" "u" (AMap [("k", AString "v")]) 10] /\
  sessions (snd (persistSessionSync Scenarios.refuse_long_session second 20 db1))
  = [mkSessionRow "s1" "app" "u" (AMap []) 20].
Proof. split; reflexivity. Qed.

(** A session and an event under an identifier of 256 bytes: the database
    refuses both rows, and nothing is stored. *)
Example persist_long_identifier :
  let sess := Redis.mkSessionView Scenarios.long_identifier "app" "u" None in
  let db := initSchema 8 (mkDatabase [] ∅) in
  persistSessionSync Scenarios.refuse_long_session sess 10 db
  = (Some (ErrWrap "failed to persist session" Scenarios.too_long), db) /\
  persistEventSync Scenarios.refuse_long_event Scenarios.refuse_nul 8 sess Scenarios.event_e1 db
  = (Some (ErrWrap "failed to insert event" Scenarios.too_long), db).
Proof. vm_compute. split; reflexivity. Qed.

(** Two events of a session in a fresh schema get the orders 0 and 1. *)
Example persistEventSync_two_events :
  let db := initSchema 8 (mkDatabase [] ∅) in
  let db1 := snd (persistEventSync Scenarios.refuse_long_event Scenarios.refuse_nul 8 Scenarios.session_s1
                    Scenarios.event_e1 db) in
  let db2 := snd (persistEventSync Scenarios.refuse_long_event Scenarios.refuse_nul 8 Scenarios.session_s1
                    Scenarios.event_e1 db1) in
  match shards db2 !! GetEventsTableName 8 "u" with
  | Some rows => session_orders "app" "u" "s1" rows
  | None => []
  end = [0; 1].
Proof. vm_compute. reflexivity. Qed.

End PersisterFacts.

Module MemorySearchFacts.
Import Go JSON ADK Memory.

Lemma In_insert_ordered {A} (before : A -> A -> bool) (x y : A) (sorted : list A) :
  In y (insert_ordered before x sorted) <-> y = x \/ In y sorted.
Proof.
  induction sorted as [|z rest IH]; cbn [insert_ordered In].
  - intuition congruence.
  - destruct (before z x); cbn [In]; [rewrite IH|]; intuition congruence.
Qed.

Lemma In_order_by_acc {A} (before : A -> A -> bool) (rows sorted : list A) (y : A) :
  In y (fold_left (fun sorted x => insert_ordered before x sorted) rows sorted)
  <-> In y rows \/ In y sorted.
Proof.
  revert sorted. induction rows as [|x rows IH]; intros sorted; cbn [fold_left In].
  - tauto.
  - rewrite IH, In_insert_ordered. intuition congruence.
Qed.

(** [ORDER BY] returns the rows it is given. *)
Lemma In_order_by {A} (before : A -> A -> bool) (rows : list A) (y : A) :
  In y (order_by before rows) <-> In y rows.
Proof. unfold order_by. rewrite In_order_by_acc. cbn [In]. tauto. Qed.

Lemma In_firstn {A} (n : nat) (l : list A) (y : A) : In y (firstn n l) -> In y l.
Proof.
  revert l. induction n as [|n IH]; intros [|x l]; cbn [firstn In]; try tauto.
  intros [<- | H]; [left; reflexivity | right; apply IH; exact H].
Qed.

Section Service.
Variable vector : Type.
Variable vector_len : vector -> Z.
Variable cosine_distance : vector -> vector -> Z.
Variable ts_match : string -> string -> bool.
Variable ts_rank : string -> string -> Z.
Variable embeddingModel : option (string -> result vector).

Lemma scanMemories_length (rows : list (row vector)) :
  (length (scanMemories vector rows) <= length rows)%nat.
Proof.
  induction rows as [|r rows IH]; [reflexivity|]. cbn [scanMemories].
  destruct (content r); cbn [length]; lia.
Qed.

Lemma In_scanMemories (rows : list (row vector)) (entry : Entry) :
  In entry (scanMemories vector rows) ->
  exists r, In r rows /\ content r = Some (entry_Content entry) /\
            entry_Timestamp entry = timestamp r /\
            entry_Author entry = match author r with Some a => a | None => "" end.
Proof.
  induction rows as [|r rows IH]; cbn [scanMemories]; [intros []|].
  destruct (content r) as [c|] eqn:Hc.
  - intros [<- | Hin].
    + exists r. cbn [entry_Content entry_Timestamp entry_Author]. split; [left; reflexivity|].
      split; [exact Hc|]. split; reflexivity.
    + destruct (IH Hin) as (r' & Hr' & H). exists r'. split; [right; exact Hr' | exact H].
  - intros Hin. destruct (IH Hin) as (r' & Hr' & H). exists r'. split; [right; exact Hr' | exact H].
Qed.

(** What every stage of [Search] does: at most ten rows out of a filter of
    the table that implies the scope. *)
Lemma stage_within_scope (db : list (row vector)) (req : SearchRequest)
    (before : row vector -> row vector -> bool) (keep : row vector -> bool) :
  (forall r, keep r = true -> scoped vector req r = true) ->
  within_scope db req
    (scanMemories vector (firstn 10 (order_by before (List.filter keep db)))).
Proof.
  intros Hkeep. split.
  - etransitivity; [apply scanMemories_length|]. rewrite length_firstn. lia.
  - intros entry Hin. apply In_scanMemories in Hin as (r & Hr & H).
    apply In_firstn, In_order_by, filter_In in Hr as [Hdb Hk].
    specialize (Hkeep r Hk). unfold scoped in Hkeep.
    apply andb_true_iff in Hkeep as [Ha Hu]. apply String.eqb_eq in Ha, Hu.
    exists r. tauto.
Qed.

Lemma searchRecent_within_scope (db : list (row vector)) (req : SearchRequest) :
  within_scope db req (searchRecent vector db req).
Proof. apply stage_within_scope. intros r H. exact H. Qed.

Lemma searchByText_within_scope (db : list (row vector)) (req : SearchRequest) :
  within_scope db req (searchByText vector ts_match ts_rank db req).
Proof.
  apply stage_within_scope. intros r H. apply andb_true_iff in H as [H _]. exact H.
Qed.

Lemma searchByVector_within_scope (db : list (row vector)) (req : SearchRequest)
    (queryEmbedding : vector) :
  within_scope db req (searchByVector vector cosine_distance db req queryEmbedding).
Proof.
  apply stage_within_scope. intros r H. apply andb_true_iff in H as [H _]. exact H.
Qed.

Lemma vectorStage_within_scope (db : list (row vector)) (req : SearchRequest) :
  within_scope db req (vectorStage vector vector_len cosine_distance embeddingModel db req).
Proof.
  assert (Hnil : within_scope db req []).
  { split; [cbn [length]; lia | intros entry []]. }
  unfold vectorStage. destruct embeddingModel as [Embed|]; [|exact Hnil].
  destruct (negb (String.eqb (req_Query req) "")); [|exact Hnil].
  destruct (Embed (req_Query req)) as [q|e]; [|exact Hnil].
  destruct (0 <? vector_len q); [apply searchByVector_within_scope | exact Hnil].
Qed.

(** X21: whatever the table, the query, the full-text matcher and the
    embedding model, [Search] returns at most ten entries, and every entry it
    returns is the content, author and time of a row of the table that
    belongs to the application and the user of the request: no stage reads
    outside that scope. *)
Theorem Search_within_scope (db : list (row vector)) (req : SearchRequest) :
  within_scope db req
    (Search vector vector_len cosine_distance ts_match ts_rank embeddingModel db req).
Proof.
  unfold Search.
  pose proof (vectorStage_within_scope db req) as Hv.
  pose proof (searchByText_within_scope db req) as Ht.
  pose proof (searchRecent_within_scope db req) as Hr.
  destruct ((Z.of_nat (length (vectorStage vector vector_len cosine_distance embeddingModel
                                 db req)) =? 0)
            && negb (String.eqb (req_Query req) ""));
    match goal with
    | |- within_scope _ _ (if Z.of_nat (length ?found) =? 0 then _ else _) =>
        destruct (Z.of_nat (length found) =? 0); assumption
    end.
Qed.

End Service.

(** A row of another user is never returned, also not by the recency
    stage. *)
Example Search_other_user :
  Search unit (fun _ => 0) (fun _ _ => 0) occurs_in (fun _ _ => 0) None
    [Scenarios.kubernetes_row] (mkSearchRequest "test_app" "user-2" "") = [].
Proof. reflexivity. Qed.

End MemorySearchFacts.

Module ShardCountFacts.
Import Go Shard.

(** X22: for every configured shard count up to [2^32] (8 standing in for
    a count that is not positive), the count the client keeps is the least
    power of two that is not below it: [isPowerOfTwo] accepts it, it is the
    configured count itself when that is a power of two, no smaller power of
    two would do, and normalising it again changes nothing. *)
Theorem NewClient_shardCount_least_power_of_two (cfg : Z) :
  int_min <= cfg <= 2 ^ 32 ->
  let requested := if cfg <=? 0 then DefaultShardCount else cfg in
  let N := NewClient_shardCount cfg in
  isPowerOfTwo N = true /\
  requested <= N /\
  (forall k, 0 <= k -> requested <= 2 ^ k -> N <= 2 ^ k) /\
  (isPowerOfTwo requested = true -> N = requested) /\
  NewClient_shardCount N = N.
Proof.
  intros Hcfg requested N.
  destruct (ShardFacts.shard_routing_upto_2_32 cfg "" Hcfg) as ((k & Hk & HN) & Hb & _).
  fold N in HN, Hb. change (if cfg <=? 0 then 8 else cfg) with requested in Hb.
  assert (Hpow : isPowerOfTwo N = true).
  { rewrite HN. apply ShardFacts.isPowerOfTwo_complete. lia. }
  split; [exact Hpow|]. split; [lia|]. split; [|split].
  - intros j Hj Hreq. rewrite HN. apply Z.pow_le_mono_r; [lia|].
    destruct (Z_le_gt_dec k j) as [Hle|Hgt]; [exact Hle|exfalso].
    assert (H2 : 2 ^ j * 2 <= 2 ^ k).
    { replace (2 ^ j * 2) with (2 ^ (j + 1)) by (rewrite Z.pow_add_r by lia; reflexivity).
      apply Z.pow_le_mono_r; lia. }
    lia.
  - intros Hreq. subst N. unfold NewClient_shardCount. fold requested. rewrite Hreq.
    reflexivity.
  - unfold NewClient_shardCount at 1.
    assert (Hpos : 0 < N) by (rewrite HN; apply Z.pow_pos_nonneg; lia).
    destruct (Z.leb_spec N 0) as [Hle|_]; [lia|]. rewrite Hpow. reflexivity.
Qed.

Lemma NewClient_shardCount_least_power_of_two_witness :
  isPowerOfTwo (NewClient_shardCount 7) = true /\
  (if 7 <=? 0 then DefaultShardCount else 7) <= NewClient_shardCount 7 /\
  (forall k, 0 <= k -> (if 7 <=? 0 then DefaultShardCount else 7) <= 2 ^ k ->
             NewClient_shardCount 7 <= 2 ^ k) /\
  (isPowerOfTwo (if 7 <=? 0 then DefaultShardCount else 7) = true ->
   NewClient_shardCount 7 = (if 7 <=? 0 then DefaultShardCount else 7)) /\
  NewClient_shardCount (NewClient_shardCount 7) = NewClient_shardCount 7.
Proof.
  apply (NewClient_shardCount_least_power_of_two 7). unfold int_min. lia.
Defined.

End ShardCountFacts.

Module GenerateFacts.
Import Go JSON ADK.

(** X24: without streaming both adapters yield exactly one item, which no
    consumer can refuse before it is complete: an error, or a response with
    [Partial = false] and [TurnComplete = true].  On Protocol-A the item is a
    response exactly when every function response and every function-call
    argument map of the request can be encoded, the call returns a completion
    and that completion has a choice; on Protocol-B exactly when every
    function response can be encoded and the call returns a message. *)
Theorem generate_yields_one_item
    (json_Marshal : any -> result string) (marshal_Schema : option OpenAI.Schema -> result string)
    (json_Unmarshal : string -> result map_string_any) (base64_EncodeToString : list Z -> string)
    (Completions_New : OpenAIRequest.ChatCompletionNewParams -> result OpenAI.ChatCompletion)
    (Messages_New : Anthropic.MessageNewParams -> result Anthropic.Message)
    (m : OpenAI.Model) (name : string) (req : Request.LLMRequest) (yield : consumer) :
  let itemsA := fst (OpenAIRequest.generate json_Marshal marshal_Schema json_Unmarshal
                       base64_EncodeToString Completions_New m req) in
  let itemsB := Anthropic.generate json_Marshal base64_EncodeToString Messages_New
                  json_Unmarshal name req in
  (respects_consumer yield itemsA /\ length itemsA = 1%nat /\
   (List.filter is_error itemsA = [] <->
    forallb (fun content => forallb (OpenAIRequest.part_marshals json_Marshal)
                              (rc_Parts content)) (Request.Contents req) = true /\
    exists params resp llmResp,
      fst (OpenAIRequest.buildChatCompletionParameters json_Marshal marshal_Schema
             json_Unmarshal base64_EncodeToString m req) = Ok params /\
      Completions_New params = Ok resp /\ OpenAI.Choices resp <> [] /\
      OpenAI.convertResponse json_Unmarshal (Some resp) = Ok llmResp /\
      itemsA = [(Some llmResp, None)])) /\
  (respects_consumer yield itemsB /\ length itemsB = 1%nat /\
   (List.filter is_error itemsB = [] <->
    forallb (fun content => forallb (Anthropic.response_marshals json_Marshal)
                              (rc_Parts content)) (Request.Contents req) = true /\
    exists params message,
      Anthropic.buildMessageParams json_Marshal base64_EncodeToString name req = Ok params /\
      Messages_New params = Ok message /\
      itemsB = [(Some (Anthropic.convertResponse json_Unmarshal message), None)])).
Proof.
  cbv zeta. split.
  - apply OpenAIRequestFacts.generate_A_once.
  - apply AnthropicRequestFacts.generate_B_once.
Qed.

End GenerateFacts.

Module MemoryIngestFacts.
Import Go JSON ADK Memory.

Section Upserts.
Variable vector : Type.
Variable w : bool.

Local Abbreviation step :=
  (fun new r : row vector => if same_key new r then overwrite w new r else r).
Local Abbreviation write_all :=
  (fun news db => fold_left (fun db new => upsert w new db) news db).

Lemma same_key_true (r1 r2 : row vector) :
  same_key r1 r2 = true <->
  app_name r1 = app_name r2 /\ user_id r1 = user_id r2 /\
  session_id r1 = session_id r2 /\ event_id r1 = event_id r2.
Proof.
  unfold same_key. rewrite !andb_true_iff, !String.eqb_eq. tauto.
Qed.

Lemma same_key_congr (n n' r : row vector) :
  same_key n n' = true -> same_key n r = same_key n' r.
Proof.
  intros H. apply same_key_true in H as (Ha & Hu & Hs & He).
  unfold same_key. rewrite Ha, Hu, Hs, He. reflexivity.
Qed.

Lemma same_key_overwrite (x new r : row vector) :
  same_key x (overwrite w new r) = same_key x r.
Proof. reflexivity. Qed.

Lemma same_key_step (x new r : row vector) : same_key x (step new r) = same_key x r.
Proof. cbv beta. destruct (same_key new r); reflexivity. Qed.

Lemma same_write_key (n n' : row vector) : same_write n n' -> same_key n' n = true.
Proof.
  intros (Ha & Hu & Hs & He & _). apply same_key_true. auto.
Qed.

Lemma existsb_map_step (x new : row vector) (rows : list (row vector)) :
  existsb (same_key x) (map (step new) rows) = existsb (same_key x) rows.
Proof.
  induction rows as [|r rows IH]; [reflexivity|]. cbn [map existsb].
  rewrite same_key_step, IH. reflexivity.
Qed.

Lemma present_upsert (x new : row vector) (rows : list (row vector)) :
  existsb (same_key x) rows = true -> existsb (same_key x) (upsert w new rows) = true.
Proof.
  intros H. unfold upsert. destruct (existsb (same_key new) rows).
  - rewrite existsb_map_step. exact H.
  - rewrite existsb_app, H. reflexivity.
Qed.

Lemma present_new (x new : row vector) (rows : list (row vector)) :
  same_key x new = true -> existsb (same_key x) (upsert w new rows) = true.
Proof.
  intros H. unfold upsert. destruct (existsb (same_key new) rows) eqn:Hp.
  - rewrite existsb_map_step. apply existsb_exists in Hp as (r & Hr & Hk).
    apply existsb_exists. exists r. split; [exact Hr|].
    rewrite (same_key_congr x new r H). exact Hk.
  - rewrite existsb_app. cbn [existsb]. rewrite H. rewrite orb_true_r. reflexivity.
Qed.

Lemma present_write_all (x : row vector) (news db : list (row vector)) :
  existsb (same_key x) db = true \/ (exists n, In n news /\ same_key x n = true) ->
  existsb (same_key x) (write_all news db) = true.
Proof.
  revert db. induction news as [|n0 rest IH]; intros db H; cbn [fold_left].
  - destruct H as [H | (n & [] & _)]. exact H.
  - apply IH. destruct H as [H | (n & [<- | Hin] & Hk)].
    + left. apply present_upsert. exact H.
    + left. apply present_new. exact Hk.
    + right. exists n. split; assumption.
Qed.

Lemma written_over_snoc (news : list (row vector)) (n r : row vector) :
  written_over w (news ++ [n]) r = step n (written_over w news r).
Proof. unfold written_over. rewrite fold_left_app. reflexivity. Qed.

(** Writing over a row changes neither its key nor its author or time,
    nor, without an embedding model, its embedding. *)
Lemma written_over_frame (news : list (row vector)) (r : row vector) :
  let r' := written_over w news r in
  app_name r' = app_name r /\ user_id r' = user_id r /\ session_id r' = session_id r /\
  event_id r' = event_id r /\ author r' = author r /\ timestamp r' = timestamp r /\
  (w = false -> embedding r' = embedding r).
Proof.
  cbv zeta. revert r. induction news as [|n rest IH]; intros r.
  - cbn. repeat split; reflexivity.
  - unfold written_over. cbn [fold_left]. fold (written_over w rest (step n r)).
    destruct (IH (step n r)) as (Ha & Hu & Hs & He & Hau & Ht & Hemb).
    rewrite Ha, Hu, Hs, He, Hau, Ht.
    destruct (same_key n r); cbn [overwrite app_name user_id session_id event_id author
                                    timestamp embedding].
    + repeat split; try reflexivity. intros Hw. rewrite (Hemb Hw). cbn [embedding].
      rewrite Hw. reflexivity.
    + repeat split; try reflexivity. exact Hemb.
Qed.

Lemma written_over_untouched (news : list (row vector)) (r : row vector) :
  (forall n, In n news -> same_key n r = false) -> written_over w news r = r.
Proof.
  revert r. induction news as [|n rest IH]; intros r H; [reflexivity|].
  unfold written_over. cbn [fold_left]. rewrite (H n (or_introl eq_refl)).
  apply IH. intros m Hm. apply H. right. exact Hm.
Qed.

Lemma write_all_present (news db : list (row vector)) :
  (forall n, In n news -> existsb (same_key n) db = true) ->
  write_all news db = map (written_over w news) db.
Proof.
  revert db. induction news as [|n rest IH]; intros db H; cbn [fold_left].
  - symmetry. apply map_id.
  - unfold upsert at 2. rewrite (H n (or_introl eq_refl)).
    rewrite IH.
    + rewrite map_map. reflexivity.
    + intros m Hm. rewrite existsb_map_step. apply H. right. exact Hm.
Qed.

Lemma overwrite_same (n' n x y : row vector) :
  same_write n n' ->
  app_name y = app_name x -> user_id y = user_id x -> session_id y = session_id x ->
  event_id y = event_id x -> author y = author x -> timestamp y = timestamp x ->
  (w = false -> embedding y = embedding x) ->
  overwrite w n' y = overwrite w n x.
Proof.
  intros (_ & _ & _ & _ & Hc & Ht & Hemb) Ha Hu Hs He Hau Hti Hfr.
  unfold overwrite. rewrite Ha, Hu, Hs, He, Hau, Hti, <- Hc, <- Ht, <- Hemb.
  destruct w; [reflexivity|]. rewrite (Hfr eq_refl). reflexivity.
Qed.

Lemma overwrite_self (n n' : row vector) : same_write n n' -> overwrite w n' n = n.
Proof.
  intros (_ & _ & _ & _ & Hc & Ht & Hemb). unfold overwrite.
  rewrite <- Hc, <- Ht, <- Hemb. destruct n, w; reflexivity.
Qed.

(** Every row of a table that has gone through the writes is left as it
    is by the same writes made again. *)
Lemma write_all_settled (news news' : list (row vector)) (db : list (row vector)) :
  Forall2 same_write news news' ->
  forall r, In r (write_all news db) -> written_over w news' r = r.
Proof.
  revert news'. induction news as [|n news IH] using rev_ind; intros news' H2 r Hr.
  - apply Forall2_nil_inv_l in H2 as ->. reflexivity.
  - apply Forall2_app_inv_l in H2 as (news1 & tail & H1 & Htail & ->).
    apply Forall2_cons_inv_l in Htail as (n' & tail' & Hn & Hnil & ->).
    apply Forall2_nil_inv_l in Hnil as ->.
    rewrite written_over_snoc. rewrite fold_left_app in Hr. cbn [fold_left] in Hr.
    set (X := write_all news db) in *.
    pose proof (same_write_key n n' Hn) as Hk.
    assert (Hother : forall x, In x X -> same_key n x = false -> step n' (written_over w news1 x) = x).
    { intros x Hx Hno. rewrite (IH news1 H1 x Hx).
      rewrite (same_key_congr n' n x Hk), Hno. reflexivity. }
    unfold upsert in Hr. destruct (existsb (same_key n) X) eqn:Hp.
    + apply in_map_iff in Hr as (x & <- & Hx).
      destruct (same_key n x) eqn:Hnx; [|apply Hother; assumption].
      destruct (written_over_frame news1 (overwrite w n x))
        as (Ha & Hu & Hs & He & Hau & Ht & Hemb).
      assert (Hmatch : same_key n' (written_over w news1 (overwrite w n x)) = true).
      { rewrite (same_key_congr n' n _ Hk). apply same_key_true.
        rewrite Ha, Hu, Hs, He. cbn [overwrite app_name user_id session_id event_id].
        apply same_key_true. exact Hnx. }
      rewrite Hmatch.
      rewrite (overwrite_same n' n (overwrite w n x) (written_over w news1 (overwrite w n x)) Hn
                 Ha Hu Hs He Hau Ht Hemb).
      unfold overwrite. cbn. destruct w; reflexivity.
    + apply in_app_iff in Hr as [Hx | [<- | []]].
      * apply Hother; [exact Hx|].
        destruct (same_key n r) eqn:Hnr; [|reflexivity].
        assert (existsb (same_key n) X = true); [|congruence].
        apply existsb_exists. exists r. split; assumption.
      * rewrite written_over_untouched.
        -- rewrite Hk. apply overwrite_self. exact Hn.
        -- intros m' Hm'. destruct (same_key m' n) eqn:Hmn; [exfalso|reflexivity].
           apply list_elem_of_In in Hm'.
           apply list_elem_of_lookup in Hm' as [idx Hidx].
           eapply Forall2_lookup_r in Hidx as (m & Hm & Hmm); [|exact H1].
           assert (existsb (same_key n) X = true); [|congruence].
           apply present_write_all. right. exists m.
           split; [apply list_elem_of_In, (list_elem_of_lookup_2 _ idx); exact Hm|].
           pose proof (same_write_key m m' Hmm) as Hkm.
           apply same_key_true in Hkm as (A1 & A2 & A3 & A4).
           apply same_key_true in Hmn as (B1 & B2 & B3 & B4).
           apply same_key_true. repeat split; congruence.
Qed.

(** Writing the same rows a second time changes nothing. *)
Lemma write_all_twice (news news' db : list (row vector)) :
  Forall2 same_write news news' ->
  write_all news' (write_all news db) = write_all news db.
Proof.
  intros H2. rewrite write_all_present.
  - rewrite <- (map_id (write_all news db)) at 2. apply map_ext_in.
    intros r Hr. apply (write_all_settled news news' db H2 r Hr).
  - intros n' Hn'. apply present_write_all. right.
    apply list_elem_of_In, list_elem_of_lookup in Hn' as [idx Hidx].
    eapply Forall2_lookup_r in Hidx as (n & Hn & Hnn); [|exact H2].
    exists n. split; [apply list_elem_of_In, (list_elem_of_lookup_2 _ idx); exact Hn|].
    apply same_write_key. exact Hnn.
Qed.

End Upserts.


Section Ingest.
Variable vector : Type.
Variable vector_len : vector -> Z.
Variable embeddingModel : option (string -> result vector).
Variable stored_vector : vector -> vector.
Variable strings_TrimSpace : string -> string.

Local Abbreviation memoryRow :=
  (memoryRow vector vector_len embeddingModel stored_vector strings_TrimSpace).
Local Abbreviation memoryRows :=
  (memoryRows vector vector_len embeddingModel stored_vector strings_TrimSpace).
Local Abbreviation AddSession :=
  (AddSession vector vector_len embeddingModel stored_vector strings_TrimSpace).

(** An event has a key of its own when it has an identifier or a time:
    else its key is made of the reading of the clock. *)
Lemma memoryRow_same_write (appName userID sessionID : string) (event : SessionEvent)
    (now now' : Z) :
  se_ID event <> "" \/ se_Timestamp event <> None ->
  match memoryRow appName userID sessionID event now,
        memoryRow appName userID sessionID event now' with
  | Some n, Some n' => same_write n n'
  | None, None => True
  | _, _ => False
  end.
Proof.
  intros Hkey. unfold Memory.memoryRow.
  destruct (se_Content event) as [c|]; [|exact I].
  destruct (Z.of_nat (length (content_Parts c)) =? 0); [exact I|].
  destruct (String.eqb _ ""); [exact I|].
  destruct (negb (content_marshals c)); [exact I|].
  unfold same_write. cbn [app_name user_id session_id event_id content content_text embedding].
  repeat split; try reflexivity.
  destruct (String.eqb_spec (se_ID event) "") as [Hid|_]; [|reflexivity].
  destruct (se_Timestamp event) as [t|]; [reflexivity|].
  destruct Hkey as [H | H]; contradiction.
Qed.

Lemma memoryRows_same_write (appName userID sessionID : string) (clock clock' : nat -> Z)
    (k k' : nat) (events : list SessionEvent) :
  Forall (fun event => se_ID event <> "" \/ se_Timestamp event <> None) events ->
  Forall2 same_write (memoryRows appName userID sessionID clock k events)
                     (memoryRows appName userID sessionID clock' k' events).
Proof.
  intros H. revert k k'. induction H as [|event rest Hevent _ IH]; intros k k'.
  - constructor.
  - cbn [Memory.memoryRows].
    pose proof (memoryRow_same_write appName userID sessionID event (clock k) (clock' k') Hevent)
      as Hrow.
    destruct (memoryRow appName userID sessionID event (clock k)) as [n|],
             (memoryRow appName userID sessionID event (clock' k')) as [n'|];
      try contradiction; [constructor; [exact Hrow | apply IH] | apply IH].
Qed.

(** X25: adding a session to the memory twice is adding it once, whatever
    the table held before and whenever the second call is made, provided each
    of its events has an identifier or a time of its own (an event with
    neither gets a key made of the reading of the clock, and is stored again
    by each call): the second call finds every row it writes, and overwrites
    content, text and embedding with what is there. *)
Theorem AddSession_idempotent (appName userID sessionID : string)
    (events : option (Z * list SessionEvent)) (clock clock' : nat -> Z)
    (db : list (row vector)) :
  match events with
  | Some (_, all) =>
      Forall (fun event => se_ID event <> "" \/ se_Timestamp event <> None) all
  | None => True
  end ->
  AddSession appName userID sessionID events clock'
    (AddSession appName userID sessionID events clock db)
  = AddSession appName userID sessionID events clock db.
Proof.
  unfold Memory.AddSession. destruct events as [[len all]|]; [|reflexivity].
  intros Hkeys. destruct (len =? 0); [reflexivity|].
  apply write_all_twice. apply memoryRows_same_write. exact Hkeys.
Qed.

End Ingest.


Lemma AddSession_idempotent_witness :
  Scenarios.add_session Scenarios.memory_events 9
    (Scenarios.add_session Scenarios.memory_events 5 [])
  = Scenarios.add_session Scenarios.memory_events 5 [].
Proof.
  apply (AddSession_idempotent unit (fun _ => 0) None (fun v => v) (fun text => text)
           "test_app" "user-1" "sess-1"
           (Some (Z.of_nat (length Scenarios.memory_events), Scenarios.memory_events))
           (fun _ => 5) (fun _ => 9) []).
  constructor; [left; discriminate|]. constructor; [right; discriminate|]. constructor.
Defined.

(** The session is stored as two rows; the event without identifier gets
    one made of its invocation and its time. *)
Example AddSession_rows :
  map (fun r => (event_id r, content_text r, timestamp r))
      (Scenarios.add_session Scenarios.memory_events 5 [])
  = [ ("e1", "Tell me about Kubernetes", 5);
      ("inv-1-1700000000", "It runs containers.", 1700000000) ].
Proof. vm_compute. reflexivity. Qed.

(** An event with neither identifier nor time is stored once per call:
    its key holds the reading of the clock. *)
Example AddSession_anonymous_event_twice :
  map (fun r => event_id r)
      (Scenarios.add_session [Scenarios.anonymous_event] 9
         (Scenarios.add_session [Scenarios.anonymous_event] 5 []))
  = ["inv-2-5"; "inv-2-9"].
Proof. vm_compute. reflexivity. Qed.

End MemoryIngestFacts.
